(* ===== verification/_CoqProject ===== *)
-Q . S2P
Prelude.v
Kernel.v
Uapi.v
Device.v
Alloc.v
Mmap.v
LibKbuf.v
Ctl.v
Ring.v
RingFacts.v
CtlFacts.v
Init.v
InitFacts.v
DmaBuf.v
Lifetime.v
LifetimeProps.v
InitProps.v
RingSpec.v
Samples.v
RingProps.v
Ioctl.v
Dispatch.v
IoctlProps.v
MmapProps.v
DispatchProps.v
Machine.v
MachineFacts.v
MachineProps.v
Spsc.v
SpscFacts.v
SpscProps.v
FileOps.v
SpscPoll.v
FileProps.v
Driver.v
DriverFacts.v
DriverInv.v
DriverProps.v
ModuleLife.v
LibSpsc.v
LibSpscFacts.v
LibSpscProps.v
Bench.v
BenchProps.v
Proc.v
ProcProps.v
Kbufpp.v
KbufppProps.v
MappedRing.v
MappedRingProps.v
Client.v
ClientProps.v
BenchSlots.v
BenchSlotsProps.v
BenchSpsc.v
BenchSpscProps.v
BenchReport.v
BenchReportProps.v
BenchRun.v
BenchPipe.v
BenchPipeProps.v
BenchMain.v
BenchMainProps.v
