(* ===== verification/Prelude.v ===== *)
(** * A verification of the kbuf driver

    kbuf is a Linux character-device driver: a ring of message slots with
    blocking and lock-free reads and writes, a byte ring shared with user space
    by mmap and exported as a dma-buf, devices created and destroyed at run
    time, and a user library for the shared ring.  This library models the code
    under src/ and include/ as Rocq functions and proves what it guarantees.
    Paths below are those of the repository.

    ** The program and the files that model it

    - include/kbuf.h, the user interface: Uapi (struct layouts as bytes, mode
      and command numbers).
    - src/kbuf_internal.h, src/kbuf_trace.h: Device.  [kbuf_dev] is struct
      kbuf_dev field by field, without its locks and list links, which are in
      the machines below; [dev_ok] is its invariant and [dev_queue] the queue of
      messages it stands for.
    - src/kbuf_ring.c, the ring core: Alloc (the slot array's memory) and Ring
      (produce and consume in both modes, emptiness, occupancy).  RingFacts
      proves each of them, RingSpec states the contract of a ring discipline
      (the class [RingLaws] over a bounded FIFO) and shows that both disciplines
      meet it, RingProps has the theorems.
    - src/kbuf_main.c, the file operations.  Machine has [kbuf_read_blocking],
      [kbuf_write_blocking], threads asleep in poll(2) over the blocking branch
      of [kbuf_poll] and the locked sections of the ioctls as any number of
      interleaved threads, with the mutex, the wait queues and signals;
      MachineFacts its invariant, MachineProps the theorems.  Spsc has
      [kbuf_read_spsc] and [kbuf_write_spsc] as two threads without a lock on
      weakly ordered memory; SpscFacts and SpscProps likewise, and SpscPoll adds
      the threads asleep in poll(2) of that mode.  FileOps has [kbuf_read],
      [kbuf_write] and [kbuf_poll] of one caller, where the mode is chosen, first
      with O_NONBLOCK and then ([kbuf_io]) with either kind of flags, and
      FileProps relates whole sessions on one open file to an abstract file.
    - src/kbuf_ioctl.c: Ioctl (statistics, reset, resize, mode) and Dispatch
      (the dispatcher and the dma-buf commands); IoctlProps, DispatchProps.
    - src/kbuf_mmap.c: Mmap (areas, fault handler, checks of mmap), MmapProps.
    - src/kbuf_dmabuf.c: DmaBuf (callbacks, the importer self-test); export and
      release, which move the device's reference, are in Ctl.  The self-test is
      written against the operations of any exporter ([dma_buf_ops]) and proved
      against what an exporter promises ([exporter]); this driver's own callbacks
      and those of another driver are two such exporters.
    - src/kbuf_ctl.c, with open and release of src/kbuf_main.c: Ctl.  CtlFacts
      proves each operation, Lifetime the invariant [live] over the heap of
      devices, the references, the ledger and the ids, LifetimeProps keeps it over
      calls with a destroy split at the point where others can run.  The struct
      device behind a node is an entry of the ledger, which a destroy releases
      although files of the device may be open: [dev_name] of such a device is
      a use after free, wherever the code evaluates it.
    - The composition of all of these: Driver.  Processes that use the control
      node, open files, duplicated descriptors, mappings and exported buffers in
      any order, the handlers being called as [kbuf_fops], [kbuf_vm_ops] and
      [kbuf_dmabuf_ops] register them and a release when the last reference to
      a file is gone.  DriverFacts relates what a call may change to the
      invariant of Lifetime, DriverInv shows that every operation keeps it, and
      DriverProps has the theorems.
    - [kbuf_init] and [kbuf_exit] with the registration functions: Init,
      InitFacts, InitProps; ModuleLife has load, use by the users of Driver, and
      unload.
    - src/kbuf_proc.c and src/kbuf_debugfs.c: Proc, ProcProps.
    - include/libkbuf.h: LibKbuf (one caller at a time) and LibSpsc (producer and
      consumer in two processes, byte by byte), LibSpscFacts, LibSpscProps.
    - include/kbufpp.hpp: Kbufpp (unique_fd and the constructor of Device),
      KbufppProps; MappedRing (MappedRing and Device::map), MappedRingProps;
      Client (the other methods of Device), ClientProps.
    - bench/kbuf_bench.c: Bench (the loops over the mmap ring), BenchProps;
      Client ([slot_setup]); BenchSlots and BenchSpsc (the loops over the slot
      ring, on the machines of the two modes), BenchSlotsProps, BenchSpscProps;
      BenchPipe (the loops over a pipe), BenchPipeProps; BenchRun (set-up and
      transfer of a whole run); BenchReport (the figures, the false-sharing
      counters, the parameters), BenchReportProps; BenchMain (the clocks, the
      loops of the throughput table, the arguments), BenchMainProps.

    Kernel states what the driver asks of the kernel, which is not in the
    repository: user memory ([UAccess]), and everything acquired and released
    ([Kernel]), each an interface with the documented behaviour as laws and a
    concrete instance.  The command encoding ([IocEncoding], in Uapi), the page
    size and [remap_vmalloc_range] ([Paging], in Mmap) are interfaces too, as are
    the sorting function of the C library ([QSort], in BenchReport) and the
    kernel's pipe ([Pipe], in BenchPipe).  Samples has the devices on which the
    theorems are exercised.

    ** How code becomes definitions

    A C function is a program [prog W A]: it takes a world and ends in [Done]
    with a result, or in [Oops] with the undefined behaviour it met (an access
    out of bounds, a use after free, a null pointer, a division by zero, a data
    race), so that "never goes wrong" is a statement.  Integers are [Z] with the
    wrap-around of their width written out ([u32], [u64], [s32]).  A heap object
    is its address with its content; a resource is an entry of the kernel's
    ledger, so that a leak or a double release shows.  An errno is a negative
    result, as in the code.  Concurrency is a step function per thread, whose
    program counters are the points between which another thread can run, and an
    inductive reachability over all schedules.

    In Spsc and LibSpsc memory is weaker than interleaving: a load of the other
    side's index may return any value stored since the last one seen, an acquire
    load orders the thread after what preceded the store it read, and an access
    to a slot or a byte that is not so ordered after the other side's last one
    is a [DataRace].

    ** What is proved

    - The blocking mode (MachineProps): FIFO order and a well-formed device under
      every interleaving with the ioctls, memory safety, no lost wake-up, of
      pollers too, and that a machine which cannot move is one where every caller
      rightly waits.  All of these are about [calm] runs, in which no switch to
      the lock-free mode takes effect and no resize leaves a writer that has
      measured its message with slots too small for it: without that they fail,
      and two runs show how ([writer_overflow], [smode_strands_reader]).
    - The lock-free mode (SpscProps, SpscPoll): the same for one producer and one
      consumer with old index values, and no data race.
    - The ring core (RingProps): every operation refines the bounded FIFO on
      every branch, at every value of the wrapping indices, and the modes are
      equivalent for sequences of non-blocking calls.
    - A file (FileProps): reads, writes, polls and ioctls of any kind in any
      order are those of one bounded FIFO.
    - The ioctls (IoctlProps, DispatchProps): every exit of resize and mode
      switch, the statistics read back, any command number answered safely on a
      device that has not been destroyed, with dma-bufs of any driver; export and
      import give back what they took.
    - Load and create (InitProps, LifetimeProps): all or nothing, whichever step
      fails.
    - The whole driver (DriverProps): a sequence of calls by any users runs to its
      end, or reaches one that reads the name of a device destroyed while open
      (the last close of its file, a resize, an export); nothing else goes wrong.
      Up to there devices live exactly as long as something refers to them, with
      as many references as referents, and the pages of a mapping stay the same
      and stay allocated until it is unmapped, also when the device is destroyed
      and its descriptors are closed.  When everything is closed the kernel holds
      what it held before, and an unload after any such use restores what was
      there before the load (ModuleLife).  Assumed of the calls ([dop_ok]): counts
      are not negative, and the descriptor of an export was not in use.
    - The shared ring (MmapProps, LibSpscProps): the two halves of the mapping are
      the same pages, the library's transfers are a byte stream, also between two
      processes, without races and wait-free.
    - /proc (ProcProps): the text can be scanned back, every value under its own
      label, and is consistent.
    - The C++ owners (KbufppProps, MappedRingProps): every handle closed exactly
      once, and the mapped rings of a process are byte streams.
    - Programs that use the driver (ClientProps): the C++ methods give what the
      abstract file promises and throw the kernel's errno, one by one, for a file
      opened with or without O_NONBLOCK, and the set-up of the benchmark's slot
      rings ends with the ring it asked for.
    - The benchmark (BenchProps, BenchSlotsProps, BenchSpscProps, BenchPipeProps,
      BenchRun, BenchReportProps, BenchMainProps): the transfers end, whatever the
      schedule, with every message delivered; a run fails to start only for want
      of memory; each cell of the table is computed from its own runs; the
      percentiles are those of the samples; the counters of the false-sharing
      test count every step.
    - Where the code falls short: a writer that slept across a shrinking resize
      overruns its slot, a resize and a mode switch can be interleaved to an SPSC
      ring with a bad slot count, a resize frees the array under an SPSC writer,
      a mode switch strands a sleeping reader, a reset after the fork hangs the
      benchmark, an empty message ends its drain loop early, the reset of the
      high-water mark in SPSC mode, a freed device name read by the close, the
      resize and the export of a destroyed device, and kept as the name of a
      buffer exported before ([exported_name_dangles]), a pipe read that may be
      short and ends the run, and a standard deviation that rounds to the root of
      a negative number.

    ** Bounds and fuel

    Most recursion is structural.  [dyn_drain] is given the length of the device
    list as fuel and each round shortens the list ([unregister_drains]: it always
    ends by itself).  [drain] needs one unit per message and one more.  [scan_devs] is given the
    number of devices.  Schedules are unbounded: the theorems are about every
    reachable state.  The transfer of [nmsg] messages ends within
    [80 * nmsg + 2] steps through a slot ring and [4 * nmsg + 2] through a pipe;
    [sb_auto], [pb_auto] and [pipe_auto], which run one schedule with fuel, serve
    only to exhibit such a run.

    ** Not modelled

    Forking, pinning, noise reduction and printing of the benchmark, which are
    system calls and stdio; the reading of the clock itself; the files of static
    devices inside Driver, which hold no reference (Init, InitProps and the
    theorems about one device have them); the interleaving of calls inside Driver
    beyond the split destroy (Machine and Spsc have it per device); the memory
    behind dma-bufs of other drivers, which the importer takes to be plain memory
    of two words at least without looking at [is_iomem]; the permission callback
    [kbuf_devnode]; the dma-buf callbacks with nothing to do; the reads of debugfs
    files and of the proc file by their libraries; the text of log lines (what
    they evaluate is modelled); the rendering of trace events; tests and
    scripts. *)

From Stdlib Require Import ZArith Lia.
From Stdlib Require Export Strings.Byte.
From stdpp Require Export base tactics list numbers option.

#[global] Open Scope Z_scope.

(** ** Machine integers

    C integers are kept as [Z] in the range of their type; every operation
    that can leave the range goes through one of these conversions. *)
Definition u32 (x : Z) : Z := x mod 2 ^ 32.
Definition u64 (x : Z) : Z := x mod 2 ^ 64.
Definition s32 (x : Z) : Z :=
  let y := x mod 2 ^ 32 in if y <? 2 ^ 31 then y else y - 2 ^ 32.

Definition in_u32 (x : Z) : Prop := 0 <= x < 2 ^ 32.
Definition in_u64 (x : Z) : Prop := 0 <= x < 2 ^ 64.

Create HintDb kbuf.

Lemma u32_range x : in_u32 (u32 x).
Proof. apply Z.mod_pos_bound; lia. Qed.

Lemma u64_range x : in_u64 (u64 x).
Proof. apply Z.mod_pos_bound; lia. Qed.

Lemma u32_small x : in_u32 x -> u32 x = x.
Proof. apply Z.mod_small. Qed.

Lemma u64_small x : in_u64 x -> u64 x = x.
Proof. apply Z.mod_small. Qed.

Lemma s32_small x : - 2 ^ 31 <= x < 2 ^ 31 -> s32 x = x.
Proof.
  intros H. unfold s32. destruct (Z.ltb_spec (x mod 2 ^ 32) (2 ^ 31)); 
    Z.div_mod_to_equations; lia.
Qed.

#[export] Hint Resolve u32_range u64_range : kbuf.

(** ** Executions

    A step of the program either finishes normally or commits an error the C
    language leaves undefined.  [Oops] is an outcome of its own, so that
    "never goes wrong" is a statement about the model and not a convention. *)
Inductive oops : Set :=
  | OutOfBounds   (** a heap or array access past the end of its object *)
  | UseAfterFree  (** an access to an object that was released *)
  | NullDeref
  | DivByZero
  | DataRace.     (** two conflicting accesses that nothing orders *)

#[export] Instance oops_eq_dec : EqDecision oops.
Proof. solve_decision. Defined.

Inductive exec (A : Type) : Type :=
  | Done (a : A)
  | Oops (why : oops).
Arguments Done {A} a.
Arguments Oops {A} why.

Definition exec_bind {A B} (m : exec A) (k : A -> exec B) : exec B :=
  match m with
  | Done a => k a
  | Oops e => Oops e
  end.

Lemma exec_bind_inv {A B} (m : exec A) (k : A -> exec B) b :
  exec_bind m k = Done b -> exists a, m = Done a /\ k a = Done b.
Proof. destruct m as [a |]; [| done]. by exists a. Qed.

(** State-passing programs that can go wrong. *)
Definition prog (S A : Type) : Type := S -> exec (A * S).
Definition p_ret {S A} (a : A) : prog S A := fun s => Done (a, s).
Definition p_bind {S A B} (m : prog S A) (k : A -> prog S B) : prog S B :=
  fun s => exec_bind (m s) (fun '(a, s') => k a s').
Definition p_get {S} : prog S S := fun s => Done (s, s).
Definition p_put {S} (s : S) : prog S unit := fun _ => Done (tt, s).
Definition p_modify {S} (f : S -> S) : prog S unit := fun s => Done (tt, f s).
Definition p_oops {S A} (e : oops) : prog S A := fun _ => Oops e.
Definition p_some {S A} (e : oops) (o : option A) : prog S A :=
  match o with
  | Some a => p_ret a
  | None => p_oops e
  end.

Declare Scope prog_scope.
Delimit Scope prog_scope with prog.
Notation "x <-- m ;; k" := (p_bind m (fun x => k))
  (at level 100, m at next level, right associativity) : prog_scope.
Notation "m ;;; k" := (p_bind m (fun _ => k))
  (at level 100, right associativity) : prog_scope.
#[global] Open Scope prog_scope.

(** ** Record update

    [r <| f := v |>] is [r] with field [f] replaced.  A record is made
    updatable by naming its eta expansion; each field then gets a [Setter]. *)
Class Setter {R E : Type} (proj : R -> E) : Type := set_field : E -> R -> R.
Arguments set_field {R E} proj {Setter} v r.

Ltac make_setter proj eta :=
  lazymatch type of proj with
  | ?R -> ?E =>
    exact (fun (v : E) (r : R) => ltac:(
      let body := eval cbv beta delta [eta] in (eta r) in
      let pat := eval pattern (proj r) in body in
      lazymatch pat with
      | ?F _ => let t := eval cbv beta in (F v) in exact t
      end))
  end.

Notation "r <| f := v |>" := (set_field f v r)
  (at level 1, f at level 0, v at level 200, left associativity,
   format "r  <| f  :=  v |>").

(** The value a run returned, without the state it left. *)
Definition ret_of {A W} (e : exec (A * W)) : option A :=
  match e with Done (r, _) => Some r | Oops _ => None end.

Lemma ret_of_done {A W} (e : exec (A * W)) r w v : e = Done (r, w) -> ret_of e = Some v -> r = v.
Proof. intros ->. by intros [= ->]. Qed.

(** A program whose first part has run. *)
Lemma run_bind {W A B} (m : prog W A) (k : A -> prog W B) w a w' :
  m w = Done (a, w') -> p_bind m k w = k a w'.
Proof. unfold p_bind. by intros ->. Qed.

(** ** Powers of two and index masking *)
Definition is_power_of_2 (n : Z) : bool :=
  negb (n =? 0) && (Z.land n (n - 1) =? 0).

Lemma is_power_of_2_spec n :
  0 < n -> is_power_of_2 n = true <-> exists k, 0 <= k /\ n = 2 ^ k.
Proof.
  intros Hn. unfold is_power_of_2. rewrite andb_true_iff, negb_true_iff, Z.eqb_neq, Z.eqb_eq.
  split.
  - intros [_ H]. exists (Z.log2 n). split; [apply Z.log2_nonneg |].
    pose proof (Z.log2_spec n Hn) as [Hlo _].
    destruct (Z.eq_dec n (2 ^ Z.log2 n)) as [? | Hne]; [done |].
    assert (Hb : Z.testbit (Z.land n (n - 1)) (Z.log2 n) = true).
    { rewrite Z.land_spec, Z.bit_log2 by done. simpl.
      rewrite <- (Z.log2_unique (n - 1) (Z.log2 n)) at 1;
        [apply Z.bit_log2; pose proof (Z.pow_pos_nonneg 2 (Z.log2 n)); 
           pose proof (Z.log2_nonneg n); lia | apply Z.log2_nonneg |].
      pose proof (Z.log2_spec n Hn). lia. }
    rewrite H, Z.bits_0 in Hb. done.
  - intros (k & Hk & ->). split; [lia |].
    replace (2 ^ k - 1) with (Z.ones k) by (rewrite Z.ones_equiv; lia).
    rewrite Z.land_ones by done. apply Z.mod_same. lia.
Qed.

(** The mask of a power-of-two ring is reduction modulo its size. *)
Lemma land_pow2_mod n x :
  0 < n -> is_power_of_2 n = true -> Z.land x (n - 1) = x mod n.
Proof.
  intros Hn (k & Hk & ->)%is_power_of_2_spec; [| done].
  replace (2 ^ k - 1) with (Z.ones k) by (rewrite Z.ones_equiv; lia).
  by apply Z.land_ones.
Qed.

(** Reducing an index that has wrapped at the word size still finds the same
    slot, because a power-of-two ring divides the word. *)
Lemma mod_wrap_pow2 w n x :
  0 < n -> is_power_of_2 n = true -> n <= 2 ^ w -> 0 <= w -> (x mod 2 ^ w) mod n = x mod n.
Proof.
  intros Hn (k & Hk & ->)%is_power_of_2_spec Hle Hw; [| done].
  apply Z.pow_le_mono_r_iff in Hle; [| lia | done].
  replace (2 ^ w) with (2 ^ k * 2 ^ (w - k)) by (rewrite <- Z.pow_add_r by lia; f_equal; lia).
  rewrite Z.rem_mul_r by (apply Z.pow_nonzero || apply Z.pow_pos_nonneg; lia).
  rewrite Z.mul_comm, Z_mod_plus_full. apply Zmod_mod.
Qed.

(** ** Circular windows over an array

    [window n l start k] lists the [k] elements of the [n]-slot ring [l]
    beginning at (unreduced) index [start]: the queue content of every ring in
    the driver, whatever its element type. *)
Definition ring_idx (n start i : Z) : nat := Z.to_nat ((start + i) mod n).

Definition window {A} (n : Z) (l : list A) (start : Z) (k : nat) : list A :=
  omap (fun i => l !! ring_idx n start (Z.of_nat i)) (seq 0 k).

Lemma omap_map {A B C} (g : A -> B) (f : B -> option C) (l : list A) :
  omap f (map g l) = omap (fun x => f (g x)) l.
Proof.
  induction l as [| x l IH]; [done |]. unfold omap in *. simpl.
  by destruct (f (g x)); rewrite IH.
Qed.

Section window.
Context {A : Type} (n : Z) (Hn : 0 < n).
Implicit Types (l : list A) (start i j : Z) (k : nat).

Lemma ring_idx_lt start i : Z.of_nat (ring_idx n start i) < n.
Proof using Hn. unfold ring_idx. pose proof (Z.mod_pos_bound (start + i) n Hn). lia. Qed.

Lemma ring_idx_inj start i j :
  - n < i - j < n -> ring_idx n start i = ring_idx n start j -> i = j.
Proof using Hn.
  unfold ring_idx. intros Hb Heq.
  pose proof (Z.mod_pos_bound (start + i) n Hn).
  pose proof (Z.mod_pos_bound (start + j) n Hn).
  assert (Hm : (start + i) mod n = (start + j) mod n) by lia.
  pose proof (Z.div_mod (start + i) n). pose proof (Z.div_mod (start + j) n).
  assert (i - j = n * ((start + i) / n - (start + j) / n)) by lia.
  assert ((start + i) / n - (start + j) / n = 0) by nia. lia.
Qed.

Lemma ring_idx_congr s1 s2 i : s1 mod n = s2 mod n -> ring_idx n s1 i = ring_idx n s2 i.
Proof using Hn.
  intros H. unfold ring_idx. rewrite <- (Zplus_mod_idemp_l s1), H, Zplus_mod_idemp_l. done.
Qed.

Lemma ring_idx_shift start i j : ring_idx n (start + i) j = ring_idx n start (i + j).
Proof using Type. unfold ring_idx. by rewrite Z.add_assoc. Qed.

Lemma window_congr l s1 s2 k : s1 mod n = s2 mod n -> window n l s1 k = window n l s2 k.
Proof using Hn.
  intros H. unfold window. apply list_omap_ext, Forall_Forall2_diag, Forall_true.
  intros i. by rewrite (ring_idx_congr s1 s2).
Qed.

Lemma window_0 l start : window n l start 0 = [].
Proof using Type. done. Qed.

Lemma window_snoc l start k x :
  l !! ring_idx n start (Z.of_nat k) = Some x ->
  window n l start (S k) = window n l start k ++ [x].
Proof using Type.
  intros Hx. unfold window. rewrite seq_S, omap_app. simpl. by rewrite Hx.
Qed.

Lemma window_cons l start k x :
  l !! ring_idx n start 0 = Some x ->
  window n l start (S k) = x :: window n l (start + 1) k.
Proof using Type.
  intros Hx. unfold window. rewrite <- cons_seq, <- seq_shift.
  rewrite <- (app_nil_l (map _ _)), app_comm_cons, omap_app.
  cbn [omap list_omap app]. change (Z.of_nat 0) with 0. rewrite Hx. cbn [app]. f_equal.
  rewrite omap_map. apply list_omap_ext, Forall_Forall2_diag, Forall_true. intros i.
  rewrite ring_idx_shift. by replace (Z.of_nat (S i)) with (1 + Z.of_nat i) by lia.
Qed.

(** Writing the slot one past the window leaves the window alone. *)
Lemma window_insert_past l start k x :
  Z.of_nat k < n ->
  window n (<[ring_idx n start (Z.of_nat k) := x]> l) start k = window n l start k.
Proof using Hn.
  intros Hk. unfold window. apply list_omap_ext, Forall_Forall2_diag, Forall_forall.
  intros i Hi%in_seq. rewrite list_lookup_insert_ne; [done |].
  intros Heq%ring_idx_inj; lia.
Qed.

Lemma length_window l start k :
  Z.of_nat (length l) = n -> length (window n l start k) = k.
Proof using Hn.
  intros Hl. revert start. induction k as [| k IH]; intros start; [done |].
  pose proof (ring_idx_lt start 0) as Hlt.
  destruct (lookup_lt_is_Some_2 l (ring_idx n start 0)) as [x Hx]; [lia |].
  rewrite (window_cons l start k x) by done. simpl. by rewrite IH.
Qed.

Lemma window_push l start k x :
  Z.of_nat (length l) = n -> Z.of_nat k < n ->
  window n (<[ring_idx n start (Z.of_nat k) := x]> l) start (S k)
  = window n l start k ++ [x].
Proof using Hn.
  intros Hl Hk. pose proof (ring_idx_lt start (Z.of_nat k)).
  rewrite (window_snoc _ start k x) by (apply list_lookup_insert_eq; lia).
  by rewrite window_insert_past.
Qed.

(** Writing a run of elements from index [start] on. *)
Fixpoint write_ring (l : list A) (start : Z) (xs : list A) : list A :=
  match xs with
  | [] => l
  | x :: xs' => write_ring (<[ring_idx n start 0 := x]> l) (start + 1) xs'
  end.

Lemma length_write_ring l start xs : length (write_ring l start xs) = length l.
Proof using Type.
  revert l start. induction xs as [| x xs IH]; intros l start; [done |]. simpl.
  by rewrite IH, length_insert.
Qed.

Lemma write_ring_congr l s1 s2 xs :
  s1 mod n = s2 mod n -> write_ring l s1 xs = write_ring l s2 xs.
Proof using Hn.
  revert l s1 s2. induction xs as [| x xs IH]; intros l s1 s2 E; [done |]. simpl.
  rewrite (ring_idx_congr s1 s2) by done. apply IH.
  by rewrite <- (Zplus_mod_idemp_l s1), E, Zplus_mod_idemp_l.
Qed.

(** A run written right behind the window, while there is room, extends it. *)
Lemma window_write_ring l start k xs :
  Z.of_nat (length l) = n -> Z.of_nat (k + length xs) <= n ->
  window n (write_ring l (start + Z.of_nat k) xs) start (k + length xs)
  = window n l start k ++ xs.
Proof using Hn.
  revert l k. induction xs as [| x xs IH]; intros l k Hl Hk; simpl in *.
  { by rewrite Nat.add_0_r, app_nil_r. }
  replace (k + S (length xs))%nat with (S k + length xs)%nat by lia.
  replace (start + Z.of_nat k + 1) with (start + Z.of_nat (S k)) by lia.
  rewrite IH by (rewrite ?length_insert; lia).
  rewrite ring_idx_shift, Z.add_0_r, window_push by lia. by rewrite <- app_assoc.
Qed.

Lemma window_split l start (i j : nat) :
  window n l start (i + j) = window n l start i ++ window n l (start + Z.of_nat i) j.
Proof using Type.
  unfold window. rewrite seq_app, omap_app. f_equal.
  replace (0 + i)%nat with (i + 0)%nat by lia. rewrite <- fmap_add_seq.
  change (Nat.add i <$> seq 0 j) with (map (Nat.add i) (seq 0 j)).
  rewrite omap_map.
  apply list_omap_ext, Forall_Forall2_diag, Forall_true. intros m.
  rewrite ring_idx_shift. by replace (Z.of_nat (i + m)) with (Z.of_nat i + Z.of_nat m) by lia.
Qed.

(** A window that does not reach the end of the array is a slice of it. *)
Lemma window_flat l start k :
  0 <= start -> start + Z.of_nat k <= n -> n = Z.of_nat (length l) ->
  window n l start k = take k (drop (Z.to_nat start) l).
Proof using Hn.
  revert start. induction k as [| k IH]; intros start Hs Hk Hl; [by rewrite take_0 |].
  destruct (lookup_lt_is_Some_2 l (Z.to_nat start)) as [x Hx]; [lia |].
  rewrite (window_cons l start k x).
  - rewrite (drop_S _ _ _ Hx), firstn_cons, IH by lia. do 3 f_equal. lia.
  - unfold ring_idx. by rewrite Z.add_0_r, Z.mod_small by lia.
Qed.
End window.
