(* ===== verification/Kernel.v ===== *)
(** * Kernel: what the driver asks of the kernel it is loaded into

    The kernel is not part of the repository, so nothing here defines what it
    does.  Two interfaces name the services the driver calls and state the
    documented behaviour it relies on:

    - [UAccess]/[UAccessLaws]: user memory ([copy_from_user], [copy_to_user],
      [get_user], [put_user]);
    - [Kernel]/[KernelLaws]: everything that is acquired and released (heap and
      vmalloc memory, chrdev regions, classes, cdevs, device nodes, misc and
      platform devices, proc and debugfs entries) and the minor-number [ida].

    The driver's definitions and theorems are generic in both.  [SimUser] and
    [SimKernel] at the end are concrete instances with a chosen failure
    schedule; the witnesses of the theorems run on them. *)

From stdpp Require Export gmap.
From S2P Require Import Prelude.
#[local] Open Scope Z_scope.

(** ** Error numbers (include/uapi/asm-generic/errno*.h) *)
Definition ENOENT : Z := 2.
Definition EIO : Z := 5.
Definition EAGAIN : Z := 11.
Definition ENOMEM : Z := 12.
Definition EFAULT : Z := 14.
Definition EBUSY : Z := 16.
Definition ENODEV : Z := 19.
Definition EINVAL : Z := 22.
Definition ENOTTY : Z := 25.
Definition ENOSPC : Z := 28.
Definition ERESTARTSYS : Z := 512.

(** A kernel error return: a negative number no smaller than [-MAX_ERRNO]. *)
Definition is_errno (e : Z) : Prop := -4095 <= e < 0.

(** ** User memory *)
Class UAccess (U : Type) := {
  ubyte : U -> Z -> option byte;
  copy_from_user : U -> Z -> Z -> list byte * Z;
  copy_to_user : U -> Z -> list byte -> U * Z;
  get_user : U -> Z -> option Z;
  put_user : U -> Z -> Z -> option U
}.

(** The bytes a user buffer holds, if all of it is accessible. *)
Definition user_bytes {U} `{UAccess U} (u : U) (a n : Z) : option (list byte) :=
  mapM (fun i => ubyte u (a + Z.of_nat i)) (seq 0 (Z.to_nat n)).

(** [copy_from_user] fills the whole kernel buffer (it pads with zeroes what it
    could not read) and returns the number of bytes not copied; zero means the
    buffer holds what the user had there.  [copy_to_user] writes a range and
    nothing outside it.  Both succeed on accessible memory. *)
Class UAccessLaws (U : Type) `{UAccess U} : Prop := {
  cfu_length u a n : 0 <= n -> length (copy_from_user u a n).1 = Z.to_nat n;
  cfu_done u a n bs :
    copy_from_user u a n = (bs, 0) -> 0 <= n -> user_bytes u a n = Some bs;
  cfu_accessible u a n bs :
    user_bytes u a n = Some bs -> 0 <= n -> copy_from_user u a n = (bs, 0);
  ctu_done u a bs u' :
    copy_to_user u a bs = (u', 0) ->
    user_bytes u' a (Z.of_nat (length bs)) = Some bs;
  ctu_frame u a bs u' missed x :
    copy_to_user u a bs = (u', missed) -> ~ (a <= x < a + Z.of_nat (length bs)) ->
    ubyte u' x = ubyte u x;
  ctu_accessible u a bs old :
    user_bytes u a (Z.of_nat (length bs)) = Some old -> (copy_to_user u a bs).2 = 0;
  put_get_user u a v u' : put_user u a v = Some u' -> - 2 ^ 31 <= v < 2 ^ 31 -> get_user u' a = Some v;
  get_user_int u a v : get_user u a = Some v -> - 2 ^ 31 <= v < 2 ^ 31
}.

(** ** Acquired resources *)

(** The kinds of object the driver acquires, by the call that returns one. *)
Inductive rkind : Set :=
  | RkMem                 (** kmalloc, kcalloc, kzalloc *)
  | RkVmem                (** vmalloc_user *)
  | RkRegion              (** alloc_chrdev_region *)
  | RkClass               (** class_create *)
  | RkCdevObj             (** cdev_alloc *)
  | RkCdev                (** cdev_add *)
  | RkNode                (** device_create: the struct device and its node *)
  | RkProc                (** proc_create *)
  | RkDebugfs             (** debugfs_create_dir *)
  | RkPdev                (** platform_device_register_simple *)
  | RkMisc                (** misc_register *)
  | RkSgTable             (** sg_alloc_table *)
  | RkDmaMap              (** dma_map_sgtable *)
  | RkDmaBuf              (** a reference to a dma_buf *)
  | RkAttach              (** dma_buf_attach *)
  | RkVmap                (** dma_buf_vmap of a buffer another driver exported *)
  | RkModRef.             (** a pin on the module *)

#[export] Instance rkind_eq_dec : EqDecision rkind.
Proof. solve_decision. Defined.

(** Handles are addresses; [k_held] is the ledger of what is outstanding. *)
Class Kernel (K : Type) := {
  k_held : K -> gmap Z rkind;
  k_acquire : rkind -> K -> (Z + Z) * K;
  k_release : rkind -> Z -> K -> K;
  k_cdev_add : Z -> K -> Z * K;        (** of a [cdev_alloc]'d object *)
  k_call : K -> Z * K;                 (** an fd or an errno; nothing acquired *)
  k_status : K -> Z * K;               (** one that returns 0 or an errno *)
  k_junk : K -> Z -> Z -> list byte;   (** what fresh memory happens to hold *)
  k_ida : K -> gset Z;
  ida_alloc_max : Z -> K -> Z * K;
  ida_free : Z -> K -> K;
  ida_destroy : K -> K
}.

(** An acquisition returns a handle that was not outstanding or fails with an
    errno and acquires nothing; a release is only specified for a handle that is
    outstanding with that kind, so a double release, or a release by the wrong
    call, leaves the ledger unknown. *)
Class KernelLaws (K : Type) `{Kernel K} : Prop := {
  acquire_ok rk k p k' :
    k_acquire rk k = (inl p, k') ->
    k_held k !! p = None /\ k_held k' = <[p := rk]> (k_held k) /\ k_ida k' = k_ida k;
  acquire_err rk k e k' :
    k_acquire rk k = (inr e, k') ->
    is_errno e /\ k_held k' = k_held k /\ k_ida k' = k_ida k;
  cdev_add_ok p k r k' :
    k_cdev_add p k = (r, k') -> 0 <= r -> k_held k !! p = Some RkCdevObj ->
    k_held k' = <[p := RkCdev]> (k_held k) /\ k_ida k' = k_ida k;
  cdev_add_err p k r k' :
    k_cdev_add p k = (r, k') -> r < 0 ->
    is_errno r /\ k_held k' = k_held k /\ k_ida k' = k_ida k;
  call_ok k r k' :
    k_call k = (r, k') -> ((r < 0 -> is_errno r) /\ r < 2 ^ 31) /\ k_held k' = k_held k /\ k_ida k' = k_ida k;
  status_ok k r k' :
    k_status k = (r, k') -> (r = 0 \/ is_errno r) /\ k_held k' = k_held k /\ k_ida k' = k_ida k;
  junk_length k p n : 0 <= n -> Z.of_nat (length (k_junk k p n)) = n;
  release_ok rk p k :
    k_held k !! p = Some rk ->
    k_held (k_release rk p k) = delete p (k_held k) /\ k_ida (k_release rk p k) = k_ida k;
  ida_alloc_ok m k i k' :
    ida_alloc_max m k = (i, k') -> 0 <= i ->
    i <= m /\ (i ∉ k_ida k) /\ k_ida k' = {[i]} ∪ k_ida k /\ k_held k' = k_held k;
  ida_alloc_err m k i k' :
    ida_alloc_max m k = (i, k') -> i < 0 ->
    is_errno i /\ k_ida k' = k_ida k /\ k_held k' = k_held k;
  ida_free_ok i k :
    i ∈ k_ida k ->
    k_ida (ida_free i k) = k_ida k ∖ {[i]} /\ k_held (ida_free i k) = k_held k;
  ida_destroy_ok k : k_ida (ida_destroy k) = ∅ /\ k_held (ida_destroy k) = k_held k
}.

(** ** Concrete instances for the witnesses *)
Abbreviation simuser := (gmap Z byte).

Definition sim_get (u : simuser) (a : Z) (n : Z) : option (list byte) :=
  mapM (fun i => u !! (a + Z.of_nat i)) (seq 0 (Z.to_nat n)).

Fixpoint sim_put (u : simuser) (a : Z) (bs : list byte) : simuser :=
  match bs with
  | [] => u
  | b :: bs' => <[a := b]> (sim_put u (a + 1) bs')
  end.

(** Little-endian integers, as both sides of the syscall boundary lay them out. *)
Fixpoint le_encode (n : nat) (v : Z) : list byte :=
  match n with
  | O => []
  | S n' => default x00 (Byte.of_N (Z.to_N (v mod 256))) :: le_encode n' (v / 256)
  end.

Fixpoint le_decode (bs : list byte) : Z :=
  match bs with
  | [] => 0
  | b :: bs' => Z.of_N (Byte.to_N b) + 256 * le_decode bs'
  end.

#[export] Instance sim_uaccess : UAccess simuser := {
  ubyte u a := u !! a;
  copy_from_user u a n :=
    match sim_get u a n with
    | Some bs => (bs, 0)
    | None => (replicate (Z.to_nat n) x00, n)
    end;
  copy_to_user u a bs :=
    match sim_get u a (Z.of_nat (length bs)) with
    | Some _ => (sim_put u a bs, 0)
    | None => (u, Z.of_nat (length bs))
    end;
  get_user u a := (fun bs => s32 (le_decode bs)) <$> sim_get u a 4;
  put_user u a v :=
    match sim_get u a 4 with
    | Some _ => Some (sim_put u a (le_encode 4 (u32 v)))
    | None => None
    end
}.

(** Each acquisition consults the schedule: a negative entry is the errno it
    fails with; past the end of the schedule everything succeeds. *)
Record simkernel := SimKernel {
  sk_held : gmap Z rkind;
  sk_plan : list Z;
  sk_ida : gset Z
}.

Definition sim_next (k : simkernel) : Z * simkernel :=
  match sk_plan k with
  | [] => (0, k)
  | e :: es => (e, SimKernel (sk_held k) es (sk_ida k))
  end.

Definition sim_errno (e : Z) : bool := (-4095 <=? e) && (e <? 0).

#[export] Instance sim_kernel : Kernel simkernel := {
  k_held := sk_held;
  k_acquire rk k :=
    let '(e, k1) := sim_next k in
    if sim_errno e then (inr e, k1)
    else let p := fresh (dom (sk_held k)) in
         (inl p, SimKernel (<[p := rk]> (sk_held k1)) (sk_plan k1) (sk_ida k1));
  k_release rk p k := SimKernel (delete p (sk_held k)) (sk_plan k) (sk_ida k);
  k_cdev_add p k :=
    let '(e, k1) := sim_next k in
    if sim_errno e then (e, k1)
    else (0, SimKernel (<[p := RkCdev]> (sk_held k1)) (sk_plan k1) (sk_ida k1));
  k_call k :=
    let '(e, k1) := sim_next k in (if sim_errno e then e else e mod 2 ^ 31, k1);
  k_status k := let '(e, k1) := sim_next k in (if sim_errno e then e else 0, k1);
  k_junk _ _ n := replicate (Z.to_nat n) xff;
  k_ida := sk_ida;
  ida_alloc_max m k :=
    let '(e, k1) := sim_next k in
    if sim_errno e then (e, k1)
    else match list_find (fun i => i ∉ sk_ida k) (seqZ 0 (m + 1)) with
         | Some (_, i) => (i, SimKernel (sk_held k1) (sk_plan k1) ({[i]} ∪ sk_ida k1))
         | None => (- ENOSPC, k1)
         end;
  ida_free i k := SimKernel (sk_held k) (sk_plan k) (sk_ida k ∖ {[i]});
  ida_destroy k := SimKernel (sk_held k) (sk_plan k) ∅
}.

Lemma sim_put_frame u a bs x :
  ~ (a <= x < a + Z.of_nat (length bs)) -> sim_put u a bs !! x = u !! x.
Proof.
  revert a. induction bs as [| b bs IH]; intros a Hx; [done |]. simpl in *.
  rewrite lookup_insert_ne by lia. apply IH. lia.
Qed.

Lemma sim_get_cons u a n b bs :
  u !! a = Some b -> sim_get u (a + 1) (Z.of_nat n) = Some bs ->
  sim_get u a (Z.of_nat (S n)) = Some (b :: bs).
Proof.
  unfold sim_get. rewrite !Nat2Z.id, <- cons_seq, <- seq_shift, !mapM_Some. intros Hb Hbs.
  constructor; [by rewrite Z.add_0_r |]. apply Forall2_fmap_l.
  eapply Forall2_impl; [| exact Hbs]. intros i x Hx. cbn beta in *.
  trans (u !! (a + 1 + Z.of_nat i)); [f_equal; lia | done].
Qed.

Lemma sim_get_put u a bs : sim_get (sim_put u a bs) a (Z.of_nat (length bs)) = Some bs.
Proof.
  revert a. induction bs as [| b bs IH]; intros a; [done |].
  apply sim_get_cons; simpl; [apply lookup_insert_eq |].
  rewrite <- (IH (a + 1)). apply mapM_ext. intros i. apply lookup_insert_ne. lia.
Qed.

Lemma sim_get_length u a n bs : sim_get u a n = Some bs -> length bs = Z.to_nat n.
Proof. intros H%length_mapM. by rewrite length_seq in H. Qed.

Lemma byte_of_mod v : Byte.of_N (Z.to_N (v mod 256)) <> None.
Proof.
  intros H%Byte.of_N_None_iff. pose proof (Z.mod_pos_bound v 256). lia.
Qed.

Lemma le_decode_encode n v : le_decode (le_encode n v) = v mod 256 ^ Z.of_nat n.
Proof.
  revert v. induction n as [| n IH]; intros v; simpl.
  { by rewrite Z.pow_0_r, Z.mod_1_r. }
  rewrite IH. pose proof (byte_of_mod v) as Hb.
  destruct (Byte.of_N (Z.to_N (v mod 256))) as [b |] eqn:E; [| done]. simpl.
  apply Byte.to_of_N in E. rewrite E.
  rewrite Z2N.id by (apply Z.mod_pos_bound; lia).
  replace (Z.of_nat (S n)) with (1 + Z.of_nat n) by lia.
  rewrite Z.pow_add_r, Z.pow_1_r, Z.rem_mul_r by (lia || apply Z.pow_pos_nonneg; lia). lia.
Qed.

Lemma length_le_encode n v : length (le_encode n v) = n.
Proof. revert v. induction n as [| n IH]; intros v; [done |]. simpl. by rewrite IH. Qed.

#[export] Instance sim_uaccess_laws : UAccessLaws simuser.
Proof.
  split; cbn -[sim_put le_encode].
  - intros u a n Hn. destruct (sim_get u a n) eqn:E; simpl.
    + by apply sim_get_length in E.
    + apply length_replicate.
  - intros u a n bs H Hn. unfold user_bytes, ubyte; simpl. fold (sim_get u a n).
    destruct (sim_get u a n) eqn:E; simplify_eq; done.
  - intros u a n bs H Hn. unfold user_bytes, ubyte in H; simpl in H. fold (sim_get u a n) in H.
    by rewrite H.
  - intros u a bs u' H. destruct (sim_get u a _) eqn:E; simplify_eq; [apply sim_get_put |].
    destruct bs; [done | simpl in *; lia].
  - intros u a bs u' missed x H Hx.
    destruct (sim_get u a _) eqn:E; simplify_eq; [by apply sim_put_frame | done].
  - intros u a bs old H. unfold user_bytes, ubyte in H; simpl in H.
    fold (sim_get u a (Z.of_nat (length bs))) in H. by rewrite H.
  - intros u a v u' H Hv. destruct (sim_get u a 4); [| done]. simplify_eq.
    pose proof (sim_get_put u a (le_encode 4 (u32 v))) as Hg.
    rewrite length_le_encode in Hg. change (Z.of_nat 4) with 4 in Hg. rewrite Hg. cbn -[le_encode].
    rewrite le_decode_encode. f_equal. unfold s32, u32.
    change (256 ^ Z.of_nat 4) with (2 ^ 32). rewrite !Zmod_mod. by apply s32_small.
  - intros u a v H. destruct (sim_get u a 4); [| done]. injection H as <-. unfold s32. cbv zeta.
    pose proof (Z.mod_pos_bound (le_decode l) (2 ^ 32) eq_refl).
    destruct (Z.ltb_spec (le_decode l mod 2 ^ 32) (2 ^ 31)); lia.
Qed.

Lemma sim_next_spec k e k1 :
  sim_next k = (e, k1) -> sk_held k1 = sk_held k /\ sk_ida k1 = sk_ida k.
Proof. unfold sim_next. destruct (sk_plan k); intros; simplify_eq; done. Qed.

Lemma sim_errno_spec e : sim_errno e = true <-> is_errno e.
Proof. unfold sim_errno, is_errno. lia. Qed.

(** One draw from the plan. *)
Ltac sim_call e Hh Hi :=
  let k1 := fresh "k1" in let En := fresh "En" in
  match goal with
  | |- context [sim_next ?k] => destruct (sim_next k) as [e k1] eqn:En
  | H : context [sim_next ?k] |- _ => destruct (sim_next k) as [e k1] eqn:En
  end;
  apply sim_next_spec in En as [Hh Hi].

#[export] Instance sim_kernel_laws : KernelLaws simkernel.
Proof.
  split; simpl.
  - intros rk k p k' H. sim_call e Hh Hi. destruct (sim_errno e); simplify_eq. simpl.
    split_and!; [| by rewrite Hh | done]. apply not_elem_of_dom, is_fresh.
  - intros rk k e k' H. sim_call e' Hh Hi.
    destruct (sim_errno e') eqn:Ee; simplify_eq. by apply sim_errno_spec in Ee.
  - intros p k r k' H Hr Hp. sim_call e Hh Hi. destruct (sim_errno e) eqn:Ee; simplify_eq; simpl.
    + apply sim_errno_spec in Ee. unfold is_errno in Ee. lia.
    + by rewrite Hh.
  - intros p k r k' H Hr. sim_call e Hh Hi. destruct (sim_errno e) eqn:Ee; simplify_eq; [| lia].
    by apply sim_errno_spec in Ee.
  - intros k r k' H. sim_call e Hh Hi. destruct (sim_errno e) eqn:Ee; simplify_eq.
    + apply sim_errno_spec in Ee. unfold is_errno in *. split_and!; [lia | lia | done | done].
    + pose proof (Z.mod_pos_bound e (2 ^ 31) eq_refl). split_and!; [lia | lia | done | done].
  - intros k r k' H. sim_call e Hh Hi. destruct (sim_errno e) eqn:Ee; simplify_eq.
    + apply sim_errno_spec in Ee. by split; [right |].
    + by split; [left |].
  - intros _ _ n Hn. rewrite length_replicate. lia.
  - done.
  - intros m k i k' H Hi. sim_call e Hh Hd.
    destruct (sim_errno e) eqn:Ee; simplify_eq.
    { apply sim_errno_spec in Ee. unfold is_errno in Ee. lia. }
    case_match eqn:Hf; [| simplify_eq; unfold ENOSPC in Hi; lia].
    case_match; simplify_eq. apply list_find_Some in Hf as (Hl & Hn & _).
    apply lookup_seqZ in Hl. simpl. split_and!; [lia | done | by rewrite Hd | done].
  - intros m k i k' H Hi. sim_call e Hh Hd.
    destruct (sim_errno e) eqn:Ee; simplify_eq; [by apply sim_errno_spec in Ee |].
    case_match eqn:Hf; [case_match; simplify_eq |].
    + apply list_find_Some in Hf as (Hl & _). apply lookup_seqZ in Hl. lia.
    + simplify_eq. unfold is_errno, ENOSPC. split_and!; [lia | lia | done | done].
  - done.
  - done.
Qed.
