(* ===== verification/Uapi.v ===== *)
(** * Uapi: the user/kernel ABI (include/kbuf.h)

    The mode numbers, the ioctl argument structures with their byte layout, and
    the command numbers.  The encoding of a command number belongs to the
    kernel's <linux/ioctl.h>, so it is an interface ([IocEncoding]) with the
    decoding laws the dispatcher relies on. *)

From S2P Require Import Prelude Kernel.
#[local] Open Scope Z_scope.

Definition KBUF_MODE_BLOCKING : Z := 0.
Definition KBUF_MODE_SPSC : Z := 1.

Record kbuf_resize := KbufResize {
  rq_num_buffers : Z;
  rq_buffer_size : Z
}.

Record kbuf_stats := KbufStats {
  st_bytes_produced : Z;
  st_bytes_consumed : Z;
  st_msgs_produced : Z;
  st_msgs_consumed : Z;
  st_read_sleeps : Z;
  st_write_sleeps : Z;
  st_num_buffers : Z;
  st_buffer_size : Z;
  st_cur_count : Z;
  st_peak_count : Z
}.

(** ** Layout of the argument structures *)
Definition sizeof_kbuf_resize : Z := 8.
Definition sizeof_kbuf_stats : Z := 64.
Definition sizeof_int : Z := 4.

Definition kbuf_resize_of_bytes (bs : list byte) : kbuf_resize :=
  {| rq_num_buffers := le_decode (take 4 bs);
     rq_buffer_size := le_decode (take 4 (drop 4 bs)) |}.

Definition bytes_of_kbuf_stats (st : kbuf_stats) : list byte :=
  le_encode 8 (st_bytes_produced st) ++ le_encode 8 (st_bytes_consumed st) ++
  le_encode 8 (st_msgs_produced st) ++ le_encode 8 (st_msgs_consumed st) ++
  le_encode 8 (st_read_sleeps st) ++ le_encode 8 (st_write_sleeps st) ++
  le_encode 4 (st_num_buffers st) ++ le_encode 4 (st_buffer_size st) ++
  le_encode 4 (st_cur_count st) ++ le_encode 4 (st_peak_count st).

(** The reader of the other side: the C struct overlaid on the bytes. *)
Definition kbuf_stats_of_bytes (bs : list byte) : kbuf_stats :=
  let u64_at o := le_decode (take 8 (drop o bs)) in
  let u32_at o := le_decode (take 4 (drop o bs)) in
  {| st_bytes_produced := u64_at 0%nat; st_bytes_consumed := u64_at 8%nat;
     st_msgs_produced := u64_at 16%nat; st_msgs_consumed := u64_at 24%nat;
     st_read_sleeps := u64_at 32%nat; st_write_sleeps := u64_at 40%nat;
     st_num_buffers := u32_at 48%nat; st_buffer_size := u32_at 52%nat;
     st_cur_count := u32_at 56%nat; st_peak_count := u32_at 60%nat |}.

Definition kbuf_stats_in_range (st : kbuf_stats) : Prop :=
  Forall in_u64 [st_bytes_produced st; st_bytes_consumed st; st_msgs_produced st;
                 st_msgs_consumed st; st_read_sleeps st; st_write_sleeps st] /\
  Forall in_u32 [st_num_buffers st; st_buffer_size st; st_cur_count st; st_peak_count st].

(** ** The mmap region *)
Definition KBUF_MMAP_CAPACITY : Z := 64 * 1024.

(** ** Command numbers *)
Inductive ioc_dir : Set := IOC_NONE | IOC_WRITE | IOC_READ.

Class IocEncoding := {
  IOC : ioc_dir -> Z -> Z -> Z -> Z;
  IOC_TYPE : Z -> Z;
  IOC_NR : Z -> Z
}.

Class IocLaws `{IocEncoding} : Prop := {
  ioc_type d t n s : 0 <= t < 256 -> 0 <= n < 256 -> 0 <= s < 2 ^ 14 -> IOC_TYPE (IOC d t n s) = t;
  ioc_nr d t n s : 0 <= t < 256 -> 0 <= n < 256 -> 0 <= s < 2 ^ 14 -> IOC_NR (IOC d t n s) = n
}.

Definition KBUF_IOC_MAGIC : Z := 107.  (** 'k' *)
Definition KBUF_CTL_MAGIC : Z := 75.   (** 'K' *)
Definition KBUF_IOC_MAXNR : Z := 6.

Section commands.
Context `{IocEncoding}.

Definition KBUF_IOCRESIZE : Z := IOC IOC_WRITE KBUF_IOC_MAGIC 1 sizeof_kbuf_resize.
Definition KBUF_IOCGSTATS : Z := IOC IOC_READ KBUF_IOC_MAGIC 2 sizeof_kbuf_stats.
Definition KBUF_IOCRESET : Z := IOC IOC_NONE KBUF_IOC_MAGIC 3 0.
Definition KBUF_IOCSMODE : Z := IOC IOC_WRITE KBUF_IOC_MAGIC 4 sizeof_int.
Definition KBUF_IOCEXPORT : Z := IOC IOC_READ KBUF_IOC_MAGIC 5 sizeof_int.
Definition KBUF_IOCIMPORT : Z := IOC IOC_WRITE KBUF_IOC_MAGIC 6 sizeof_int.
Definition KBUF_CTL_CREATE : Z := IOC IOC_READ KBUF_CTL_MAGIC 1 sizeof_int.
Definition KBUF_CTL_DESTROY : Z := IOC IOC_WRITE KBUF_CTL_MAGIC 2 sizeof_int.
End commands.

(** The encoding used on x86 and arm: direction, size, type, number. *)
Definition generic_ioc (d : ioc_dir) (t n s : Z) : Z :=
  Z.lor (Z.shiftl (match d with IOC_NONE => 0 | IOC_WRITE => 1 | IOC_READ => 2 end) 30)
        (Z.lor (Z.shiftl s 16) (Z.lor (Z.shiftl t 8) n)).

#[export] Instance generic_encoding : IocEncoding := {
  IOC := generic_ioc;
  IOC_TYPE c := Z.land (Z.shiftr c 8) 255;
  IOC_NR c := Z.land c 255
}.

Lemma lor_shiftl_add a b k :
  0 <= k -> 0 <= b < 2 ^ k -> Z.lor (Z.shiftl a k) b = a * 2 ^ k + b.
Proof.
  intros Hk Hb. rewrite Z.shiftl_mul_pow2 by done.
  rewrite <- Z.lxor_lor, <- Z.add_nocarry_lxor; try done;
    apply Z.bits_inj'; intros i Hi; rewrite Z.land_spec, Z.bits_0;
    destruct (Z.ltb_spec i k).
  all: try (rewrite Z.mul_pow2_bits_low by lia; done).
  all: rewrite andb_comm, <- (Z.mod_small b (2 ^ k)) by done;
    rewrite Z.mod_pow2_bits_high by lia; done.
Qed.

Lemma generic_ioc_add d t n s :
  0 <= t < 256 -> 0 <= n < 256 -> 0 <= s < 2 ^ 14 ->
  exists h, 0 <= h /\ generic_ioc d t n s = h * 65536 + t * 256 + n.
Proof.
  intros Ht Hn Hs. unfold generic_ioc.
  rewrite (lor_shiftl_add t n 8), (lor_shiftl_add s _ 16), (lor_shiftl_add _ _ 30) by lia.
  exists (match d with IOC_NONE => 0 | IOC_WRITE => 1 | IOC_READ => 2 end * 2 ^ 14 + s).
  destruct d; lia.
Qed.

#[export] Instance generic_ioc_laws : IocLaws.
Proof.
  split; intros d t n s Ht Hn Hs; simpl;
    destruct (generic_ioc_add d t n s Ht Hn Hs) as (h & Hh & ->).
  - change 255 with (Z.ones 8). rewrite Z.land_ones, Z.shiftr_div_pow2 by lia.
    change (2 ^ 8) with 256. Z.div_mod_to_equations. lia.
  - change 255 with (Z.ones 8). rewrite Z.land_ones by lia. change (2 ^ 8) with 256.
    Z.div_mod_to_equations. lia.
Qed.

(** ** Layout lemmas *)
Lemma le_decode_range bs : 0 <= le_decode bs < 256 ^ Z.of_nat (length bs).
Proof.
  induction bs as [| b bs IH]; simpl; [done |].
  pose proof (Byte.to_N_bounded b). replace (Z.of_nat (S (length bs))) with (1 + Z.of_nat (length bs)) by lia.
  rewrite Z.pow_add_r by lia. lia.
Qed.

Lemma kbuf_resize_of_bytes_range bs :
  length bs = 8%nat ->
  in_u32 (rq_num_buffers (kbuf_resize_of_bytes bs)) /\
  in_u32 (rq_buffer_size (kbuf_resize_of_bytes bs)).
Proof.
  intros Hl. unfold kbuf_resize_of_bytes, in_u32; simpl.
  pose proof (le_decode_range (take 4 bs)) as H1.
  pose proof (le_decode_range (take 4 (drop 4 bs))) as H2.
  rewrite length_take, ?length_drop, Hl in *. exact (conj H1 H2).
Qed.

Lemma length_bytes_of_kbuf_stats st :
  Z.of_nat (length (bytes_of_kbuf_stats st)) = sizeof_kbuf_stats.
Proof. done. Qed.

Lemma le64_field v : in_u64 v -> le_decode (le_encode 8 v) = v.
Proof. rewrite le_decode_encode. apply u64_small. Qed.

Lemma le32_field v : in_u32 v -> le_decode (le_encode 4 v) = v.
Proof. rewrite le_decode_encode. apply u32_small. Qed.

Lemma kbuf_stats_layout st :
  kbuf_stats_in_range st -> kbuf_stats_of_bytes (bytes_of_kbuf_stats st) = st.
Proof.
  intros [H64 H32]. decompose_Forall_hyps.
  destruct st as [a b c d e f g h i j]; simpl in *.
  unfold kbuf_stats_of_bytes, bytes_of_kbuf_stats. cbn [st_bytes_produced st_bytes_consumed
    st_msgs_produced st_msgs_consumed st_read_sleeps st_write_sleeps st_num_buffers
    st_buffer_size st_cur_count st_peak_count].
  f_equal.
  - exact (le64_field a ltac:(done)).
  - exact (le64_field b ltac:(done)).
  - exact (le64_field c ltac:(done)).
  - exact (le64_field d ltac:(done)).
  - exact (le64_field e ltac:(done)).
  - exact (le64_field f ltac:(done)).
  - exact (le32_field g ltac:(done)).
  - exact (le32_field h ltac:(done)).
  - exact (le32_field i ltac:(done)).
  - exact (le32_field j ltac:(done)).
Qed.
