(* ===== verification/Device.v ===== *)
(** * Device: the in-kernel types (src/kbuf_internal.h, src/kbuf_trace.h)

    [kbuf_dev] is [struct kbuf_dev] without its synchronisation members: the
    mutex and the two wait queues belong to the concurrent machine of
    Machine.v, and the list link to the device list of Ctl.v.  A heap object is
    its address together with its content; a NULL pointer is [None]. *)

From S2P Require Import Prelude Kernel Uapi.
#[local] Open Scope Z_scope.

Definition KBUF_DEFAULT_NUM_BUFFERS : Z := 8.
Definition KBUF_DEFAULT_BUFFER_SIZE : Z := 4096.
Definition KBUF_MAX_NUM_BUFFERS : Z := 256.
Definition KBUF_MAX_BUFFER_SIZE : Z := 64 * 1024.
Definition KBUF_DEFAULT_NDEVICES : Z := 4.
Definition KBUF_MAX_NDEVICES : Z := 64.
Definition KBUF_DYN_MAX : Z := 64.

(** A heap buffer: where it is and what it holds. *)
Record kbuffer := KBuffer {
  kb_ptr : Z;
  kb_bytes : list byte
}.

Record kbuf_slot := KbufSlot {
  data : kbuffer;
  len : Z
}.

(** The heap array [dev->slots] points to. *)
Record slot_array := SlotArray {
  sa_ptr : Z;
  sa_slots : list kbuf_slot
}.

(** The control page of the mmap ring (struct kbuf_mmap_ctrl of include/kbuf.h). *)
Record kbuf_mmap_ctrl := KbufMmapCtrl {
  ctrl_ptr : Z;
  head : Z;
  tail : Z;
  capacity : Z
}.

Record kbuf_dev := KbufDev {
  self : Z;                 (** offset from [kbuf_devices], in elements *)
  slots : option slot_array;
  num_buffers : Z;
  buffer_size : Z;
  read_pos : Z;
  write_pos : Z;
  count : Z;
  prod_idx : Z;
  cons_idx : Z;
  peak_count : Z;
  bytes_produced : Z;
  bytes_consumed : Z;
  msgs_produced : Z;
  msgs_consumed : Z;
  read_sleeps : Z;
  write_sleeps : Z;
  mode : Z;
  mmap_ctrl : option kbuf_mmap_ctrl;
  mmap_data : option kbuffer;
  cdevp : Z;
  devno : Z;
  dev_node : Z;             (** [struct device *dev] *)
  dynamic : bool;
  minor_off : Z;
  ref : Z
}.

Definition eta_dev (d : kbuf_dev) : kbuf_dev :=
  KbufDev (self d) (slots d) (num_buffers d) (buffer_size d) (read_pos d) (write_pos d)
    (count d) (prod_idx d) (cons_idx d) (peak_count d) (bytes_produced d) (bytes_consumed d)
    (msgs_produced d) (msgs_consumed d) (read_sleeps d) (write_sleeps d) (mode d)
    (mmap_ctrl d) (mmap_data d) (cdevp d) (devno d) (dev_node d) (dynamic d) (minor_off d)
    (ref d).

#[export] Instance set_self : Setter self := ltac:(make_setter self eta_dev).
#[export] Instance set_slots : Setter slots := ltac:(make_setter slots eta_dev).
#[export] Instance set_num_buffers : Setter num_buffers := ltac:(make_setter num_buffers eta_dev).
#[export] Instance set_buffer_size : Setter buffer_size := ltac:(make_setter buffer_size eta_dev).
#[export] Instance set_read_pos : Setter read_pos := ltac:(make_setter read_pos eta_dev).
#[export] Instance set_write_pos : Setter write_pos := ltac:(make_setter write_pos eta_dev).
#[export] Instance set_count : Setter count := ltac:(make_setter count eta_dev).
#[export] Instance set_prod_idx : Setter prod_idx := ltac:(make_setter prod_idx eta_dev).
#[export] Instance set_cons_idx : Setter cons_idx := ltac:(make_setter cons_idx eta_dev).
#[export] Instance set_peak_count : Setter peak_count := ltac:(make_setter peak_count eta_dev).
#[export] Instance set_bytes_produced : Setter bytes_produced :=
  ltac:(make_setter bytes_produced eta_dev).
#[export] Instance set_bytes_consumed : Setter bytes_consumed :=
  ltac:(make_setter bytes_consumed eta_dev).
#[export] Instance set_msgs_produced : Setter msgs_produced :=
  ltac:(make_setter msgs_produced eta_dev).
#[export] Instance set_msgs_consumed : Setter msgs_consumed :=
  ltac:(make_setter msgs_consumed eta_dev).
#[export] Instance set_read_sleeps : Setter read_sleeps := ltac:(make_setter read_sleeps eta_dev).
#[export] Instance set_write_sleeps : Setter write_sleeps :=
  ltac:(make_setter write_sleeps eta_dev).
#[export] Instance set_mode : Setter mode := ltac:(make_setter mode eta_dev).
#[export] Instance set_mmap_ctrl : Setter mmap_ctrl := ltac:(make_setter mmap_ctrl eta_dev).
#[export] Instance set_mmap_data : Setter mmap_data := ltac:(make_setter mmap_data eta_dev).
#[export] Instance set_cdevp : Setter cdevp := ltac:(make_setter cdevp eta_dev).
#[export] Instance set_devno : Setter devno := ltac:(make_setter devno eta_dev).
#[export] Instance set_dev_node : Setter dev_node := ltac:(make_setter dev_node eta_dev).
#[export] Instance set_dynamic : Setter dynamic := ltac:(make_setter dynamic eta_dev).
#[export] Instance set_minor_off : Setter minor_off := ltac:(make_setter minor_off eta_dev).
#[export] Instance set_ref : Setter ref := ltac:(make_setter ref eta_dev).

(** Memory from kzalloc/kcalloc. *)
Definition zero_dev : kbuf_dev :=
  {| self := 0; slots := None; num_buffers := 0; buffer_size := 0; read_pos := 0;
     write_pos := 0; count := 0; prod_idx := 0; cons_idx := 0; peak_count := 0;
     bytes_produced := 0; bytes_consumed := 0; msgs_produced := 0; msgs_consumed := 0;
     read_sleeps := 0; write_sleeps := 0; mode := 0; mmap_ctrl := None; mmap_data := None;
     cdevp := 0; devno := 0; dev_node := 0; dynamic := false; minor_off := 0; ref := 0 |}.

(** The slot a ring operation takes the address of; [None] is an address
    outside the array. *)
Definition slot_at (d : kbuf_dev) (i : Z) : option kbuf_slot :=
  sa ← slots d; if 0 <=? i then sa_slots sa !! Z.to_nat i else None.

Definition put_slot (i : Z) (s : kbuf_slot) (d : kbuf_dev) : kbuf_dev :=
  match slots d with
  | Some sa => d <| slots := Some (SlotArray (sa_ptr sa) (<[Z.to_nat i := s]> (sa_slots sa))) |>
  | None => d
  end.

(** What a full slot carries. *)
Definition slot_msg (s : kbuf_slot) : list byte := take (Z.to_nat (len s)) (kb_bytes (data s)).

(** ** Trace events (src/kbuf_trace.h) *)
Inductive trace_event : Set :=
  | kbuf_produce (id bytes occupancy : Z)
  | kbuf_consume (id bytes occupancy : Z)
  | kbuf_wakeup (id woke_readers : Z).

(** ** Well-formed devices

    The geometry the slot array has, the two index representations, and which
    of them is live: [KBUF_IOCSMODE] and [KBUF_IOCRESIZE] clear both, so the one
    the mode does not use stays at zero. *)
Definition slot_ok (bsize : Z) (s : kbuf_slot) : Prop :=
  Z.of_nat (length (kb_bytes (data s))) = bsize /\ 0 <= len s <= bsize.

Record geometry_ok (d : kbuf_dev) : Prop := {
  geo_n : 1 <= num_buffers d <= KBUF_MAX_NUM_BUFFERS;
  geo_b : 1 <= buffer_size d <= KBUF_MAX_BUFFER_SIZE;
  geo_slots : exists sa, slots d = Some sa /\
    Z.of_nat (length (sa_slots sa)) = num_buffers d /\
    Forall (slot_ok (buffer_size d)) (sa_slots sa)
}.

Record blocking_ok (d : kbuf_dev) : Prop := {
  blk_rp : 0 <= read_pos d < num_buffers d;
  blk_count : 0 <= count d <= num_buffers d;
  blk_wp : write_pos d = (read_pos d + count d) mod num_buffers d;
  blk_peak : count d <= peak_count d
}.

Record spsc_ok (d : kbuf_dev) : Prop := {
  sp_pow2 : is_power_of_2 (num_buffers d) = true;
  sp_prod : in_u32 (prod_idx d);
  sp_cons : in_u32 (cons_idx d);
  sp_occ : u32 (prod_idx d - cons_idx d) <= num_buffers d
}.

Record stats_ok (d : kbuf_dev) : Prop := {
  sto_peak : 0 <= peak_count d <= num_buffers d;
  sto_u64 : Forall in_u64 [bytes_produced d; bytes_consumed d; msgs_produced d;
                           msgs_consumed d; read_sleeps d; write_sleeps d]
}.

Definition ring_ok (d : kbuf_dev) : Prop :=
  if mode d =? KBUF_MODE_SPSC
  then spsc_ok d /\ read_pos d = 0 /\ write_pos d = 0 /\ count d = 0
  else mode d = KBUF_MODE_BLOCKING /\ blocking_ok d /\ prod_idx d = 0 /\ cons_idx d = 0.

Definition dev_ok (d : kbuf_dev) : Prop := geometry_ok d /\ ring_ok d /\ stats_ok d.

(** ** The abstract queue

    Messages in the order they will be read. *)
Definition queue_window (d : kbuf_dev) (start : Z) (k : Z) : list (list byte) :=
  match slots d with
  | Some sa => slot_msg <$> window (num_buffers d) (sa_slots sa) start (Z.to_nat k)
  | None => []
  end.

Definition blocking_queue (d : kbuf_dev) : list (list byte) :=
  queue_window d (read_pos d) (count d).

Definition spsc_queue (d : kbuf_dev) : list (list byte) :=
  queue_window d (cons_idx d) (u32 (prod_idx d - cons_idx d)).

Definition dev_queue (d : kbuf_dev) : list (list byte) :=
  if mode d =? KBUF_MODE_SPSC then spsc_queue d else blocking_queue d.
