(* ===== verification/Alloc.v ===== *)
(** * Alloc: the slot array's memory (src/kbuf_ring.c, kbuf_alloc_slots and
    kbuf_free_slots)

    Both functions run against the abstract kernel ledger; the theorems say an
    allocation that fails half-way gives everything back, and that freeing an
    allocated array returns exactly its blocks. *)

From S2P Require Import Prelude Kernel Uapi Device.
#[local] Open Scope Z_scope.

(** Adding and removing a batch of handles. *)
Definition ledger_add (rk : rkind) (ps : list Z) (m : gmap Z rkind) : gmap Z rkind :=
  foldr (fun p => <[p := rk]>) m ps.

Definition ledger_del (ps : list Z) (m : gmap Z rkind) : gmap Z rkind := foldr delete m ps.

(** [ps] is a batch of distinct handles none of which is in [m]. *)
Definition fresh_batch (ps : list Z) (m : gmap Z rkind) : Prop :=
  NoDup ps /\ (forall p, p ∈ ps -> m !! p = None).

(** [ps] is a batch of distinct handles outstanding in [m] as [rk]. *)
Definition held_batch (rk : rkind) (ps : list Z) (m : gmap Z rkind) : Prop :=
  NoDup ps /\ (forall p, p ∈ ps -> m !! p = Some rk).

Definition slot_ptrs (sl : list kbuf_slot) : list Z := (fun s => kb_ptr (data s)) <$> sl.

(** The blocks a slot array owns: the array and one buffer per slot. *)
Definition array_ptrs (sa : slot_array) : list Z := sa_ptr sa :: slot_ptrs (sa_slots sa).

Section alloc.
Context {K : Type} `{Kernel K}.

(** [kfree] of each pointer in turn. *)
Definition kfree_all (ps : list Z) (k : K) : K := foldl (fun k p => k_release RkMem p k) k ps.

Fixpoint alloc_bufs (n : nat) (buffer_size : Z) (sl : list kbuf_slot) (k : K)
  : option (list kbuf_slot) * K :=
  match n with
  | O => (Some sl, k)
  | S n' =>
    match k_acquire RkMem k with
    | (inl p, k') =>
      let s := KbufSlot (KBuffer p (k_junk k' p buffer_size)) 0 in
      alloc_bufs n' buffer_size (sl ++ [s]) k'
    | (inr _, k') =>
      (* while (i--) kfree(slots[i].data): last allocated first *)
      (None, kfree_all (reverse (slot_ptrs sl)) k')
    end
  end.

Definition kbuf_alloc_slots (num_buffers buffer_size : Z) (k : K) : option slot_array * K :=
  match k_acquire RkMem k with
  | (inr _, k') => (None, k')
  | (inl arr, k') =>
    match alloc_bufs (Z.to_nat num_buffers) buffer_size [] k' with
    | (Some sl, k'') => (Some (SlotArray arr sl), k'')
    | (None, k'') => (None, k_release RkMem arr k'')
    end
  end.

(** Freeing reads [slots[i].data] for every [i < num_buffers]. *)
Definition kbuf_free_slots (slots : option slot_array) (num_buffers : Z) (k : K) : exec K :=
  match slots with
  | None => Done k
  | Some sa =>
    if num_buffers <=? Z.of_nat (length (sa_slots sa)) then
      let k' := kfree_all (slot_ptrs (take (Z.to_nat num_buffers) (sa_slots sa))) k in
      Done (k_release RkMem (sa_ptr sa) k')
    else Oops OutOfBounds
  end.
End alloc.

(** ** Ledger lemmas *)
Lemma ledger_add_snoc rk ps p m :
  p ∉ ps -> ledger_add rk (ps ++ [p]) m = <[p := rk]> (ledger_add rk ps m).
Proof.
  intros Hp. unfold ledger_add. rewrite foldr_app. simpl.
  induction ps as [| q ps IH]; [done |]. simpl. apply not_elem_of_cons in Hp as [Hne Hp].
  by rewrite IH, insert_insert_ne by done.
Qed.

Lemma ledger_add_lookup rk ps m q :
  ledger_add rk ps m !! q = if decide (q ∈ ps) then Some rk else m !! q.
Proof.
  induction ps as [| p ps IH]; simpl; [done |].
  destruct (decide (p = q)) as [-> | Hne].
  - rewrite lookup_insert_eq. rewrite decide_True; [done | by left].
  - rewrite lookup_insert_ne, IH by done.
    destruct (decide (q ∈ ps)); [rewrite decide_True | rewrite decide_False]; set_solver.
Qed.

Lemma ledger_del_lookup ps m q :
  ledger_del ps m !! q = if decide (q ∈ ps) then None else m !! q.
Proof.
  induction ps as [| p ps IH]; simpl; [done |].
  destruct (decide (p = q)) as [-> | Hne].
  - rewrite lookup_delete_eq. rewrite decide_True; [done | by left].
  - rewrite lookup_delete_ne, IH by done.
    destruct (decide (q ∈ ps)); [rewrite decide_True | rewrite decide_False]; set_solver.
Qed.

(** Taking a fresh batch out again restores the ledger. *)
Lemma ledger_del_add rk ps m : fresh_batch ps m -> ledger_del ps (ledger_add rk ps m) = m.
Proof.
  intros [_ Hf]. apply map_eq. intros q. rewrite ledger_del_lookup, ledger_add_lookup.
  case_decide as Hq; [| done]. symmetry. by apply Hf.
Qed.

Lemma held_batch_add rk ps m : NoDup ps -> held_batch rk ps (ledger_add rk ps m).
Proof.
  intros Hnd. split; [done |]. intros p Hp. rewrite ledger_add_lookup. by rewrite decide_True.
Qed.

Lemma ledger_del_perm ps qs m : ps ≡ₚ qs -> ledger_del ps m = ledger_del qs m.
Proof.
  intros Hp. apply map_eq. intros q. rewrite !ledger_del_lookup.
  destruct (decide (q ∈ ps)) as [Hq | Hq]; rewrite Hp in Hq;
    [by rewrite decide_True | by rewrite decide_False].
Qed.

Section ledger.
Context {K : Type} `{KernelLaws K}.

(** Releasing a batch of distinct outstanding blocks. *)
Lemma kfree_all_spec ps (k : K) :
  held_batch RkMem ps (k_held k) ->
  k_held (kfree_all ps k) = ledger_del ps (k_held k) /\ k_ida (kfree_all ps k) = k_ida k.
Proof.
  revert k. induction ps as [| p ps IH]; intros k [Hnd Hall]; [done |]. simpl.
  apply NoDup_cons in Hnd as [Hni Hnd].
  destruct (release_ok RkMem p k) as [Hh Hi]; [apply Hall; by left |].
  destruct (IH (k_release RkMem p k)) as [Hh' Hi'].
  - split; [done |]. intros q Hq. rewrite Hh, lookup_delete_ne by set_solver.
    apply Hall. by right.
  - unfold kfree_all in *. simpl. rewrite Hh', Hi', Hh, Hi. split; [| done].
    apply map_eq. intros q. rewrite !ledger_del_lookup, !lookup_delete, ledger_del_lookup.
    by repeat case_decide.
Qed.

(** The allocation loop: all the buffers, or none. *)
Lemma alloc_bufs_spec n size sl (k0 k : K) :
  0 <= size ->
  fresh_batch (slot_ptrs sl) (k_held k0) ->
  k_held k = ledger_add RkMem (slot_ptrs sl) (k_held k0) -> k_ida k = k_ida k0 ->
  Forall (slot_ok size) sl ->
  match alloc_bufs n size sl k with
  | (Some sl', k') =>
    length sl' = (length sl + n)%nat /\ Forall (slot_ok size) sl' /\
    fresh_batch (slot_ptrs sl') (k_held k0) /\
    k_held k' = ledger_add RkMem (slot_ptrs sl') (k_held k0) /\ k_ida k' = k_ida k0
  | (None, k') => k_held k' = k_held k0 /\ k_ida k' = k_ida k0
  end.
Proof.
  intros Hsz. revert sl k. induction n as [| n IH]; intros sl k Hf Hh Hi Hsl; simpl.
  { split_and!; (done || lia). }
  destruct (k_acquire RkMem k) as [[p | e] k'] eqn:Ha.
  - apply acquire_ok in Ha as (Hp & Hh' & Hi'). destruct Hf as [Hnd Hf].
    rewrite Hh, ledger_add_lookup in Hp. case_decide as Hin; [done |].
    set (s := KbufSlot _ _).
    assert (Hsp : slot_ptrs (sl ++ [s]) = slot_ptrs sl ++ [p])
      by (unfold slot_ptrs; by rewrite fmap_app).
    specialize (IH (sl ++ [s]) k'). rewrite Hsp in IH.
    replace (length sl + S n)%nat with (length (sl ++ [s]) + n)%nat
      by (rewrite length_app; simpl; lia).
    apply IH; [| by rewrite Hh', Hh, ledger_add_snoc | congruence |].
    + split; [| set_solver]. apply NoDup_app. split_and!; [done | set_solver |].
      apply NoDup_singleton.
    + apply Forall_app. split; [done |]. apply Forall_singleton.
      split; simpl; [by apply junk_length | lia].
  - apply acquire_err in Ha as (_ & Hh' & Hi'). destruct Hf as [Hnd Hf].
    destruct (kfree_all_spec (reverse (slot_ptrs sl)) k') as [Hk Hki].
    { rewrite Hh', Hh. split; [by rewrite reverse_Permutation |].
      intros p Hp. rewrite reverse_Permutation in Hp. by apply (proj2 (held_batch_add RkMem _ (k_held k0) Hnd)). }
    rewrite Hk, Hki, Hh', Hh, Hi', Hi.
    rewrite (ledger_del_perm _ _ _ (reverse_Permutation _)). by rewrite ledger_del_add.
Qed.

(** [kbuf_alloc_slots] either owns a fresh array with a buffer per slot, or
    has given everything back. *)
Lemma kbuf_alloc_slots_spec n size (k : K) :
  0 <= n -> 0 <= size ->
  match kbuf_alloc_slots n size k with
  | (Some sa, k') =>
    Z.of_nat (length (sa_slots sa)) = n /\ Forall (slot_ok size) (sa_slots sa) /\
    fresh_batch (array_ptrs sa) (k_held k) /\
    k_held k' = ledger_add RkMem (array_ptrs sa) (k_held k) /\ k_ida k' = k_ida k
  | (None, k') => k_held k' = k_held k /\ k_ida k' = k_ida k
  end.
Proof.
  intros Hn Hsz. unfold kbuf_alloc_slots.
  destruct (k_acquire RkMem k) as [[p | e] k1] eqn:Ha;
    [| by apply acquire_err in Ha as (_ & ? & ?)].
  apply acquire_ok in Ha as (Hp & Hh & Hi).
  assert (Hnil : fresh_batch (slot_ptrs []) (k_held k1))
    by (split; [apply NoDup_nil_2 | by intros q Hq%elem_of_nil]).
  pose proof (alloc_bufs_spec (Z.to_nat n) size [] k1 k1 Hsz Hnil eq_refl eq_refl
                (List.Forall_nil _)) as Hb.
  destruct (alloc_bufs (Z.to_nat n) size [] k1) as [[sl |] k2].
  - destruct Hb as (Hl & Hall & [Hnd Hf] & Hh2 & Hi2). simpl. rewrite Hh in *.
    assert (Hni : p ∉ slot_ptrs sl)
      by (intros Hin; specialize (Hf p Hin); by rewrite lookup_insert_eq in Hf).
    split_and!; [simpl in *; lia | done | | | congruence].
    + split; [by apply NoDup_cons |]. intros q [-> | Hq]%elem_of_cons; [done |].
      specialize (Hf q Hq). destruct (decide (p = q)) as [-> |]; [done |].
      by rewrite lookup_insert_ne in Hf.
    + rewrite Hh2. unfold array_ptrs. simpl. apply map_eq. intros q.
      rewrite ledger_add_lookup, !lookup_insert, ledger_add_lookup.
      repeat case_decide; set_solver.
  - destruct Hb as [Hh2 Hi2]. destruct (release_ok RkMem p k2) as [Hh3 Hi3].
    { by rewrite Hh2, Hh, lookup_insert_eq. }
    rewrite Hh3, Hi3, Hh2, Hi2, Hh, Hi. split; [| done]. by apply delete_insert_id.
Qed.

(** [kbuf_free_slots] returns exactly the blocks of the array. *)
Lemma kbuf_free_slots_spec sa n (k : K) :
  n = Z.of_nat (length (sa_slots sa)) -> held_batch RkMem (array_ptrs sa) (k_held k) ->
  exists k', kbuf_free_slots (Some sa) n k = Done k' /\
    k_held k' = ledger_del (array_ptrs sa) (k_held k) /\ k_ida k' = k_ida k.
Proof.
  intros -> [Hnd Hall]. unfold kbuf_free_slots. rewrite Z.leb_refl, Nat2Z.id, firstn_all.
  apply NoDup_cons in Hnd as [Hni Hnd].
  destruct (kfree_all_spec (slot_ptrs (sa_slots sa)) k) as [Hh Hi].
  { split; [done |]. intros p Hp. apply Hall. by right. }
  destruct (release_ok RkMem (sa_ptr sa) (kfree_all (slot_ptrs (sa_slots sa)) k)) as [Hh2 Hi2].
  { rewrite Hh, ledger_del_lookup, decide_False by done. apply Hall. by left. }
  eexists. split; [done |]. by rewrite Hh2, Hi2, Hh, Hi.
Qed.
End ledger.
