(* ===== verification/Mmap.v ===== *)
(** * Mmap: the double-mapped byte ring (src/kbuf_mmap.c)

    The two vmalloc areas of a device, the checks of [kbuf_mmap], and the fault
    handler that maps the data area twice in a row.  A page of a vmalloc area
    is named by the area and its index there; the memory behind a mapping is
    the device's [mmap_data], reached through [kbuf_vm_fault] byte by byte. *)

From S2P Require Import Prelude Kernel Uapi Device Alloc.
#[local] Open Scope Z_scope.

Record page := Page { pg_area : Z; pg_index : Z }.

Record vm_area := VmArea {
  vm_start : Z;
  vm_end : Z;
  vm_pgoff : Z;
  vm_private_data : Z;
  vm_dontexpand : bool;
  vm_dontdump : bool;
  vm_kbuf_ops : bool        (** [vm_ops == &kbuf_vm_ops] *)
}.

(** The kernel's paging: the page size is the architecture's, and
    [remap_vmalloc_range] of the area at an address, whose size it looks up, is
    the memory manager's.  It returns its result and the page it put [j] pages
    from the start of the mapping. *)
Class Paging := {
  PAGE_SIZE : Z;
  remap_vmalloc_range (addr : option Z) (size : Z) (vma : vm_area) (pgoff : Z) : Z * (Z -> option page)
}.

(** The driver needs the page size to divide the ring.  The documentation of
    [remap_vmalloc_range]: 0 or an errno; it checks that the area is big enough to
    cover the mapping, and fails if it is not; it maps the area's pages from
    [pgoff] on. *)
Class PagingLaws `{Paging} : Prop := {
  page_pos : 0 < PAGE_SIZE;
  page_divides : (PAGE_SIZE | KBUF_MMAP_CAPACITY);
  remap_errno addr size vma pgoff :
    let r := (remap_vmalloc_range addr size vma pgoff).1 in r = 0 \/ is_errno r;
  remap_covers a size vma pgoff :
    0 <= pgoff -> vm_start vma <= vm_end vma ->
    (remap_vmalloc_range (Some a) size vma pgoff).1 = 0 <->
    pgoff * PAGE_SIZE + (vm_end vma - vm_start vma) <= size;
  remap_pages a size vma pgoff j :
    (remap_vmalloc_range (Some a) size vma pgoff).1 = 0 ->
    0 <= j * PAGE_SIZE < vm_end vma - vm_start vma ->
    (remap_vmalloc_range (Some a) size vma pgoff).2 j = Some (Page a (pgoff + j))
}.

(** Pages of 4 KiB. *)
#[export] Instance page4k : Paging := {
  PAGE_SIZE := 4096;
  remap_vmalloc_range addr size vma pgoff :=
    match addr with
    | Some a =>
      if pgoff * 4096 + (vm_end vma - vm_start vma) <=? size
      then (0, fun j => if (0 <=? j) && (j * 4096 <? vm_end vma - vm_start vma)
                        then Some (Page a (pgoff + j)) else None)
      else (- EINVAL, fun _ => None)
    | None => (- EINVAL, fun _ => None)
    end
}.

#[export] Instance page4k_laws : PagingLaws (H := page4k).
Proof.
  split; cbn; [done | by exists 16 | | |].
  - intros [a |] size vma pgoff; [case_match |]; cbn; [by left | right .. ]; unfold is_errno, EINVAL; lia.
  - intros a size vma pgoff Ho Hv. unfold EINVAL.
    destruct (Z.leb_spec (pgoff * 4096 + (vm_end vma - vm_start vma)) size); cbn; split; (done || lia).
  - intros a size vma pgoff j. case_match; cbn; [| done]. intros _ [Hj Hl].
    rewrite (proj2 (Z.leb_le 0 j)), (proj2 (Z.ltb_lt _ _)) by lia. done.
Qed.

Section mmap.
Context `{Paging} {K : Type} `{Kernel K}.

Definition kbuf_mmap_dev_alloc (d : kbuf_dev) (k : K) : Z * kbuf_dev * K :=
  match k_acquire RkVmem k with
  | (inr _, k1) => (- ENOMEM, d <| mmap_ctrl := None |>, k1)
  | (inl c, k1) =>
    match k_acquire RkVmem k1 with
    | (inr _, k2) =>
      (- ENOMEM, d <| mmap_data := None |> <| mmap_ctrl := None |>, k_release RkVmem c k2)
    | (inl p, k2) =>
      let ring := replicate (Z.to_nat KBUF_MMAP_CAPACITY) x00 in
      (0, d <| mmap_data := Some (KBuffer p ring) |>
            <| mmap_ctrl := Some (KbufMmapCtrl c 0 0 KBUF_MMAP_CAPACITY) |>, k2)
    end
  end.

(** [vfree], which ignores NULL. *)
Definition vfree (p : option Z) (k : K) : K :=
  match p with Some p => k_release RkVmem p k | None => k end.

Definition kbuf_mmap_dev_free (d : kbuf_dev) (k : K) : kbuf_dev * K :=
  let k1 := vfree (kb_ptr <$> mmap_data d) k in
  let d1 := d <| mmap_data := None |> in
  let k2 := vfree (ctrl_ptr <$> mmap_ctrl d1) k1 in
  (d1 <| mmap_ctrl := None |>, k2).

(** The page at offset [off] of a vmalloc area of [size] bytes. *)
Definition vmalloc_to_page (area : option Z) (size off : Z) : option page :=
  a ← area; if (0 <=? off) && (off <? size) then Some (Page a (off / PAGE_SIZE)) else None.

(** [None] is VM_FAULT_SIGBUS. *)
Definition kbuf_vm_fault (d : kbuf_dev) (pgoff : Z) : option page :=
  let data_pages := KBUF_MMAP_CAPACITY / PAGE_SIZE in
  if pgoff =? 0 then vmalloc_to_page (ctrl_ptr <$> mmap_ctrl d) PAGE_SIZE 0
  else let idx := (pgoff - 1) mod data_pages in
       vmalloc_to_page (kb_ptr <$> mmap_data d) KBUF_MMAP_CAPACITY (idx * PAGE_SIZE).

Definition kbuf_mmap_len : Z := PAGE_SIZE + 2 * KBUF_MMAP_CAPACITY.

Definition kbuf_mmap (dev : Z) (vma : vm_area) : Z * vm_area :=
  let size := vm_end vma - vm_start vma in
  if negb (vm_pgoff vma =? 0) then (- EINVAL, vma)
  else if negb (size =? kbuf_mmap_len) then (- EINVAL, vma)
  else (0, VmArea (vm_start vma) (vm_end vma) (vm_pgoff vma) dev true true true).

(** ** Access through the mapping, at an offset from [vm_start]

    Outside the area there is nothing to fault in: the access is a SIGSEGV. *)
Definition resolve (d : kbuf_dev) (off : Z) : option (page * Z) :=
  if (0 <=? off) && (off <? kbuf_mmap_len)
  then (fun p => (p, off mod PAGE_SIZE)) <$> kbuf_vm_fault d (off / PAGE_SIZE)
  else None.

(** The data byte a page offset names; the control page holds the indices. *)
Definition data_offset (d : kbuf_dev) (pi : page * Z) : option nat :=
  buf ← mmap_data d;
  if decide (pg_area pi.1 = kb_ptr buf)
  then Some (Z.to_nat (pg_index pi.1 * PAGE_SIZE + pi.2)) else None.

Definition map_load (d : kbuf_dev) (off : Z) : option byte :=
  pi ← resolve d off; i ← data_offset d pi; buf ← mmap_data d; kb_bytes buf !! i.

Definition map_store (d : kbuf_dev) (off : Z) (b : byte) : option kbuf_dev :=
  pi ← resolve d off; i ← data_offset d pi; buf ← mmap_data d;
  Some (d <| mmap_data := Some (KBuffer (kb_ptr buf) (<[i := b]> (kb_bytes buf))) |>).

(** [memcpy] from and to the mapping. *)
Fixpoint map_read (d : kbuf_dev) (off : Z) (n : nat) : option (list byte) :=
  match n with
  | O => Some []
  | S n' => b ← map_load d off; bs ← map_read d (off + 1) n'; Some (b :: bs)
  end.

Fixpoint map_write (d : kbuf_dev) (off : Z) (bs : list byte) : option kbuf_dev :=
  match bs with
  | [] => Some d
  | b :: bs' => d1 ← map_store d off b; map_write d1 (off + 1) bs'
  end.
End mmap.

(** ** The mapping is the ring twice *)

(** The two areas of a device with its mmap ring in place. *)
Record mapped (d : kbuf_dev) (c : kbuf_mmap_ctrl) (buf : kbuffer) : Prop := {
  mp_ctrl : mmap_ctrl d = Some c;
  mp_data : mmap_data d = Some buf;
  mp_len : Z.of_nat (length (kb_bytes buf)) = KBUF_MMAP_CAPACITY;
  mp_apart : ctrl_ptr c <> kb_ptr buf
}.

Section double.
Context `{PagingLaws}.

Lemma data_page_split x :
  (x / PAGE_SIZE) mod (KBUF_MMAP_CAPACITY / PAGE_SIZE) * PAGE_SIZE + x mod PAGE_SIZE
  = x mod KBUF_MMAP_CAPACITY.
Proof.
  pose proof page_pos as Hp. destruct page_divides as [m Hm].
  assert (Hmp : 0 < m) by (unfold KBUF_MMAP_CAPACITY in Hm; nia).
  rewrite Hm, Z.div_mul by lia. rewrite (Z.mul_comm m), Z.rem_mul_r by lia. lia.
Qed.

Lemma resolve_data d c buf x :
  mapped d c buf -> 0 <= x < 2 * KBUF_MMAP_CAPACITY ->
  exists i, resolve d (PAGE_SIZE + x) = Some (Page (kb_ptr buf) i, x mod PAGE_SIZE) /\
            i * PAGE_SIZE + x mod PAGE_SIZE = x mod KBUF_MMAP_CAPACITY.
Proof.
  intros [Hc Hd Hl Ha] Hx. pose proof page_pos as Hp. destruct page_divides as [m Hm].
  assert (Hmp : 0 < m) by (unfold KBUF_MMAP_CAPACITY in Hm; nia).
  assert (Hdp : KBUF_MMAP_CAPACITY / PAGE_SIZE = m) by (rewrite Hm; apply Z.div_mul; lia).
  assert (Hpg : (PAGE_SIZE + x) / PAGE_SIZE = 1 + x / PAGE_SIZE)
    by (rewrite <- (Z.mul_1_l PAGE_SIZE) at 1; apply Z.div_add_l; lia).
  assert (Hoff : (PAGE_SIZE + x) mod PAGE_SIZE = x mod PAGE_SIZE)
    by (rewrite <- (Z.mul_1_l PAGE_SIZE) at 1; rewrite Z.add_comm; apply Z.mod_add; lia).
  unfold resolve, kbuf_mmap_len, kbuf_vm_fault. rewrite Hpg, Hoff, Hdp, Hd.
  pose proof (Z.div_pos x PAGE_SIZE (proj1 Hx) Hp) as Hq.
  pose proof (Z.mod_pos_bound (x / PAGE_SIZE) m Hmp) as Hi.
  rewrite (proj2 (Z.leb_le 0 _)), (proj2 (Z.ltb_lt (PAGE_SIZE + x) _)) by lia. cbn [andb].
  rewrite (proj2 (Z.eqb_neq _ 0)) by lia.
  replace (1 + x / PAGE_SIZE - 1) with (x / PAGE_SIZE) by lia.
  unfold vmalloc_to_page. cbn [fmap option_fmap option_map mbind option_bind].
  rewrite (proj2 (Z.leb_le 0 _)), (proj2 (Z.ltb_lt _ KBUF_MMAP_CAPACITY)) by nia.
  cbn [andb fmap option_fmap option_map]. rewrite Z.div_mul by lia. eexists. split; [done |].
  by rewrite <- data_page_split, Hdp.
Qed.

Lemma map_load_data d c buf x :
  mapped d c buf -> 0 <= x < 2 * KBUF_MMAP_CAPACITY ->
  map_load d (PAGE_SIZE + x) = kb_bytes buf !! Z.to_nat (x mod KBUF_MMAP_CAPACITY).
Proof.
  intros Hm Hx. destruct (resolve_data d c buf x Hm Hx) as (i & Hr & Hi). destruct Hm as [_ Hd _ _].
  unfold map_load, data_offset. rewrite Hr. cbn. rewrite Hd. cbn.
  rewrite decide_True by done. cbn. by rewrite Hi.
Qed.

Lemma map_store_data d c buf x b :
  mapped d c buf -> 0 <= x < 2 * KBUF_MMAP_CAPACITY ->
  map_store d (PAGE_SIZE + x) b
  = Some (d <| mmap_data := Some (KBuffer (kb_ptr buf)
            (<[Z.to_nat (x mod KBUF_MMAP_CAPACITY) := b]> (kb_bytes buf))) |>).
Proof.
  intros Hm Hx. destruct (resolve_data d c buf x Hm Hx) as (i & Hr & Hi). destruct Hm as [_ Hd _ _].
  unfold map_store, data_offset. rewrite Hr. cbn. rewrite Hd. cbn.
  rewrite decide_True by done. cbn. by rewrite Hi.
Qed.

Lemma mapped_write d c buf l :
  mapped d c buf -> length l = length (kb_bytes buf) ->
  mapped (d <| mmap_data := Some (KBuffer (kb_ptr buf) l) |>) c (KBuffer (kb_ptr buf) l).
Proof. intros [Hc Hd Hl Ha] E. split; cbn; [done | done | by rewrite E | done]. Qed.

(** A copy inside the doubled area is one turn of the ring. *)
Lemma map_read_data d c buf x n :
  mapped d c buf -> 0 <= x -> x + Z.of_nat n <= 2 * KBUF_MMAP_CAPACITY ->
  map_read d (PAGE_SIZE + x) n = Some (window KBUF_MMAP_CAPACITY (kb_bytes buf) x n).
Proof.
  intros Hm. revert x. induction n as [| n IH]; intros x Hx Hb; [done |]. cbn [map_read].
  rewrite (map_load_data d c buf x Hm) by lia.
  pose proof (Z.mod_pos_bound x KBUF_MMAP_CAPACITY ltac:(done)) as Hr.
  destruct (lookup_lt_is_Some_2 (kb_bytes buf) (Z.to_nat (x mod KBUF_MMAP_CAPACITY))) as [b Hb'].
  { destruct Hm as [_ _ Hl _]. lia. }
  rewrite Hb'. cbn [mbind option_bind].
  replace (PAGE_SIZE + x + 1) with (PAGE_SIZE + (x + 1)) by lia. rewrite IH by lia.
  cbn [mbind option_bind]. rewrite (window_cons _ _ x n b); [done |].
  unfold ring_idx. by rewrite Z.add_0_r.
Qed.

Lemma map_write_data d c buf x bs :
  mapped d c buf -> 0 <= x -> x + Z.of_nat (length bs) <= 2 * KBUF_MMAP_CAPACITY ->
  map_write d (PAGE_SIZE + x) bs
  = Some (d <| mmap_data := Some (KBuffer (kb_ptr buf)
            (write_ring KBUF_MMAP_CAPACITY (kb_bytes buf) x bs)) |>).
Proof.
  revert d buf x. induction bs as [| b bs IH]; intros d buf x Hm Hx Hb.
  { cbn. pose proof (mp_data d c buf Hm) as Hd. destruct buf, d; cbn in *. by subst. }
  cbn [map_write length] in *. rewrite (map_store_data d c buf x b Hm) by lia.
  cbn [mbind option_bind]. replace (PAGE_SIZE + x + 1) with (PAGE_SIZE + (x + 1)) by lia.
  erewrite IH; [| apply mapped_write; [done | by rewrite length_insert] | lia | lia].
  cbn [kb_ptr kb_bytes write_ring]. unfold ring_idx. by rewrite Z.add_0_r.
Qed.
End double.

(** ** The two areas and the ledger *)
Section areas.
Context {K : Type} `{KernelLaws K}.
Implicit Types (d : kbuf_dev) (k : K).

Definition ring_ptrs (c : kbuf_mmap_ctrl) (buf : kbuffer) : list Z := [kb_ptr buf; ctrl_ptr c].

(** An empty ring of full capacity in two fresh areas, or nothing. *)
Lemma kbuf_mmap_dev_alloc_spec d k :
  let '(r, d', k') := kbuf_mmap_dev_alloc d k in
  k_ida k' = k_ida k /\
  ((r = 0 /\ exists c buf, mapped d' c buf /\
      d' = d <| mmap_data := Some buf |> <| mmap_ctrl := Some c |> /\
      head c = 0 /\ tail c = 0 /\ capacity c = KBUF_MMAP_CAPACITY /\
      fresh_batch (ring_ptrs c buf) (k_held k) /\
      k_held k' = ledger_add RkVmem (ring_ptrs c buf) (k_held k)) \/
   (r = - ENOMEM /\ mmap_ctrl d' = None /\ slots d' = slots d /\
    num_buffers d' = num_buffers d /\ k_held k' = k_held k)).
Proof.
  unfold kbuf_mmap_dev_alloc.
  destruct (k_acquire RkVmem k) as [[c | e] k1] eqn:E1.
  2: { apply acquire_err in E1 as (_ & Hh & Hi). split; [done |]. right. by split_and!. }
  apply acquire_ok in E1 as (Hc & Hh1 & Hi1).
  destruct (k_acquire RkVmem k1) as [[p | e] k2] eqn:E2.
  - apply acquire_ok in E2 as (Hp & Hh2 & Hi2). rewrite Hh1 in Hp.
    assert (Hne : p <> c) by (intros ->; by rewrite lookup_insert_eq in Hp).
    rewrite lookup_insert_ne in Hp by done.
    split; [congruence |]. left. split; [done |]. eexists _, _.
    split.
    { split; [reflexivity | reflexivity | | cbn [ctrl_ptr kb_ptr]; done].
      cbn [kb_bytes]. by rewrite length_replicate, Z2Nat.id. }
    split_and!; try done.
    + split; [by apply NoDup_cons; split; [set_solver | apply NoDup_singleton] |].
      intros q Hq. apply elem_of_cons in Hq as [-> | Hq]; [done |].
      by apply list_elem_of_singleton in Hq as ->.
    + by rewrite Hh2, Hh1.
  - apply acquire_err in E2 as (_ & Hh2 & Hi2).
    destruct (release_ok RkVmem c k2) as [Hh3 Hi3]; [by rewrite Hh2, Hh1, lookup_insert_eq |].
    split; [congruence |]. right. split_and!; [done | done | done | done |].
    by rewrite Hh3, Hh2, Hh1, delete_insert_id.
Qed.

Lemma kbuf_mmap_dev_free_spec d c buf k :
  mapped d c buf -> held_batch RkVmem (ring_ptrs c buf) (k_held k) ->
  let '(d', k') := kbuf_mmap_dev_free d k in
  d' = d <| mmap_data := None |> <| mmap_ctrl := None |> /\
  k_held k' = ledger_del (ring_ptrs c buf) (k_held k) /\ k_ida k' = k_ida k.
Proof.
  intros [Hc Hd _ Ha] [Hnd Hall]. unfold kbuf_mmap_dev_free. rewrite Hd.
  cbn [fmap option_fmap option_map vfree].
  change (mmap_ctrl (d <| mmap_data := None |>)) with (mmap_ctrl d). rewrite Hc.
  cbn [fmap option_fmap option_map vfree].
  destruct (release_ok RkVmem (kb_ptr buf) k) as [Hh1 Hi1]; [apply Hall; by left |].
  destruct (release_ok RkVmem (ctrl_ptr c) (k_release RkVmem (kb_ptr buf) k)) as [Hh2 Hi2].
  { rewrite Hh1, lookup_delete_ne by done. apply Hall. right. by left. }
  split; [done |]. split; [| congruence]. rewrite Hh2, Hh1. cbn [ledger_del ring_ptrs].
  apply delete_delete.
Qed.
End areas.
