(* ===== verification/LibKbuf.v ===== *)
(** * LibKbuf: the user-space side of the mmap ring (include/libkbuf.h)

    [kbuf_map_write] and [kbuf_map_read] move bytes through the mapping of
    Mmap.v; [head] and [tail] are free-running 64-bit counters.  Run by one
    caller at a time they are a bounded byte stream. *)

From S2P Require Import Prelude Kernel Uapi Device Alloc Mmap.
#[local] Open Scope Z_scope.

Record kbuf_map := KbufMap {
  m_base : Z;
  m_ctrl : Z;
  m_data : Z;       (** [data], as an offset from [ctrl] *)
  m_cap : Z;
  m_maplen : Z
}.

Section lib.
Context `{Paging}.

(** [mmap(NULL, len, ...)] of offset 0: the kernel picks an address, builds
    the area and calls the driver. *)
Definition sys_mmap (dev base len pgoff : Z) : Z * vm_area :=
  kbuf_mmap dev (VmArea base (base + len) pgoff 0 false false false).

Definition kbuf_map_open (dev base : Z) : option kbuf_map :=
  let cap := KBUF_MMAP_CAPACITY in
  let len := PAGE_SIZE + 2 * cap in
  if (sys_mmap dev base len 0).1 =? 0 then Some (KbufMap base base PAGE_SIZE cap len) else None.

Definition with_ctrl {A} (d : kbuf_dev) (f : kbuf_mmap_ctrl -> exec A) : exec A :=
  match mmap_ctrl d with Some c => f c | None => Oops NullDeref end.

Definition set_head (v : Z) (d : kbuf_dev) : kbuf_dev :=
  match mmap_ctrl d with
  | Some c => d <| mmap_ctrl := Some (KbufMmapCtrl (ctrl_ptr c) v (tail c) (capacity c)) |>
  | None => d
  end.

Definition set_tail (v : Z) (d : kbuf_dev) : kbuf_dev :=
  match mmap_ctrl d with
  | Some c => d <| mmap_ctrl := Some (KbufMmapCtrl (ctrl_ptr c) (head c) v (capacity c)) |>
  | None => d
  end.

Definition kbuf_map_reset (d : kbuf_dev) : kbuf_dev := set_tail 0 (set_head 0 d).

(** Copy up to [length buf] bytes in; the number copied. *)
Definition kbuf_map_write (m : kbuf_map) (buf : list byte) (d : kbuf_dev) : exec (Z * kbuf_dev) :=
  with_ctrl d (fun c =>
    let space := u64 (m_cap m - u64 (head c - tail c)) in
    let n := if Z.of_nat (length buf) >? space then space else Z.of_nat (length buf) in
    if n =? 0 then Done (0, d) else
    let off := Z.land (head c) (m_cap m - 1) in
    match map_write d (m_data m + off) (take (Z.to_nat n) buf) with
    | None => Oops OutOfBounds
    | Some d1 => Done (n, set_head (u64 (head c + n)) d1)
    end).

(** Copy up to [n] bytes out; the bytes and their number. *)
Definition kbuf_map_read (m : kbuf_map) (n : Z) (d : kbuf_dev)
  : exec (Z * list byte * kbuf_dev) :=
  with_ctrl d (fun c =>
    let avail := u64 (head c - tail c) in
    let n := if n >? avail then avail else n in
    if n =? 0 then Done (0, [], d) else
    let off := Z.land (tail c) (m_cap m - 1) in
    match map_read d (m_data m + off) (Z.to_nat n) with
    | None => Oops OutOfBounds
    | Some bs => Done (n, bs, set_tail (u64 (tail c + n)) d)
    end).
End lib.

(** ** The byte stream *)
Definition map_stream (d : kbuf_dev) : list byte :=
  match mmap_ctrl d, mmap_data d with
  | Some c, Some buf =>
    window KBUF_MMAP_CAPACITY (kb_bytes buf) (tail c) (Z.to_nat (u64 (head c - tail c)))
  | _, _ => []
  end.

Record map_ok (d : kbuf_dev) (c : kbuf_mmap_ctrl) (buf : kbuffer) : Prop := {
  mo_mapped : mapped d c buf;
  mo_head : in_u64 (head c);
  mo_tail : in_u64 (tail c);
  mo_occ : u64 (head c - tail c) <= KBUF_MMAP_CAPACITY
}.

Lemma capacity_pow2 : is_power_of_2 KBUF_MMAP_CAPACITY = true.
Proof. done. Qed.

(** A 64-bit counter that wraps still names the same ring position. *)
Lemma u64_ring x : u64 x mod KBUF_MMAP_CAPACITY = x mod KBUF_MMAP_CAPACITY.
Proof. by apply mod_wrap_pow2. Qed.

Lemma land_ring x : Z.land x (KBUF_MMAP_CAPACITY - 1) = x mod KBUF_MMAP_CAPACITY.
Proof. by apply land_pow2_mod. Qed.

Lemma stream_window d c buf :
  mapped d c buf ->
  map_stream d = window KBUF_MMAP_CAPACITY (kb_bytes buf) (tail c) (Z.to_nat (u64 (head c - tail c))).
Proof. intros [Hc Hd _ _]. unfold map_stream. by rewrite Hc, Hd. Qed.

Lemma length_stream d c buf :
  map_ok d c buf -> Z.of_nat (length (map_stream d)) = u64 (head c - tail c).
Proof.
  intros [Hm _ _ Ho]. rewrite (stream_window d c buf Hm).
  rewrite length_window by (done || apply Hm). pose proof (u64_range (head c - tail c)) as [? _]. lia.
Qed.

Section stream.
Context `{PagingLaws}.

Definition user_map (base : Z) : kbuf_map :=
  KbufMap base base PAGE_SIZE KBUF_MMAP_CAPACITY (PAGE_SIZE + 2 * KBUF_MMAP_CAPACITY).

(** Room and amount, once the contract of the indices is known. *)
Lemma clamp_min (x y : Z) : (if x >? y then y else x) = Z.min x y.
Proof. destruct (Z.gtb_spec x y); lia. Qed.

Lemma u64_space d c buf :
  map_ok d c buf ->
  u64 (KBUF_MMAP_CAPACITY - u64 (head c - tail c)) = KBUF_MMAP_CAPACITY - u64 (head c - tail c).
Proof.
  intros [_ _ _ Ho]. pose proof (u64_range (head c - tail c)) as [? _].
  apply u64_small. unfold in_u64, KBUF_MMAP_CAPACITY in *. lia.
Qed.

(** Advancing one of the two counters by no more than it may. *)
Lemma u64_advance_head h t n :
  in_u64 h -> 0 <= n -> u64 (h - t) + n < 2 ^ 64 -> u64 (u64 (h + n) - t) = u64 (h - t) + n.
Proof.
  intros Hh Hn Hb. unfold u64 in *. rewrite Zminus_mod_idemp_l.
  replace (h + n - t) with (h - t + n) by lia. rewrite <- Zplus_mod_idemp_l.
  apply Z.mod_small. pose proof (Z.mod_pos_bound (h - t) (2 ^ 64) ltac:(done)). lia.
Qed.

Lemma u64_advance_tail h t n :
  0 <= n <= u64 (h - t) -> u64 (h - u64 (t + n)) = u64 (h - t) - n.
Proof.
  intros Hn. unfold u64 in *. rewrite Zminus_mod_idemp_r.
  replace (h - (t + n)) with (h - t - n) by lia. rewrite <- Zminus_mod_idemp_l.
  apply Z.mod_small. pose proof (Z.mod_pos_bound (h - t) (2 ^ 64) ltac:(done)). lia.
Qed.

Lemma kbuf_map_write_spec base buf0 d c buf :
  map_ok d c buf ->
  let n := Z.min (Z.of_nat (length buf0))
                 (KBUF_MMAP_CAPACITY - Z.of_nat (length (map_stream d))) in
  exists d' c' buf', kbuf_map_write (user_map base) buf0 d = Done (n, d') /\
    map_ok d' c' buf' /\ map_stream d' = map_stream d ++ take (Z.to_nat n) buf0 /\
    tail c' = tail c /\ ring_ptrs c' buf' = ring_ptrs c buf.
Proof.
  intros Hok n. pose proof Hok as [Hm Hh Ht Ho]. pose proof Hm as [Hc Hd Hl Ha].
  pose proof (length_stream d c buf Hok) as Hlen. pose proof (u64_range (head c - tail c)) as [Hr _].
  unfold kbuf_map_write, with_ctrl. rewrite Hc. cbn [m_cap m_data user_map].
  rewrite (u64_space d c buf Hok), clamp_min. rewrite <- Hlen. fold n.
  destruct (Z.eqb_spec n 0) as [E | E].
  { exists d, c, buf. split; [by rewrite E |]. split; [done |]. split_and!; [| done | done].
    by rewrite E, app_nil_r. }
  assert (Hn : 0 < n) by lia. rewrite land_ring.
  pose proof (Z.mod_pos_bound (head c) KBUF_MMAP_CAPACITY ltac:(done)) as Hoff.
  assert (Htk : length (take (Z.to_nat n) buf0) = Z.to_nat n) by (rewrite length_take; lia).
  rewrite (map_write_data d c buf _ _ Hm) by (rewrite ?Htk; lia).
  set (l' := write_ring _ _ _ _). unfold set_head.
  change (mmap_ctrl (d <| mmap_data := _ |>)) with (mmap_ctrl d). rewrite Hc.
  set (c' := KbufMmapCtrl _ _ _ _). set (d' := _ <| mmap_ctrl := _ |>).
  assert (Hm' : mapped d' c' (KBuffer (kb_ptr buf) l')).
  { split; cbn [kb_ptr kb_bytes ctrl_ptr c']; try done. unfold l'. by rewrite length_write_ring. }
  assert (Hocc : u64 (head c' - tail c') = u64 (head c - tail c) + n).
  { apply u64_advance_head; [done | lia |]. unfold KBUF_MMAP_CAPACITY in *. lia. }
  assert (Hok' : map_ok d' c' (KBuffer (kb_ptr buf) l')).
  { split; [done | apply u64_range | done |]. rewrite Hocc. lia. }
  exists d', c', (KBuffer (kb_ptr buf) l'). split; [done |]. split_and!; try done.
  rewrite (stream_window d' _ _ Hm'), (stream_window d _ _ Hm), Hocc. cbn [kb_bytes].
  rewrite Z2Nat.inj_add by lia. unfold l'. rewrite <- Htk at 2.
  assert (Hst : write_ring KBUF_MMAP_CAPACITY (kb_bytes buf) (head c mod KBUF_MMAP_CAPACITY)
                  (take (Z.to_nat n) buf0)
                = write_ring KBUF_MMAP_CAPACITY (kb_bytes buf)
                    (tail c + Z.of_nat (Z.to_nat (u64 (head c - tail c)))) (take (Z.to_nat n) buf0)).
  { apply write_ring_congr; [done |]. rewrite Z.mod_mod, Z2Nat.id by (done || lia).
    rewrite <- (Z.add_mod_idemp_r (tail c)), u64_ring, Z.add_mod_idemp_r by done. f_equal. lia. }
  rewrite Hst. apply window_write_ring; [done | done | lia].
Qed.

Lemma kbuf_map_read_spec base n0 d c buf :
  map_ok d c buf -> 0 <= n0 ->
  let n := Z.min n0 (Z.of_nat (length (map_stream d))) in
  exists d' c', kbuf_map_read (user_map base) n0 d
                = Done (n, take (Z.to_nat n) (map_stream d), d') /\
    map_ok d' c' buf /\ map_stream d' = drop (Z.to_nat n) (map_stream d) /\
    head c' = head c /\ ring_ptrs c' buf = ring_ptrs c buf.
Proof.
  intros Hok Hn0 n. pose proof Hok as [Hm Hh Ht Ho]. pose proof Hm as [Hc Hd Hl Ha].
  pose proof (length_stream d c buf Hok) as Hlen. pose proof (u64_range (head c - tail c)) as [Hr _].
  unfold kbuf_map_read, with_ctrl. rewrite Hc. cbn [m_cap m_data user_map].
  rewrite clamp_min. rewrite <- Hlen. fold n.
  destruct (Z.eqb_spec n 0) as [E | E].
  { exists d, c. rewrite E. by split_and!. }
  assert (Hn : 0 < n) by lia. rewrite land_ring.
  pose proof (Z.mod_pos_bound (tail c) KBUF_MMAP_CAPACITY ltac:(done)) as Hoff.
  rewrite (map_read_data d c buf _ _ Hm) by lia.
  rewrite (window_congr KBUF_MMAP_CAPACITY ltac:(done) _ _ (tail c)) by (by apply Z.mod_mod).
  unfold set_tail. rewrite Hc. set (c' := KbufMmapCtrl _ _ _ _). set (d' := _ <| mmap_ctrl := _ |>).
  assert (Hocc : u64 (head c' - tail c') = u64 (head c - tail c) - n)
    by (apply u64_advance_tail; lia).
  assert (Hok' : map_ok d' c' buf).
  { split; [by split | done | apply u64_range |]. rewrite Hocc. lia. }
  exists d', c'.
  rewrite (stream_window d c buf Hm), (stream_window d' c' buf (mo_mapped _ _ _ Hok')), Hocc.
  replace (Z.to_nat (u64 (head c - tail c)))
    with (Z.to_nat n + Z.to_nat (u64 (head c - tail c) - n))%nat by lia.
  rewrite window_split, take_app_length', drop_app_length' by (rewrite length_window; lia || done).
  split; [done |]. split_and!; try done. apply window_congr; [done |].
  cbn [c' tail]. rewrite u64_ring. f_equal. lia.
Qed.

(** [kbuf_mmap_dev_alloc] leaves an empty stream. *)
Lemma alloc_stream d c buf :
  mapped d c buf -> head c = 0 -> tail c = 0 -> map_ok d c buf /\ map_stream d = [].
Proof.
  intros Hm Hh Ht. split.
  - split; [done | by rewrite Hh | by rewrite Ht |].
    by rewrite Hh, Ht.
  - rewrite (stream_window d c buf Hm), Hh, Ht. done.
Qed.
End stream.
