(* ===== verification/Ctl.v ===== *)
(** * Ctl: dynamic devices and their lifetime (src/kbuf_ctl.c, and the open,
    release and dma-buf export paths that share their references)

    A dynamic [kbuf_dev] lives on the heap at the address [kzalloc] returned;
    [c_heap] holds the ones that exist, and touching an address that is not
    there is a use after free.  The device's other resources are in the kernel
    ledger, its node among them: [dev_name(dev->dev)] reads the struct device of
    the node, which [device_destroy] gives up while files may still be open.
    [c_names] is what the dma-buf core keeps as the name of each exported buffer:
    the pointer it was given, here the node it points into. *)

From S2P Require Import Prelude Kernel Uapi Device Alloc Mmap.
#[local] Open Scope Z_scope.

Section ctl.
Context {K : Type} `{Kernel K}.

Record cworld := CWorld {
  c_heap : gmap Z kbuf_dev;
  c_list : list Z;          (** [kbuf_dyn_list] *)
  c_kern : K;
  c_names : gmap Z Z
}.

Definition eta_cworld (w : cworld) : cworld :=
  CWorld (c_heap w) (c_list w) (c_kern w) (c_names w).

#[global] Instance set_c_heap : Setter c_heap := ltac:(make_setter c_heap eta_cworld).
#[global] Instance set_c_list : Setter c_list := ltac:(make_setter c_list eta_cworld).
#[global] Instance set_c_kern : Setter c_kern := ltac:(make_setter c_kern eta_cworld).
#[global] Instance set_c_names : Setter c_names := ltac:(make_setter c_names eta_cworld).

(** A kernel call. *)
Definition kern {A} (f : K -> A * K) : prog cworld A :=
  fun w => let '(a, k') := f (c_kern w) in Done (a, w <| c_kern := k' |>).

Definition release (rk : rkind) (p : Z) : prog cworld unit :=
  p_modify (fun w => w <| c_kern := k_release rk p (c_kern w) |>).

(** [*dev] and its update. *)
Definition get_dev (p : Z) : prog cworld kbuf_dev :=
  w <-- p_get ;; p_some UseAfterFree (c_heap w !! p).

Definition put_dev (p : Z) (d : kbuf_dev) : prog cworld unit :=
  p_modify (fun w => w <| c_heap := <[p := d]> (c_heap w) |>).

Definition upd_dev (p : Z) (f : kbuf_dev -> kbuf_dev) : prog cworld unit :=
  d <-- get_dev p ;; put_dev p (f d).

Definition kfree_dev (p : Z) : prog cworld unit :=
  p_modify (fun w => w <| c_heap := delete p (c_heap w) |>) ;;; release RkMem p.

Definition free_slots_of (d : kbuf_dev) : prog cworld unit :=
  w <-- p_get ;;
  fun w' => exec_bind (kbuf_free_slots (slots d) (num_buffers d) (c_kern w))
                      (fun k' => Done (tt, w' <| c_kern := k' |>)).

Definition mmap_free_of (p : Z) : prog cworld unit :=
  d <-- get_dev p ;;
  d' <-- kern (kbuf_mmap_dev_free d) ;;
  put_dev p d'.

Definition ida_release (off : Z) : prog cworld unit :=
  p_modify (fun w => w <| c_kern := ida_free off (c_kern w) |>).

(** [dev_name(dev->dev)] reads the device node object, which must still exist. *)
Definition node_live (k : K) (d : kbuf_dev) : bool :=
  bool_decide (k_held k !! dev_node d = Some RkNode).

(** The node whose name it is. *)
Definition dev_name (p : Z) : prog cworld Z :=
  d <-- get_dev p ;;
  w <-- p_get ;;
  if node_live (c_kern w) d then p_ret (dev_node d) else fun _ => Oops UseAfterFree.

Definition kbuf_dev_release (p : Z) : prog cworld unit :=
  mmap_free_of p ;;;
  d <-- get_dev p ;;
  free_slots_of d ;;;
  ida_release (minor_off d) ;;;
  kfree_dev p.

Definition kref_get (p : Z) : prog cworld unit :=
  upd_dev p (fun d => d <| ref := ref d + 1 |>).

(** Drops a reference; the last one frees. *)
Definition kref_put (p : Z) : prog cworld unit :=
  upd_dev p (fun d => d <| ref := ref d - 1 |>) ;;;
  d <-- get_dev p ;;
  if ref d =? 0 then kbuf_dev_release p else p_ret tt.

(** [list_for_each_entry(dev, ...) if (dev->minor_off == off)] *)
Fixpoint dyn_find (ps : list Z) (off : Z) : prog cworld (option Z) :=
  match ps with
  | [] => p_ret None
  | p :: ps' => d <-- get_dev p ;; if minor_off d =? off then p_ret (Some p) else dyn_find ps' off
  end.

Definition kbuf_dyn_get (off : Z) : prog cworld (option Z) :=
  w <-- p_get ;;
  found <-- dyn_find (c_list w) off ;;
  match found with
  | Some p => kref_get p ;;; p_ret (Some p)
  | None => p_ret None
  end.

(** The [goto] ladder of [kbuf_dyn_create], innermost label last. *)
Definition err_ida (off ret : Z) : prog cworld (Z * Z) :=
  ida_release off ;;; p_ret (ret, 0).

Definition err_free (p off ret : Z) : prog cworld (Z * Z) :=
  kfree_dev p ;;; err_ida off ret.

Definition err_slots (p off ret : Z) : prog cworld (Z * Z) :=
  d <-- get_dev p ;; free_slots_of d ;;; err_free p off ret.

Definition err_mmap (p off ret : Z) : prog cworld (Z * Z) :=
  mmap_free_of p ;;; err_slots p off ret.

Definition err_cdev (p off ret : Z) : prog cworld (Z * Z) :=
  d <-- get_dev p ;; release RkCdev (cdevp d) ;;; err_mmap p off ret.

(** [base_devno], [ndevices] are the module's globals; [dev_index p] is
    [dev - kbuf_devices] for the device at [p]. *)
Context (base_devno ndevices : Z) (dev_index : Z -> Z).

(** The fields set before anything else is allocated. *)
Definition dyn_init (p off : Z) : kbuf_dev :=
  zero_dev <| self := dev_index p |> <| dynamic := true |> <| minor_off := off |>
           <| num_buffers := KBUF_DEFAULT_NUM_BUFFERS |>
           <| buffer_size := KBUF_DEFAULT_BUFFER_SIZE |>
           <| mode := KBUF_MODE_BLOCKING |>
           <| devno := base_devno + ndevices + off |> <| ref := 1 |>.

(** The last steps, once slots and mmap areas are in place. *)
Definition dyn_publish (p off : Z) : prog cworld (Z * Z) :=
  c <-- kern (k_acquire RkCdevObj) ;;
  match c with
  | inr _ => err_mmap p off (- ENOMEM)
  | inl c =>
    upd_dev p (fun d => d <| cdevp := c |>) ;;;
    r <-- kern (k_cdev_add c) ;;
    if r <? 0 then release RkCdevObj c ;;; err_mmap p off r
    else
      nd <-- kern (k_acquire RkNode) ;;
      match nd with
      | inr e => err_cdev p off e
      | inl h =>
        upd_dev p (fun d => d <| dev_node := h |>) ;;;
        p_modify (fun w => w <| c_list := c_list w ++ [p] |>) ;;;
        p_ret (0, off)
      end
  end.

(** The result and, on success, the id. *)
Definition kbuf_dyn_create : prog cworld (Z * Z) :=
  off <-- kern (ida_alloc_max (KBUF_DYN_MAX - 1)) ;;
  if off <? 0 then p_ret (off, 0) else
  a <-- kern (k_acquire RkMem) ;;
  match a with
  | inr _ => err_ida off (- ENOMEM)
  | inl p =>
    put_dev p (dyn_init p off) ;;;
    sl <-- kern (kbuf_alloc_slots KBUF_DEFAULT_NUM_BUFFERS KBUF_DEFAULT_BUFFER_SIZE) ;;
    upd_dev p (fun d => d <| slots := sl |>) ;;;
    match sl with
    | None => err_free p off (- ENOMEM)
    | Some _ =>
      d <-- get_dev p ;;
      rd <-- kern (kbuf_mmap_dev_alloc d) ;;
      put_dev p rd.2 ;;;
      if rd.1 <? 0 then err_slots p off rd.1 else dyn_publish p off
    end
  end.

Definition kbuf_dyn_teardown (p : Z) : prog cworld unit :=
  d <-- get_dev p ;;
  release RkNode (dev_node d) ;;;
  release RkCdev (cdevp d) ;;;
  kref_put p.

(** Lookup and unlink under the list lock. *)
Definition dyn_unlink (id : Z) : prog cworld (option Z) :=
  w <-- p_get ;;
  found <-- dyn_find (c_list w) id ;;
  match found with
  | Some p =>
    p_modify (fun w => w <| c_list := base.filter (fun q => q <> p) (c_list w) |>) ;;;
    p_ret (Some p)
  | None => p_ret None
  end.

Definition kbuf_dyn_destroy (id : Z) : prog cworld Z :=
  found <-- dyn_unlink id ;;
  match found with
  | None => p_ret (- ENOENT)
  | Some p => kbuf_dyn_teardown p ;;; p_ret 0
  end.

(** Put the result and the id, or undo the creation. *)
Definition kbuf_ctl_ioctl {U} `{UAccess U} `{IocEncoding} (cmd arg : Z) (u : U)
  : prog cworld (Z * U) :=
  if cmd =? KBUF_CTL_CREATE then
    r <-- kbuf_dyn_create ;;
    if negb (r.1 =? 0) then p_ret (r.1, u) else
    match put_user u arg r.2 with
    | None => kbuf_dyn_destroy r.2 ;;; p_ret (- EFAULT, u)
    | Some u' => p_ret (0, u')
    end
  else if cmd =? KBUF_CTL_DESTROY then
    match get_user u arg with
    | None => p_ret (- EFAULT, u)
    | Some id => r <-- kbuf_dyn_destroy id ;; p_ret (r, u)
    end
  else p_ret (- ENOTTY, u).

(** The loop of [kbuf_ctl_unregister], at most [n] times; whether it got to the
    [break]. *)
Fixpoint dyn_drain (n : nat) : prog cworld bool :=
  w <-- p_get ;;
  match c_list w with
  | [] => p_ret true
  | p :: ps =>
    match n with
    | O => p_ret false
    | S n' =>
      p_modify (fun w => w <| c_list := ps |>) ;;;
      kbuf_dyn_teardown p ;;;
      dyn_drain n'
    end
  end.

Definition kbuf_ctl_unregister (misc : Z) : prog cworld bool :=
  release RkMisc misc ;;;
  w <-- p_get ;;
  drained <-- dyn_drain (length (c_list w)) ;;
  p_modify (fun w => w <| c_kern := ida_destroy (c_kern w) |>) ;;;
  p_ret drained.

(** ** Opening and closing a node (src/kbuf_main.c) *)
Inductive filp : Set := StaticDev (i : Z) | DynDev (p : Z).

(** [inr] is the error, [inl] the file's [private_data]. *)
Definition kbuf_open (minor : Z) : prog cworld (filp + Z) :=
  if minor <? ndevices then p_ret (inl (StaticDev minor)) else
  found <-- kbuf_dyn_get (minor - ndevices) ;;
  match found with
  | None => p_ret (inr (- ENODEV))
  | Some p => dev_name p ;;; p_ret (inl (DynDev p))
  end.

Definition kbuf_release (f : filp) : prog cworld Z :=
  match f with
  | StaticDev _ => p_ret 0
  | DynDev p =>
    dev_name p ;;;
    d <-- get_dev p ;;
    (if dynamic d then kref_put p else p_ret tt) ;;; p_ret 0
  end.

(** ** The dma-buf's reference (src/kbuf_dmabuf.c) *)
Definition kbuf_dmabuf_release (p : Z) : prog cworld unit :=
  d <-- get_dev p ;; if dynamic d then kref_put p else p_ret tt.

(** The last [dma_buf_put] of buffer [h]. *)
Definition dma_buf_put (h p : Z) : prog cworld unit :=
  kbuf_dmabuf_release p ;;; release RkDmaBuf h ;;;
  p_modify (fun w => w <| c_names := delete h (c_names w) |>).

(** [inl (fd, h)]: the fd and the buffer behind it, which keeps [exp_name]. *)
Definition kbuf_dmabuf_export (p : Z) : prog cworld ((Z * Z) + Z) :=
  exp_name <-- dev_name p ;;
  d <-- get_dev p ;;
  (if dynamic d then kref_get p else p_ret tt) ;;;
  b <-- kern (k_acquire RkDmaBuf) ;;
  match b with
  | inr e => (if dynamic d then kref_put p else p_ret tt) ;;; p_ret (inr e)
  | inl h =>
    p_modify (fun w => w <| c_names := <[h := exp_name]> (c_names w) |>) ;;;
    fd <-- kern k_call ;;
    if fd <? 0 then dma_buf_put h p ;;; p_ret (inr fd)
    else p_ret (inl (fd, h))
  end.
End ctl.
Arguments cworld K : clear implicits.
Arguments CWorld {K}.
