(* ===== verification/Ring.v ===== *)
(** * Ring: the circular-buffer core (src/kbuf_ring.c)

    Each C function is a program over [rworld]: the device, the memory of the
    calling process, and the tracepoints hit so far.  An access outside a heap
    object is an [Oops], so the refinement theorems also say that no ring
    operation on a well-formed device reads or writes out of bounds. *)

From S2P Require Import Prelude Kernel Uapi Device.
#[local] Open Scope Z_scope.

(** The throughput counters, and the high-water mark. *)
Definition account_produced (n : Z) (d : kbuf_dev) : kbuf_dev :=
  d <| bytes_produced := u64 (bytes_produced d + n) |>
    <| msgs_produced := u64 (msgs_produced d + 1) |>.

Definition account_consumed (n : Z) (d : kbuf_dev) : kbuf_dev :=
  d <| bytes_consumed := u64 (bytes_consumed d + n) |>
    <| msgs_consumed := u64 (msgs_consumed d + 1) |>.

Definition raise_peak (occ : Z) (d : kbuf_dev) : kbuf_dev :=
  if occ >? peak_count d then d <| peak_count := occ |> else d.

Section ring.
Context {U : Type} `{UAccess U}.

Record rworld := RWorld {
  w_dev : kbuf_dev;
  w_user : U;
  w_trace : list trace_event
}.

Definition dev_update (f : kbuf_dev -> kbuf_dev) : prog rworld unit :=
  p_modify (fun w => RWorld (f (w_dev w)) (w_user w) (w_trace w)).

Definition emit (e : trace_event) : prog rworld unit :=
  p_modify (fun w => RWorld (w_dev w) (w_user w) (w_trace w ++ [e])).

Definition kbuf_id (d : kbuf_dev) : Z := u32 (self d).

(** [copy_to_user(ubuf, buf, n)]: reading past the heap buffer is an error. *)
Definition copy_out (ubuf : Z) (buf : kbuffer) (n : Z) : prog rworld Z :=
  fun w =>
    if n <=? Z.of_nat (length (kb_bytes buf)) then
      let '(u', missed) := copy_to_user (w_user w) ubuf (take (Z.to_nat n) (kb_bytes buf)) in
      Done (missed, RWorld (w_dev w) u' (w_trace w))
    else Oops OutOfBounds.

(** [copy_from_user(slot->data, ubuf, n)] for the slot at index [i]: the
    buffer is overwritten even when the copy falls short. *)
Definition copy_in (i : Z) (s : kbuf_slot) (ubuf n : Z) : prog rworld Z :=
  fun w =>
    if n <=? Z.of_nat (length (kb_bytes (data s))) then
      let '(bs, missed) := copy_from_user (w_user w) ubuf n in
      let buf := KBuffer (kb_ptr (data s)) (bs ++ drop (Z.to_nat n) (kb_bytes (data s))) in
      Done (missed, RWorld (put_slot i (KbufSlot buf (len s)) (w_dev w)) (w_user w) (w_trace w))
    else Oops OutOfBounds.

(** [slot->len = n] *)
Definition set_len (i n : Z) : prog rworld unit :=
  dev_update (fun d =>
    match slot_at d i with
    | Some s => put_slot i (KbufSlot (data s) n) d
    | None => d
    end).

Definition umod (a b : Z) : prog rworld Z :=
  if b =? 0 then p_oops DivByZero else p_ret (a mod b).

Definition kbuf_ring_is_empty (d : kbuf_dev) : bool := count d =? 0.

Definition kbuf_ring_is_full (d : kbuf_dev) : bool := u32 (count d) =? num_buffers d.

Definition kbuf_ring_consume (ubuf cnt : Z) : prog rworld Z :=
  w <-- p_get ;;
  let d := w_dev w in
  slot <-- p_some OutOfBounds (slot_at d (read_pos d)) ;;
  let n := Z.min cnt (len slot) in
  missed <-- copy_out ubuf (data slot) n ;;
  if negb (missed =? 0) then p_ret (- EFAULT) else
  rp <-- umod (u32 (read_pos d + 1)) (num_buffers d) ;;
  dev_update (fun d => d <| read_pos := s32 rp |> <| count := count d - 1 |>) ;;;
  dev_update (account_consumed n) ;;;
  emit (kbuf_consume (kbuf_id d) (u32 n) (u32 (count d - 1))) ;;;
  p_ret n.

Definition kbuf_ring_produce (ubuf cnt : Z) : prog rworld Z :=
  w <-- p_get ;;
  let d := w_dev w in
  slot <-- p_some OutOfBounds (slot_at d (write_pos d)) ;;
  missed <-- copy_in (write_pos d) slot ubuf cnt ;;
  if negb (missed =? 0) then p_ret (- EFAULT) else
  set_len (write_pos d) cnt ;;;
  wp <-- umod (u32 (write_pos d + 1)) (num_buffers d) ;;
  dev_update (fun d => d <| write_pos := s32 wp |> <| count := count d + 1 |>) ;;;
  dev_update (fun d => raise_peak (u32 (count d)) d) ;;;
  dev_update (account_produced cnt) ;;;
  emit (kbuf_produce (kbuf_id d) (u32 cnt) (u32 (count d + 1))) ;;;
  p_ret cnt.

(** ** Lock-free SPSC mode, run by one caller at a time *)

Definition kbuf_spsc_is_empty (d : kbuf_dev) : bool := prod_idx d =? cons_idx d.

Definition kbuf_spsc_is_full (d : kbuf_dev) : bool :=
  u32 (prod_idx d - cons_idx d) >=? num_buffers d.

Definition kbuf_spsc_consume (ubuf cnt : Z) : prog rworld Z :=
  w <-- p_get ;;
  let d := w_dev w in
  let cons := cons_idx d in
  slot <-- p_some OutOfBounds (slot_at d (Z.land cons (u32 (num_buffers d - 1)))) ;;
  let n := Z.min cnt (len slot) in
  missed <-- copy_out ubuf (data slot) n ;;
  if negb (missed =? 0) then p_ret (- EFAULT) else
  dev_update (fun d => d <| cons_idx := u32 (cons + 1) |>) ;;;
  dev_update (account_consumed n) ;;;
  w' <-- p_get ;;
  emit (kbuf_consume (kbuf_id d) (u32 n) (u32 (prod_idx (w_dev w') - (cons + 1)))) ;;;
  p_ret n.

Definition kbuf_spsc_produce (ubuf cnt : Z) : prog rworld Z :=
  w <-- p_get ;;
  let d := w_dev w in
  let prod := prod_idx d in
  let i := Z.land prod (u32 (num_buffers d - 1)) in
  slot <-- p_some OutOfBounds (slot_at d i) ;;
  missed <-- copy_in i slot ubuf cnt ;;
  if negb (missed =? 0) then p_ret (- EFAULT) else
  set_len i cnt ;;;
  dev_update (fun d => d <| prod_idx := u32 (prod + 1) |>) ;;;
  dev_update (account_produced cnt) ;;;
  w' <-- p_get ;;
  let occ := u32 (prod + 1 - cons_idx (w_dev w')) in
  dev_update (raise_peak occ) ;;;
  emit (kbuf_produce (kbuf_id d) (u32 cnt) occ) ;;;
  p_ret cnt.

Definition kbuf_occupancy (d : kbuf_dev) : Z :=
  if mode d =? KBUF_MODE_SPSC then u32 (prod_idx d - cons_idx d) else u32 (count d).
End ring.
Arguments rworld U : clear implicits.
