(* ===== verification/RingFacts.v ===== *)
(** * RingFacts: the ring operations implement a bounded FIFO of messages

    Every operation of Ring.v, in both modes, on every branch: what it returns,
    that it stays in bounds, that it keeps the device well formed, and what it
    does to the abstract queue [dev_queue]. *)

From S2P Require Import Prelude Kernel Uapi Device Ring.
#[local] Open Scope Z_scope.

(** ** Slots and windows of a well-formed device *)
Lemma slot_at_ok d i :
  geometry_ok d -> 0 <= i < num_buffers d ->
  exists s, slot_at d i = Some s /\ slot_ok (buffer_size d) s.
Proof.
  intros [_ _ (sa & Hsa & Hlen & Hall)] Hi. unfold slot_at. rewrite Hsa. simpl.
  rewrite (proj2 (Z.leb_le 0 i)) by lia.
  destruct (lookup_lt_is_Some_2 (sa_slots sa) (Z.to_nat i)) as [s Hs]; [lia |].
  exists s. split; [done |]. by eapply Forall_lookup_1.
Qed.

Lemma put_slot_geometry d i s :
  geometry_ok d -> slot_ok (buffer_size d) s -> geometry_ok (put_slot i s d).
Proof.
  intros [Hn Hb (sa & Hsa & Hlen & Hall)] Hs. unfold put_slot. rewrite Hsa.
  split; [done | done |]. eexists. split; [done |]. simpl. split.
  - by rewrite length_insert.
  - by apply Forall_insert.
Qed.

Lemma slot_at_put d i s :
  geometry_ok d -> 0 <= i < num_buffers d -> slot_at (put_slot i s d) i = Some s.
Proof.
  intros [_ _ (sa & Hsa & Hlen & _)] Hi. unfold slot_at, put_slot. rewrite Hsa. simpl.
  rewrite (proj2 (Z.leb_le 0 i)) by lia. apply list_lookup_insert_eq. lia.
Qed.

Lemma put_put_slot d i s s' : put_slot i s' (put_slot i s d) = put_slot i s' d.
Proof.
  unfold put_slot. destruct (slots d) as [sa |] eqn:Hsa; simpl; [| by rewrite Hsa].
  by rewrite list_insert_insert_eq.
Qed.

(** Filling the slot one past the end of the queue appends its message. *)
Lemma queue_window_push d start k i s :
  geometry_ok d -> 0 <= k < num_buffers d -> i = (start + k) mod num_buffers d ->
  queue_window (put_slot i s d) start (k + 1) = queue_window d start k ++ [slot_msg s].
Proof.
  intros [Hn _ (sa & Hsa & Hlen & _)] Hk ->. unfold queue_window, put_slot. rewrite Hsa. simpl.
  replace (Z.to_nat (k + 1)) with (S (Z.to_nat k)) by lia.
  pose proof (window_push (num_buffers d) ltac:(lia) (sa_slots sa) start (Z.to_nat k) s Hlen
                ltac:(lia)) as Hp.
  unfold ring_idx in Hp. rewrite Z2Nat.id in Hp by lia. rewrite Hp. by rewrite fmap_app.
Qed.

(** Overwriting it without publishing it changes nothing. *)
Lemma queue_window_past d start k i s :
  geometry_ok d -> 0 <= k < num_buffers d -> i = (start + k) mod num_buffers d ->
  queue_window (put_slot i s d) start k = queue_window d start k.
Proof.
  intros [Hn _ (sa & Hsa & Hlen & _)] Hk ->. unfold queue_window, put_slot. rewrite Hsa. simpl.
  pose proof (window_insert_past (num_buffers d) ltac:(lia) (sa_slots sa) start (Z.to_nat k) s
                ltac:(lia)) as Hp.
  unfold ring_idx in Hp. rewrite Z2Nat.id in Hp by lia. by rewrite Hp.
Qed.

Lemma queue_window_pop d start k i s :
  geometry_ok d -> 1 <= k -> i = start mod num_buffers d -> slot_at d i = Some s ->
  queue_window d start k = slot_msg s :: queue_window d (start + 1) (k - 1).
Proof.
  intros [Hn _ (sa & Hsa & Hlen & _)] Hk -> Hs. unfold queue_window, slot_at in *.
  rewrite Hsa in *. simpl in Hs.
  pose proof (Z.mod_pos_bound start (num_buffers d) ltac:(lia)).
  rewrite (proj2 (Z.leb_le 0 _)) in Hs by lia.
  replace (Z.to_nat k) with (S (Z.to_nat (k - 1))) by lia.
  rewrite (window_cons (num_buffers d) _ start _ s); [done |].
  unfold ring_idx. by rewrite Z.add_0_r.
Qed.

Lemma queue_window_congr d s1 s2 k :
  geometry_ok d -> s1 mod num_buffers d = s2 mod num_buffers d ->
  queue_window d s1 k = queue_window d s2 k.
Proof.
  intros [Hn _ _] Heq. unfold queue_window. destruct (slots d); [| done].
  by rewrite (window_congr (num_buffers d) ltac:(lia) _ s1 s2).
Qed.

Lemma length_queue_window d start k :
  geometry_ok d -> 0 <= k -> Z.of_nat (length (queue_window d start k)) = k.
Proof.
  intros [Hn _ (sa & Hsa & Hlen & _)] Hk. unfold queue_window. rewrite Hsa, length_fmap.
  rewrite length_window by lia. lia.
Qed.

(** ** Running the operations

    What each program does, as an equation; the invariant and the refinement
    are then facts about device states only. *)
Definition filled (s : kbuf_slot) (bs : list byte) (n l : Z) : kbuf_slot :=
  KbufSlot (KBuffer (kb_ptr (data s)) (bs ++ drop (Z.to_nat n) (kb_bytes (data s)))) l.

Section run.
Context {U : Type} `{UAccessLaws U}.
Implicit Types (d : kbuf_dev) (u : U) (tr : list trace_event).

Lemma copy_in_run d u tr i s ubuf n bs missed :
  n <= Z.of_nat (length (kb_bytes (data s))) ->
  copy_from_user u ubuf n = (bs, missed) ->
  copy_in i s ubuf n (RWorld d u tr)
  = Done (missed, RWorld (put_slot i (filled s bs n (len s)) d) u tr).
Proof.
  intros Hn Hc. unfold copy_in. simpl. rewrite (proj2 (Z.leb_le _ _)) by done. by rewrite Hc.
Qed.

Lemma copy_out_run d u tr buf ubuf n u' missed :
  n <= Z.of_nat (length (kb_bytes buf)) ->
  copy_to_user u ubuf (take (Z.to_nat n) (kb_bytes buf)) = (u', missed) ->
  copy_out ubuf buf n (RWorld d u tr) = Done (missed, RWorld d u' tr).
Proof.
  intros Hn Hc. unfold copy_out. simpl. rewrite (proj2 (Z.leb_le _ _)) by done. by rewrite Hc.
Qed.

Definition ring_produced (d : kbuf_dev) (s : kbuf_slot) (cnt : Z) : kbuf_dev :=
  let d1 := put_slot (write_pos d) s d in
  let d2 := d1 <| write_pos := (write_pos d + 1) mod num_buffers d |>
               <| count := count d + 1 |> in
  account_produced cnt (raise_peak (count d + 1) d2).

Lemma kbuf_ring_produce_run d u tr s ubuf cnt bs missed :
  geometry_ok d -> blocking_ok d -> count d < num_buffers d ->
  slot_at d (write_pos d) = Some s -> slot_ok (buffer_size d) s ->
  cnt <= buffer_size d -> copy_from_user u ubuf cnt = (bs, missed) ->
  kbuf_ring_produce ubuf cnt (RWorld d u tr) =
  if missed =? 0 then
    Done (cnt, RWorld (ring_produced d (filled s bs cnt cnt) cnt) u
                      (tr ++ [kbuf_produce (kbuf_id d) (u32 cnt) (count d + 1)]))
  else Done (- EFAULT, RWorld (put_slot (write_pos d) (filled s bs cnt (len s)) d) u tr).
Proof.
  intros Hg [Hrp Hc Hwp _] Hfull Hs [Hsl _] Hcnt Hcopy.
  pose proof Hg as [[Hn Hn'] _ _]. unfold KBUF_MAX_NUM_BUFFERS in *.
  pose proof (Z.mod_pos_bound (read_pos d + count d) (num_buffers d) ltac:(lia)) as Hwb.
  rewrite <- Hwp in Hwb.
  unfold kbuf_ring_produce, p_bind, p_get, p_some. cbn [exec_bind w_dev].
  rewrite Hs. cbn [exec_bind p_ret].
  rewrite (copy_in_run d u tr (write_pos d) s ubuf cnt bs missed) by (done || lia).
  cbn [exec_bind]. destruct (Z.eqb_spec missed 0) as [-> | Hm]; cbn [negb]; [| done].
  unfold set_len, dev_update, p_modify, umod, emit.
  cbn [exec_bind w_dev w_user w_trace].
  rewrite slot_at_put, put_put_slot by done.
  rewrite (proj2 (Z.eqb_neq (num_buffers d) 0)) by lia. cbn [p_ret exec_bind w_dev w_user w_trace].
  rewrite (u32_small (write_pos d + 1)) by (unfold in_u32; lia).
  rewrite (u32_small (count d + 1)) by (unfold in_u32; lia).
  pose proof (Z.mod_pos_bound (write_pos d + 1) (num_buffers d) ltac:(lia)).
  rewrite s32_small by lia. unfold ring_produced.
  destruct Hg as [_ _ (sa & Hsa & _)]. unfold put_slot. rewrite Hsa.
  unfold p_ret. cbn -[u32 u64 raise_peak Z.modulo filled account_produced].
  rewrite (u32_small (count d + 1)) by (unfold in_u32; lia). done.
Qed.
Definition ring_consumed (d : kbuf_dev) (n : Z) : kbuf_dev :=
  account_consumed n
    (d <| read_pos := (read_pos d + 1) mod num_buffers d |> <| count := count d - 1 |>).

Lemma kbuf_ring_consume_run d u tr s ubuf cnt u' missed :
  geometry_ok d -> blocking_ok d -> 0 < count d ->
  slot_at d (read_pos d) = Some s -> slot_ok (buffer_size d) s -> 0 <= cnt ->
  copy_to_user u ubuf (take (Z.to_nat (Z.min cnt (len s))) (kb_bytes (data s))) = (u', missed) ->
  kbuf_ring_consume ubuf cnt (RWorld d u tr) =
  if missed =? 0 then
    Done (Z.min cnt (len s),
          RWorld (ring_consumed d (Z.min cnt (len s))) u'
                 (tr ++ [kbuf_consume (kbuf_id d) (u32 (Z.min cnt (len s))) (count d - 1)]))
  else Done (- EFAULT, RWorld d u' tr).
Proof.
  intros Hg [Hrp Hc Hwp _] Hne Hs [Hsl Hl] Hcnt Hcopy.
  pose proof Hg as [[Hn Hn'] _ _]. unfold KBUF_MAX_NUM_BUFFERS in *.
  unfold kbuf_ring_consume, p_bind, p_get, p_some. cbn [exec_bind w_dev].
  rewrite Hs. cbn [exec_bind p_ret].
  rewrite (copy_out_run d u tr (data s) ubuf _ u' missed) by (done || lia).
  cbn [exec_bind]. destruct (Z.eqb_spec missed 0) as [-> | Hm]; cbn [negb]; [| done].
  unfold dev_update, p_modify, umod, emit.
  rewrite (proj2 (Z.eqb_neq (num_buffers d) 0)) by lia. cbn [p_ret exec_bind w_dev w_user w_trace].
  rewrite (u32_small (read_pos d + 1)) by (unfold in_u32; lia).
  rewrite (u32_small (count d - 1)) by (unfold in_u32; lia).
  pose proof (Z.mod_pos_bound (read_pos d + 1) (num_buffers d) ltac:(lia)).
  by rewrite s32_small by lia.
Qed.

(** The masked index of the SPSC ring is the index modulo the slot count. *)
Lemma spsc_slot_index d i :
  geometry_ok d -> is_power_of_2 (num_buffers d) = true ->
  Z.land i (u32 (num_buffers d - 1)) = i mod num_buffers d.
Proof.
  intros [[Hn Hn'] _ _] Hp. unfold KBUF_MAX_NUM_BUFFERS in *.
  rewrite u32_small by (unfold in_u32; lia). apply land_pow2_mod; [lia | done].
Qed.

Definition spsc_produced (d : kbuf_dev) (s : kbuf_slot) (cnt : Z) : kbuf_dev :=
  let d1 := put_slot (prod_idx d mod num_buffers d) s d in
  let d2 := account_produced cnt (d1 <| prod_idx := u32 (prod_idx d + 1) |>) in
  raise_peak (u32 (prod_idx d + 1 - cons_idx d)) d2.

Lemma kbuf_spsc_produce_run d u tr s ubuf cnt bs missed :
  geometry_ok d -> spsc_ok d ->
  slot_at d (prod_idx d mod num_buffers d) = Some s -> slot_ok (buffer_size d) s ->
  cnt <= buffer_size d -> copy_from_user u ubuf cnt = (bs, missed) ->
  kbuf_spsc_produce ubuf cnt (RWorld d u tr) =
  if missed =? 0 then
    Done (cnt, RWorld (spsc_produced d (filled s bs cnt cnt) cnt) u
                      (tr ++ [kbuf_produce (kbuf_id d) (u32 cnt)
                                (u32 (prod_idx d + 1 - cons_idx d))]))
  else Done (- EFAULT,
             RWorld (put_slot (prod_idx d mod num_buffers d) (filled s bs cnt (len s)) d) u tr).
Proof.
  intros Hg [Hp2 Hpr Hco _] Hs [Hsl _] Hcnt Hcopy.
  pose proof Hg as [[Hn Hn'] _ _].
  pose proof (Z.mod_pos_bound (prod_idx d) (num_buffers d) ltac:(lia)) as Hib.
  unfold kbuf_spsc_produce, p_bind, p_get, p_some. cbn [exec_bind w_dev].
  rewrite spsc_slot_index by done. rewrite Hs. cbn [exec_bind p_ret].
  rewrite (copy_in_run d u tr _ s ubuf cnt bs missed) by (done || lia).
  cbn [exec_bind]. destruct (Z.eqb_spec missed 0) as [-> | Hm]; cbn [negb]; [| done].
  unfold set_len, dev_update, p_modify, emit. cbn [exec_bind w_dev w_user w_trace].
  rewrite slot_at_put, put_put_slot by done. unfold spsc_produced.
  destruct Hg as [_ _ (sa & Hsa & _)]. unfold put_slot. rewrite Hsa. done.
Qed.

Definition spsc_consumed (d : kbuf_dev) (n : Z) : kbuf_dev :=
  account_consumed n (d <| cons_idx := u32 (cons_idx d + 1) |>).

Lemma kbuf_spsc_consume_run d u tr s ubuf cnt u' missed :
  geometry_ok d -> spsc_ok d ->
  slot_at d (cons_idx d mod num_buffers d) = Some s -> slot_ok (buffer_size d) s -> 0 <= cnt ->
  copy_to_user u ubuf (take (Z.to_nat (Z.min cnt (len s))) (kb_bytes (data s))) = (u', missed) ->
  kbuf_spsc_consume ubuf cnt (RWorld d u tr) =
  if missed =? 0 then
    Done (Z.min cnt (len s),
          RWorld (spsc_consumed d (Z.min cnt (len s))) u'
                 (tr ++ [kbuf_consume (kbuf_id d) (u32 (Z.min cnt (len s)))
                           (u32 (prod_idx d - (cons_idx d + 1)))]))
  else Done (- EFAULT, RWorld d u' tr).
Proof.
  intros Hg [Hp2 Hpr Hco _] Hs [Hsl Hl] Hcnt Hcopy.
  unfold kbuf_spsc_consume, p_bind, p_get, p_some. cbn [exec_bind w_dev].
  rewrite spsc_slot_index by done. rewrite Hs. cbn [exec_bind p_ret].
  rewrite (copy_out_run d u tr (data s) ubuf _ u' missed) by (done || lia).
  cbn [exec_bind]. by destruct (Z.eqb_spec missed 0) as [-> | Hm].
Qed.
End run.

(** ** Invariant and queue of the resulting device states *)
Lemma queue_window_same d d' start k :
  slots d' = slots d -> num_buffers d' = num_buffers d ->
  queue_window d' start k = queue_window d start k.
Proof. intros H1 H2. unfold queue_window. by rewrite H1, H2. Qed.

Lemma geometry_same d d' :
  slots d' = slots d -> num_buffers d' = num_buffers d -> buffer_size d' = buffer_size d ->
  geometry_ok d -> geometry_ok d'.
Proof. intros H1 H2 H3 [Hn Hb Hs]. split; rewrite ?H1, ?H2, ?H3; done. Qed.

(** The fields the ring invariant reads. *)
Definition ring_fields (d : kbuf_dev) : Z * Z * Z * Z * Z * Z * Z * Z :=
  (mode d, num_buffers d, read_pos d, write_pos d, count d, prod_idx d, cons_idx d, peak_count d).

Lemma ring_ok_same d d' : ring_fields d' = ring_fields d -> ring_ok d -> ring_ok d'.
Proof.
  unfold ring_fields, ring_ok. intros [= -> Hn Hr Hw Hc Hp Hci Hpk] Hok.
  destruct (mode d =? KBUF_MODE_SPSC).
  - destruct Hok as ([] & ?). split; [split |]; by rewrite ?Hn, ?Hr, ?Hw, ?Hc, ?Hp, ?Hci.
  - destruct Hok as (? & [] & ?). split; [done |]. split; [split |];
      by rewrite ?Hn, ?Hr, ?Hw, ?Hc, ?Hp, ?Hci, ?Hpk.
Qed.

(** Well-formedness does not read the references or the mmap areas. *)
Lemma dev_ok_same d d' :
  slots d' = slots d -> buffer_size d' = buffer_size d -> ring_fields d' = ring_fields d ->
  (bytes_produced d', bytes_consumed d', msgs_produced d', msgs_consumed d', read_sleeps d', write_sleeps d')
  = (bytes_produced d, bytes_consumed d, msgs_produced d, msgs_consumed d, read_sleeps d, write_sleeps d) ->
  dev_ok d -> dev_ok d'.
Proof.
  intros Es Eb Er [= E1 E2 E3 E4 E5 E6] (Hg & Hr & [Hp H64]).
  pose proof Er as [= Em En _ _ _ _ _ Epk]. split_and!.
  - by eapply geometry_same; [.. | exact Hg].
  - by eapply ring_ok_same.
  - split; [by rewrite Epk, En | by rewrite E1, E2, E3, E4, E5, E6].
Qed.

(** Fields other than [slots] do not see [put_slot]. *)
Lemma put_slot_self d i s : exists sl, put_slot i s d = d <| slots := sl |>.
Proof.
  unfold put_slot. destruct (slots d) eqn:E; [by eexists |].
  exists None. rewrite <- E. by destruct d.
Qed.

Lemma raise_peak_max occ d : raise_peak occ d = d <| peak_count := Z.max (peak_count d) occ |>.
Proof.
  unfold raise_peak. destruct (Z.gtb_spec occ (peak_count d)).
  - by rewrite Z.max_r by lia.
  - rewrite Z.max_l by lia. by destruct d.
Qed.

Lemma ring_ok_blocking d :
  mode d = KBUF_MODE_BLOCKING ->
  ring_ok d <-> blocking_ok d /\ prod_idx d = 0 /\ cons_idx d = 0.
Proof. intros Hm. unfold ring_ok. rewrite Hm. simpl. tauto. Qed.

Lemma ring_ok_spsc d :
  mode d = KBUF_MODE_SPSC ->
  ring_ok d <-> spsc_ok d /\ read_pos d = 0 /\ write_pos d = 0 /\ count d = 0.
Proof. intros Hm. unfold ring_ok. rewrite Hm. simpl. tauto. Qed.

Lemma dev_queue_blocking d :
  mode d = KBUF_MODE_BLOCKING -> dev_queue d = blocking_queue d.
Proof. intros Hm. unfold dev_queue. by rewrite Hm. Qed.

Lemma dev_queue_spsc d : mode d = KBUF_MODE_SPSC -> dev_queue d = spsc_queue d.
Proof. intros Hm. unfold dev_queue. by rewrite Hm. Qed.

Ltac dev_fields :=
  cbn [set_field set_self set_slots set_num_buffers set_buffer_size set_read_pos set_write_pos
       set_count set_prod_idx set_cons_idx set_peak_count set_bytes_produced set_bytes_consumed
       set_msgs_produced set_msgs_consumed set_read_sleeps set_write_sleeps set_mode
       set_mmap_ctrl set_mmap_data set_cdevp set_devno set_dev_node set_dynamic set_minor_off
       set_ref self slots num_buffers buffer_size read_pos write_pos count prod_idx cons_idx
       peak_count bytes_produced bytes_consumed msgs_produced msgs_consumed read_sleeps
       write_sleeps mode mmap_ctrl mmap_data cdevp devno dev_node dynamic minor_off ref].

(** Every 64-bit counter is either left alone or reduced to 64 bits. *)
Ltac counters :=
  decompose_Forall_hyps;
  repeat first [apply List.Forall_nil | apply List.Forall_cons]; auto with kbuf.

Section states.
Implicit Types (d : kbuf_dev).

Lemma ring_produced_ok d s cnt :
  dev_ok d -> mode d = KBUF_MODE_BLOCKING -> count d < num_buffers d ->
  slot_ok (buffer_size d) s ->
  dev_ok (ring_produced d s cnt) /\
  dev_queue (ring_produced d s cnt) = dev_queue d ++ [slot_msg s].
Proof.
  intros (Hg & Hr & [Hpk H64]) Hm Hfull Hs.
  apply ring_ok_blocking in Hr as ([Hrp Hc Hwp Hbp] & Hp0 & Hc0); [| done].
  pose proof (put_slot_geometry d (write_pos d) s Hg Hs) as Hg'.
  pose proof (queue_window_push d (read_pos d) (count d) (write_pos d) s Hg ltac:(lia) Hwp) as Hq.
  pose proof (geo_n d Hg). destruct (put_slot_self d (write_pos d) s) as [sl Hsl].
  unfold ring_produced. rewrite Hsl in *. rewrite raise_peak_max. unfold account_produced.
  assert (HQ : forall d0, mode d0 = mode d -> slots d0 = sl -> num_buffers d0 = num_buffers d ->
            read_pos d0 = read_pos d -> count d0 = count d + 1 ->
            dev_queue d0 = dev_queue d ++ [slot_msg s]).
  { intros d0 H0 H1 H2 H3 H4. rewrite !dev_queue_blocking by congruence. unfold blocking_queue.
    rewrite H3, H4, <- Hq. by apply queue_window_same. }
  split; [| apply HQ; done].
  split_and!; [by eapply geometry_same; [.. | exact Hg'] | |].
  - apply ring_ok_blocking; [done |]. split; [| done].
    split; dev_fields; [lia | lia | | lia].
    rewrite Hwp, Zplus_mod_idemp_l. f_equal. lia.
  - split; dev_fields; [lia |]. counters.
Qed.

Lemma ring_consumed_ok d s n :
  dev_ok d -> mode d = KBUF_MODE_BLOCKING -> 0 < count d ->
  slot_at d (read_pos d) = Some s ->
  dev_ok (ring_consumed d n) /\ dev_queue d = slot_msg s :: dev_queue (ring_consumed d n).
Proof.
  intros (Hg & Hr & [Hpk H64]) Hm Hne Hs.
  apply ring_ok_blocking in Hr as ([Hrp Hc Hwp Hbp] & Hp0 & Hc0); [| done].
  pose proof (geo_n d Hg).
  pose proof (queue_window_pop d (read_pos d) (count d) (read_pos d) s Hg ltac:(lia)
                ltac:(by rewrite Z.mod_small by lia) Hs) as Hq.
  split.
  - unfold ring_consumed, account_consumed. split_and!; [by eapply geometry_same; [.. | exact Hg] | |].
    + apply ring_ok_blocking; [done |]. split; [| done].
      split; dev_fields; [by apply Z.mod_pos_bound; lia | lia | | lia].
      rewrite Hwp, Zplus_mod_idemp_l. f_equal. lia.
    + split; dev_fields; [lia |]. counters.
  - rewrite !dev_queue_blocking by done. unfold blocking_queue. rewrite Hq. f_equal.
    rewrite (queue_window_congr d _ ((read_pos d + 1) mod num_buffers d)); [done | done |].
    by rewrite Zmod_mod.
Qed.
(** Free-running 32-bit indices: their difference is exact across the wrap,
    and so is the slot they select. *)
Lemma u32_occ_succ p c : u32 (p - c) < 2 ^ 32 - 1 -> u32 (u32 (p + 1) - c) = u32 (p - c) + 1.
Proof.
  unfold u32. rewrite Zminus_mod_idemp_l. intros Hlt.
  replace (p + 1 - c) with ((p - c) + 1) by lia. rewrite <- (Zplus_mod_idemp_l (p - c)).
  apply Z.mod_small. pose proof (Z.mod_pos_bound (p - c) (2 ^ 32) eq_refl). lia.
Qed.

Lemma u32_occ_pred p c : 0 < u32 (p - c) -> u32 (p - u32 (c + 1)) = u32 (p - c) - 1.
Proof.
  unfold u32. rewrite Zminus_mod_idemp_r. intros Hlt.
  replace (p - (c + 1)) with ((p - c) - 1) by lia. rewrite <- (Zminus_mod_idemp_l (p - c)).
  apply Z.mod_small. pose proof (Z.mod_pos_bound (p - c) (2 ^ 32) eq_refl). lia.
Qed.

Lemma u32_mod_pow2 n x :
  1 <= n <= KBUF_MAX_NUM_BUFFERS -> is_power_of_2 n = true -> u32 x mod n = x mod n.
Proof. unfold KBUF_MAX_NUM_BUFFERS. intros. apply mod_wrap_pow2; (done || lia). Qed.

Lemma spsc_prod_slot n p c :
  1 <= n <= KBUF_MAX_NUM_BUFFERS -> is_power_of_2 n = true ->
  p mod n = (c + u32 (p - c)) mod n.
Proof.
  intros Hn Hp. rewrite <- Zplus_mod_idemp_r, u32_mod_pow2, Zplus_mod_idemp_r by done.
  f_equal. lia.
Qed.

Lemma spsc_produced_ok d s cnt :
  dev_ok d -> mode d = KBUF_MODE_SPSC -> u32 (prod_idx d - cons_idx d) < num_buffers d ->
  slot_ok (buffer_size d) s ->
  dev_ok (spsc_produced d s cnt) /\
  dev_queue (spsc_produced d s cnt) = dev_queue d ++ [slot_msg s].
Proof.
  intros (Hg & Hr & [Hpk H64]) Hm Hfull Hs.
  apply ring_ok_spsc in Hr as ([Hp2 Hpi Hci Hocc] & Hz); [| done].
  pose proof (geo_n d Hg) as Hn. set (i := prod_idx d mod num_buffers d).
  pose proof (u32_range (prod_idx d - cons_idx d)) as Hor. unfold in_u32 in Hor.
  assert (Hsucc : u32 (u32 (prod_idx d + 1) - cons_idx d) = u32 (prod_idx d - cons_idx d) + 1)
    by (apply u32_occ_succ; unfold KBUF_MAX_NUM_BUFFERS in *; lia).
  assert (Hocc' : u32 (prod_idx d + 1 - cons_idx d) = u32 (prod_idx d - cons_idx d) + 1)
    by (rewrite <- Hsucc; unfold u32; by rewrite Zminus_mod_idemp_l).
  pose proof (put_slot_geometry d i s Hg Hs) as Hg'.
  pose proof (queue_window_push d (cons_idx d) (u32 (prod_idx d - cons_idx d)) i s Hg ltac:(lia)
                (spsc_prod_slot _ _ _ Hn Hp2)) as Hq.
  unfold spsc_produced. fold i. destruct (put_slot_self d i s) as [sl Hsl].
  rewrite Hsl in *. rewrite raise_peak_max, Hocc'. unfold account_produced.
  split; [split_and!; [by eapply geometry_same; [.. | exact Hg'] | |] |].
  - apply ring_ok_spsc; [done |]. split; [| done].
    split; dev_fields; [done | apply u32_range | done | lia].
  - split; dev_fields; [lia |]. counters.
  - rewrite !dev_queue_spsc by done. unfold spsc_queue. dev_fields. rewrite Hsucc, <- Hq.
    by apply queue_window_same.
Qed.

Lemma spsc_consumed_ok d s n :
  dev_ok d -> mode d = KBUF_MODE_SPSC -> prod_idx d <> cons_idx d ->
  slot_at d (cons_idx d mod num_buffers d) = Some s ->
  dev_ok (spsc_consumed d n) /\ dev_queue d = slot_msg s :: dev_queue (spsc_consumed d n).
Proof.
  intros (Hg & Hr & [Hpk H64]) Hm Hne Hs.
  apply ring_ok_spsc in Hr as ([Hp2 Hpi Hci Hocc] & Hz); [| done].
  pose proof (geo_n d Hg) as Hn. unfold in_u32 in *.
  assert (Hpos : 0 < u32 (prod_idx d - cons_idx d)).
  { pose proof (u32_range (prod_idx d - cons_idx d)) as [Hr0 _].
    destruct (Z.eq_dec (u32 (prod_idx d - cons_idx d)) 0) as [E |]; [| lia].
    unfold u32 in E. apply Z.mod_divide in E as [q Hq]; lia. }
  pose proof (u32_occ_pred _ _ Hpos) as Hpred.
  pose proof (queue_window_pop d (cons_idx d) (u32 (prod_idx d - cons_idx d)) _ s Hg ltac:(lia)
                eq_refl Hs) as Hq.
  split.
  - unfold spsc_consumed, account_consumed.
    split_and!; [by eapply geometry_same; [.. | exact Hg] | |].
    + apply ring_ok_spsc; [done |]. split; [| done].
      split; dev_fields; [done | done | apply u32_range | lia].
    + split; dev_fields; [lia |]. counters.
  - rewrite !dev_queue_spsc by done. unfold spsc_queue. rewrite Hq. f_equal.
    unfold spsc_consumed, account_consumed. dev_fields. rewrite Hpred.
    rewrite (queue_window_congr d _ (u32 (cons_idx d + 1)));
      [by apply queue_window_same | done | by rewrite u32_mod_pow2].
Qed.
End states.
