(* ===== verification/CtlFacts.v ===== *)
(** * CtlFacts: what each control operation does to heap, ledger and ids

    Every operation of Ctl.v on every branch: [kbuf_dev_release] gives back
    exactly what the device holds, a failing [kbuf_dyn_create] gives back
    everything, and a successful one leaves a device that holds fresh
    resources only. *)

From S2P Require Import Prelude Kernel Uapi Device Alloc Ring RingFacts Mmap Ctl.
#[local] Open Scope Z_scope.

(** ** What a device holds *)
Definition slots_res (d : kbuf_dev) : list (Z * rkind) :=
  match slots d with Some sa => (fun h => (h, RkMem)) <$> array_ptrs sa | None => [] end.

Definition ring_res (d : kbuf_dev) : list (Z * rkind) :=
  match mmap_ctrl d, mmap_data d with
  | Some c, Some buf => (fun h => (h, RkVmem)) <$> ring_ptrs c buf
  | _, _ => []
  end.

(** Node and cdev, while the device is registered. *)
Definition node_res (reg : bool) (d : kbuf_dev) : list (Z * rkind) :=
  if reg then [(dev_node d, RkNode); (cdevp d, RkCdev)] else [].

Definition dev_res (reg : bool) (p : Z) (d : kbuf_dev) : list (Z * rkind) :=
  node_res reg d ++ ring_res d ++ slots_res d ++ [(p, RkMem)].

(** [m'] is [m] with the resources [rs] added, all new; and taken away. *)
Definition adds (rs : list (Z * rkind)) (m m' : gmap Z rkind) : Prop :=
  NoDup rs.*1 /\ (forall h, h ∈ rs.*1 -> m !! h = None) /\
  (forall h, m' !! h = match (list_to_map rs : gmap Z rkind) !! h with
                       | Some rk => Some rk | None => m !! h end).

Definition dels (hs : list Z) (m m' : gmap Z rkind) : Prop :=
  forall h, m' !! h = if decide (h ∈ hs) then None else m !! h.

Lemma adds_nil m : adds [] m m.
Proof. split_and!; [apply NoDup_nil_2 | by intros h Hh%elem_of_nil | done]. Qed.

Lemma adds_lookup_None rs m m' h : adds rs m m' -> m' !! h = None -> (h ∉ rs.*1) /\ m !! h = None.
Proof.
  intros (_ & _ & Hm) E. rewrite Hm in E. destruct (_ !! h) eqn:El; [done |].
  split; [by apply not_elem_of_list_to_map | done].
Qed.

Lemma adds_cons h rk rs m m' :
  adds rs m m' -> m' !! h = None -> adds ((h, rk) :: rs) m (<[h := rk]> m').
Proof.
  intros Ha E. destruct (adds_lookup_None _ _ _ _ Ha E) as [Hn Hm0]. destruct Ha as (Hnd & Hf & Hm).
  split_and!.
  - cbn. by apply NoDup_cons.
  - intros x Hx. cbn in Hx. apply elem_of_cons in Hx as [-> | Hx]; [done | by apply Hf].
  - intros x. cbn. destruct (decide (h = x)) as [-> | Hne].
    + by rewrite !lookup_insert_eq.
    + rewrite !lookup_insert_ne by done. apply Hm.
Qed.

Lemma adds_batch rk ps rs m m' :
  adds rs m m' -> fresh_batch ps m' -> adds (((fun h => (h, rk)) <$> ps) ++ rs) m (ledger_add rk ps m').
Proof.
  intros Ha. induction ps as [| p ps IH]; intros [Hnd Hf]; [done |].
  apply NoDup_cons in Hnd as [Hni Hnd].
  change (ledger_add rk (p :: ps) m') with (<[p := rk]> (ledger_add rk ps m')).
  rewrite fmap_cons. cbn [app]. apply adds_cons.
  - apply IH. split; [done |]. intros q Hq. apply Hf. by right.
  - rewrite ledger_add_lookup, decide_False by done. apply Hf. by left.
Qed.

Lemma adds_in rs m m' h rk : adds rs m m' -> (h, rk) ∈ rs -> m' !! h = Some rk.
Proof.
  intros (Hnd & _ & Hm) Hin. rewrite Hm.
  by rewrite (elem_of_list_to_map_1 rs h rk Hnd Hin).
Qed.

Lemma adds_out rs m m' h : adds rs m m' -> h ∉ rs.*1 -> m' !! h = m !! h.
Proof. intros (_ & _ & Hm) Hn. by rewrite Hm, not_elem_of_list_to_map_1. Qed.

Lemma dels_ledger hs m : dels hs m (ledger_del hs m).
Proof. intros h. apply ledger_del_lookup. Qed.

Lemma dels_app hs1 hs2 m m1 m2 : dels hs1 m m1 -> dels hs2 m1 m2 -> dels (hs1 ++ hs2) m m2.
Proof.
  intros H1 H2 h. rewrite H2, H1. repeat case_decide; try done; set_solver.
Qed.

Lemma dels_one h m : dels [h] m (delete h m).
Proof.
  intros x. destruct (decide (x ∈ [h])) as [->%list_elem_of_singleton | Hn].
  - apply lookup_delete_eq.
  - apply lookup_delete_ne. intros ->. apply Hn. by left.
Qed.

(** Taking back exactly what was added. *)
Lemma adds_dels rs m m' m'' : adds rs m m' -> dels rs.*1 m' m'' -> m'' = m.
Proof.
  intros Ha Hd. apply map_eq. intros h. rewrite Hd. case_decide as Hin.
  - symmetry. by apply Ha.
  - by eapply adds_out.
Qed.

Lemma fst_res (rk : rkind) (ps : list Z) : ((fun h => (h, rk)) <$> ps).*1 = ps.
Proof. rewrite <- list_fmap_compose. apply list_fmap_id. Qed.

(** Taking back the part added last. *)
Lemma adds_drop rs1 rs2 m m' m1 :
  adds (rs1 ++ rs2) m m' -> dels rs1.*1 m' m1 -> adds rs2 m m1.
Proof.
  intros (Hnd & Hf & Hm) Hd. rewrite fmap_app in *. apply NoDup_app in Hnd as (Hn1 & Hs & Hn2).
  split_and!; [done | intros h Hh; apply Hf, elem_of_app; by right |].
  intros h. rewrite Hd, Hm, list_to_map_app. case_decide as Hin.
  - rewrite (not_elem_of_list_to_map_1 rs2) by (by apply Hs). symmetry. apply Hf, elem_of_app. by left.
  - rewrite lookup_union_r by (by apply not_elem_of_list_to_map_1). done.
Qed.

(** ** Program steps *)
Section facts.
Context {K : Type} `{KernelLaws K}.
Implicit Types (w : cworld K) (d : kbuf_dev).

Lemma get_dev_run p d w : c_heap w !! p = Some d -> get_dev p w = Done (d, w).
Proof. intros E. unfold get_dev, p_bind, p_get. simpl. by rewrite E. Qed.

Lemma upd_dev_run p f d w :
  c_heap w !! p = Some d ->
  upd_dev p f w = Done (tt, w <| c_heap := <[p := f d]> (c_heap w) |>).
Proof. intros E. unfold upd_dev. by rewrite (run_bind _ _ w d w) by (by apply get_dev_run). Qed.

(** The resources [rs] are held with their kinds. *)
Definition holds (rs : list (Z * rkind)) (m : gmap Z rkind) : Prop :=
  NoDup rs.*1 /\ forall h rk, (h, rk) ∈ rs -> m !! h = Some rk.

Lemma holds_app rs1 rs2 m : holds (rs1 ++ rs2) m -> holds rs1 m /\ holds rs2 m.
Proof.
  intros [Hnd Hh]. rewrite fmap_app in Hnd. apply NoDup_app in Hnd as (? & _ & ?).
  split; (split; [done |]); intros h rk Hin; apply Hh, elem_of_app; tauto.
Qed.

Lemma holds_batch rk ps m : holds ((fun h => (h, rk)) <$> ps) m -> held_batch rk ps m.
Proof.
  intros [Hnd Hh]. rewrite fst_res in Hnd. split; [done |]. intros p Hp. apply Hh.
  apply list_elem_of_fmap. by exists p.
Qed.

(** Releasing some resources leaves the others held. *)
Lemma holds_dels rs hs m m' :
  holds rs m -> dels hs m m' -> (forall h, h ∈ rs.*1 -> h ∉ hs) -> holds rs m'.
Proof.
  intros [Hnd Hh] Hd Hsep. split; [done |]. intros h rk Hin. rewrite Hd, decide_False.
  - by apply Hh.
  - apply Hsep. apply list_elem_of_fmap. by exists (h, rk).
Qed.

Lemma holds_sep rs1 rs2 m h : holds (rs1 ++ rs2) m -> h ∈ rs2.*1 -> h ∉ rs1.*1.
Proof.
  intros [Hnd _] H2 H1. rewrite fmap_app in Hnd. apply NoDup_app in Hnd as (_ & Hs & _).
  by apply (Hs h).
Qed.

(** The shape every device has from the end of its creation on. *)
Record dyn_shape (d : kbuf_dev) : Prop := {
  ds_dynamic : dynamic d = true;
  ds_slots : exists sa, slots d = Some sa /\ num_buffers d = Z.of_nat (length (sa_slots sa));
  ds_ring : exists c buf, mapped d c buf
}.

Lemma mmap_free_of_run p d w :
  c_heap w !! p = Some d -> dyn_shape d -> holds (ring_res d) (k_held (c_kern w)) ->
  exists k', mmap_free_of p w
             = Done (tt, w <| c_kern := k' |>
                           <| c_heap := <[p := d <| mmap_data := None |> <| mmap_ctrl := None |>]>
                                          (c_heap w) |>) /\
    dels (ring_res d).*1 (k_held (c_kern w)) (k_held k') /\ k_ida k' = k_ida (c_kern w).
Proof.
  intros E [_ _ (c & buf & Hm)] Hh. pose proof Hm as [Hc Hd _ _].
  unfold ring_res in *. rewrite Hc, Hd in *. apply holds_batch in Hh. rewrite fst_res.
  pose proof (kbuf_mmap_dev_free_spec d c buf (c_kern w) Hm Hh) as Hf.
  unfold mmap_free_of. rewrite (run_bind _ _ w d w) by (by apply get_dev_run).
  unfold kern. destruct (kbuf_mmap_dev_free d (c_kern w)) as [d' k'] eqn:Ef.
  destruct Hf as (-> & Hk & Hi). erewrite run_bind by (rewrite Ef; done).
  exists k'. split; [done |]. split; [| done]. rewrite Hk. apply dels_ledger.
Qed.

Lemma free_slots_run d w :
  (exists sa, slots d = Some sa /\ num_buffers d = Z.of_nat (length (sa_slots sa))) ->
  holds (slots_res d) (k_held (c_kern w)) ->
  exists k', free_slots_of d w = Done (tt, w <| c_kern := k' |>) /\
    dels (slots_res d).*1 (k_held (c_kern w)) (k_held k') /\ k_ida k' = k_ida (c_kern w).
Proof.
  intros (sa & Hs & Hn) Hh. unfold slots_res in *. rewrite Hs in *. apply holds_batch in Hh.
  rewrite fst_res. destruct (kbuf_free_slots_spec sa (num_buffers d) (c_kern w) Hn Hh)
    as (k' & Hf & Hk & Hi).
  unfold free_slots_of, p_bind, p_get. cbn [exec_bind]. rewrite Hs, Hf. cbn [exec_bind].
  exists k'. split; [done |]. split; [| done]. rewrite Hk. apply dels_ledger.
Qed.

(** What an operation that frees the device at [p] leaves. *)
Definition freed (p : Z) (d : kbuf_dev) (hs : list Z) (w w' : cworld K) : Prop :=
  c_heap w' = delete p (c_heap w) /\ c_list w' = c_list w /\ c_names w' = c_names w /\
  dels hs (k_held (c_kern w)) (k_held (c_kern w')) /\
  k_ida (c_kern w') = k_ida (c_kern w) ∖ {[minor_off d]}.

Lemma kbuf_dev_release_run p d w :
  c_heap w !! p = Some d -> dyn_shape d -> holds (dev_res false p d) (k_held (c_kern w)) ->
  minor_off d ∈ k_ida (c_kern w) ->
  exists w', kbuf_dev_release p w = Done (tt, w') /\ freed p d (dev_res false p d).*1 w w'.
Proof.
  intros E Hsh Hh Hida. unfold dev_res in Hh. cbn [node_res app] in Hh.
  pose proof (proj1 (holds_app _ _ _ Hh)) as Hring. pose proof (proj2 (holds_app _ _ _ Hh)) as Hrest.
  destruct (mmap_free_of_run p d w E Hsh Hring) as (k1 & Hrun1 & Hd1 & Hi1).
  unfold kbuf_dev_release. rewrite (run_bind _ _ _ _ _ Hrun1).
  set (w1 := w <| c_kern := k1 |> <| c_heap := _ |>).
  set (d1 := d <| mmap_data := None |> <| mmap_ctrl := None |>) in *.
  assert (E1 : c_heap w1 !! p = Some d1) by apply lookup_insert_eq.
  rewrite (run_bind _ _ w1 d1 w1) by (by apply get_dev_run).
  assert (Hrest1 : holds (slots_res d ++ [(p, RkMem)]) (k_held k1))
    by (apply (holds_dels _ _ _ _ Hrest Hd1); intros h; by eapply holds_sep).
  pose proof (proj1 (holds_app _ _ _ Hrest1)) as Hsl.
  destruct (free_slots_run d1 w1 (ds_slots d Hsh) Hsl) as (k2 & Hrun2 & Hd2 & Hi2).
  rewrite (run_bind _ _ _ _ _ Hrun2). change (k_ida (c_kern w1)) with (k_ida k1) in Hi2.
  assert (Hp2 : holds [(p, RkMem)] (k_held k2))
    by (apply (holds_dels _ _ _ _ (proj2 (holds_app _ _ _ Hrest1)) Hd2); intros h; by eapply holds_sep).
  destruct (ida_free_ok (minor_off d) k2) as [Hi3 Hh3]; [by rewrite Hi2, Hi1 |].
  destruct (release_ok RkMem p (ida_free (minor_off d) k2)) as [Hh4 Hi4].
  { rewrite Hh3. apply Hp2. by left. }
  eexists. split; [done |].
  split; [cbn; by rewrite delete_insert_eq |]. split; [done |]. split; [done |]. cbn.
  rewrite Hi4, Hi3, Hi2, Hi1, Hh4, Hh3. split; [| done].
  unfold dev_res. rewrite !fmap_app. cbn [node_res fmap list_fmap app fst].
  eapply dels_app; [exact Hd1 |]. eapply dels_app; [exact Hd2 |]. apply dels_one.
Qed.

(** A reference that is not the last. *)
Definition dropped (p : Z) (d : kbuf_dev) (w : cworld K) : cworld K :=
  w <| c_heap := <[p := d <| ref := ref d - 1 |>]> (c_heap w) |>.

Lemma dev_res_ref reg p d r : dev_res reg p (d <| ref := r |>) = dev_res reg p d.
Proof. done. Qed.

Lemma kref_put_run p d w :
  c_heap w !! p = Some d -> dyn_shape d -> holds (dev_res false p d) (k_held (c_kern w)) ->
  minor_off d ∈ k_ida (c_kern w) ->
  exists w', kref_put p w = Done (tt, w') /\
    if ref d =? 1 then freed p d (dev_res false p d).*1 w w' else w' = dropped p d w.
Proof.
  intros E Hsh Hh Hida. unfold kref_put.
  rewrite (run_bind _ _ _ _ _ (upd_dev_run p _ d w E)). fold (dropped p d w).
  assert (E1 : c_heap (dropped p d w) !! p = Some (d <| ref := ref d - 1 |>))
    by apply lookup_insert_eq.
  rewrite (run_bind _ _ _ _ _ (get_dev_run p _ _ E1)). cbn [ref].
  change (ref (d <| ref := ref d - 1 |>)) with (ref d - 1).
  destruct (Z.eqb_spec (ref d) 1) as [Hr | Hr].
  - rewrite (proj2 (Z.eqb_eq _ 0)) by lia.
    destruct (kbuf_dev_release_run p _ (dropped p d w) E1) as (w' & Hrun & Hf); [| done | done |].
    { destruct Hsh as [? ? (c & buf & [])]. split; [done | done |]. by exists c, buf. }
    exists w'. split; [done |]. destruct Hf as (H1 & H2 & H3 & H4 & H5). split_and!; try done.
    rewrite H1. cbn. by rewrite delete_insert_eq.
  - rewrite (proj2 (Z.eqb_neq _ 0)) by lia. by eexists.
Qed.

(** Taking a reference. *)
Definition taken (p : Z) (d : kbuf_dev) (w : cworld K) : cworld K :=
  w <| c_heap := <[p := d <| ref := ref d + 1 |>]> (c_heap w) |>.

Lemma kref_get_run p d w : c_heap w !! p = Some d -> kref_get p w = Done (tt, taken p d w).
Proof. intros E. unfold kref_get. by rewrite (upd_dev_run p _ d w E). Qed.

(** The lookup by minor: the listed device with that minor, if any. *)
Lemma dyn_find_run ps off w :
  (forall p, p ∈ ps -> is_Some (c_heap w !! p)) ->
  exists r, dyn_find ps off w = Done (r, w) /\
    match r with
    | Some p => p ∈ ps /\ exists d, c_heap w !! p = Some d /\ minor_off d = off
    | None => forall p d, p ∈ ps -> c_heap w !! p = Some d -> minor_off d <> off
    end.
Proof.
  induction ps as [| p ps IH]; intros Hall.
  { exists None. split; [done |]. by intros p d Hp%elem_of_nil. }
  destruct (Hall p ltac:(by left)) as [d Hd]. cbn [dyn_find].
  rewrite (run_bind _ _ _ _ _ (get_dev_run p d w Hd)).
  destruct (Z.eqb_spec (minor_off d) off) as [Ho | Ho].
  - exists (Some p). split; [done |]. split; [by left |]. by exists d.
  - destruct IH as (r & Hr & Hs); [intros q Hq; apply Hall; by right |].
    exists r. split; [done |]. destruct r as [q |].
    + destruct Hs as [Hq Hs]. split; [by right | done].
    + intros q e [-> | Hq]%elem_of_cons He; [congruence |]. by eapply Hs.
Qed.

Lemma dev_name_run p d w :
  c_heap w !! p = Some d ->
  dev_name p w = if node_live (c_kern w) d then Done (dev_node d, w) else Oops UseAfterFree.
Proof.
  intros E. unfold dev_name. rewrite (run_bind _ _ _ _ _ (get_dev_run p d w E)).
  unfold p_bind, p_get. cbn [exec_bind]. by destruct (node_live _ _).
Qed.

Lemma dev_name_live p d w :
  c_heap w !! p = Some d -> node_live (c_kern w) d = true -> dev_name p w = Done (dev_node d, w).
Proof. intros E Hn. by rewrite (dev_name_run p d w E), Hn. Qed.

(** ** Creation and its unwinding *)
Lemma adds_holds rs m m' : adds rs m m' -> holds rs m'.
Proof. intros Ha. split; [apply Ha |]. intros h rk Hin. by eapply adds_in. Qed.

(** Between two steps of [kbuf_dyn_create]: the device at [p] is private and
    holds [rs] on top of what was there before. *)
Record stage (w0 : cworld K) (p off : Z) (d : kbuf_dev) (rs : list (Z * rkind)) (w : cworld K)
  : Prop := {
  sg_heap : c_heap w = <[p := d]> (c_heap w0);
  sg_new : c_heap w0 !! p = None;
  sg_rest : c_list w = c_list w0 /\ c_names w = c_names w0;
  sg_held : adds rs (k_held (c_kern w0)) (k_held (c_kern w));
  sg_ida : k_ida (c_kern w) = {[off]} ∪ k_ida (c_kern w0);
  sg_off : off ∉ k_ida (c_kern w0)
}.

Definition undone (w0 w : cworld K) : Prop :=
  c_heap w = c_heap w0 /\ c_list w = c_list w0 /\ c_names w = c_names w0 /\
  k_held (c_kern w) = k_held (c_kern w0) /\ k_ida (c_kern w) = k_ida (c_kern w0).

Lemma stage_lookup w0 p off d rs w : stage w0 p off d rs w -> c_heap w !! p = Some d.
Proof. intros [-> _ _ _ _ _]. apply lookup_insert_eq. Qed.

Lemma stage_dev w0 p off d rs w f :
  stage w0 p off d rs w -> stage w0 p off (f d) rs (w <| c_heap := <[p := f d]> (c_heap w) |>).
Proof.
  intros [Hh Hn Hr Hk Hi Ho]. split; try done. cbn. by rewrite Hh, insert_insert_eq.
Qed.

Lemma stage_kern w0 p off d rs rs' w k :
  stage w0 p off d rs w -> adds rs' (k_held (c_kern w0)) (k_held k) -> k_ida k = k_ida (c_kern w) ->
  stage w0 p off d rs' (w <| c_kern := k |>).
Proof. intros [Hh Hn Hr Hk Hi Ho] Ha Hk'. split; try done. cbn. congruence. Qed.

Lemma err_free_run w0 p off d w ret :
  stage w0 p off d [(p, RkMem)] w ->
  exists w', err_free p off ret w = Done ((ret, 0), w') /\ undone w0 w'.
Proof.
  intros [Hh Hn [Hl Hs] Hk Hi Ho].
  destruct (release_ok RkMem p (c_kern w)) as [Hk1 Hi1].
  { apply (adds_in _ _ _ _ _ Hk). by left. }
  destruct (ida_free_ok off (k_release RkMem p (c_kern w))) as [Hi2 Hk2].
  { rewrite Hi1, Hi. set_solver. }
  eexists. split; [done |]. split; [cbn; by rewrite Hh, delete_insert_id |].
  split; [done |]. split; [done |]. cbn. rewrite Hk2, Hk1, Hi2, Hi1, Hi. split.
  - apply (adds_dels _ _ _ _ Hk). apply dels_one.
  - set_solver.
Qed.

Lemma err_slots_run w0 p off d w ret :
  stage w0 p off d (slots_res d ++ [(p, RkMem)]) w ->
  (exists sa, slots d = Some sa /\ num_buffers d = Z.of_nat (length (sa_slots sa))) ->
  exists w', err_slots p off ret w = Done ((ret, 0), w') /\ undone w0 w'.
Proof.
  intros Hst Hsl. pose proof (stage_lookup _ _ _ _ _ _ Hst) as E. pose proof (sg_held _ _ _ _ _ _ Hst) as Hk.
  unfold err_slots. rewrite (run_bind _ _ _ _ _ (get_dev_run p d w E)).
  destruct (free_slots_run d w Hsl) as (k' & Hrun & Hd & Hi).
  { apply (holds_app _ _ _ (adds_holds _ _ _ Hk)). }
  rewrite (run_bind _ _ _ _ _ Hrun). apply (err_free_run w0 p off d).
  apply (stage_kern w0 p off d _ _ w k' Hst); [| done]. by eapply adds_drop.
Qed.

Lemma err_mmap_run w0 p off d w ret :
  stage w0 p off d (ring_res d ++ slots_res d ++ [(p, RkMem)]) w -> dyn_shape d ->
  exists w', err_mmap p off ret w = Done ((ret, 0), w') /\ undone w0 w'.
Proof.
  intros Hst Hsh. pose proof (stage_lookup _ _ _ _ _ _ Hst) as E. pose proof (sg_held _ _ _ _ _ _ Hst) as Hk.
  destruct (mmap_free_of_run p d w E Hsh) as (k' & Hrun & Hd & Hi).
  { apply (holds_app _ _ _ (adds_holds _ _ _ Hk)). }
  unfold err_mmap. rewrite (run_bind _ _ _ _ _ Hrun).
  set (d1 := d <| mmap_data := None |> <| mmap_ctrl := None |>).
  assert (Hst1 : stage w0 p off d (slots_res d ++ [(p, RkMem)]) (w <| c_kern := k' |>))
    by (apply (stage_kern w0 p off d _ _ w k' Hst); [| done]; by eapply adds_drop).
  apply (err_slots_run w0 p off d1); [| exact (ds_slots d Hsh)].
  exact (stage_dev _ _ _ _ _ _ (fun _ => d1) Hst1).
Qed.

Lemma err_cdev_run w0 p off d w ret :
  stage w0 p off d ((cdevp d, RkCdev) :: ring_res d ++ slots_res d ++ [(p, RkMem)]) w -> dyn_shape d ->
  exists w', err_cdev p off ret w = Done ((ret, 0), w') /\ undone w0 w'.
Proof.
  intros Hst Hsh. pose proof (stage_lookup _ _ _ _ _ _ Hst) as E. pose proof (sg_held _ _ _ _ _ _ Hst) as Hk.
  destruct (release_ok RkCdev (cdevp d) (c_kern w)) as [Hk1 Hi1].
  { apply (adds_in _ _ _ _ _ Hk). by left. }
  unfold err_cdev. rewrite (run_bind _ _ _ _ _ (get_dev_run p d w E)).
  unfold release at 1. rewrite (run_bind _ _ w tt (w <| c_kern := k_release RkCdev (cdevp d) (c_kern w) |>))
    by done.
  apply (err_mmap_run w0 p off d); [| done].
  apply (stage_kern w0 p off d _ _ w _ Hst); [| done].
  apply (adds_drop [(cdevp d, RkCdev)] _ _ _ _ Hk). rewrite Hk1. apply dels_one.
Qed.

Context (base_devno ndevices : Z) (dev_index : Z -> Z).

(** A device as [kbuf_dyn_create] publishes it. *)
Record created (w0 : cworld K) (p off : Z) (d : kbuf_dev) (w : cworld K) : Prop := {
  cr_heap : c_heap w = <[p := d]> (c_heap w0);
  cr_new : c_heap w0 !! p = None;
  cr_list : c_list w = c_list w0 ++ [p];
  cr_stale : c_names w = c_names w0;
  cr_held : adds (dev_res true p d) (k_held (c_kern w0)) (k_held (c_kern w));
  cr_ida : k_ida (c_kern w) = {[off]} ∪ k_ida (c_kern w0);
  cr_off : (off ∉ k_ida (c_kern w0)) /\ 0 <= off < KBUF_DYN_MAX;
  cr_shape : dyn_shape d;
  cr_minor : minor_off d = off;
  cr_ref : ref d = 1;
  cr_dev : dev_ok d /\ mode d = KBUF_MODE_BLOCKING /\ dev_queue d = []
}.

(** The fields the later steps do not touch. *)
Definition dyn_body (p off : Z) (d : kbuf_dev) : Prop :=
  dyn_shape d /\ minor_off d = off /\ ref d = 1 /\
  dev_ok d /\ mode d = KBUF_MODE_BLOCKING /\ dev_queue d = [].

Lemma dyn_body_nodes p off d c h :
  dyn_body p off d -> dyn_body p off (d <| cdevp := c |>) /\ dyn_body p off (d <| dev_node := h |>).
Proof.
  intros ([Hd Hs (cc & buf & Hm)] & Ho & Hr & ([Hn Hb Hsl] & Hri & Hst) & Hmo & Hq).
  assert (Hm1 : mapped (d <| cdevp := c |>) cc buf) by (destruct Hm; by split).
  assert (Hm2 : mapped (d <| dev_node := h |>) cc buf) by (destruct Hm; by split).
  assert (Hst' : forall d', stats_ok d -> peak_count d' = peak_count d -> num_buffers d' = num_buffers d ->
            [bytes_produced d'; bytes_consumed d'; msgs_produced d'; msgs_consumed d';
             read_sleeps d'; write_sleeps d']
            = [bytes_produced d; bytes_consumed d; msgs_produced d; msgs_consumed d;
               read_sleeps d; write_sleeps d] -> stats_ok d')
    by (intros d' [? ?] E1 E2 E3; split; [by rewrite E1, E2 | by rewrite E3]).
  split; (split_and!; [split; eauto | done | done | | done | done]);
    (split_and!; [by split | by apply (ring_ok_same d) | by apply Hst']).
Qed.

Lemma kern_run {A} (f : K -> A * K) w a k' :
  f (c_kern w) = (a, k') -> kern f w = Done (a, w <| c_kern := k' |>).
Proof. intros E. unfold kern. by rewrite E. Qed.

(** One more resource on top, or the error and nothing. *)
Lemma stage_acquire rk w0 p off d rs w :
  stage w0 p off d rs w ->
  exists a w1, kern (k_acquire rk) w = Done (a, w1) /\
    match a with
    | inl h => stage w0 p off d ((h, rk) :: rs) w1
    | inr e => is_errno e /\ stage w0 p off d rs w1
    end.
Proof.
  intros Hst. destruct (k_acquire rk (c_kern w)) as [a k1] eqn:E. exists a.
  eexists. split; [by apply kern_run |]. destruct a as [h | e].
  - apply acquire_ok in E as (Hf & Hk & Hi). apply (stage_kern _ _ _ _ _ _ _ _ Hst); [| done].
    rewrite Hk. apply adds_cons; [apply Hst | done].
  - apply acquire_err in E as (He & Hk & Hi). split; [done |].
    apply (stage_kern _ _ _ _ _ _ _ _ Hst); [| done]. rewrite Hk. apply Hst.
Qed.

Lemma stage_cdev_add w0 p off d c rs w :
  stage w0 p off d ((c, RkCdevObj) :: rs) w ->
  exists r w1, kern (k_cdev_add c) w = Done (r, w1) /\
    if r <? 0 then stage w0 p off d ((c, RkCdevObj) :: rs) w1
    else stage w0 p off d ((c, RkCdev) :: rs) w1.
Proof.
  intros Hst. pose proof (sg_held _ _ _ _ _ _ Hst) as Hk0.
  destruct (k_cdev_add c (c_kern w)) as [r k1] eqn:E. exists r.
  eexists. split; [by apply kern_run |]. destruct (Z.ltb_spec r 0) as [Hr | Hr].
  - apply cdev_add_err in E as (_ & Hk & Hi); [| done].
    apply (stage_kern _ _ _ _ _ _ _ _ Hst); [| done]. rewrite Hk. apply Hst.
  - apply cdev_add_ok in E as (Hk & Hi); [| done | apply (adds_in _ _ _ _ _ Hk0); by left].
    apply (stage_kern _ _ _ _ _ _ _ _ Hst); [| done]. rewrite Hk, <- insert_delete_eq.
    apply adds_cons; [| apply lookup_delete_eq].
    apply (adds_drop [(c, RkCdevObj)] _ _ _ _ Hk0), dels_one.
Qed.

Lemma stage_release rk h w0 p off d rs w :
  stage w0 p off d ((h, rk) :: rs) w ->
  exists w1, release rk h w = Done (tt, w1) /\ stage w0 p off d rs w1.
Proof.
  intros Hst. pose proof (sg_held _ _ _ _ _ _ Hst) as Hk.
  destruct (release_ok rk h (c_kern w)) as [Hk1 Hi1]; [apply (adds_in _ _ _ _ _ Hk); by left |].
  eexists. split; [done |]. apply (stage_kern _ _ _ _ _ _ _ _ Hst); [| done].
  apply (adds_drop [(h, rk)] _ _ _ _ Hk). rewrite Hk1. apply dels_one.
Qed.

Lemma stage_upd f w0 p off d rs w :
  stage w0 p off d rs w ->
  exists w1, upd_dev p f w = Done (tt, w1) /\ stage w0 p off (f d) rs w1.
Proof.
  intros Hst. eexists. split; [by apply upd_dev_run, (stage_lookup _ _ _ _ _ _ Hst) |].
  by apply stage_dev.
Qed.

(** Either everything was undone, or the device is published. *)
Definition create_exit (w0 : cworld K) (r : Z * Z) (w : cworld K) : Prop :=
  (r.1 < 0 /\ undone w0 w) \/ exists p d, r.1 = 0 /\ created w0 p r.2 d w.

Lemma create_failed w0 (m : prog (cworld K) (Z * Z)) ret w :
  ret < 0 -> (exists w', m w = Done ((ret, 0), w') /\ undone w0 w') ->
  exists r w', m w = Done (r, w') /\ create_exit w0 r w'.
Proof. intros Hr (w' & Hm & Hu). exists (ret, 0), w'. split; [done |]. by left. Qed.

Lemma dyn_publish_run w0 p off d w :
  stage w0 p off d (ring_res d ++ slots_res d ++ [(p, RkMem)]) w -> dyn_body p off d ->
  0 <= off < KBUF_DYN_MAX ->
  exists r w', dyn_publish p off w = Done (r, w') /\ create_exit w0 r w'.
Proof.
  intros Hst Hb Hoff. unfold dyn_publish.
  destruct (stage_acquire RkCdevObj _ _ _ _ _ _ Hst) as ([c | e] & w1 & Hrun & Hst1);
    rewrite (run_bind _ _ _ _ _ Hrun).
  2: { eapply create_failed; [| by apply (err_mmap_run w0 p off d); [apply Hst1 | apply Hb]]. done. }
  destruct (stage_upd (fun d => d <| cdevp := c |>) _ _ _ _ _ _ Hst1) as (w2 & Hrun2 & Hst2).
  rewrite (run_bind _ _ _ _ _ Hrun2). set (d1 := d <| cdevp := c |>) in *.
  destruct (dyn_body_nodes p off d c 0 Hb) as [Hb1 _]. fold d1 in Hb1.
  destruct (stage_cdev_add _ _ _ _ _ _ _ Hst2) as (r & w3 & Hrun3 & Hst3).
  rewrite (run_bind _ _ _ _ _ Hrun3). destruct (Z.ltb_spec r 0) as [Hr | Hr].
  { destruct (stage_release _ _ _ _ _ _ _ _ Hst3) as (w4 & Hrun4 & Hst4).
    rewrite (run_bind _ _ _ _ _ Hrun4).
    eapply create_failed; [exact Hr |]. by apply (err_mmap_run w0 p off d1); [| apply Hb1]. }
  destruct (stage_acquire RkNode _ _ _ _ _ _ Hst3) as ([h | e] & w4 & Hrun4 & Hst4);
    rewrite (run_bind _ _ _ _ _ Hrun4).
  2: { destruct Hst4 as [[_ He] Hst4]. eapply create_failed; [exact He |].
       by apply (err_cdev_run w0 p off d1); [| apply Hb1]. }
  destruct (stage_upd (fun d => d <| dev_node := h |>) _ _ _ _ _ _ Hst4) as (w5 & Hrun5 & Hst5).
  rewrite (run_bind _ _ _ _ _ Hrun5). set (d2 := d1 <| dev_node := h |>) in *.
  destruct (dyn_body_nodes p off d1 0 h Hb1) as [_ (Hsh & Hmi & Hrf & Hdev)].
  destruct Hst5 as [Hh Hn [Hl Hs] Hk Hi Ho].
  eexists _, _. split; [done |]. right. exists p, d2. split; [done |].
  split; cbn; try done. by rewrite Hl.
Qed.

(** A new device with its slots and areas is a well-formed empty ring. *)
Lemma dyn_init_body p off sa c buf :
  let d := (dyn_init base_devno ndevices dev_index p off) <| slots := Some sa |>
             <| mmap_data := Some buf |> <| mmap_ctrl := Some c |> in
  Z.of_nat (length (sa_slots sa)) = KBUF_DEFAULT_NUM_BUFFERS ->
  Forall (slot_ok KBUF_DEFAULT_BUFFER_SIZE) (sa_slots sa) -> mapped d c buf -> dyn_body p off d.
Proof.
  intros d Hl Hall Hm. split_and!.
  - split; [done | by exists sa | by exists c, buf].
  - done.
  - done.
  - split_and!.
    + split; [done | done |]. by exists sa.
    + apply ring_ok_blocking; [done |]. split; [by split | done].
    + split; [done |]. repeat first [apply List.Forall_nil | apply List.Forall_cons]; done.
  - done.
  - rewrite dev_queue_blocking by done. unfold blocking_queue, queue_window. done.
Qed.

(** The slots of a private device, all or none. *)
Lemma stage_slots w0 p off d w n size :
  stage w0 p off d [(p, RkMem)] w -> 0 <= n -> 0 <= size ->
  exists sl w1, kern (kbuf_alloc_slots n size) w = Done (sl, w1) /\
    match sl with
    | Some sa => Z.of_nat (length (sa_slots sa)) = n /\ Forall (slot_ok size) (sa_slots sa) /\
                 stage w0 p off d (((fun h => (h, RkMem)) <$> array_ptrs sa) ++ [(p, RkMem)]) w1
    | None => stage w0 p off d [(p, RkMem)] w1
    end.
Proof.
  intros Hst Hn Hs. pose proof (kbuf_alloc_slots_spec n size (c_kern w) Hn Hs) as Ha.
  destruct (kbuf_alloc_slots n size (c_kern w)) as [sl k1] eqn:E. exists sl.
  eexists. split; [by apply kern_run |]. destruct sl as [sa |].
  - destruct Ha as (Hl & Hall & Hf & Hk & Hi). split; [done |]. split; [done |].
    apply (stage_kern _ _ _ _ _ _ _ _ Hst); [| done]. rewrite Hk.
    apply adds_batch; [apply Hst | done].
  - destruct Ha as [Hk Hi]. apply (stage_kern _ _ _ _ _ _ _ _ Hst); [| done].
    rewrite Hk. apply Hst.
Qed.

(** The mmap areas of a private device, both or none. *)
Lemma stage_areas w0 p off d w rs :
  stage w0 p off d rs w ->
  exists r d1 w1, kern (kbuf_mmap_dev_alloc d) w = Done ((r, d1), w1) /\
    ((r < 0 /\ stage w0 p off d rs w1 /\ slots d1 = slots d /\ num_buffers d1 = num_buffers d) \/
     (r = 0 /\ exists c buf, mapped d1 c buf /\
        d1 = d <| mmap_data := Some buf |> <| mmap_ctrl := Some c |> /\
        stage w0 p off d (((fun h => (h, RkVmem)) <$> ring_ptrs c buf) ++ rs) w1)).
Proof.
  intros Hst. pose proof (kbuf_mmap_dev_alloc_spec d (c_kern w)) as Ha.
  destruct (kbuf_mmap_dev_alloc d (c_kern w)) as [[r d1] k1] eqn:E. exists r, d1.
  eexists. split; [by apply kern_run |]. destruct Ha as (Hi & [Ha | Ha]).
  - right. destruct Ha as (-> & c & buf & Hm & -> & _ & _ & _ & Hf & Hk). split; [done |].
    exists c, buf. split; [done |]. split; [done |].
    apply (stage_kern _ _ _ _ _ _ _ _ Hst); [| done]. rewrite Hk. apply adds_batch; [apply Hst | done].
  - left. destruct Ha as (-> & _ & Hs & Hn & Hk). split; [done |]. split; [| done].
    apply (stage_kern _ _ _ _ _ _ _ _ Hst); [| done]. rewrite Hk. apply Hst.
Qed.

(** From the zeroed device on. *)
Lemma create_rest p off w w0 :
  stage w0 p off (dyn_init base_devno ndevices dev_index p off) [(p, RkMem)] w ->
  0 <= off < KBUF_DYN_MAX ->
  exists r w', (sl <-- kern (kbuf_alloc_slots KBUF_DEFAULT_NUM_BUFFERS KBUF_DEFAULT_BUFFER_SIZE) ;;
    upd_dev p (fun d => d <| slots := sl |>) ;;;
    match sl with
    | None => err_free p off (- ENOMEM)
    | Some _ =>
      d <-- get_dev p ;;
      rd <-- kern (kbuf_mmap_dev_alloc d) ;;
      put_dev p rd.2 ;;;
      if rd.1 <? 0 then err_slots p off rd.1 else dyn_publish p off
    end) w = Done (r, w') /\ create_exit w0 r w'.
Proof.
  intros Hst0 Hoff. set (d0 := dyn_init base_devno ndevices dev_index p off) in *.
  destruct (stage_slots w0 p off d0 w KBUF_DEFAULT_NUM_BUFFERS KBUF_DEFAULT_BUFFER_SIZE Hst0
              ltac:(done) ltac:(done)) as (sl & w1 & Hrun1 & Hst1).
  rewrite (run_bind _ _ _ _ _ Hrun1). destruct sl as [sa |].
  2: { destruct (stage_upd (fun d => d <| slots := None |>) _ _ _ _ _ _ Hst1) as (w2 & Hrun2 & Hst2).
       rewrite (run_bind _ _ _ _ _ Hrun2).
       eapply create_failed; [| exact (err_free_run w0 p off _ w2 (- ENOMEM) Hst2)]. done. }
  destruct Hst1 as (Hl & Hall & Hst1).
  destruct (stage_upd (fun d => d <| slots := Some sa |>) _ _ _ _ _ _ Hst1) as (w2 & Hrun2 & Hst2).
  rewrite (run_bind _ _ _ _ _ Hrun2). set (d1 := d0 <| slots := Some sa |>) in *.
  rewrite (run_bind _ _ _ _ _ (get_dev_run p d1 w2 (stage_lookup _ _ _ _ _ _ Hst2))).
  destruct (stage_areas w0 p off d1 w2 _ Hst2) as (r & d2 & w3 & Hrun3 & Hcase).
  rewrite (run_bind _ _ _ _ _ Hrun3). cbn [fst snd]. unfold put_dev, p_modify.
  rewrite (run_bind _ _ _ tt (w3 <| c_heap := <[p := d2]> (c_heap w3) |>)) by done.
  destruct Hcase as [(Hr & Hst3 & Hsl & Hnb) | (-> & c & buf & Hm & -> & Hst3)].
  - rewrite (proj2 (Z.ltb_lt r 0)) by done. eapply create_failed; [exact Hr |].
    apply (err_slots_run w0 p off d2).
    + pose proof (stage_dev _ _ _ _ _ _ (fun _ => d2) Hst3) as Hst4.
      unfold slots_res. by rewrite Hsl.
    + exists sa. by rewrite Hsl, Hnb.
  - cbn [Z.ltb Z.compare].
    eapply (dyn_publish_run w0 p off (d1 <| mmap_data := Some buf |> <| mmap_ctrl := Some c |>)); [| | done].
    + exact (stage_dev _ _ _ _ _ _ (fun d => d <| mmap_data := Some buf |> <| mmap_ctrl := Some c |>) Hst3).
    + by apply dyn_init_body.
Qed.

Lemma kbuf_dyn_create_run w :
  (forall p d, c_heap w !! p = Some d -> k_held (c_kern w) !! p = Some RkMem) ->
  exists r w', kbuf_dyn_create base_devno ndevices dev_index w = Done (r, w') /\ create_exit w r w'.
Proof.
  intros Hheap. unfold kbuf_dyn_create.
  destruct (ida_alloc_max (KBUF_DYN_MAX - 1) (c_kern w)) as [off k1] eqn:E1.
  rewrite (run_bind _ _ _ _ _ (kern_run _ w off k1 E1)).
  destruct (Z.ltb_spec off 0) as [Ho | Ho].
  { apply ida_alloc_err in E1 as (_ & Hi & Hk); [| done].
    eexists _, _. split; [done |]. left. split; [done |]. by split_and!. }
  apply ida_alloc_ok in E1 as (Hmax & Hnew & Hi1 & Hk1); [| done].
  set (w1 := w <| c_kern := k1 |>).
  destruct (k_acquire RkMem k1) as [[p | e] k2] eqn:E2;
    rewrite (run_bind _ _ _ _ _ (kern_run (k_acquire RkMem) w1 _ k2 E2)).
  2: { apply acquire_err in E2 as (_ & Hk2 & Hi2).
       destruct (ida_free_ok off k2) as [Hi3 Hk3]; [set_solver |].
       apply (create_failed w (err_ida off (- ENOMEM)) (- ENOMEM)); [done |]. eexists. split; [done |].
       split_and!; try done; cbn; [congruence | rewrite Hi3; set_solver]. }
  apply acquire_ok in E2 as (Hp & Hk2 & Hi2). rewrite Hk1 in *.
  set (d0 := dyn_init base_devno ndevices dev_index p off).
  assert (Hpn : c_heap w !! p = None).
  { destruct (c_heap w !! p) as [d |] eqn:E; [| done]. by rewrite (Hheap p d E) in Hp. }
  assert (Hst0 : stage w p off d0 [(p, RkMem)]
                   (w1 <| c_kern := k2 |> <| c_heap := <[p := d0]> (c_heap w) |>)).
  { split; try done; cbn; [| congruence]. rewrite Hk2. apply adds_cons; [apply adds_nil | done]. }
  unfold put_dev at 1, p_modify at 1.
  rewrite (run_bind _ _ _ tt (w1 <| c_kern := k2 |> <| c_heap := <[p := d0]> (c_heap w) |>)) by done.
  exact (create_rest p off _ w Hst0 ltac:(unfold KBUF_DYN_MAX in *; lia)).
Qed.
End facts.
