(* ===== verification/Init.v ===== *)
(** * Init: loading and unloading the module (src/kbuf_main.c, with the
    registration functions of the other files)

    [kbuf_init] acquires, in order, the device array, the minor range, the
    class, the static devices one by one, the /proc entry, the debugfs
    directory, the importer's platform device and the control node; each
    failure unwinds what came before it. *)

From S2P Require Import Prelude Kernel Uapi Device Alloc Ring RingFacts Mmap Ctl CtlFacts.
#[local] Open Scope Z_scope.

Section init.
Context {K : Type} `{Kernel K}.

(** The module's globals once it is loaded.  A static device's [cdevp] is the
    registration of its embedded cdev. *)
Record kmod := Kmod {
  md_array : Z;
  md_region : Z;
  md_class : Z;
  md_devs : list kbuf_dev;
  md_proc : option Z;
  md_debugfs : option Z;
  md_pdev : Z;
  md_misc : Z
}.

(** *** Static devices *)
Definition static_init (base_devno i : Z) : kbuf_dev :=
  zero_dev <| self := i |> <| num_buffers := KBUF_DEFAULT_NUM_BUFFERS |>
           <| buffer_size := KBUF_DEFAULT_BUFFER_SIZE |> <| mode := KBUF_MODE_BLOCKING |>
           <| devno := base_devno + i |>.

Definition free_slots_k (d : kbuf_dev) (k : K) : exec K :=
  kbuf_free_slots (slots d) (num_buffers d) k.

(** Mapping and slots go, and the loop ends with [e]. *)
Definition static_undo (d : kbuf_dev) (e : Z) (k : K) : exec ((kbuf_dev + Z) * K) :=
  let '(d1, k1) := kbuf_mmap_dev_free d k in
  exec_bind (free_slots_k d1 k1) (fun k2 => Done (inr e, k2)).

(** One turn of the loop of [kbuf_init]. *)
Definition static_create (d : kbuf_dev) (k : K) : exec ((kbuf_dev + Z) * K) :=
  match kbuf_alloc_slots (num_buffers d) (buffer_size d) k with
  | (None, k1) => Done (inr (- ENOMEM), k1)
  | (Some sa, k1) =>
    let d1 := d <| slots := Some sa |> in
    let '(r, d2, k2) := kbuf_mmap_dev_alloc d1 k1 in
    if r <? 0 then exec_bind (free_slots_k d2 k2) (fun k3 => Done (inr r, k3)) else
    match k_acquire RkCdev k2 with
    | (inr e, k3) => static_undo d2 e k3
    | (inl c, k3) =>
      match k_acquire RkNode k3 with
      | (inr e, k4) => static_undo d2 e (k_release RkCdev c k4)
      | (inl h, k4) => Done (inl (d2 <| cdevp := c |> <| dev_node := h |>), k4)
      end
    end
  end.

(** The loop: the devices created, and the error that stopped it. *)
Fixpoint create_devices (ds : list kbuf_dev) (done : list kbuf_dev) (k : K)
  : exec (list kbuf_dev * option Z * K) :=
  match ds with
  | [] => Done (done, None, k)
  | d :: ds' =>
    exec_bind (static_create d k) (fun '(r, k1) =>
    match r with
    | inl d1 => create_devices ds' (done ++ [d1]) k1
    | inr e => Done (done, Some e, k1)
    end)
  end.

Fixpoint kbuf_teardown_devices (ds : list kbuf_dev) (k : K) : exec K :=
  match ds with
  | [] => Done k
  | d :: ds' =>
    let k1 := k_release RkCdev (cdevp d) (k_release RkNode (dev_node d) k) in
    let '(d1, k2) := kbuf_mmap_dev_free d k1 in
    exec_bind (free_slots_k d1 k2) (kbuf_teardown_devices ds')
  end.

(** *** The other files' registrations *)

(** [kbuf_proc_register], whose failure only warns. *)
Definition kbuf_proc_register (k : K) : option Z * K :=
  match k_acquire RkProc k with (inl p, k1) => (Some p, k1) | (inr _, k1) => (None, k1) end.

Definition release_opt (rk : rkind) (p : option Z) (k : K) : K :=
  match p with Some p => k_release rk p k | None => k end.

Definition kbuf_debugfs_register (k : K) : option Z * K :=
  match k_acquire RkDebugfs k with (inl p, k1) => (Some p, k1) | (inr _, k1) => (None, k1) end.

Definition kbuf_dmabuf_init (k : K) : (Z + Z) * K :=
  match k_acquire RkPdev k with
  | (inr e, k1) => (inr e, k1)
  | (inl p, k1) =>
    let '(r, k2) := k_status k1 in
    if negb (r =? 0) then (inr r, k_release RkPdev p k2) else (inl p, k2)
  end.

Definition kbuf_proc_unregister (p : option Z) (k : K) : K := release_opt RkProc p k.

Definition kbuf_debugfs_unregister (p : option Z) (k : K) : K := release_opt RkDebugfs p k.

Definition kbuf_dmabuf_exit (pdev : Z) (k : K) : K := k_release RkPdev pdev k.

(** [misc_register] of the control node. *)
Definition kbuf_ctl_register (k : K) : (Z + Z) * K := k_acquire RkMisc k.

(** *** The error labels of [kbuf_init], innermost last *)
Definition ierr_free (arr : Z) (k : K) : K := k_release RkMem arr k.

Definition ierr_region (arr reg : Z) (k : K) : K := ierr_free arr (k_release RkRegion reg k).

Definition ierr_devices (arr reg cls : Z) (ds : list kbuf_dev) (k : K) : exec K :=
  exec_bind (kbuf_teardown_devices ds k) (fun k1 =>
  Done (ierr_region arr reg (k_release RkClass cls k1))).

Definition ierr_dmabuf (arr reg cls : Z) (ds : list kbuf_dev) (proc dbg : option Z) (k : K) : exec K :=
  ierr_devices arr reg cls ds (kbuf_proc_unregister proc (kbuf_debugfs_unregister dbg k)).

Definition ierr_ctl (arr reg cls : Z) (ds : list kbuf_dev) (proc dbg : option Z) (pdev : Z) (k : K) : exec K :=
  ierr_dmabuf arr reg cls ds proc dbg (kbuf_dmabuf_exit pdev k).

Definition fail (e : Z) (m : exec K) : exec (Z * option kmod * K) :=
  exec_bind m (fun k => Done (e, None, k)).

(** From the first device to the end. *)
Definition init_devices (n base_devno arr reg cls : Z) (k : K) : exec (Z * option kmod * K) :=
  exec_bind (create_devices (static_init base_devno <$> seqZ 0 n) [] k) (fun '(ds, err, k1) =>
  match err with
  | Some e => fail e (ierr_devices arr reg cls ds k1)
  | None =>
    let '(proc, k2) := kbuf_proc_register k1 in
    let '(dbg, k3) := kbuf_debugfs_register k2 in
    match kbuf_dmabuf_init k3 with
    | (inr e, k4) => fail e (ierr_dmabuf arr reg cls ds proc dbg k4)
    | (inl pdev, k4) =>
      match kbuf_ctl_register k4 with
      | (inr e, k5) => fail e (ierr_ctl arr reg cls ds proc dbg pdev k5)
      | (inl misc, k5) => Done (0, Some (Kmod arr reg cls ds proc dbg pdev misc), k5)
      end
    end
  end).

Definition kbuf_init (ndevices base_devno : Z) (k : K) : exec (Z * option kmod * K) :=
  if (ndevices <? 1) || (ndevices >? KBUF_MAX_NDEVICES) then Done (- EINVAL, None, k) else
  match k_acquire RkMem k with
  | (inr _, k1) => Done (- ENOMEM, None, k1)
  | (inl arr, k1) =>
    match k_acquire RkRegion k1 with
    | (inr e, k2) => Done (e, None, ierr_free arr k2)
    | (inl reg, k2) =>
      match k_acquire RkClass k2 with
      | (inr e, k3) => Done (e, None, ierr_region arr reg k3)
      | (inl cls, k3) => init_devices ndevices base_devno arr reg cls k3
      end
    end
  end.

(** After the control node is gone. *)
Definition exit_static (m : kmod) (k : K) : exec K :=
  let k2 := kbuf_dmabuf_exit (md_pdev m) k in
  let k3 := kbuf_proc_unregister (md_proc m) (kbuf_debugfs_unregister (md_debugfs m) k2) in
  exec_bind (kbuf_teardown_devices (md_devs m) k3) (fun k4 =>
  Done (k_release RkMem (md_array m)
         (k_release RkRegion (md_region m) (k_release RkClass (md_class m) k4)))).

(** The result is [kbuf_ctl_unregister]'s: whether its loop came to the end. *)
Definition kbuf_exit (m : kmod) : prog (cworld K) bool :=
  drained <-- kbuf_ctl_unregister (md_misc m) ;;
  fun w => exec_bind (exit_static m (c_kern w)) (fun k' => Done (drained, w <| c_kern := k' |>)).
End init.

(** ** What the module holds *)
Definition static_res (d : kbuf_dev) : list (Z * rkind) :=
  node_res true d ++ ring_res d ++ slots_res d.

Definition devs_res (ds : list kbuf_dev) : list (Z * rkind) := concat (static_res <$> ds).

Definition opt_res (rk : rkind) (p : option Z) : list (Z * rkind) :=
  match p with Some p => [(p, rk)] | None => [] end.

Definition mod_res (m : kmod) : list (Z * rkind) :=
  (md_misc m, RkMisc) :: (md_pdev m, RkPdev) ::
  opt_res RkDebugfs (md_debugfs m) ++ opt_res RkProc (md_proc m) ++ devs_res (md_devs m) ++
  [(md_class m, RkClass); (md_region m, RkRegion); (md_array m, RkMem)].

(** A static device with its ring in place. *)
Record static_shape (d : kbuf_dev) : Prop := {
  ss_slots : exists sa, slots d = Some sa /\ num_buffers d = Z.of_nat (length (sa_slots sa));
  ss_ring : exists c buf, mapped d c buf
}.
