(* ===== verification/InitFacts.v ===== *)
(** * InitFacts: loading is all or nothing, and unloading undoes it *)

From S2P Require Import Prelude Kernel Uapi Device Alloc Ring RingFacts Mmap Ctl CtlFacts Init.
#[local] Open Scope Z_scope.

Lemma adds_perm rs rs' m m' : rs ≡ₚ rs' -> adds rs m m' -> adds rs' m m'.
Proof.
  intros Hp (Hnd & Hf & Hm). split_and!.
  - by rewrite <- Hp.
  - intros h Hh. apply Hf. by rewrite Hp.
  - intros h. rewrite Hm. by rewrite (list_to_map_proper rs rs' Hnd Hp).
Qed.

Lemma adds_app rs1 rs2 m m1 m2 : adds rs1 m m1 -> adds rs2 m1 m2 -> adds (rs2 ++ rs1) m m2.
Proof.
  intros H1 H2. destruct H2 as (Hnd2 & Hf2 & Hm2). split_and!.
  - rewrite fmap_app. apply NoDup_app. split_and!; [done | | apply H1].
    intros h Hh. by apply (adds_lookup_None _ _ _ _ H1), Hf2.
  - intros h. rewrite fmap_app. intros [Hh | Hh]%elem_of_app; [| by apply H1].
    by apply (adds_lookup_None _ _ _ _ H1), Hf2.
  - intros h. rewrite Hm2, list_to_map_app, lookup_union. destruct H1 as (_ & _ & Hm1). rewrite Hm1.
    destruct ((list_to_map rs2 : gmap Z rkind) !! h), ((list_to_map rs1 : gmap Z rkind) !! h); done.
Qed.

Lemma holds_perm rs rs' m : rs ≡ₚ rs' -> holds rs m -> holds rs' m.
Proof. intros Hp [Hnd Hh]. split; [by rewrite <- Hp |]. intros h rk Hin. apply Hh. by rewrite Hp. Qed.

Lemma dels_perm hs hs' m m' : hs ≡ₚ hs' -> dels hs m m' -> dels hs' m m'.
Proof.
  intros Hp Hd h. rewrite Hd. destruct (decide (h ∈ hs)) as [Hi | Hi]; rewrite Hp in Hi;
    [by rewrite decide_True | by rewrite decide_False].
Qed.

Section facts.
Context {K : Type} `{KernelLaws K}.
Implicit Types (k : K) (d : kbuf_dev).

(** A release of a held resource, as a deletion. *)
Lemma release_dels rk h k :
  holds [(h, rk)] (k_held k) ->
  dels [h] (k_held k) (k_held (k_release rk h k)) /\ k_ida (k_release rk h k) = k_ida k.
Proof.
  intros [_ Hh]. destruct (release_ok rk h k) as [Hk Hi]; [apply Hh; by left |].
  split; [| done]. rewrite Hk. apply dels_one.
Qed.

(** Slots and mmap areas of a device. *)
Lemma ring_slots_undo d k :
  static_shape d -> holds (ring_res d ++ slots_res d) (k_held k) ->
  exists d1 k1 k2, kbuf_mmap_dev_free d k = (d1, k1) /\ free_slots_k d1 k1 = Done k2 /\
    dels (ring_res d ++ slots_res d).*1 (k_held k) (k_held k2) /\ k_ida k2 = k_ida k.
Proof.
  intros [(sa & Hs & Hn) (c & buf & Hm)] Hh. pose proof Hm as [Hc Hd _ _].
  assert (Hr : ring_res d = (fun h => (h, RkVmem)) <$> ring_ptrs c buf)
    by (unfold ring_res; by rewrite Hc, Hd).
  assert (Hsl : slots_res d = (fun h => (h, RkMem)) <$> array_ptrs sa)
    by (unfold slots_res; by rewrite Hs).
  pose proof (kbuf_mmap_dev_free_spec d c buf k Hm) as Hf.
  destruct (holds_app _ _ _ Hh) as [Hh1 Hh2].
  specialize (Hf ltac:(apply holds_batch; by rewrite <- Hr)).
  destruct (kbuf_mmap_dev_free d k) as [d1 k1]. destruct Hf as (-> & Hk1 & Hi1).
  assert (Hd1 : dels (ring_res d).*1 (k_held k) (k_held k1))
    by (rewrite Hr, fst_res, Hk1; apply dels_ledger).
  assert (Hh3 : holds (slots_res d) (k_held k1))
    by (apply (holds_dels _ _ _ _ Hh2 Hd1); intros h; by eapply holds_sep).
  destruct (kbuf_free_slots_spec sa (num_buffers d) k1 Hn) as (k2 & Hf2 & Hk2 & Hi2).
  { apply holds_batch. by rewrite <- Hsl. }
  exists (d <| mmap_data := None |> <| mmap_ctrl := None |>), k1, k2. split; [done |]. split.
  { unfold free_slots_k. cbn. by rewrite Hs. }
  split; [| congruence]. rewrite fmap_app. eapply dels_app; [exact Hd1 |].
  rewrite Hsl, fst_res, Hk2. apply dels_ledger.
Qed.

Lemma static_undo_run d e k k0 :
  static_shape d -> adds (ring_res d ++ slots_res d) (k_held k0) (k_held k) ->
  exists k', static_undo d e k = Done (inr e, k') /\ k_held k' = k_held k0 /\ k_ida k' = k_ida k.
Proof.
  intros Hsh Ha. destruct (ring_slots_undo d k Hsh (adds_holds _ _ _ Ha)) as (d1 & k1 & k2 & E1 & E2 & Hd & Hi).
  unfold static_undo. rewrite E1, E2. exists k2. split; [done |]. split; [| done]. by eapply adds_dels.
Qed.

(** A static device as the loop leaves it. *)
Definition static_ok (i : Z) (d : kbuf_dev) : Prop :=
  static_shape d /\ dev_ok d /\ mode d = KBUF_MODE_BLOCKING /\ dev_queue d = [] /\ self d = i.

Lemma static_init_ok base i sa c buf cd h :
  let d2 := (static_init base i) <| slots := Some sa |> <| mmap_data := Some buf |>
              <| mmap_ctrl := Some c |> in
  Z.of_nat (length (sa_slots sa)) = KBUF_DEFAULT_NUM_BUFFERS ->
  Forall (slot_ok KBUF_DEFAULT_BUFFER_SIZE) (sa_slots sa) -> mapped d2 c buf ->
  static_shape d2 /\ static_ok i (d2 <| cdevp := cd |> <| dev_node := h |>).
Proof.
  intros d2 Hl Hall Hm.
  assert (Hm' : mapped (d2 <| cdevp := cd |> <| dev_node := h |>) c buf) by (destruct Hm; by split).
  split; [split; [by exists sa | by exists c, buf] |]. split_and!.
  - split; [by exists sa | by exists c, buf].
  - split_and!.
    + split; [done | done |]. by exists sa.
    + apply ring_ok_blocking; [done |]. split; [by split | done].
    + split; [done |]. repeat first [apply List.Forall_nil | apply List.Forall_cons]; done.
  - done.
  - rewrite dev_queue_blocking by done. unfold blocking_queue, queue_window. done.
  - done.
Qed.

(** The cdev and the node, or the unwinding. *)
Lemma static_publish_run base i sa c buf k k1 k2 :
  let d1 := (static_init base i) <| slots := Some sa |> in
  let d2 := d1 <| mmap_data := Some buf |> <| mmap_ctrl := Some c |> in
  Z.of_nat (length (sa_slots sa)) = KBUF_DEFAULT_NUM_BUFFERS ->
  Forall (slot_ok KBUF_DEFAULT_BUFFER_SIZE) (sa_slots sa) -> mapped d2 c buf ->
  k_ida k1 = k_ida k -> k_ida k2 = k_ida k1 ->
  adds (slots_res d1) (k_held k) (k_held k1) -> fresh_batch (ring_ptrs c buf) (k_held k1) ->
  k_held k2 = ledger_add RkVmem (ring_ptrs c buf) (k_held k1) ->
  exists r k', match k_acquire RkCdev k2 with
    | (inr e, k3) => static_undo d2 e k3
    | (inl c, k3) =>
      match k_acquire RkNode k3 with
      | (inr e, k4) => static_undo d2 e (k_release RkCdev c k4)
      | (inl h, k4) => Done (inl (d2 <| cdevp := c |> <| dev_node := h |>), k4)
      end
    end = Done (r, k') /\ k_ida k' = k_ida k /\
    match r with
    | inl d => adds (static_res d) (k_held k) (k_held k') /\ static_ok i d
    | inr e => e < 0 /\ k_held k' = k_held k
    end.
Proof.
  intros d1 d2 Hl Hall Hm Hi1 Hi2 A1 Hfr Hk2.
  assert (A2 : adds (ring_res d2 ++ slots_res d2) (k_held k) (k_held k2))
    by (rewrite Hk2; by apply adds_batch).
  pose proof (fun cd h => static_init_ok base i sa c buf cd h Hl Hall Hm) as Hok.
  destruct (k_acquire RkCdev k2) as [[cd | e] k3] eqn:E3.
  2: { apply acquire_err in E3 as ([_ He] & Hk3 & Hi3).
       destruct (static_undo_run d2 e k3 k) as (k4 & Hu & Hk4 & Hi4);
         [apply (Hok 0 0) | by rewrite Hk3 |].
       eexists _, _. split; [done |]. split; [congruence | done]. }
  apply acquire_ok in E3 as (Hn3 & Hk3 & Hi3).
  assert (A3 : adds ((cd, RkCdev) :: ring_res d2 ++ slots_res d2) (k_held k) (k_held k3))
    by (rewrite Hk3; by apply adds_cons).
  destruct (k_acquire RkNode k3) as [[h | e] k4] eqn:E4.
  - apply acquire_ok in E4 as (Hn4 & Hk4 & Hi4). eexists _, _. split; [done |].
    split; [congruence |]. split; [| by apply (Hok cd h)]. rewrite Hk4. by apply adds_cons.
  - apply acquire_err in E4 as ([_ He] & Hk4 & Hi4). rewrite <- Hk4 in A3.
    destruct (release_dels RkCdev cd k4) as [Hd5 Hi5].
    { apply (holds_app [(cd, RkCdev)] _ _ (adds_holds _ _ _ A3)). }
    destruct (static_undo_run d2 e (k_release RkCdev cd k4) k) as (k5 & Hu & Hk5 & Hi6);
      [apply (Hok 0 0) | by apply (adds_drop [(cd, RkCdev)] _ _ _ _ A3) |].
    eexists _, _. split; [done |]. split; [congruence | done].
Qed.

(** One static device: all of it or nothing. *)
Lemma static_create_run base i k :
  exists r k', static_create (static_init base i) k = Done (r, k') /\ k_ida k' = k_ida k /\
    match r with
    | inl d => adds (static_res d) (k_held k) (k_held k') /\ static_ok i d
    | inr e => e < 0 /\ k_held k' = k_held k
    end.
Proof.
  unfold static_create. change (num_buffers (static_init base i)) with KBUF_DEFAULT_NUM_BUFFERS.
  change (buffer_size (static_init base i)) with KBUF_DEFAULT_BUFFER_SIZE.
  pose proof (kbuf_alloc_slots_spec KBUF_DEFAULT_NUM_BUFFERS KBUF_DEFAULT_BUFFER_SIZE k
                ltac:(done) ltac:(done)) as Ha.
  destruct (kbuf_alloc_slots _ _ k) as [[sa |] k1].
  2: { destruct Ha as [Hk Hi]. eexists _, _. split; [done |]. by split_and!. }
  destruct Ha as (Hl & Hall & Hf & Hk1 & Hi1).
  set (d1 := (static_init base i) <| slots := Some sa |>).
  assert (A1 : adds (slots_res d1) (k_held k) (k_held k1)).
  { rewrite Hk1, <- (app_nil_r (slots_res d1)). apply adds_batch; [apply adds_nil | done]. }
  pose proof (kbuf_mmap_dev_alloc_spec d1 k1) as Hm.
  destruct (kbuf_mmap_dev_alloc d1 k1) as [[r d2] k2].
  destruct Hm as (Hi2 & [(-> & c & buf & Hm & -> & _ & _ & _ & Hfr & Hk2) | (-> & _ & Hs & Hn & Hk2)]).
  2: { destruct (kbuf_free_slots_spec sa KBUF_DEFAULT_NUM_BUFFERS k2) as (k3 & Hf3 & Hk3 & Hi3);
         [done | rewrite Hk2, Hk1; apply held_batch_add, Hf |].
       unfold free_slots_k. rewrite Hs, Hn. cbn [Z.ltb Z.compare slots num_buffers set_field].
       change (slots d1) with (Some sa). change (num_buffers d1) with KBUF_DEFAULT_NUM_BUFFERS.
       change (- ENOMEM <? 0) with true. cbv iota. rewrite Hf3. cbn [exec_bind].
       eexists _, _. split; [done |]. split_and!; [congruence | done |].
       by rewrite Hk3, Hk2, Hk1, ledger_del_add. }
  exact (static_publish_run base i sa c buf k k1 k2 Hl Hall Hm Hi1 Hi2 A1 Hfr Hk2).
Qed.

Lemma devs_res_snoc ds d : devs_res (ds ++ [d]) ≡ₚ static_res d ++ devs_res ds.
Proof.
  unfold devs_res. rewrite fmap_app, concat_app. cbn. rewrite app_nil_r. apply Permutation_app_comm.
Qed.

(** The loop: the devices created so far hold exactly what was acquired. *)
Lemma create_devices_run base ixs acc k0 k :
  adds (devs_res acc) (k_held k0) (k_held k) -> Forall static_shape acc ->
  exists ds err k', create_devices (static_init base <$> ixs) acc k = Done (ds, err, k') /\
    k_ida k' = k_ida k /\ adds (devs_res ds) (k_held k0) (k_held k') /\ Forall static_shape ds /\
    match err with
    | Some e => e < 0
    | None => exists new, ds = acc ++ new /\ Forall2 static_ok ixs new
    end.
Proof.
  revert acc k. induction ixs as [| i ixs IH]; intros acc k Ha Hall; cbn [fmap list_fmap create_devices].
  { exists acc, None, k. split_and!; try done. exists []. by rewrite app_nil_r. }
  destruct (static_create_run base i k) as (r & k1 & -> & Hi & Hr). cbn [exec_bind].
  destruct r as [d | e].
  2: { destruct Hr as [He Hk]. eexists _, _, _. split; [done |]. rewrite Hk. by split_and!. }
  destruct Hr as [Hd Hok].
  destruct (IH (acc ++ [d]) k1) as (ds & err & k2 & Hrun & Hi2 & Ha2 & Hs2 & Herr).
  - eapply adds_perm; [symmetry; apply devs_res_snoc |]. by eapply adds_app.
  - apply Forall_app. split; [done |]. apply Forall_singleton, Hok.
  - exists ds, err, k2. split; [done |]. split_and!; [congruence | done | done |].
    destruct err; [done |]. destruct Herr as (new & -> & Hnew). exists (d :: new).
    split; [by rewrite <- app_assoc | by constructor].
Qed.

Lemma kbuf_teardown_devices_run ds k :
  Forall static_shape ds -> holds (devs_res ds) (k_held k) ->
  exists k', kbuf_teardown_devices ds k = Done k' /\
    dels (devs_res ds).*1 (k_held k) (k_held k') /\ k_ida k' = k_ida k.
Proof.
  revert k. induction ds as [| d ds IH]; intros k Hall Hh; cbn [kbuf_teardown_devices].
  { exists k. split; [done |]. split; [| done]. intros h. by rewrite decide_False by apply not_elem_of_nil. }
  apply Forall_cons in Hall as [Hd Hall]. unfold devs_res in Hh. cbn [fmap list_fmap concat] in Hh.
  destruct (holds_app _ _ _ Hh) as [H1 H2]. unfold static_res in H1.
  destruct (holds_app [(dev_node d, RkNode)] _ _ H1) as [Hn H3].
  destruct (release_dels RkNode (dev_node d) k Hn) as [D1 I1].
  assert (H4 : holds ((cdevp d, RkCdev) :: ring_res d ++ slots_res d) (k_held (k_release RkNode (dev_node d) k)))
    by (apply (holds_dels _ _ _ _ H3 D1); intros h; by apply (holds_sep [(dev_node d, RkNode)] _ _ _ H1)).
  destruct (holds_app [(cdevp d, RkCdev)] _ _ H4) as [Hc H5].
  destruct (release_dels RkCdev (cdevp d) _ Hc) as [D2 I2].
  set (k2 := k_release RkCdev (cdevp d) _) in *.
  assert (H6 : holds (ring_res d ++ slots_res d) (k_held k2))
    by (apply (holds_dels _ _ _ _ H5 D2); intros h; by apply (holds_sep [(cdevp d, RkCdev)] _ _ _ H4)).
  destruct (ring_slots_undo d k2 Hd H6) as (d1 & k3 & k4 & E3 & E4 & D4 & I4).
  rewrite E3, E4. cbn [exec_bind].
  assert (D : dels (static_res d).*1 (k_held k) (k_held k4))
    by (apply (dels_app [dev_node d] _ _ _ _ D1), (dels_app [cdevp d] _ _ _ _ D2), D4).
  destruct (IH k4 Hall) as (k' & Hrun & D' & I').
  { apply (holds_dels _ _ _ _ H2 D). intros h. by eapply holds_sep. }
  exists k'. split; [done |]. split; [| congruence].
  unfold devs_res. cbn [fmap list_fmap concat]. rewrite fmap_app. by eapply dels_app.
Qed.

(** ** Unwinding, one resource at a time *)
Lemma undo_one rk h rs m k :
  adds ((h, rk) :: rs) m (k_held k) ->
  adds rs m (k_held (k_release rk h k)) /\ k_ida (k_release rk h k) = k_ida k.
Proof.
  intros Ha. destruct (release_dels rk h k) as [D I].
  { apply (holds_app [(h, rk)] _ _ (adds_holds _ _ _ Ha)). }
  split; [| done]. by apply (adds_drop [(h, rk)] _ _ _ _ Ha).
Qed.

Lemma undo_opt rk p rs m k :
  adds (opt_res rk p ++ rs) m (k_held k) ->
  adds rs m (k_held (release_opt rk p k)) /\ k_ida (release_opt rk p k) = k_ida k.
Proof. destruct p as [p |]; [apply undo_one | done]. Qed.

Lemma undo_devices ds rs m k :
  Forall static_shape ds -> adds (devs_res ds ++ rs) m (k_held k) ->
  exists k', kbuf_teardown_devices ds k = Done k' /\ adds rs m (k_held k') /\ k_ida k' = k_ida k.
Proof.
  intros Hs Ha. destruct (kbuf_teardown_devices_run ds k Hs) as (k' & Hr & D & I).
  { apply (holds_app _ _ _ (adds_holds _ _ _ Ha)). }
  exists k'. split; [done |]. split; [| done]. by eapply adds_drop.
Qed.

Lemma adds_nil_eq m m' : adds [] m m' -> m' = m.
Proof. intros (_ & _ & Hm). apply map_eq. intros h. by rewrite Hm. Qed.

Definition base_res (arr reg cls : Z) : list (Z * rkind) :=
  [(cls, RkClass); (reg, RkRegion); (arr, RkMem)].

Lemma ierr_devices_run arr reg cls ds m k :
  Forall static_shape ds -> adds (devs_res ds ++ base_res arr reg cls) m (k_held k) ->
  exists k', ierr_devices arr reg cls ds k = Done k' /\ k_held k' = m /\ k_ida k' = k_ida k.
Proof.
  intros Hs Ha. destruct (undo_devices ds _ m k Hs Ha) as (k1 & Hr & A1 & I1).
  unfold ierr_devices. rewrite Hr. cbn [exec_bind]. unfold base_res in A1.
  destruct (undo_one _ _ _ _ _ A1) as [A2 I2]. destruct (undo_one _ _ _ _ _ A2) as [A3 I3].
  destruct (undo_one _ _ _ _ _ A3) as [A4 I4]. eexists. split; [done |].
  unfold ierr_region, ierr_free. split; [by apply adds_nil_eq | congruence].
Qed.

Lemma ierr_dmabuf_run arr reg cls ds proc dbg m k :
  Forall static_shape ds ->
  adds (opt_res RkDebugfs dbg ++ opt_res RkProc proc ++ devs_res ds ++ base_res arr reg cls) m (k_held k) ->
  exists k', ierr_dmabuf arr reg cls ds proc dbg k = Done k' /\ k_held k' = m /\ k_ida k' = k_ida k.
Proof.
  intros Hs Ha. destruct (undo_opt _ _ _ _ _ Ha) as [A1 I1]. destruct (undo_opt _ _ _ _ _ A1) as [A2 I2].
  destruct (ierr_devices_run arr reg cls ds m _ Hs A2) as (k' & Hr & Hk & I3).
  exists k'. split; [done |]. split; [done | congruence].
Qed.

(** What is left of [mod_res] once the control node is gone. *)
Definition static_mod_res (md : kmod) : list (Z * rkind) :=
  (md_pdev md, RkPdev) :: opt_res RkDebugfs (md_debugfs md) ++ opt_res RkProc (md_proc md) ++
  devs_res (md_devs md) ++ base_res (md_array md) (md_region md) (md_class md).

Lemma exit_static_run md m k :
  Forall static_shape (md_devs md) -> adds (static_mod_res md) m (k_held k) ->
  exists k', exit_static md k = Done k' /\ k_held k' = m /\ k_ida k' = k_ida k.
Proof.
  intros Hs A1. destruct (undo_one _ _ _ _ _ A1) as [A2 I2].
  destruct (ierr_dmabuf_run _ _ _ _ _ _ _ _ Hs A2) as (k' & Hr & Hk & I3).
  exists k'. split; [exact Hr |]. split; [done | congruence].
Qed.

(** The ledger without the control node. *)
Lemma mod_res_misc md m m' :
  adds (mod_res md) m m' ->
  m' !! md_misc md = Some RkMisc /\ adds (static_mod_res md) m (delete (md_misc md) m').
Proof.
  intros Ha. split.
  - apply (adds_holds _ _ _ Ha). by left.
  - apply (adds_drop [(md_misc md, RkMisc)] _ _ _ _ Ha), dels_one.
Qed.

(** ** Loading *)
Lemma optional_run rk k p k' :
  match k_acquire rk k with (inl p, k1) => (Some p, k1) | (inr _, k1) => (None, k1) end = (p, k') ->
  k_ida k' = k_ida k /\
  forall rs m, adds rs m (k_held k) -> adds (opt_res rk p ++ rs) m (k_held k').
Proof.
  destruct (k_acquire rk k) as [[p1 | e] k1] eqn:E; intros [= <- <-].
  - apply acquire_ok in E as (Hn & Hk & Hi). split; [done |]. intros rs m Ha. rewrite Hk. by apply adds_cons.
  - apply acquire_err in E as (_ & Hk & Hi). split; [done |]. intros rs m Ha. by rewrite Hk.
Qed.

Lemma dmabuf_init_run k :
  match kbuf_dmabuf_init k with
  | (inl p, k') => k_held k !! p = None /\ k_held k' = <[p := RkPdev]> (k_held k) /\ k_ida k' = k_ida k
  | (inr e, k') => e < 0 /\ k_held k' = k_held k /\ k_ida k' = k_ida k
  end.
Proof.
  unfold kbuf_dmabuf_init. destruct (k_acquire RkPdev k) as [[p | e] k1] eqn:E.
  2: { apply acquire_err in E as ([_ ?] & ? & ?). by split_and!. }
  apply acquire_ok in E as (Hn & Hk & Hi). destruct (k_status k1) as [r k2] eqn:E2.
  apply status_ok in E2 as (Hr & Hk2 & Hi2).
  destruct (Z.eqb_spec r 0) as [-> | Hne]; cbn [negb]; [split_and!; congruence |].
  destruct Hr as [? | [_ Hr]]; [done |].
  destruct (release_ok RkPdev p k2) as [Hk3 Hi3]; [by rewrite Hk2, Hk, lookup_insert_eq |].
  split_and!; [done | | congruence]. by rewrite Hk3, Hk2, Hk, delete_insert_id.
Qed.

(** Loaded with what it holds, or an error and the ledger as it was. *)
Definition init_exit (n : Z) (k : K) (r : Z) (om : option kmod) (k' : K) : Prop :=
  k_ida k' = k_ida k /\
  match om with
  | None => r < 0 /\ k_held k' = k_held k
  | Some md => r = 0 /\ adds (mod_res md) (k_held k) (k_held k') /\
               Forall static_shape (md_devs md) /\ Forall2 static_ok (seqZ 0 n) (md_devs md)
  end.

Lemma fail_run n k e (m : exec K) k1 :
  e < 0 -> k_ida k1 = k_ida k -> (exists k', m = Done k' /\ k_held k' = k_held k /\ k_ida k' = k_ida k1) ->
  exists r om k', fail e m = Done (r, om, k') /\ init_exit n k r om k'.
Proof.
  intros He Hi (k' & -> & Hk & Hi'). exists e, None, k'. split; [done |]. split; [congruence | done].
Qed.

Lemma init_devices_run n base arr reg cls k0 k :
  adds (base_res arr reg cls) (k_held k0) (k_held k) -> k_ida k = k_ida k0 ->
  exists r om k', init_devices n base arr reg cls k = Done (r, om, k') /\ init_exit n k0 r om k'.
Proof.
  intros Ha Hi. unfold init_devices.
  destruct (create_devices_run base (seqZ 0 n) [] k k) as (ds & err & k1 & -> & Hi1 & Ad & Hs & Herr);
    [apply adds_nil | done |]. cbn [exec_bind].
  assert (A1 : adds (devs_res ds ++ base_res arr reg cls) (k_held k0) (k_held k1)) by (by eapply adds_app).
  destruct err as [e |].
  { apply (fail_run n k0 e _ k1); [done | congruence |]. by apply ierr_devices_run. }
  destruct Herr as (new & -> & Hnew). cbn [app] in *.
  destruct (kbuf_proc_register k1) as [proc k2] eqn:Ep. apply optional_run in Ep as [Hi2 Hp].
  destruct (kbuf_debugfs_register k2) as [dbg k3] eqn:Eg. apply optional_run in Eg as [Hi3 Hg].
  pose proof (Hg _ _ (Hp _ _ A1)) as A3. pose proof (dmabuf_init_run k3) as Hd.
  destruct (kbuf_dmabuf_init k3) as [[pdev | e] k4].
  2: { destruct Hd as (He & Hk4 & Hi4). apply (fail_run n k0 e _ k4); [done | congruence |].
       apply ierr_dmabuf_run; [done |]. by rewrite Hk4. }
  destruct Hd as (Hn4 & Hk4 & Hi4).
  assert (A4 : adds ((pdev, RkPdev) :: opt_res RkDebugfs dbg ++ opt_res RkProc proc ++
                     devs_res new ++ base_res arr reg cls) (k_held k0) (k_held k4))
    by (rewrite Hk4; by apply adds_cons).
  unfold kbuf_ctl_register. destruct (k_acquire RkMisc k4) as [[misc | e] k5] eqn:E5.
  - apply acquire_ok in E5 as (Hn5 & Hk5 & Hi5). eexists _, _, _. split; [done |].
    split; [congruence |]. split; [done |]. split; [| done]. rewrite Hk5. by apply adds_cons.
  - apply acquire_err in E5 as ([_ He] & Hk5 & Hi5). rewrite <- Hk5 in A4.
    destruct (undo_one _ _ _ _ _ A4) as [A5 I5].
    apply (fail_run n k0 e _ (k_release RkPdev pdev k5)); [done | congruence |]. by apply ierr_dmabuf_run.
Qed.

Lemma kbuf_init_run n base k :
  exists r om k', kbuf_init n base k = Done (r, om, k') /\ init_exit n k r om k'.
Proof.
  unfold kbuf_init. destruct ((n <? 1) || (n >? KBUF_MAX_NDEVICES)).
  { eexists _, _, _. split; [done |]. by split. }
  destruct (k_acquire RkMem k) as [[arr | e] k1] eqn:E1.
  2: { apply acquire_err in E1 as (_ & Hk & Hi). eexists _, _, _. split; [done |]. by split. }
  apply acquire_ok in E1 as (N1 & K1 & I1).
  assert (A1 : adds [(arr, RkMem)] (k_held k) (k_held k1))
    by (rewrite K1; apply adds_cons; [apply adds_nil | done]).
  destruct (k_acquire RkRegion k1) as [[reg | e] k2] eqn:E2.
  2: { apply acquire_err in E2 as ([_ He] & Hk & Hi). rewrite <- Hk in A1.
       destruct (undo_one _ _ _ _ _ A1) as [A2 I2]. eexists _, _, _. split; [done |].
       split; [unfold ierr_free; congruence |]. split; [done | by apply adds_nil_eq]. }
  apply acquire_ok in E2 as (N2 & K2 & I2).
  assert (A2 : adds [(reg, RkRegion); (arr, RkMem)] (k_held k) (k_held k2))
    by (rewrite K2; by apply adds_cons).
  destruct (k_acquire RkClass k2) as [[cls | e] k3] eqn:E3.
  2: { apply acquire_err in E3 as ([_ He] & Hk & Hi). rewrite <- Hk in A2.
       destruct (undo_one _ _ _ _ _ A2) as [A3 I3]. destruct (undo_one _ _ _ _ _ A3) as [A4 I4].
       eexists _, _, _. split; [done |]. unfold ierr_region, ierr_free.
       split; [congruence |]. split; [done | by apply adds_nil_eq]. }
  apply acquire_ok in E3 as (N3 & K3 & I3).
  apply init_devices_run; [| congruence]. rewrite K3. by apply adds_cons.
Qed.
End facts.
