(* ===== verification/DmaBuf.v ===== *)
(** * DmaBuf: the mmap ring as a dma-buf (src/kbuf_dmabuf.c)

    The exporter's callbacks and the in-kernel importer.  Export and release,
    which take and drop the device's reference, are in Ctl.v; here is what an
    attached importer sees: the scatterlist over the ring's pages, its kernel
    mapping, its user mapping, and the self-test that goes through all of it.  The
    self-test imports buffers of any driver, so it is a program over the
    operations an exporter offers, [dma_buf_ops]; [exporter] is what it relies on. *)

From S2P Require Import Prelude Kernel Uapi Device Alloc Mmap Ctl CtlFacts Init InitFacts.
#[local] Open Scope Z_scope.

Section dmabuf.
Context `{Paging} {K : Type} `{Kernel K}.

Definition KBUF_DMABUF_PAGES : Z := KBUF_MMAP_CAPACITY / PAGE_SIZE.

(** A mapped table: the object, its chain of entries, the DMA mapping, and the
    page of each entry ([None] is a NULL page). *)
Record sg_table := SgTable {
  sgt_ptr : Z;
  sgt_chain : Z;
  sgt_dma : Z;
  sgt_pages : list (option page)
}.

(** The loop of [sg_set_page]. *)
Definition sg_fill (d : kbuf_dev) : list (option page) :=
  (fun i => vmalloc_to_page (kb_ptr <$> mmap_data d) KBUF_MMAP_CAPACITY (i * PAGE_SIZE))
    <$> seqZ 0 KBUF_DMABUF_PAGES.

(** [inr] is the error pointer. *)
Definition kbuf_dmabuf_map (d : kbuf_dev) (k : K) : (sg_table + Z) * K :=
  match k_acquire RkMem k with
  | (inr _, k1) => (inr (- ENOMEM), k1)
  | (inl p, k1) =>
    match k_acquire RkSgTable k1 with
    | (inr e, k2) => (inr e, k_release RkMem p k2)
    | (inl c, k2) =>
      match k_acquire RkDmaMap k2 with
      | (inr e, k3) => (inr e, k_release RkMem p (k_release RkSgTable c k3))
      | (inl m, k3) => (inl (SgTable p c m (sg_fill d)), k3)
      end
    end
  end.

Definition kbuf_dmabuf_unmap (sgt : sg_table) (k : K) : K :=
  k_release RkMem (sgt_ptr sgt) (k_release RkSgTable (sgt_chain sgt) (k_release RkDmaMap (sgt_dma sgt) k)).

(** The result and the address stored in the [iosys_map]. *)
Definition kbuf_dmabuf_vmap (d : kbuf_dev) : Z * option Z := (0, kb_ptr <$> mmap_data d).

(** The result, and the page at each page offset of the mapping. *)
Definition kbuf_dmabuf_mmap (d : kbuf_dev) (vma : vm_area) : Z * (Z -> option page) :=
  if vm_end vma - vm_start vma >? KBUF_MMAP_CAPACITY then (- EINVAL, fun _ => None)
  else remap_vmalloc_range (kb_ptr <$> mmap_data d) KBUF_MMAP_CAPACITY vma (vm_pgoff vma).

(** [words[1] = words[0]] on the first two 32-bit words. *)
Definition echo_word (bs : list byte) : list byte := take 4 bs ++ take 4 bs ++ drop 8 bs.

(** What the self-test calls of a buffer's exporter: [T] is a mapped table, [V] a
    kernel mapping, [S] the memory behind the buffer. *)
Record dma_buf_ops (T V S : Type) := DmaBufOps {
  op_map : K -> (T + Z) * K;            (** [dma_buf_map_attachment] *)
  op_nents : T -> Z;
  op_unmap : T -> K -> K;
  op_vmap : K -> (V + Z) * K;
  op_vunmap : V -> K -> K;
  op_echo : V -> S -> exec S            (** the importer's [words[1] = words[0]] *)
}.

(** The unwinding labels, innermost last. *)
Definition imp_put (buf : Z) (k : K) : K := k_release RkDmaBuf buf k.

Definition imp_detach (buf att : Z) (k : K) : K := imp_put buf (k_release RkAttach att k).

Definition imp_unmap {T V S} (ops : dma_buf_ops T V S) (buf att : Z) (sgt : T) (k : K) : K :=
  imp_detach buf att (op_unmap _ _ _ ops sgt k).

(** The self-test on an fd of a buffer with these operations. *)
Definition kbuf_dmabuf_import_selftest {T V S} (ops : dma_buf_ops T V S) (st : S) (k : K) : exec (Z * S * K) :=
  match k_acquire RkDmaBuf k with
  | (inr e, k1) => Done (e, st, k1)
  | (inl buf, k1) =>
    match k_acquire RkAttach k1 with
    | (inr e, k2) => Done (e, st, imp_put buf k2)
    | (inl att, k2) =>
      match op_map _ _ _ ops k2 with
      | (inr e, k3) => Done (e, st, imp_detach buf att k3)
      | (inl sgt, k3) =>
        if op_nents _ _ _ ops sgt <? 1 then Done (- EIO, st, imp_unmap ops buf att sgt k3) else
        match op_vmap _ _ _ ops k3 with
        | (inr e, k4) => Done (e, st, imp_unmap ops buf att sgt k4)
        | (inl v, k4) =>
          exec_bind (op_echo _ _ _ ops v st) (fun st' =>
          Done (0, st', imp_unmap ops buf att sgt (op_vunmap _ _ _ ops v k4)))
        end
      end
    end
  end.

(** [kbuf_dmabuf_ops] of the device [d]; [vunmap] has nothing to do. *)
Definition kbuf_dmabuf_ops (d : kbuf_dev) : dma_buf_ops sg_table (option Z) kbuf_dev := {|
  op_map := kbuf_dmabuf_map d;
  op_nents sgt := Z.of_nat (length (sgt_pages sgt));
  op_unmap := kbuf_dmabuf_unmap;
  op_vmap k := let '(r, vaddr) := kbuf_dmabuf_vmap d in (if r =? 0 then inl vaddr else inr r, k);
  op_vunmap _ k := k;
  op_echo vaddr d :=
    match vaddr, mmap_data d with
    | Some _, Some ring =>
      if 8 <=? Z.of_nat (length (kb_bytes ring))
      then Done (d <| mmap_data := Some (KBuffer (kb_ptr ring) (echo_word (kb_bytes ring))) |>)
      else Oops OutOfBounds
    | _, _ => Oops NullDeref
    end
|}.

(** A buffer some other driver exported, as far as the dma-buf interface documents
    it: a callback fails with an errno or hands out something it holds until it is
    given back, a table with any number of entries; what it answers is the
    kernel's to choose.  The memory, taken to be plain memory of two words at
    least (the importer does not look at [is_iomem]), is none of this driver's. *)
Definition foreign_ops : dma_buf_ops (Z * Z) Z unit := {|
  op_map k :=
    match k_acquire RkDmaMap k with
    | (inr e, k1) => (inr e, k1)
    | (inl m, k1) => let '(n, k2) := k_call k1 in (inl (m, n), k2)
    end;
  op_nents sgt := sgt.2;
  op_unmap sgt k := k_release RkDmaMap sgt.1 k;
  op_vmap k := k_acquire RkVmap k;
  op_vunmap v k := k_release RkVmap v k;
  op_echo _ st := Done st
|}.
End dmabuf.

(** ** Pages *)
Section pages.
Context `{PagingLaws}.

Lemma dmabuf_pages_pos : 0 < KBUF_DMABUF_PAGES /\ KBUF_DMABUF_PAGES * PAGE_SIZE = KBUF_MMAP_CAPACITY.
Proof.
  unfold KBUF_DMABUF_PAGES. pose proof page_pos as Hp. destruct page_divides as [m Hm].
  rewrite Hm, Z.div_mul by lia. unfold KBUF_MMAP_CAPACITY in Hm. nia.
Qed.

(** Page [i] of the ring, as the driver's own fault handler maps it. *)
Lemma ring_page d i :
  0 <= i < KBUF_DMABUF_PAGES ->
  vmalloc_to_page (kb_ptr <$> mmap_data d) KBUF_MMAP_CAPACITY (i * PAGE_SIZE) = kbuf_vm_fault d (1 + i) /\
  vmalloc_to_page (kb_ptr <$> mmap_data d) KBUF_MMAP_CAPACITY (i * PAGE_SIZE)
  = kbuf_vm_fault d (1 + KBUF_DMABUF_PAGES + i).
Proof.
  intros Hi. unfold kbuf_vm_fault. fold KBUF_DMABUF_PAGES.
  rewrite !(proj2 (Z.eqb_neq _ 0)) by lia.
  replace (1 + i - 1) with i by lia. replace (1 + KBUF_DMABUF_PAGES + i - 1) with (i + 1 * KBUF_DMABUF_PAGES) by lia.
  rewrite Z.mod_add, Z.mod_small by lia. done.
Qed.

Lemma ring_page_some d c buf i :
  mapped d c buf -> 0 <= i < KBUF_DMABUF_PAGES ->
  vmalloc_to_page (kb_ptr <$> mmap_data d) KBUF_MMAP_CAPACITY (i * PAGE_SIZE) = Some (Page (kb_ptr buf) i).
Proof.
  intros [_ Hd _ _] Hi. pose proof dmabuf_pages_pos as [_ Hpp]. pose proof page_pos. unfold vmalloc_to_page.
  rewrite Hd. cbn. rewrite (proj2 (Z.leb_le 0 _)), (proj2 (Z.ltb_lt _ KBUF_MMAP_CAPACITY)) by nia.
  cbn. by rewrite Z.div_mul by lia.
Qed.

Lemma length_sg_fill d : Z.of_nat (length (sg_fill d)) = KBUF_DMABUF_PAGES.
Proof. unfold sg_fill. rewrite length_fmap, length_seqZ. pose proof dmabuf_pages_pos. lia. Qed.

Lemma sg_fill_lookup d i :
  0 <= i < KBUF_DMABUF_PAGES -> sg_fill d !! Z.to_nat i = Some (kbuf_vm_fault d (1 + i)).
Proof.
  intros Hi. unfold sg_fill. rewrite list_lookup_fmap, lookup_seqZ_lt by lia. cbn.
  rewrite Z2Nat.id, Z.add_0_l by lia. by rewrite (proj1 (ring_page d i Hi)).
Qed.
End pages.

(** ** Balance *)
Section balance.
Context `{PagingLaws} {K : Type} `{KernelLaws K}.
Implicit Types (k : K) (d : kbuf_dev).

Definition sgt_res (sgt : sg_table) : list (Z * rkind) :=
  [(sgt_dma sgt, RkDmaMap); (sgt_chain sgt, RkSgTable); (sgt_ptr sgt, RkMem)].

(** The table and its mapping, or nothing. *)
Lemma kbuf_dmabuf_map_run d rs m k :
  adds rs m (k_held k) ->
  match kbuf_dmabuf_map d k with
  | (inl sgt, k') => sgt_pages sgt = sg_fill d /\ adds (sgt_res sgt ++ rs) m (k_held k') /\ k_ida k' = k_ida k
  | (inr e, k') => is_errno e /\ adds rs m (k_held k') /\ k_ida k' = k_ida k
  end.
Proof.
  intros Ha. unfold kbuf_dmabuf_map.
  destruct (k_acquire RkMem k) as [[p | e] k1] eqn:E1.
  2: { apply acquire_err in E1 as (_ & Hk & Hi). by rewrite Hk. }
  apply acquire_ok in E1 as (N1 & K1 & I1).
  assert (A1 : adds ((p, RkMem) :: rs) m (k_held k1)) by (rewrite K1; by apply adds_cons).
  destruct (k_acquire RkSgTable k1) as [[c | e] k2] eqn:E2.
  2: { apply acquire_err in E2 as (He & Hk & Hi). rewrite <- Hk in A1.
       destruct (undo_one _ _ _ _ _ A1) as [A2 I2]. split_and!; [done | done | congruence]. }
  apply acquire_ok in E2 as (N2 & K2 & I2).
  assert (A2 : adds ((c, RkSgTable) :: (p, RkMem) :: rs) m (k_held k2)) by (rewrite K2; by apply adds_cons).
  destruct (k_acquire RkDmaMap k2) as [[x | e] k3] eqn:E3.
  - apply acquire_ok in E3 as (N3 & K3 & I3). split; [done |]. split; [| congruence].
    rewrite K3. by apply adds_cons.
  - apply acquire_err in E3 as (He & Hk & Hi). rewrite <- Hk in A2.
    destruct (undo_one _ _ _ _ _ A2) as [A3 I3]. destruct (undo_one _ _ _ _ _ A3) as [A4 I4].
    split_and!; [done | done | congruence].
Qed.

Lemma kbuf_dmabuf_unmap_run sgt rs m k :
  adds (sgt_res sgt ++ rs) m (k_held k) ->
  adds rs m (k_held (kbuf_dmabuf_unmap sgt k)) /\ k_ida (kbuf_dmabuf_unmap sgt k) = k_ida k.
Proof.
  intros A1. destruct (undo_one _ _ _ _ _ A1) as [A2 I2]. destruct (undo_one _ _ _ _ _ A2) as [A3 I3].
  destruct (undo_one _ _ _ _ _ A3) as [A4 I4]. split; [done | unfold kbuf_dmabuf_unmap; congruence].
Qed.

(** What the importer relies on: an exporter's callback holds what it hands out, or
    fails with an errno and holds nothing, and gives back exactly that; and the
    words of a buffer it mapped can be written. *)
Record exporter {T V S} (ops : dma_buf_ops (K := K) T V S) (st : S) (post : S -> Prop) : Type := Exporter {
  ex_map_res : T -> list (Z * rkind);
  ex_vmap_res : V -> list (Z * rkind);
  ex_map rs m k : adds rs m (k_held k) ->
    match op_map _ _ _ ops k with
    | (inl t, k') => adds (ex_map_res t ++ rs) m (k_held k') /\ k_ida k' = k_ida k
    | (inr e, k') => is_errno e /\ adds rs m (k_held k') /\ k_ida k' = k_ida k
    end;
  ex_unmap t rs m k : adds (ex_map_res t ++ rs) m (k_held k) ->
    adds rs m (k_held (op_unmap _ _ _ ops t k)) /\ k_ida (op_unmap _ _ _ ops t k) = k_ida k;
  ex_vmap rs m k : adds rs m (k_held k) ->
    match op_vmap _ _ _ ops k with
    | (inl v, k') => adds (ex_vmap_res v ++ rs) m (k_held k') /\ k_ida k' = k_ida k /\
                     exists st', op_echo _ _ _ ops v st = Done st' /\ post st'
    | (inr e, k') => is_errno e /\ adds rs m (k_held k') /\ k_ida k' = k_ida k
    end;
  ex_vunmap v rs m k : adds (ex_vmap_res v ++ rs) m (k_held k) ->
    adds rs m (k_held (op_vunmap _ _ _ ops v k)) /\ k_ida (op_vunmap _ _ _ ops v k) = k_ida k
}.

(** From attached on: everything goes back. *)
Lemma imp_detach_run buf att k k3 :
  adds [(att, RkAttach); (buf, RkDmaBuf)] (k_held k) (k_held k3) -> k_ida k3 = k_ida k ->
  k_held (imp_detach buf att k3) = k_held k /\ k_ida (imp_detach buf att k3) = k_ida k.
Proof.
  intros A3 I3. destruct (undo_one _ _ _ _ _ A3) as [A4 I4]. destruct (undo_one _ _ _ _ _ A4) as [A5 I5].
  unfold imp_detach, imp_put. split; [by apply adds_nil_eq | congruence].
Qed.

Lemma imp_unmap_run {T V S} (ops : dma_buf_ops T V S) st post (ex : exporter ops st post) buf att t k k3 :
  adds (ex_map_res _ _ _ ex t ++ [(att, RkAttach); (buf, RkDmaBuf)]) (k_held k) (k_held k3) -> k_ida k3 = k_ida k ->
  k_held (imp_unmap ops buf att t k3) = k_held k /\ k_ida (imp_unmap ops buf att t k3) = k_ida k.
Proof.
  intros A3 I3. destruct (ex_unmap _ _ _ ex t _ _ _ A3) as [A4 I4]. apply imp_detach_run; [done | congruence].
Qed.

(** The self-test on any exporter: everything it took is back, and on success the
    echo was written. *)
Lemma import_run {T V S} (ops : dma_buf_ops T V S) st post (ex : exporter ops st post) k :
  exists r st' k', kbuf_dmabuf_import_selftest ops st k = Done (r, st', k') /\
    k_held k' = k_held k /\ k_ida k' = k_ida k /\ ((r = 0 /\ post st') \/ (is_errno r /\ st' = st)).
Proof.
  unfold kbuf_dmabuf_import_selftest.
  assert (Hfail : forall r k', is_errno r -> k_held k' = k_held k /\ k_ida k' = k_ida k ->
            exists r0 st' k0, Done (r, st, k') = Done (r0, st', k0) /\ k_held k0 = k_held k /\ k_ida k0 = k_ida k /\
              ((r0 = 0 /\ post st') \/ (is_errno r0 /\ st' = st)))
    by (intros r k' He [Hk Hi]; eexists _, _, _; split; [done |]; split_and!; [done | done | by right]).
  destruct (k_acquire RkDmaBuf k) as [[buf | e] k1] eqn:E1; [| apply acquire_err in E1 as (He & Hk & Hi); by apply Hfail].
  apply acquire_ok in E1 as (N1 & K1 & I1).
  assert (A1 : adds [(buf, RkDmaBuf)] (k_held k) (k_held k1))
    by (rewrite K1; apply adds_cons; [apply adds_nil | done]).
  destruct (k_acquire RkAttach k1) as [[att | e] k2] eqn:E2.
  2: { apply acquire_err in E2 as (He & Hk & Hi). rewrite <- Hk in A1. apply Hfail; [done |].
       destruct (undo_one _ _ _ _ _ A1) as [A2 I2]. unfold imp_put. split; [by apply adds_nil_eq | congruence]. }
  apply acquire_ok in E2 as (N2 & K2 & I2).
  assert (A2 : adds [(att, RkAttach); (buf, RkDmaBuf)] (k_held k) (k_held k2)) by (rewrite K2; by apply adds_cons).
  pose proof (ex_map _ _ _ ex _ _ k2 A2) as Hmap. destruct (op_map _ _ _ ops k2) as [[t | e] k3].
  2: { destruct Hmap as (He & A3 & I3). apply Hfail; [done |]. apply imp_detach_run; [done | congruence]. }
  destruct Hmap as (A3 & I3). destruct (op_nents _ _ _ ops t <? 1).
  { apply Hfail; [unfold is_errno, EIO; lia |]. apply (imp_unmap_run ops st post ex); [done | congruence]. }
  pose proof (ex_vmap _ _ _ ex _ _ k3 A3) as Hv. destruct (op_vmap _ _ _ ops k3) as [[v | e] k4].
  2: { destruct Hv as (He & A4 & I4). apply Hfail; [done |]. apply (imp_unmap_run ops st post ex); [done | congruence]. }
  destruct Hv as (A4 & I4 & st' & -> & Hpost). cbn [exec_bind]. eexists _, _, _. split; [done |].
  destruct (ex_vunmap _ _ _ ex v _ _ _ A4) as [A5 I5].
  destruct (imp_unmap_run ops st post ex buf att t k _ A5) as [Hk Hi]; [congruence |].
  split_and!; [done | done | by left].
Qed.

(** This driver's own buffers. *)
Definition kbuf_exporter d c ring (Hm : mapped d c ring) :
  exporter (kbuf_dmabuf_ops d) d
    (fun d' => d' = d <| mmap_data := Some (KBuffer (kb_ptr ring) (echo_word (kb_bytes ring))) |>).
Proof.
  apply (Exporter _ _ _ (kbuf_dmabuf_ops d) d _ sgt_res (fun _ => [])); cbn -[sgt_res].
  - intros rs m k Ha. pose proof (kbuf_dmabuf_map_run d rs m k Ha) as Hr.
    destruct (kbuf_dmabuf_map d k) as [[sgt | e] k']; [apply Hr | exact Hr].
  - intros t rs m k. apply kbuf_dmabuf_unmap_run.
  - intros rs m k Ha. split_and!; [done | done |]. rewrite (mp_data _ _ _ Hm). cbn.
    rewrite (mp_len _ _ _ Hm). by eexists.
  - done.
Defined.

(** Buffers of other drivers. *)
Definition foreign_exporter : exporter foreign_ops tt (fun _ => True).
Proof.
  apply (Exporter _ _ _ foreign_ops tt _ (fun t => [(t.1, RkDmaMap)]) (fun v => [(v, RkVmap)])); cbn.
  - intros rs m k Ha. destruct (k_acquire RkDmaMap k) as [[p | e] k1] eqn:E1.
    + apply acquire_ok in E1 as (N1 & K1 & I1). destruct (k_call k1) as [n k2] eqn:E2.
      apply call_ok in E2 as (_ & K2 & I2). rewrite K2, K1, I2. split; [by apply adds_cons | done].
    + apply acquire_err in E1 as (He & Hk & Hi). by rewrite Hk.
  - intros [p n] rs m k Ha. by apply undo_one.
  - intros rs m k Ha. destruct (k_acquire RkVmap k) as [[p | e] k1] eqn:E1.
    + apply acquire_ok in E1 as (N1 & K1 & I1). rewrite K1. split_and!; [by apply adds_cons | done | by eexists].
    + apply acquire_err in E1 as (He & Hk & Hi). by rewrite Hk.
  - intros v rs m k Ha. by apply undo_one.
Defined.
End balance.
