(* ===== verification/Lifetime.v ===== *)
(** * Lifetime: reference counts, the ledger and the ids of dynamic devices

    [live] relates the heap of devices to the references that exist, to who owns
    each outstanding resource, and to the ids in use; every operation of Ctl.v
    preserves it.  It rules out a use of a freed device, a double free, a leak
    and a duplicate id, whatever the order of creates, destroys, opens, closes,
    exports and buffer releases; not a use of the device's node, which a destroy
    releases at once. *)

From S2P Require Import Prelude Kernel Uapi Device Alloc Ring RingFacts Mmap Ctl CtlFacts.
#[local] Open Scope Z_scope.

(** Who a resource belongs to. *)
Inductive owner : Set := OBase | ODev (p : Z) | OBuf.

Definition set_refs (f : Z -> Z) (p v : Z) : Z -> Z := fun q => if decide (q = p) then v else f q.

Lemma set_refs_eq f p v : set_refs f p v p = v.
Proof. unfold set_refs. by rewrite decide_True. Qed.

Lemma set_refs_ne f p v q : q <> p -> set_refs f p v q = f q.
Proof. intros. unfold set_refs. by rewrite decide_False. Qed.

(** ** The three parts of the invariant

    [heap]: the devices; [regs]: those with a node; [bufs]: exported buffers;
    [refs p]: references to the device at [p]; [base]: what the rest of the
    module holds. *)
Record refs_ok (heap : gmap Z kbuf_dev) (regs : gset Z) (refs : Z -> Z) : Prop := {
  ro_dev p d : heap !! p = Some d -> dyn_shape d /\ ref d = refs p /\ 0 < refs p;
  ro_ref p : 0 < refs p -> is_Some (heap !! p);
  ro_pos p : 0 <= refs p;
  ro_reg p : p ∈ regs -> 0 < refs p;
  ro_ok p d : heap !! p = Some d -> dev_ok d
}.

Definition res_of (regs : gset Z) (p : Z) (d : kbuf_dev) : list (Z * rkind) :=
  dev_res (bool_decide (p ∈ regs)) p d.

Record owned (base : gmap Z rkind) (own : gmap Z owner) (held : gmap Z rkind)
    (heap : gmap Z kbuf_dev) (regs bufs : gset Z) : Prop := {
  ow_res p d : heap !! p = Some d ->
    holds (res_of regs p d) held /\ (forall h, h ∈ (res_of regs p d).*1 -> own !! h = Some (ODev p));
  ow_own h p : own !! h = Some (ODev p) ->
    exists d, heap !! p = Some d /\ h ∈ (res_of regs p d).*1;
  ow_buf h : (h ∈ bufs <-> own !! h = Some OBuf) /\ (h ∈ bufs -> held !! h = Some RkDmaBuf);
  ow_base h : (is_Some (base !! h) <-> own !! h = Some OBase) /\
              (is_Some (base !! h) -> held !! h = base !! h);
  ow_dom h : is_Some (held !! h) <-> is_Some (own !! h)
}.

Record ids_ok (heap : gmap Z kbuf_dev) (ida : gset Z) : Prop := {
  id_used i : i ∈ ida <-> exists p d, heap !! p = Some d /\ minor_off d = i;
  id_inj p q d e : heap !! p = Some d -> heap !! q = Some e -> minor_off d = minor_off e -> p = q
}.

(** ** A change of reference counts only *)
Definition dev_view (p : Z) (d : kbuf_dev) : list (Z * rkind) * list (Z * rkind) * Z :=
  (dev_res true p d, dev_res false p d, minor_off d).

Definition same_view (heap heap' : gmap Z kbuf_dev) : Prop :=
  forall p, dev_view p <$> heap' !! p = dev_view p <$> heap !! p.

Lemma view_back heap heap' p d' :
  same_view heap heap' -> heap' !! p = Some d' ->
  exists d, heap !! p = Some d /\ dev_view p d' = dev_view p d.
Proof.
  intros Hs E. specialize (Hs p). rewrite E in Hs. symmetry in Hs.
  apply fmap_Some in Hs as (d & Hd & Hv). by exists d.
Qed.

Lemma same_view_sym heap heap' : same_view heap heap' -> same_view heap' heap.
Proof. intros Hs p. by rewrite (Hs p). Qed.

Lemma view_res regs p d d' : dev_view p d' = dev_view p d -> res_of regs p d' = res_of regs p d.
Proof.
  intros E. unfold res_of. destruct (bool_decide _);
    [exact (f_equal (fun v => v.1.1) E) | exact (f_equal (fun v => v.1.2) E)].
Qed.

Lemma owned_view base own held heap heap' regs bufs :
  same_view heap heap' -> owned base own held heap regs bufs -> owned base own held heap' regs bufs.
Proof.
  intros Hs [Hr Ho Hb Hba Hd]. split; [| | done | done | done].
  - intros p d' E. destruct (view_back _ _ _ _ Hs E) as (d & Ed & Hv).
    rewrite (view_res regs p d d' Hv). by apply Hr.
  - intros h p E. destruct (Ho h p E) as (d & Ed & Hin).
    destruct (view_back _ _ _ _ (same_view_sym _ _ Hs) Ed) as (d' & Ed' & Hv).
    exists d'. split; [done |]. by rewrite <- (view_res regs p d' d Hv).
Qed.

Lemma ids_view heap heap' ida : same_view heap heap' -> ids_ok heap ida -> ids_ok heap' ida.
Proof.
  intros Hs [Hu Hi].
  assert (Hm : forall p d d', dev_view p d' = dev_view p d -> minor_off d' = minor_off d)
    by (intros p d d' E; exact (f_equal snd E)).
  split.
  - intros i. rewrite Hu. split; intros (p & d & E & Hd).
    + destruct (view_back _ _ _ _ (same_view_sym _ _ Hs) E) as (d' & E' & Hv%Hm).
      exists p, d'. split; congruence.
    + destruct (view_back _ _ _ _ Hs E) as (d' & E' & Hv%Hm). exists p, d'. split; congruence.
  - intros p q d' e' Ed Ee Hmo.
    destruct (view_back _ _ _ _ Hs Ed) as (d & Ed' & Hvd%Hm).
    destruct (view_back _ _ _ _ Hs Ee) as (e & Ee' & Hve%Hm). apply (Hi p q d e); congruence.
Qed.

Lemma same_view_ref heap p d r :
  heap !! p = Some d -> same_view heap (<[p := d <| ref := r |>]> heap).
Proof.
  intros E q. destruct (decide (q = p)) as [-> | Hne].
  - by rewrite lookup_insert_eq, E.
  - by rewrite lookup_insert_ne.
Qed.

Lemma shape_ref d r : dyn_shape d -> dyn_shape (d <| ref := r |>).
Proof. intros [? ? (c & buf & [])]. split; [done | done |]. by exists c, buf. Qed.

Lemma refs_set heap regs refs p d r :
  refs_ok heap regs refs -> heap !! p = Some d -> 0 < r ->
  refs_ok (<[p := d <| ref := r |>]> heap) regs (set_refs refs p r).
Proof.
  intros [Hd Hr Hp Hg Hk] E Hpos. destruct (Hd p d E) as (Hsh & _ & _). split.
  - intros q e He. destruct (decide (q = p)) as [-> | Hne].
    + rewrite lookup_insert_eq in He. injection He as <-. rewrite set_refs_eq. split; [by apply shape_ref | done].
    + rewrite lookup_insert_ne in He by done. rewrite set_refs_ne by done. by apply Hd.
  - intros q Hq. destruct (decide (q = p)) as [-> | Hne]; [by rewrite lookup_insert_eq |].
    rewrite lookup_insert_ne by done. rewrite set_refs_ne in Hq by done. by apply Hr.
  - intros q. destruct (decide (q = p)) as [-> | Hne]; [rewrite set_refs_eq; lia |].
    rewrite set_refs_ne by done. apply Hp.
  - intros q Hq. destruct (decide (q = p)) as [-> | Hne]; [by rewrite set_refs_eq |].
    rewrite set_refs_ne by done. by apply Hg.
  - intros q e [[<- <-] | [_ He]]%lookup_insert_Some; [| by eapply Hk]. by apply (dev_ok_same d), (Hk p d).
Qed.

(** ** A device leaves *)
Lemma refs_free heap regs refs p :
  refs_ok heap regs refs -> p ∉ regs -> refs_ok (delete p heap) regs (set_refs refs p 0).
Proof.
  intros [Hd Hr Hp Hg Hk] Hn. split.
  - intros q e [Hne E]%lookup_delete_Some. rewrite set_refs_ne by done. by apply Hd.
  - intros q Hq. destruct (decide (q = p)) as [-> | Hne]; [rewrite set_refs_eq in Hq; lia |].
    rewrite lookup_delete_ne by done. rewrite set_refs_ne in Hq by done. by apply Hr.
  - intros q. destruct (decide (q = p)) as [-> | Hne]; [by rewrite set_refs_eq |].
    rewrite set_refs_ne by done. apply Hp.
  - intros q Hq. rewrite set_refs_ne by (intros ->; done). by apply Hg.
  - intros q e [_ E]%lookup_delete_Some. by eapply Hk.
Qed.

Lemma ids_free heap ida p d :
  ids_ok heap ida -> heap !! p = Some d -> ids_ok (delete p heap) (ida ∖ {[minor_off d]}).
Proof.
  intros [Hu Hi] E. split.
  - intros i. rewrite elem_of_difference, elem_of_singleton, Hu. split.
    + intros [(q & e & Eq & Hm) Hne]. exists q, e. split; [| done]. apply lookup_delete_Some.
      split; [| done]. intros <-. congruence.
    + intros (q & e & [Hne Eq]%lookup_delete_Some & Hm). split; [by exists q, e |]. intros ->.
      by apply Hne, (Hi p q d e).
  - intros q1 q2 e1 e2 [_ E1]%lookup_delete_Some [_ E2]%lookup_delete_Some. by apply Hi.
Qed.

(** Forgetting the owners of released resources. *)
Lemma lookup_disown (hs : list Z) (own : gmap Z owner) h :
  foldr delete own hs !! h = if decide (h ∈ hs) then None else own !! h.
Proof.
  case_decide; [by apply lookup_foldr_delete | by apply lookup_foldr_delete_not_elem_of].
Qed.

(** Releasing resources [hs] of the device at [p] leaves the rest owned; what
    [p] itself still needs is the business of the caller. *)
Lemma owned_release base own held held' heap heap' regs regs' bufs p hs :
  owned base own held heap regs bufs -> dels hs held held' ->
  (forall h, h ∈ hs -> own !! h = Some (ODev p)) ->
  (forall q, q <> p -> heap' !! q = heap !! q) -> (forall q, q <> p -> q ∈ regs' <-> q ∈ regs) ->
  (forall d', heap' !! p = Some d' ->
     holds (res_of regs' p d') held' /\
     (forall h, h ∈ (res_of regs' p d').*1 -> own !! h = Some (ODev p) /\ h ∉ hs)) ->
  (forall h, own !! h = Some (ODev p) -> h ∉ hs ->
     exists d', heap' !! p = Some d' /\ h ∈ (res_of regs' p d').*1) ->
  owned base (foldr delete own hs) held' heap' regs' bufs.
Proof.
  intros [Hr Ho Hb Hba Hd] Hdel Hhs Hheap Hregs Hp Hp'.
  pose proof (lookup_disown hs own) as Hown.
  assert (Hsep : forall h o, own !! h = Some o -> o <> ODev p -> h ∉ hs)
    by (intros h o E Hne Hin; rewrite (Hhs h Hin) in E; congruence).
  assert (Hres : forall q e, q <> p -> res_of regs' q e = res_of regs q e)
    by (intros q e Hne; unfold res_of; by rewrite (bool_decide_ext _ _ (Hregs q Hne))).
  split.
  - intros q e E. destruct (decide (q = p)) as [-> | Hne].
    + destruct (Hp e E) as [Hh Hin]. split; [done |]. intros h Hi. destruct (Hin h Hi) as [? ?].
      by rewrite Hown, decide_False.
    + rewrite (Hheap q Hne) in E. rewrite (Hres q e Hne). destruct (Hr q e E) as [Hh Hoq].
      assert (Hs : forall h, h ∈ (res_of regs q e).*1 -> h ∉ hs)
        by (intros h Hin; apply (Hsep h (ODev q)); [by apply Hoq | congruence]).
      split; [by eapply holds_dels |]. intros h Hin. rewrite Hown, decide_False by (by apply Hs).
      by apply Hoq.
  - intros h q E. rewrite Hown in E. destruct (decide (h ∈ hs)) as [| Hn]; [done |].
    destruct (decide (q = p)) as [-> | Hne]; [by apply Hp' |].
    destruct (Ho h q E) as (e & Ee & Hin). exists e. by rewrite (Hheap q Hne), (Hres q e Hne).
  - intros h. rewrite Hown, Hdel. destruct (Hb h) as [Hbi Hk]. destruct (decide (h ∈ hs)) as [Hin |]; [| done].
    split; [split; [| done] |]; intros E; apply Hbi in E; by destruct (Hsep h OBuf E).
  - intros h. rewrite Hown, Hdel. destruct (Hba h) as [Hbi Hk]. destruct (decide (h ∈ hs)) as [Hin |]; [| done].
    split; [split; [| done] |]; intros E; apply Hbi in E; by destruct (Hsep h OBase E).
  - intros h. rewrite Hown, Hdel. destruct (decide (h ∈ hs)); [done |]. apply Hd.
Qed.

(** All of it, with the device. *)
Lemma owned_free base own held held' heap regs bufs p d :
  owned base own held heap regs bufs -> heap !! p = Some d -> p ∉ regs ->
  dels (dev_res false p d).*1 held held' ->
  owned base (foldr delete own (dev_res false p d).*1) held' (delete p heap) regs bufs.
Proof.
  intros Hw E Hn Hdel. assert (Hres : res_of regs p d = dev_res false p d)
    by (unfold res_of; by rewrite bool_decide_eq_false_2).
  destruct (ow_res _ _ _ _ _ _ Hw p d E) as [Hh Ho]. rewrite Hres in *.
  apply (owned_release base own held held' heap _ regs regs bufs p); try done.
  - intros q Hne. by rewrite lookup_delete_ne.
  - intros d' E'. by rewrite lookup_delete_eq in E'.
  - intros h Eh Hnin. destruct (ow_own _ _ _ _ _ _ Hw h p Eh) as (e & Ee & Hin).
    rewrite E in Ee. injection Ee as <-. by rewrite Hres in Hin.
Qed.

(** Node and cdev only. *)
Lemma owned_unreg base own held held' heap regs bufs p d :
  owned base own held heap regs bufs -> heap !! p = Some d -> p ∈ regs ->
  dels (node_res true d).*1 held held' ->
  owned base (foldr delete own (node_res true d).*1) held' heap (regs ∖ {[p]}) bufs.
Proof.
  intros Hw E Hin Hdel.
  assert (Hres : res_of regs p d = node_res true d ++ dev_res false p d)
    by (unfold res_of; by rewrite bool_decide_eq_true_2).
  assert (Hres' : res_of (regs ∖ {[p]}) p d = dev_res false p d)
    by (unfold res_of; rewrite bool_decide_eq_false_2; [done | set_solver]).
  destruct (ow_res _ _ _ _ _ _ Hw p d E) as [Hh Ho]. rewrite Hres in *.
  assert (Hsub : forall h, h ∈ (dev_res false p d).*1 -> own !! h = Some (ODev p) /\ h ∉ (node_res true d).*1).
  { intros h Hi. split; [apply Ho; rewrite fmap_app; apply elem_of_app; by right | by eapply holds_sep]. }
  apply (owned_release base own held held' heap heap regs _ bufs p); try done.
  - intros h Hi. apply Ho. rewrite fmap_app. apply elem_of_app. by left.
  - intros q Hne. set_solver.
  - intros d' E'. rewrite E in E'. injection E' as <-. rewrite Hres'. split; [| done].
    apply (holds_dels _ (node_res true d).*1 held); [apply (holds_app _ _ _ Hh) | done |].
    intros h Hi. by apply Hsub.
  - intros h Eh Hnin. destruct (ow_own _ _ _ _ _ _ Hw h p Eh) as (e & Ee & Hi).
    rewrite E in Ee. injection Ee as <-. exists d. split; [done |]. rewrite Hres, fmap_app in Hi.
    rewrite Hres'. by apply elem_of_app in Hi as [? |].
Qed.

(** ** A device arrives *)
Lemma fst_tag (p : Z) (hs : list Z) : ((fun h => (h, ODev p)) <$> hs).*1 = hs.
Proof. rewrite <- list_fmap_compose. apply list_fmap_id. Qed.

Definition claim (p : Z) (hs : list Z) (own : gmap Z owner) : gmap Z owner :=
  (list_to_map ((fun h => (h, ODev p)) <$> hs) : gmap Z owner) ∪ own.

Lemma lookup_claim p hs own h :
  NoDup hs -> claim p hs own !! h = if decide (h ∈ hs) then Some (ODev p) else own !! h.
Proof.
  intros Hnd. unfold claim. case_decide as Hin.
  - apply lookup_union_Some_l, elem_of_list_to_map_1; [by rewrite fst_tag |].
    apply list_elem_of_fmap. by exists h.
  - apply lookup_union_r, not_elem_of_list_to_map_1. by rewrite fst_tag.
Qed.

Lemma owned_add base own held held' heap regs bufs p d :
  owned base own held heap regs bufs -> heap !! p = None -> adds (dev_res true p d) held held' ->
  owned base (claim p (dev_res true p d).*1 own) held' (<[p := d]> heap) ({[p]} ∪ regs) bufs.
Proof.
  intros [Hr Ho Hb Hba Hd] Hnew Hadd. set (rs := dev_res true p d) in *.
  pose proof (fun h => lookup_claim p rs.*1 own h (proj1 Hadd)) as Hown.
  assert (Hout : forall h o, own !! h = Some o -> h ∉ rs.*1).
  { intros h o E Hin. pose proof (proj1 (proj2 Hadd) h Hin) as Hf.
    destruct (proj2 (Hd h) ltac:(by rewrite E)) as [? ?]. congruence. }
  assert (Hres : forall q e, q <> p -> res_of ({[p]} ∪ regs) q e = res_of regs q e)
    by (intros q e Hne; unfold res_of; rewrite (bool_decide_ext _ (q ∈ regs)); [done | set_solver]).
  assert (Hresp : res_of ({[p]} ∪ regs) p d = rs)
    by (unfold res_of; rewrite bool_decide_eq_true_2; [done | set_solver]).
  split.
  - intros q e E. destruct (decide (q = p)) as [-> | Hne].
    + rewrite lookup_insert_eq in E. injection E as <-. rewrite Hresp.
      split; [by eapply adds_holds |]. intros h Hin. by rewrite Hown, decide_True.
    + rewrite lookup_insert_ne in E by done. rewrite (Hres q e Hne).
      destruct (Hr q e E) as [[Hnd Hh] Hoq]. split.
      * split; [done |]. intros h rk Hin. rewrite (adds_out _ _ _ _ Hadd); [by apply Hh |].
        apply (Hout h (ODev q)), Hoq, list_elem_of_fmap. by exists (h, rk).
      * intros h Hin. rewrite Hown, decide_False by (by eapply Hout, Hoq). by apply Hoq.
  - intros h q E. rewrite Hown in E. destruct (decide (h ∈ rs.*1)) as [Hin | Hin].
    + injection E as <-. exists d. by rewrite Hresp, lookup_insert_eq.
    + destruct (Ho h q E) as (e & Ee & Hi). assert (Hne : q <> p) by (intros ->; congruence).
      exists e. by rewrite (Hres q e Hne), lookup_insert_ne.
  - intros h. rewrite Hown. destruct (Hb h) as [Hbi Hk]. destruct (decide (h ∈ rs.*1)) as [Hin | Hin].
    + split; [split; [| done] |]; intros E; apply Hbi in E; by destruct (Hout h OBuf E).
    + by rewrite (adds_out _ _ _ _ Hadd Hin).
  - intros h. rewrite Hown. destruct (Hba h) as [Hbi Hk]. destruct (decide (h ∈ rs.*1)) as [Hin | Hin].
    + split; [split; [| done] |]; intros E; apply Hbi in E; by destruct (Hout h OBase E).
    + by rewrite (adds_out _ _ _ _ Hadd Hin).
  - intros h. rewrite Hown. destruct (decide (h ∈ rs.*1)) as [Hin | Hin].
    + apply list_elem_of_fmap in Hin as ([h' rk] & -> & Hin). cbn. by rewrite (adds_in _ _ _ _ _ Hadd Hin).
    + by rewrite (adds_out _ _ _ _ Hadd Hin).
Qed.

Lemma refs_new heap regs refs p d :
  refs_ok heap regs refs -> heap !! p = None -> dyn_shape d -> ref d = 1 -> dev_ok d ->
  refs_ok (<[p := d]> heap) ({[p]} ∪ regs) (set_refs refs p 1).
Proof.
  intros [Hd Hr Hp Hg Hk] Hnew Hsh Href Hok. split.
  - intros q e E. destruct (decide (q = p)) as [-> | Hne].
    + rewrite lookup_insert_eq in E. injection E as <-. by rewrite set_refs_eq.
    + rewrite lookup_insert_ne in E by done. rewrite set_refs_ne by done. by apply Hd.
  - intros q Hq. destruct (decide (q = p)) as [-> | Hne]; [by rewrite lookup_insert_eq |].
    rewrite lookup_insert_ne by done. rewrite set_refs_ne in Hq by done. by apply Hr.
  - intros q. destruct (decide (q = p)) as [-> | Hne]; [by rewrite set_refs_eq |].
    rewrite set_refs_ne by done. apply Hp.
  - intros q Hq. destruct (decide (q = p)) as [-> | Hne]; [by rewrite set_refs_eq |].
    rewrite set_refs_ne by done. apply Hg. set_solver.
  - intros q e [[_ <-] | [_ E]]%lookup_insert_Some; [done | by eapply Hk].
Qed.

Lemma ids_new heap ida p d off :
  ids_ok heap ida -> heap !! p = None -> minor_off d = off -> off ∉ ida ->
  ids_ok (<[p := d]> heap) ({[off]} ∪ ida).
Proof.
  intros [Hu Hi] Hnew <- Hoff.
  assert (Hother : forall q e, heap !! q = Some e -> minor_off e <> minor_off d).
  { intros q e E Hm. apply Hoff, Hu. by exists q, e. }
  assert (Hl : forall q e, <[p := d]> heap !! q = Some e <-> (q = p /\ e = d) \/ (q <> p /\ heap !! q = Some e)).
  { intros q e. rewrite lookup_insert_Some. naive_solver. }
  split.
  - intros i. rewrite elem_of_union, elem_of_singleton, Hu. split.
    + intros [-> | (q & e & E & Hm)]; [exists p, d; split; [apply Hl; by left | done] |].
      exists q, e. split; [| done]. apply Hl. right. split; [intros ->; congruence | done].
    + intros (q & e & [[-> ->] | [_ E]]%Hl & Hm); [left; congruence | right; by exists q, e].
  - intros q1 q2 e1 e2 [[-> ->] | [_ E1]]%Hl [[-> ->] | [_ E2]]%Hl Hm; [done | | |].
    + by destruct (Hother q2 e2 E2).
    + by destruct (Hother q1 e1 E1).
    + by apply (Hi q1 q2 e1 e2).
Qed.

(** ** Buffers come and go *)
Lemma owned_buf_add base own held heap regs bufs h :
  owned base own held heap regs bufs -> held !! h = None ->
  owned base (<[h := OBuf]> own) (<[h := RkDmaBuf]> held) heap regs ({[h]} ∪ bufs).
Proof.
  intros [Hr Ho Hb Hba Hd] Hnew.
  assert (Hon : own !! h = None).
  { destruct (own !! h) eqn:E; [| done]. destruct (proj2 (Hd h) ltac:(by rewrite E)). congruence. }
  assert (Hne : forall x o, own !! x = Some o -> x <> h) by congruence.
  split.
  - intros p d E. destruct (Hr p d E) as [[Hnd Hh] Hop]. split.
    + split; [done |]. intros x rk Hin. rewrite lookup_insert_ne; [by apply Hh |].
      apply not_eq_sym. eapply Hne, Hop, list_elem_of_fmap. by exists (x, rk).
    + intros x Hin. rewrite lookup_insert_ne; [by apply Hop |]. apply not_eq_sym. by eapply Hne, Hop.
  - intros x p E. rewrite lookup_insert_Some in E. destruct E as [[_ ?] | [_ E]]; [done |]. by apply Ho.
  - intros x. destruct (decide (x = h)) as [-> | Hx].
    + rewrite !lookup_insert_eq. split; [set_solver | done].
    + rewrite !lookup_insert_ne by done. destruct (Hb x) as [Hbi Hk]. split; [rewrite <- Hbi; set_solver |].
      intros Hin. apply Hk. set_solver.
  - intros x. destruct (Hba x) as [Hbi Hk]. destruct (decide (x = h)) as [-> | Hx].
    + rewrite lookup_insert_eq. rewrite Hon in Hbi. split; [split; [by intros ?%Hbi | done] | by intros ?%Hbi].
    + by rewrite !lookup_insert_ne.
  - intros x. destruct (decide (x = h)) as [-> | Hx]; [by rewrite !lookup_insert_eq |].
    rewrite !lookup_insert_ne by done. apply Hd.
Qed.

Lemma owned_buf_del base own held heap regs bufs h :
  owned base own held heap regs bufs -> h ∈ bufs ->
  owned base (delete h own) (delete h held) heap regs (bufs ∖ {[h]}).
Proof.
  intros [Hr Ho Hb Hba Hd] Hin. pose proof (proj1 (proj1 (Hb h)) Hin) as Hob.
  assert (Hne : forall x o, own !! x = Some o -> o <> OBuf -> x <> h) by congruence.
  split.
  - intros p d E. destruct (Hr p d E) as [[Hnd Hh] Hop]. split.
    + split; [done |]. intros x rk Hi. rewrite lookup_delete_ne; [by apply Hh |].
      apply not_eq_sym. eapply Hne; [eapply Hop, list_elem_of_fmap; by exists (x, rk) | done].
    + intros x Hi. rewrite lookup_delete_ne; [by apply Hop |]. apply not_eq_sym.
      by eapply Hne; [apply Hop |].
  - intros x p E. rewrite lookup_delete_Some in E. destruct E as [_ E]. by apply Ho.
  - intros x. destruct (decide (x = h)) as [-> | Hx].
    + rewrite !lookup_delete_eq. split; [set_solver | set_solver].
    + rewrite !lookup_delete_ne by done. destruct (Hb x) as [Hbi Hk]. split; [rewrite <- Hbi; set_solver |].
      intros Hi. apply Hk. set_solver.
  - intros x. destruct (Hba x) as [Hbi Hk]. destruct (decide (x = h)) as [-> | Hx].
    + rewrite lookup_delete_eq. split; [split; [| done] |]; intros ?%Hbi; congruence.
    + by rewrite !lookup_delete_ne.
  - intros x. destruct (decide (x = h)) as [-> | Hx]; [by rewrite !lookup_delete_eq |].
    rewrite !lookup_delete_ne by done. apply Hd.
Qed.

(** Something else the module held is released. *)
Lemma owned_base_del base own held heap regs bufs h rk :
  owned base own held heap regs bufs -> base !! h = Some rk ->
  owned (delete h base) (delete h own) (delete h held) heap regs bufs.
Proof.
  intros [Hr Ho Hb Hba Hd] E. pose proof (proj1 (proj1 (Hba h)) ltac:(by eexists)) as Hob.
  assert (Hne : forall x o, own !! x = Some o -> o <> OBase -> x <> h) by congruence.
  split.
  - intros p d Ed. destruct (Hr p d Ed) as [[Hnd Hh] Hop]. split.
    + split; [done |]. intros x rx Hi. rewrite lookup_delete_ne; [by apply Hh |].
      apply not_eq_sym. eapply Hne; [eapply Hop, list_elem_of_fmap; by exists (x, rx) | done].
    + intros x Hi. rewrite lookup_delete_ne; [by apply Hop |]. apply not_eq_sym.
      by eapply Hne; [apply Hop |].
  - intros x p Ex. rewrite lookup_delete_Some in Ex. destruct Ex as [_ Ex]. by apply Ho.
  - intros x. destruct (Hb x) as [Hbi Hk]. destruct (decide (x = h)) as [-> | Hx].
    + rewrite lookup_delete_eq. split; [split; [| done] |]; intros ?%Hbi; congruence.
    + by rewrite !lookup_delete_ne.
  - intros x. destruct (decide (x = h)) as [-> | Hx]; [| by rewrite !lookup_delete_ne].
    rewrite !lookup_delete_eq. split; [split; [by intros [] | done] | by intros []].
  - intros x. destruct (decide (x = h)) as [-> | Hx]; [by rewrite !lookup_delete_eq |].
    rewrite !lookup_delete_ne by done. apply Hd.
Qed.

Lemma refs_ok_ext heap regs f g : (forall p, f p = g p) -> refs_ok heap regs f -> refs_ok heap regs g.
Proof.
  intros Hfg [Hd Hr Hp Hg Hk]. split.
  - intros p d E. rewrite <- Hfg. by apply Hd.
  - intros p. rewrite <- Hfg. apply Hr.
  - intros p. rewrite <- Hfg. apply Hp.
  - intros p. rewrite <- Hfg. apply Hg.
  - exact Hk.
Qed.

Lemma refs_ok_regs heap regs regs' f : regs' ⊆ regs -> refs_ok heap regs f -> refs_ok heap regs' f.
Proof. intros Hs [Hd Hr Hp Hg Hk]. split; [done | done | done | | done]. intros p Hin. apply Hg. set_solver. Qed.

(** ** The operations preserve it *)
Section live.
Context {K : Type} `{KernelLaws K}.
Implicit Types (w : cworld K) (d : kbuf_dev).

Record live (base : gmap Z rkind) (own : gmap Z owner) (w : cworld K) (regs bufs : gset Z)
    (refs : Z -> Z) : Prop := {
  lv_refs : refs_ok (c_heap w) regs refs;
  lv_owned : owned base own (k_held (c_kern w)) (c_heap w) regs bufs;
  lv_ids : ids_ok (c_heap w) (k_ida (c_kern w))
}.

Lemma live_put base own w regs bufs refs p d :
  live base own w regs bufs refs -> c_heap w !! p = Some d -> (p ∈ regs -> 1 < refs p) ->
  exists w' own', kref_put p w = Done (tt, w') /\
    live base own' w' regs bufs (set_refs refs p (refs p - 1)) /\
    c_list w' = c_list w /\ c_names w' = c_names w /\
    (1 < refs p -> c_heap w' = <[p := d <| ref := ref d - 1 |>]> (c_heap w)).
Proof.
  intros [Lr Lo Li] Hd Hreg. destruct (ro_dev _ _ _ Lr p d Hd) as (Hsh & Hr & Hpos).
  destruct (ow_res _ _ _ _ _ _ Lo p d Hd) as [Hh _].
  destruct (kref_put_run p d w Hd Hsh (proj2 (holds_app _ _ _ Hh))) as (w' & Hrun & Hcase).
  { apply (id_used _ _ Li). by exists p, d. }
  exists w'. destruct (Z.eqb_spec (ref d) 1) as [E | E].
  - destruct Hcase as (Hheap & Hl & Hs & Hdel & Hida).
    exists (foldr delete own (dev_res false p d).*1).
    split; [done |]. split; [| split_and!; [done | done | lia]].
    replace (refs p - 1) with 0 by lia.
    assert (Hn : p ∉ regs) by (intros Hin%Hreg; lia). split; rewrite Hheap.
    + by apply refs_free.
    + by apply (owned_free base own (k_held (c_kern w))).
    + rewrite Hida. by apply ids_free.
  - subst w'. exists own. split; [done |]. split; [| done]. split.
    + rewrite <- Hr. apply refs_set; [done | done | lia].
    + by apply (owned_view _ _ _ (c_heap w)), Lo; apply same_view_ref.
    + by apply (ids_view (c_heap w)), Li; apply same_view_ref.
Qed.

Lemma live_get base own w regs bufs refs p d :
  live base own w regs bufs refs -> c_heap w !! p = Some d ->
  kref_get p w = Done (tt, taken p d w) /\
  live base own (taken p d w) regs bufs (set_refs refs p (refs p + 1)).
Proof.
  intros [Lr Lo Li] Hd. split; [by apply kref_get_run |].
  destruct (ro_dev _ _ _ Lr p d Hd) as (_ & Hr & Hp). split.
  - rewrite <- Hr. apply refs_set; [done | done | lia].
  - by apply (owned_view _ _ _ (c_heap w)), Lo; apply same_view_ref.
  - by apply (ids_view (c_heap w)), Li; apply same_view_ref.
Qed.

(** [device_destroy] and [cdev_del], then the registered reference. *)
Lemma live_teardown base own w regs bufs refs p d :
  live base own w regs bufs refs -> c_heap w !! p = Some d -> p ∈ regs ->
  exists w' own', kbuf_dyn_teardown p w = Done (tt, w') /\
    live base own' w' (regs ∖ {[p]}) bufs (set_refs refs p (refs p - 1)) /\
    c_list w' = c_list w /\ c_names w' = c_names w /\
    (1 < refs p -> c_heap w' = <[p := d <| ref := ref d - 1 |>]> (c_heap w)).
Proof.
  intros [Lr Lo Li] Hd Hreg. destruct (ow_res _ _ _ _ _ _ Lo p d Hd) as [Hh _]. unfold res_of in Hh.
  rewrite bool_decide_eq_true_2 in Hh by done. pose proof (proj1 (holds_app _ _ _ Hh)) as [Hnd Hn].
  unfold kbuf_dyn_teardown. rewrite (run_bind _ _ _ _ _ (get_dev_run p d w Hd)).
  destruct (release_ok RkNode (dev_node d) (c_kern w)) as [Hk1 Hi1]; [apply Hn; by left |].
  destruct (release_ok RkCdev (cdevp d) (k_release RkNode (dev_node d) (c_kern w))) as [Hk2 Hi2].
  { rewrite Hk1, lookup_delete_ne; [apply Hn; right; by left |]. cbn in Hnd.
    apply NoDup_cons in Hnd as [Hni _]. intros E. apply Hni. rewrite E. by left. }
  set (k2 := k_release RkCdev (cdevp d) (k_release RkNode (dev_node d) (c_kern w))) in *.
  unfold release. erewrite run_bind by done.
  rewrite (run_bind _ _ _ tt (w <| c_kern := k2 |>)) by done.
  assert (L2 : live base (foldr delete own (node_res true d).*1) (w <| c_kern := k2 |>)
                 (regs ∖ {[p]}) bufs refs).
  { split; cbn [c_heap c_kern set_field set_c_kern].
    - apply (refs_ok_regs _ regs); [set_solver | done].
    - apply (owned_unreg base own (k_held (c_kern w))); [done | done | done |].
      rewrite Hk2, Hk1. intros h. cbn [node_res fmap list_fmap fst].
      rewrite !lookup_delete. repeat case_decide; subst; try done; set_solver.
    - by rewrite Hi2, Hi1. }
  destruct (live_put _ _ (w <| c_kern := k2 |>) _ _ _ p d L2 Hd) as (w' & own' & Hrun & L' & Hl & Hs & Hheap);
    [set_solver |].
  by exists w', own'.
Qed.

Lemma live_create base own w regs bufs refs base_devno nd idx :
  live base own w regs bufs refs ->
  exists r w', kbuf_dyn_create base_devno nd idx w = Done (r, w') /\
    ((r.1 < 0 /\ undone w w' /\ live base own w' regs bufs refs) \/
     exists p d own', r.1 = 0 /\ created w p r.2 d w' /\
       live base own' w' ({[p]} ∪ regs) bufs (set_refs refs p 1)).
Proof.
  intros [Lr Lo Li]. destruct (kbuf_dyn_create_run base_devno nd idx w) as (r & w' & Hrun & Hex).
  { intros p d E. destruct (ow_res _ _ _ _ _ _ Lo p d E) as [[_ Hh] _]. apply Hh.
    unfold res_of, dev_res. rewrite !elem_of_app. right. right. right. by left. }
  exists r, w'. split; [done |]. destruct Hex as [[Hr Hu] | (p & d & Hr & Hc)].
  - left. split; [done |]. split; [done |]. destruct Hu as (Hh & _ & _ & Hk & Hi).
    split; by rewrite ?Hh, ?Hk, ?Hi.
  - right. exists p, d, (claim p (dev_res true p d).*1 own). split; [done |]. split; [done |].
    destruct Hc as [Hheap Hnew _ _ Hadd Hida [Hoff _] Hsh Hmin Href [Hok _]]. split; rewrite Hheap.
    + by apply refs_new.
    + by apply (owned_add base own (k_held (c_kern w))).
    + rewrite Hida. by apply ids_new.
Qed.
End live.
