(* ===== verification/LifetimeProps.v ===== *)
(** * LifetimeProps: dynamic devices under any sequence of calls

    Creates, destroys, opens, closes, exports and buffer releases in any order,
    up to one that reads the name of a device destroyed while open;
    a destroy is two steps, the unlink under the list lock and the teardown, so
    that other calls run between them. *)

From stdpp Require Import gmultiset.
From S2P Require Import Prelude Kernel Uapi Device Alloc Ring RingFacts Mmap Ctl CtlFacts Lifetime.
#[local] Open Scope Z_scope.

Inductive lop : Set :=
  | LCreate
  | LUnlink (id : Z)        (** first half of a destroy *)
  | LTeardown (p : Z)       (** second half *)
  | LOpen (minor : Z)
  | LClose (p : Z)
  | LExport (p : Z)
  | LPut (h : Z).           (** the last reference to an exported buffer *)

Definition buf_refs (bufs : gmap Z Z) (p : Z) : Z :=
  Z.of_nat (size (filter (fun hq : Z * Z => hq.2 = p) bufs)).

(** The reference a registered device holds on itself. *)
Definition reg_ref (regs : gset Z) (p : Z) : Z := if decide (p ∈ regs) then 1 else 0.

Lemma reg_ref_in regs p : p ∈ regs -> reg_ref regs p = 1.
Proof. intros. unfold reg_ref. by rewrite decide_True. Qed.

Lemma reg_ref_out regs p : p ∉ regs -> reg_ref regs p = 0.
Proof. intros. unfold reg_ref. by rewrite decide_False. Qed.

Lemma reg_ref_ext regs regs' p : (p ∈ regs <-> p ∈ regs') -> reg_ref regs p = reg_ref regs' p.
Proof. intros E. unfold reg_ref. by rewrite (decide_ext _ _ _ _ E). Qed.

Section system.
Context {K : Type} `{Kernel K} (base_devno ndevices : Z) (dev_index : Z -> Z).

(** The world, the open files on dynamic devices, the exported buffers with
    their device, and the devices unlinked but not yet torn down. *)
Record lsys := LSys {
  l_w : cworld K;
  l_files : gmultiset Z;
  l_bufs : gmap Z Z;
  l_tearing : list Z
}.

Definition lrun (o : lop) (s : lsys) : exec lsys :=
  let w := l_w s in
  match o with
  | LCreate =>
    exec_bind (kbuf_dyn_create base_devno ndevices dev_index w) (fun '(_, w') =>
    Done (LSys w' (l_files s) (l_bufs s) (l_tearing s)))
  | LUnlink id =>
    exec_bind (dyn_unlink id w) (fun '(found, w') =>
    Done (LSys w' (l_files s) (l_bufs s)
               (match found with Some p => p :: l_tearing s | None => l_tearing s end)))
  | LTeardown p =>
    if decide (p ∈ l_tearing s) then
      exec_bind (kbuf_dyn_teardown p w) (fun '(_, w') =>
      Done (LSys w' (l_files s) (l_bufs s) (base.filter (fun q => q <> p) (l_tearing s))))
    else Done s
  | LOpen minor =>
    exec_bind (kbuf_open ndevices minor w) (fun '(r, w') =>
    Done (LSys w' (match r with inl (DynDev p) => {[+ p +]} ⊎ l_files s | _ => l_files s end)
               (l_bufs s) (l_tearing s)))
  | LClose p =>
    if decide (p ∈ l_files s) then
      exec_bind (kbuf_release (DynDev p) w) (fun '(_, w') =>
      Done (LSys w' (l_files s ∖ {[+ p +]}) (l_bufs s) (l_tearing s)))
    else Done s
  | LExport p =>
    if decide (p ∈ l_files s) then
      exec_bind (kbuf_dmabuf_export p w) (fun '(r, w') =>
      Done (LSys w' (l_files s)
                 (match r with inl (_, h) => <[h := p]> (l_bufs s) | inr _ => l_bufs s end)
                 (l_tearing s)))
    else Done s
  | LPut h =>
    match l_bufs s !! h with
    | Some p => exec_bind (dma_buf_put h p w) (fun '(_, w') =>
                Done (LSys w' (l_files s) (delete h (l_bufs s)) (l_tearing s)))
    | None => Done s
    end
  end.

Fixpoint lruns (os : list lop) (s : lsys) : exec lsys :=
  match os with
  | [] => Done s
  | o :: os' => exec_bind (lrun o s) (lruns os')
  end.

(** Devices with a node, and references by device. *)
Definition l_regs (s : lsys) : gset Z := list_to_set (c_list (l_w s) ++ l_tearing s).

Definition l_refs (s : lsys) (p : Z) : Z :=
  reg_ref (l_regs s) p + Z.of_nat (multiplicity p (l_files s)) +
  buf_refs (l_bufs s) p.
End system.
Arguments lsys K : clear implicits.

(** ** Counting buffers *)
Lemma buf_refs_insert bufs h p q :
  bufs !! h = None -> buf_refs (<[h := p]> bufs) q = (if decide (q = p) then 1 else 0) + buf_refs bufs q.
Proof.
  intros Hn. unfold buf_refs. case_decide as E; subst.
  - rewrite map_filter_insert_True by done.
    rewrite map_size_insert_None; [lia |]. apply map_lookup_filter_None. by left.
  - rewrite map_filter_insert_False by (cbn; congruence). by rewrite delete_id.
Qed.

Lemma buf_refs_delete bufs h p q :
  bufs !! h = Some p -> buf_refs (delete h bufs) q = buf_refs bufs q - (if decide (q = p) then 1 else 0).
Proof.
  intros Hs. rewrite <- (insert_delete_id bufs h p Hs) at 2.
  rewrite (buf_refs_insert (delete h bufs) h p q) by apply lookup_delete_eq. lia.
Qed.

Lemma buf_refs_pos bufs h p : bufs !! h = Some p -> 0 < buf_refs bufs p.
Proof.
  intros Hs. pose proof (buf_refs_delete bufs h p p Hs) as E. rewrite decide_True in E by done.
  unfold buf_refs in *. lia.
Qed.

Lemma unused_refs heap regs refs :
  refs_ok heap regs refs -> forall p, heap !! p = None -> refs p = 0.
Proof.
  intros Lr p Hn. pose proof (ro_pos _ _ _ Lr p). destruct (decide (0 < refs p)) as [Hr |]; [| lia].
  apply (ro_ref _ _ _ Lr) in Hr as [? ?]. congruence.
Qed.

Lemma l_regs_in {K} (s : lsys K) p : p ∈ l_regs s <-> p ∈ c_list (l_w s) ++ l_tearing s.
Proof. apply elem_of_list_to_set. Qed.

Lemma filter_out (p : Z) (l : list Z) :
  NoDup l -> p ∈ l -> l ≡ₚ p :: base.filter (fun q => q <> p) l.
Proof.
  intros Hnd Hin. apply NoDup_Permutation; [done | |].
  - apply NoDup_cons. split; [| by apply NoDup_filter]. by intros [? _]%list_elem_of_filter.
  - intros q. rewrite elem_of_cons, list_elem_of_filter. destruct (decide (q = p)); naive_solver.
Qed.

Section invariant.
Context {K : Type} `{KernelLaws K} (base_devno ndevices : Z) (dev_index : Z -> Z).
Context (base : gmap Z rkind).
Implicit Types (s : lsys K) (w : cworld K).

Definition linv s : Prop :=
  NoDup (c_list (l_w s) ++ l_tearing s) /\
  exists own, live base own (l_w s) (l_regs s) (dom (l_bufs s)) (l_refs s).

(** Re-assembling the invariant from what an operation left. *)
Lemma linv_intro s own regs bufs refs :
  live base own (l_w s) regs bufs refs -> NoDup (c_list (l_w s) ++ l_tearing s) ->
  regs = l_regs s -> bufs = dom (l_bufs s) -> (forall p, refs p = l_refs s p) -> linv s.
Proof.
  intros [Lr Lo Li] Hnd -> -> Hrefs. split; [done |]. exists own. split; [| done | done].
  by eapply refs_ok_ext.
Qed.

Lemma linv_listed s p : linv s -> p ∈ c_list (l_w s) ++ l_tearing s -> is_Some (c_heap (l_w s) !! p).
Proof.
  intros (_ & own & [Lr _ _]) Hin. apply (ro_ref _ _ _ Lr), (ro_reg _ _ _ Lr).
  by apply l_regs_in.
Qed.

Lemma refs_file s p : linv s -> p ∈ l_files s -> is_Some (c_heap (l_w s) !! p) /\ 0 < l_refs s p.
Proof.
  intros (_ & own & [Lr _ _]) Hin.
  assert (Hp : 0 < l_refs s p).
  { unfold l_refs, buf_refs. rewrite elem_of_multiplicity in Hin.
    unfold reg_ref. case_decide; lia. }
  split; [| done]. by apply (ro_ref _ _ _ Lr).
Qed.

Lemma names_live own w regs bufs refs m :
  live base own w regs bufs refs -> live base own (w <| c_names := m |>) regs bufs refs.
Proof. intros [? ? ?]. by split. Qed.

(** A registered device has its node. *)
Lemma reg_node own w regs bufs refs p d :
  live base own w regs bufs refs -> c_heap w !! p = Some d -> p ∈ regs -> node_live (c_kern w) d = true.
Proof.
  intros [_ Lo _] Hd Hreg. destruct (ow_res _ _ _ _ _ _ Lo p d Hd) as [[_ Hh] _].
  apply bool_decide_eq_true, Hh. unfold res_of. rewrite bool_decide_eq_true_2 by done. by left.
Qed.

(** Reading the name of the device at [p] where its node may be gone. *)
Lemma name_cases s p d :
  linv s -> c_heap (l_w s) !! p = Some d ->
  node_live (c_kern (l_w s)) d = true \/ (dev_name p (l_w s) = Oops UseAfterFree /\ p ∉ l_regs s).
Proof.
  intros (_ & own & L) Hd. destruct (node_live (c_kern (l_w s)) d) eqn:Hn; [by left | right].
  split; [by rewrite (dev_name_run p d _ Hd), Hn |]. intros Hreg.
  rewrite (reg_node own _ _ _ _ p d L Hd Hreg) in Hn. done.
Qed.

Lemma lcreate_inv s :
  linv s -> exists s', lrun base_devno ndevices dev_index LCreate s = Done s' /\ linv s'.
Proof.
  intros (Hnd & own & L). cbn [lrun].
  destruct (live_create base own (l_w s) _ _ _ base_devno ndevices dev_index L)
    as (r & w' & -> & [(_ & Hu & L') | (p & d & own' & _ & Hc & L')]); cbn [exec_bind];
    (eexists; split; [done |]).
  - destruct Hu as (_ & Hl & _). eapply linv_intro; [exact L' | | | done |].
    + cbn. by rewrite Hl.
    + unfold l_regs. cbn. by rewrite Hl.
    + intros q. unfold l_refs, l_regs. cbn [l_w l_files l_bufs l_tearing]. by rewrite Hl.
  - pose proof (cr_list _ _ _ _ _ Hc) as Hl. destruct L as [Lr _ _].
    assert (Hp : p ∉ c_list (l_w s) ++ l_tearing s).
    { intros Hin. apply l_regs_in, (ro_reg _ _ _ Lr), (ro_ref _ _ _ Lr) in Hin.
      rewrite (cr_new _ _ _ _ _ Hc) in Hin. by destruct Hin. }
    assert (Hregs : {[p]} ∪ l_regs s = list_to_set ((c_list (l_w s) ++ [p]) ++ l_tearing s))
      by (unfold l_regs; set_solver).
    eapply linv_intro; [exact L' | | | done |].
    + cbn. rewrite Hl. rewrite <- app_assoc. cbn [app]. rewrite <- Permutation_middle. by apply NoDup_cons.
    + unfold l_regs at 2. cbn. by rewrite Hl.
    + intros q. unfold l_refs at 2. unfold l_regs. cbn [l_w l_files l_bufs l_tearing].
      rewrite Hl, <- Hregs. destruct (decide (q = p)) as [-> | Hne].
      * rewrite set_refs_eq, reg_ref_in by set_solver. pose proof (unused_refs _ _ _ Lr p (cr_new _ _ _ _ _ Hc)) as Hz.
        unfold l_refs, reg_ref in Hz. unfold buf_refs in *. case_decide; lia.
      * rewrite set_refs_ne by done. unfold l_refs. rewrite (reg_ref_ext ({[p]} ∪ l_regs s) (l_regs s)); [done |].
        set_solver.
Qed.

(** Unlinking a listed device, by its minor. *)
Lemma unlink_run s p d :
  linv s -> p ∈ c_list (l_w s) -> c_heap (l_w s) !! p = Some d ->
  let s' := LSys ((l_w s) <| c_list := base.filter (fun q => q <> p) (c_list (l_w s)) |>)
                 (l_files s) (l_bufs s) (p :: l_tearing s) in
  lrun base_devno ndevices dev_index (LUnlink (minor_off d)) s = Done s' /\ linv s'.
Proof.
  intros Hs Hin Hd s'. pose proof Hs as (Hnd & own & [Lr Lo Li]).
  destruct (dyn_find_run (c_list (l_w s)) (minor_off d) (l_w s)) as ([q |] & Hrun & Hf).
  { intros q Hq. apply linv_listed; [done |]. apply elem_of_app. by left. }
  2: { by destruct (Hf p d Hin Hd). }
  destruct Hf as (_ & e & He & Hme). pose proof (id_inj _ _ Li q p e d He Hd Hme) as ->. split.
  { cbn [lrun]. unfold dyn_unlink, p_bind at 1, p_get. cbn [exec_bind].
    by rewrite (run_bind _ _ _ _ _ Hrun). }
  apply NoDup_app in Hnd as Hnd'. destruct Hnd' as (Hn1 & _ & _).
  assert (Hp2 : c_list (l_w s) ++ l_tearing s
                ≡ₚ base.filter (fun q => q <> p) (c_list (l_w s)) ++ p :: l_tearing s)
    by (rewrite (filter_out p (c_list (l_w s)) Hn1 Hin) at 1; apply Permutation_middle).
  assert (Hregs : l_regs s' = l_regs s) by (unfold l_regs; cbn; by rewrite Hp2).
  apply (linv_intro s' own (l_regs s) (dom (l_bufs s)) (l_refs s)); [by split | | done | done |].
  - cbn. by rewrite <- Hp2.
  - intros q. unfold l_refs. by rewrite Hregs.
Qed.

Lemma lunlink_inv s id :
  linv s -> exists s', lrun base_devno ndevices dev_index (LUnlink id) s = Done s' /\ linv s'.
Proof.
  intros Hs. destruct (dyn_find_run (c_list (l_w s)) id (l_w s)) as ([p |] & Hrun & Hf).
  { intros p Hp. apply linv_listed; [done |]. apply elem_of_app. by left. }
  - destruct Hf as (Hin & d & Hd & <-). destruct (unlink_run s p d Hs Hin Hd) as [Hu Hs'].
    by eexists.
  - exists s. split; [| done]. cbn [lrun]. unfold dyn_unlink, p_bind at 1, p_get. cbn [exec_bind].
    rewrite (run_bind _ _ _ _ _ Hrun). by destruct s.
Qed.

Lemma lteardown_inv s p :
  linv s -> exists s', lrun base_devno ndevices dev_index (LTeardown p) s = Done s' /\ linv s'.
Proof.
  intros Hs. pose proof Hs as (Hnd & own & L). cbn [lrun].
  destruct (decide (p ∈ l_tearing s)) as [Hin | Hin]; [| by exists s].
  assert (Hreg : p ∈ l_regs s) by (apply l_regs_in, elem_of_app; by right).
  destruct (linv_listed s p Hs) as [d Hd]; [apply elem_of_app; by right |].
  destruct (live_teardown _ _ _ _ _ _ p d L Hd Hreg) as (w' & own' & -> & L' & Hl & _).
  cbn [exec_bind]. eexists. split; [done |].
  apply NoDup_app in Hnd as (Hn1 & Hsep & Hn2).
  assert (Hp1 : p ∉ c_list (l_w s)) by (intros Hi; by apply (Hsep p Hi)).
  assert (Hregs : l_regs s ∖ {[p]} = list_to_set (c_list (l_w s) ++ base.filter (fun q => q <> p) (l_tearing s))).
  { apply set_eq. intros q. rewrite elem_of_difference, elem_of_singleton, l_regs_in.
    rewrite elem_of_list_to_set, !elem_of_app, list_elem_of_filter. naive_solver. }
  eapply linv_intro; [exact L' | | | done |].
  - cbn. rewrite Hl. apply NoDup_app. split_and!; [done | | by apply NoDup_filter].
    intros q Hq [_ Hq']%list_elem_of_filter. by apply (Hsep q).
  - unfold l_regs at 2. cbn. by rewrite Hl.
  - intros q. unfold l_refs at 3. unfold l_regs. cbn [l_w l_files l_bufs l_tearing].
    rewrite Hl, <- Hregs. destruct (decide (q = p)) as [-> | Hne].
    + rewrite set_refs_eq, reg_ref_out by set_solver. unfold l_refs. rewrite reg_ref_in by done. lia.
    + rewrite set_refs_ne by done. unfold l_refs.
      rewrite (reg_ref_ext (l_regs s ∖ {[p]}) (l_regs s)); [done | set_solver].
Qed.

(** Nothing moved between list and tearing: only the references differ. *)
Lemma linv_refs s s' own' refs' :
  live base own' (l_w s') (l_regs s) (dom (l_bufs s')) refs' ->
  NoDup (c_list (l_w s) ++ l_tearing s) ->
  c_list (l_w s') = c_list (l_w s) -> l_tearing s' = l_tearing s ->
  (forall q, refs' q - l_refs s q
             = Z.of_nat (multiplicity q (l_files s')) - Z.of_nat (multiplicity q (l_files s)) +
               buf_refs (l_bufs s') q - buf_refs (l_bufs s) q) ->
  linv s'.
Proof.
  intros L Hnd Hl Ht Hrefs.
  assert (Hregs : l_regs s' = l_regs s) by (unfold l_regs; by rewrite Hl, Ht).
  eapply linv_intro; [exact L | by rewrite Hl, Ht | done | done |].
  intros q. specialize (Hrefs q). unfold l_refs in *. rewrite Hregs. lia.
Qed.

Lemma lopen_inv s minor :
  linv s -> exists s', lrun base_devno ndevices dev_index (LOpen minor) s = Done s' /\ linv s'.
Proof.
  intros Hs. pose proof Hs as (Hnd & own & L). cbn [lrun]. unfold kbuf_open.
  destruct (minor <? ndevices); [eexists; split; [done |]; by destruct s |].
  unfold kbuf_dyn_get.
  destruct (dyn_find_run (c_list (l_w s)) (minor - ndevices) (l_w s)) as ([p |] & Hrun & Hf).
  { intros p Hp. apply linv_listed; [done |]. apply elem_of_app. by left. }
  2: { unfold p_bind, p_get. cbn [exec_bind]. rewrite Hrun. cbn. eexists. split; [done |]. by destruct s. }
  destruct Hf as (Hin & d & Hd & _).
  destruct (live_get _ _ _ _ _ _ p d L Hd) as [Hget L1].
  assert (Hd1 : c_heap (taken p d (l_w s)) !! p = Some (d <| ref := ref d + 1 |>))
    by apply lookup_insert_eq.
  assert (Hname : dev_name p (taken p d (l_w s)) = Done (dev_node d, taken p d (l_w s))).
  { apply (dev_name_live p (d <| ref := ref d + 1 |>) _ Hd1). apply (reg_node own _ _ _ _ p d L Hd).
    apply l_regs_in, elem_of_app. by left. }
  unfold p_bind, p_get. cbn [exec_bind]. rewrite Hrun. cbn [exec_bind]. rewrite Hget.
  cbn [exec_bind p_ret]. rewrite Hname. cbn [exec_bind p_ret]. eexists. split; [done |].
  eapply (linv_refs s); [exact L1 | done | done | done |].
  intros q. cbn [l_files l_bufs]. rewrite multiplicity_disj_union.
  destruct (decide (q = p)) as [-> | Hne].
  - rewrite set_refs_eq, multiplicity_singleton_eq. lia.
  - rewrite set_refs_ne, multiplicity_singleton_ne by done. lia.
Qed.

(** Dropping the reference of a file or a buffer. *)
Lemma refs_registered s p : p ∈ l_regs s -> 0 < l_refs s p - reg_ref (l_regs s) p -> 1 < l_refs s p.
Proof. intros Hin. rewrite reg_ref_in by done. lia. Qed.

(** The operation is done, or it read the name of a device whose node is gone. *)
Definition lends (o : lop) (p : Z) s : Prop :=
  (exists s', lrun base_devno ndevices dev_index o s = Done s' /\ linv s') \/
  (lrun base_devno ndevices dev_index o s = Oops UseAfterFree /\ p ∉ l_regs s).

Lemma lclose_inv s p : linv s -> lends (LClose p) p s.
Proof.
  intros Hs. pose proof Hs as (Hnd & own & L). unfold lends. cbn [lrun].
  destruct (decide (p ∈ l_files s)) as [Hin | Hin]; [| left; by exists s].
  destruct (refs_file s p Hs Hin) as [[d Hd] _]. rewrite elem_of_multiplicity in Hin. cbn [kbuf_release].
  destruct (name_cases s p d Hs Hd) as [Hn | [Hn Hreg]]; [left | right; split; [| done]; unfold p_bind at 1; by rewrite Hn].
  destruct (ro_dev _ _ _ (lv_refs _ _ _ _ _ _ L) p d Hd) as ([Hdyn _ _] & _ & _).
  destruct (live_put base own (l_w s) _ _ _ p d L Hd) as (w' & own' & Hput & L2 & Hl2 & _).
  { intros Hr. apply (refs_registered s p Hr). unfold l_refs, buf_refs. lia. }
  rewrite (run_bind _ _ _ _ _ (dev_name_live p d _ Hd Hn)), (run_bind _ _ _ _ _ (get_dev_run p d _ Hd)).
  rewrite Hdyn, (run_bind _ _ _ _ _ Hput). eexists. split; [done |].
  eapply (linv_refs s); [exact L2 | done | cbn; congruence | done |].
  intros q. cbn [l_files l_bufs]. rewrite multiplicity_difference.
  destruct (decide (q = p)) as [-> | Hne].
  - rewrite set_refs_eq, multiplicity_singleton_eq. lia.
  - rewrite set_refs_ne, multiplicity_singleton_ne by done. lia.
Qed.

(** The buffer [h] of the device at [p] goes away with its reference. *)
Lemma live_buf_put own w regs bufs refs h p d :
  live base own w regs bufs refs -> c_heap w !! p = Some d -> (p ∈ regs -> 1 < refs p) -> h ∈ bufs ->
  exists w' own', dma_buf_put h p w = Done (tt, w') /\ c_list w' = c_list w /\
    live base own' w' regs (bufs ∖ {[h]}) (set_refs refs p (refs p - 1)).
Proof.
  intros L Hd Hr Hin. destruct (ro_dev _ _ _ (lv_refs _ _ _ _ _ _ L) p d Hd) as ([Hdyn _ _] & _ & _).
  destruct (live_put base own w _ _ _ p d L Hd Hr) as (w' & own' & Hput & [Lr Lo Li] & Hl & _).
  destruct (release_ok RkDmaBuf h (c_kern w')) as [Hk Hi]; [by apply (ow_buf _ _ _ _ _ _ Lo h) |].
  set (w2 := w' <| c_kern := k_release RkDmaBuf h (c_kern w') |>).
  exists (w2 <| c_names := delete h (c_names w2) |>), (delete h own').
  split; [| split; [done |]].
  - unfold dma_buf_put, kbuf_dmabuf_release, release, p_modify, p_bind. rewrite (get_dev_run p d _ Hd).
    cbn [exec_bind]. by rewrite Hdyn, Hput.
  - apply names_live. split; cbn [w2 c_heap c_kern set_field set_c_kern]; [exact Lr | | by rewrite Hi].
    rewrite Hk. by apply owned_buf_del.
Qed.

Lemma lput_inv s h :
  linv s -> exists s', lrun base_devno ndevices dev_index (LPut h) s = Done s' /\ linv s'.
Proof.
  intros Hs. pose proof Hs as (Hnd & own & L). cbn [lrun].
  destruct (l_bufs s !! h) as [p |] eqn:Hb; [| by exists s].
  pose proof (buf_refs_pos _ _ _ Hb) as Hbp.
  destruct (ro_ref _ _ _ (lv_refs _ _ _ _ _ _ L) p) as [d Hd].
  { unfold l_refs, reg_ref. case_decide; lia. }
  destruct (live_buf_put own (l_w s) _ _ _ h p d L Hd) as (w' & own' & -> & Hl & L').
  { intros Hr. apply (refs_registered s p Hr). unfold l_refs. lia. }
  { by apply elem_of_dom_2 in Hb. }
  cbn [exec_bind]. eexists. split; [done |]. eapply (linv_refs s); [| done | done | done |].
  - cbn [l_w l_bufs]. rewrite dom_delete_L. exact L'.
  - intros q. cbn [l_files l_bufs]. rewrite (buf_refs_delete _ _ _ _ Hb).
    destruct (decide (q = p)) as [-> | Hne]; [rewrite set_refs_eq | rewrite set_refs_ne by done]; lia.
Qed.

(** Taking a reference and dropping it again. *)
Lemma set_refs_back refs p q : set_refs (set_refs refs p (refs p + 1)) p (refs p + 1 - 1) q = refs q.
Proof.
  destruct (decide (q = p)) as [-> | Hne]; [rewrite set_refs_eq; lia |].
  by rewrite !set_refs_ne by done.
Qed.

(** The buffer exists and holds a reference, or neither. *)
Lemma export_live own w regs bufs refs p d :
  live base own w regs bufs refs -> c_heap w !! p = Some d -> node_live (c_kern w) d = true ->
  exists r w' own', kbuf_dmabuf_export p w = Done (r, w') /\ c_list w' = c_list w /\
    match r with
    | inl (_, h) => (h ∉ bufs) /\ live base own' w' regs ({[h]} ∪ bufs) (set_refs refs p (refs p + 1))
    | inr _ => exists refs', live base own' w' regs bufs refs' /\ forall q, refs' q = refs q
    end.
Proof.
  intros L Hd Hn. destruct (ro_dev _ _ _ (lv_refs _ _ _ _ _ _ L) p d Hd) as ([Hdyn _ _] & _ & Hpos).
  destruct (live_get _ _ _ _ _ _ p d L Hd) as [Hget L2]. set (w2 := taken p d w) in *.
  assert (Hd2 : c_heap w2 !! p = Some (d <| ref := ref d + 1 |>)) by apply lookup_insert_eq.
  unfold kbuf_dmabuf_export.
  rewrite (run_bind _ _ _ _ _ (dev_name_live p d w Hd Hn)), (run_bind _ _ _ _ _ (get_dev_run p d w Hd)), Hdyn.
  rewrite (run_bind _ _ _ _ _ Hget).
  assert (Hr2 : forall q, q ∈ regs -> 1 < set_refs refs p (refs p + 1) p)
    by (intros; rewrite set_refs_eq; lia).
  destruct (k_acquire RkDmaBuf (c_kern w2)) as [[h | e] k3] eqn:Ea;
    rewrite (run_bind _ _ _ _ _ (kern_run _ w2 _ k3 Ea)).
  2: { apply acquire_err in Ea as (_ & Hk & Hi).
       assert (L3 : live base own (w2 <| c_kern := k3 |>) regs bufs (set_refs refs p (refs p + 1)))
         by (destruct L2; split; cbn [c_heap c_kern set_field set_c_kern]; by rewrite ?Hk, ?Hi).
       destruct (live_put base own (w2 <| c_kern := k3 |>) _ _ _ p _ L3 Hd2 (Hr2 p))
         as (w' & own' & Hp & L' & Hl' & _).
       exists (inr e), w', own'. rewrite (run_bind _ _ _ _ _ Hp). split; [done |].
       split; [done |]. rewrite set_refs_eq in L'. eexists.
       split; [exact L' | apply set_refs_back]. }
  apply acquire_ok in Ea as (Hnew & Hk & Hi). destruct (k_call k3) as [fd k4] eqn:Ec.
  set (w3 := w2 <| c_kern := k3 |> <| c_names := <[h := dev_node d]> (c_names w2) |>).
  rewrite (run_bind _ _ _ tt w3) by done.
  assert (Hc : kern k_call w3 = Done (fd, w3 <| c_kern := k4 |>)) by (apply kern_run; exact Ec).
  rewrite (run_bind _ _ _ _ _ Hc).
  apply call_ok in Ec as (_ & Hk4 & Hi4). set (w4 := w3 <| c_kern := k4 |>).
  assert (Hnb : h ∉ bufs).
  { intros Hin. destruct (ow_buf _ _ _ _ _ _ (lv_owned _ _ _ _ _ _ L2) h) as [_ Hk']. rewrite (Hk' Hin) in Hnew. done. }
  assert (L4 : live base (<[h := OBuf]> own) w4 regs ({[h]} ∪ bufs) (set_refs refs p (refs p + 1))).
  { destruct L2 as [Lr Lo Li]. split; [exact Lr | |].
    - cbn [w4 w3 c_kern set_field set_c_kern]. rewrite Hk4, Hk. by apply owned_buf_add.
    - cbn [w4 c_kern set_field set_c_kern]. by rewrite Hi4, Hi. }
  destruct (fd <? 0); [| exists (inl (fd, h)), w4, (<[h := OBuf]> own); by split_and!].
  destruct (live_buf_put _ w4 _ _ _ h p _ L4 Hd2 (Hr2 p)) as (w' & own' & Hp & Hl' & L'); [set_solver |].
  exists (inr fd), w', own'. rewrite (run_bind _ _ _ _ _ Hp). split; [done |].
  split; [done |]. rewrite set_refs_eq in L'.
  replace (({[h]} ∪ bufs) ∖ {[h]}) with bufs in L' by set_solver.
  eexists. split; [exact L' | apply set_refs_back].
Qed.

Lemma lexport_inv s p : linv s -> lends (LExport p) p s.
Proof.
  intros Hs. pose proof Hs as (Hnd & own & L). unfold lends. cbn [lrun].
  destruct (decide (p ∈ l_files s)) as [Hin | Hin]; [| left; by exists s].
  destruct (refs_file s p Hs Hin) as [[d Hd] _].
  destruct (name_cases s p d Hs Hd) as [Hn | [Hn Hreg]]; [left | right; split; [| done]].
  2: { unfold kbuf_dmabuf_export, p_bind at 1. by rewrite Hn. }
  destruct (export_live own (l_w s) _ _ _ p d L Hd Hn) as (r & w' & own' & -> & Hl & Hr).
  cbn [exec_bind]. eexists. split; [done |]. destruct r as [[fd h] | e].
  - destruct Hr as [Hnb L']. apply not_elem_of_dom in Hnb.
    eapply (linv_refs s); [| done | done | done |]; cbn [l_w l_files l_bufs].
    + rewrite dom_insert_L. exact L'.
    + intros q. rewrite (buf_refs_insert _ _ _ _ Hnb).
      destruct (decide (q = p)) as [-> | Hne]; [rewrite set_refs_eq | rewrite set_refs_ne by done]; lia.
  - destruct Hr as (refs' & L' & Hq). eapply (linv_refs s); [exact L' | done | done | done |].
    intros q. rewrite Hq. cbn [l_files l_bufs]. lia.
Qed.

(** With nothing left that refers to a device, nothing is left at all. *)
Lemma linv_empty s' :
  linv s' -> c_list (l_w s') = [] -> l_tearing s' = [] -> l_files s' = ∅ -> l_bufs s' = ∅ ->
  c_heap (l_w s') = ∅ /\ k_ida (c_kern (l_w s')) = ∅ /\ k_held (c_kern (l_w s')) = base.
Proof.
  intros (_ & own & [[Hd Hr _ _] [_ Ho Hbu Hba Hdom] [Hu _]]) Hl Ht Hf Hb.
  assert (Hz : forall p, l_refs s' p = 0).
  { intros p. unfold l_refs, l_regs. rewrite Hl, Ht, Hf, Hb, reg_ref_out by set_solver.
    unfold buf_refs. by rewrite map_filter_empty, map_size_empty, multiplicity_empty. }
  assert (Hheap : c_heap (l_w s') = ∅).
  { apply map_empty. intros p. destruct (_ !! p) as [d |] eqn:E; [| done].
    destruct (Hd p d E) as (_ & _ & Hp). rewrite Hz in Hp. lia. }
  split; [done |]. split.
  - apply set_eq. intros i. rewrite Hu, Hheap. split; [| set_solver].
    by intros (p & d & E%lookup_empty_Some & _).
  - apply map_eq. intros h. destruct (Hba h) as [Hbi Hbv]. destruct (own !! h) as [[| p |] |] eqn:E.
    + apply Hbv, Hbi. done.
    + destruct (Ho h p E) as (d & Hp & _). by rewrite Hheap in Hp.
    + apply Hbu in E. rewrite Hb in E. set_solver.
    + destruct (k_held (c_kern (l_w s')) !! h) eqn:E1.
      { destruct (proj1 (Hdom h) ltac:(by rewrite E1)). congruence. }
      destruct (base !! h) eqn:E2; [| done]. by apply Hbv.
Qed.

Lemma lrun_inv o s : linv s -> exists p, lends o p s.
Proof.
  intros Hs. destruct o; [exists 0; left | exists 0; left | exists 0; left | exists 0; left
    | by eexists; apply lclose_inv | by eexists; apply lexport_inv | exists 0; left];
    auto using lcreate_inv, lunlink_inv, lteardown_inv, lopen_inv, lput_inv.
Qed.

Lemma lruns_inv os s s' : linv s -> lruns base_devno ndevices dev_index os s = Done s' -> linv s'.
Proof.
  revert s. induction os as [| o os IH]; intros s Hs; cbn [lruns]; [by intros [= <-] |].
  destruct (lrun_inv o s Hs) as (p & [(s1 & -> & Hs1) | [-> _]]); [by apply IH | done].
Qed.
End invariant.

(** ** Unloading *)
Section drain.
Context {K : Type} `{KernelLaws K}.
Implicit Types (s : lsys K) (w : cworld K).

Lemma dyn_drain_run base n w :
  linv base (LSys w ∅ ∅ []) -> length (c_list w) = n ->
  exists w', dyn_drain n w = Done (true, w') /\ linv base (LSys w' ∅ ∅ []) /\ c_list w' = [].
Proof.
  revert w. induction n as [| n IH]; intros w Hs Hn; cbn [dyn_drain];
    unfold p_bind at 1, p_get; cbn [exec_bind].
  { destruct (c_list w) as [| p ps] eqn:E; [| done]. by exists w. }
  destruct (c_list w) as [| p ps] eqn:E; [done |].
  assert (Hs1 : linv base (LSys (w <| c_list := ps |>) ∅ ∅ [p])).
  { destruct Hs as (Hnd & own & [Lr Lo Li]). cbn [l_w l_tearing] in Hnd. rewrite E, app_nil_r in Hnd.
    assert (Hregs : l_regs (LSys w ∅ ∅ []) = l_regs (LSys (w <| c_list := ps |>) ∅ ∅ [p]))
      by (unfold l_regs; cbn [l_w l_tearing c_list set_field set_c_list]; rewrite E; set_solver).
    apply (linv_intro base _ own (l_regs (LSys w ∅ ∅ [])) ∅ (l_refs (LSys w ∅ ∅ [])));
      [by split | | done | done |].
    - cbn. by rewrite (Permutation_app_comm ps [p]).
    - intros q. unfold l_refs. by rewrite Hregs. }
  destruct (lteardown_inv 0 0 id base _ p Hs1) as (s' & Hrun & Hs'). cbn [lrun] in Hrun.
  rewrite decide_True in Hrun by (by left). cbn [l_w] in Hrun.
  destruct (linv_listed base _ p Hs1) as [d Hd]; [apply elem_of_app; right; by left |].
  pose proof Hs1 as (_ & own & L1).
  destruct (live_teardown _ _ _ _ _ _ p d L1 Hd) as (w2 & own2 & Ht & _ & Hl2 & _).
  { apply l_regs_in, elem_of_app. right. by left. }
  cbn [l_w] in Ht. rewrite Ht in Hrun. cbn [exec_bind] in Hrun. injection Hrun as <-.
  cbn [base.filter list_filter] in Hs'. rewrite decide_False in Hs' by (by intros []).
  destruct (IH w2) as (w' & Hr & Hw'); [exact Hs' | rewrite Hl2; cbn in *; lia |].
  exists w'. split; [| done]. unfold p_modify at 1. rewrite (run_bind _ _ _ tt (w <| c_list := ps |>)) by done.
  by rewrite (run_bind _ _ _ _ _ Ht).
Qed.
End drain.

(** ** The properties *)
Section props.
Context {K : Type} {kk : Kernel K} {kl : KernelLaws K}.
Context (base_devno ndevices : Z) (dev_index : Z -> Z).
Implicit Types (s : lsys K) (k : K).

(** The module as it is loaded: no dynamic device yet. *)
Definition fresh_sys (k : K) : lsys K := LSys (CWorld ∅ [] k ∅) ∅ ∅ [].

Lemma fresh_linv k : k_ida k = ∅ -> linv (k_held k) (fresh_sys k).
Proof.
  intros Hida. split; [apply NoDup_nil_2 |]. exists ((fun _ => OBase) <$> k_held k).
  assert (Hl : forall h o, ((fun _ : rkind => OBase) <$> k_held k) !! h = Some o ->
            o = OBase /\ is_Some (k_held k !! h))
    by (intros h o (rk & -> & E)%lookup_fmap_Some; by rewrite E).
  assert (Hz : forall p, l_refs (fresh_sys k) p = 0).
  { intros p. unfold l_refs, reg_ref, buf_refs. cbn.
    rewrite map_filter_empty, map_size_empty, multiplicity_empty. done. }
  split; cbn.
  - split; cbn.
    + by intros p d Hd%lookup_empty_Some.
    + intros p. rewrite Hz. lia.
    + intros p. by rewrite Hz.
    + intros p Hp. cbn in Hp. set_solver.
    + by intros p d Hd%lookup_empty_Some.
  - split; cbn.
    + by intros p d Hd%lookup_empty_Some.
    + by intros h p [? _]%Hl.
    + intros h. split; [| set_solver]. split; [set_solver |]. by intros [? _]%Hl.
    + intros h. split; [| done]. split; [| by intros [_ ?]%Hl].
      intros [rk E]. by rewrite lookup_fmap, E.
    + intros h. rewrite lookup_fmap. by rewrite fmap_is_Some.
  - split; [| by intros p q d e Hd%lookup_empty_Some]. intros i. rewrite Hida. split; [set_solver |].
    by intros (p & d & Hd%lookup_empty_Some & _).
Qed.

(** A minor names one device: opening the minor of a listed device gives
    that device, whatever happened before. *)
Theorem open_finds os k s' p d :
  k_ida k = ∅ -> lruns base_devno ndevices dev_index os (fresh_sys k) = Done s' ->
  p ∈ c_list (l_w s') -> c_heap (l_w s') !! p = Some d -> 0 <= minor_off d ->
  exists w', kbuf_open ndevices (ndevices + minor_off d) (l_w s') = Done (inl (DynDev p), w') /\
    c_heap w' = <[p := d <| ref := ref d + 1 |>]> (c_heap (l_w s')).
Proof.
  intros Hida Hrun Hin Hd Hm.
  pose proof (lruns_inv base_devno ndevices dev_index (k_held k) os _ s' (fresh_linv k Hida) Hrun) as Hs.
  pose proof Hs as (_ & own & [_ _ Hids]). unfold kbuf_open.
  rewrite (proj2 (Z.ltb_ge _ _)) by lia. replace (ndevices + minor_off d - ndevices) with (minor_off d) by lia.
  unfold kbuf_dyn_get.
  destruct (dyn_find_run (c_list (l_w s')) (minor_off d) (l_w s')) as ([q |] & Hf & Hq).
  { intros q Hq. eapply linv_listed; [done |]. apply elem_of_app. by left. }
  2: { by destruct (Hq p d Hin Hd). }
  destruct Hq as (_ & e & He & Hme). pose proof (id_inj _ _ Hids q p e d He Hd Hme) as ->.
  rewrite Hd in He. injection He as <-.
  assert (Hd1 : c_heap (taken p d (l_w s')) !! p = Some (d <| ref := ref d + 1 |>))
    by apply lookup_insert_eq.
  assert (Hname : dev_name p (taken p d (l_w s')) = Done (dev_node d, taken p d (l_w s'))).
  { apply (dev_name_live p (d <| ref := ref d + 1 |>) _ Hd1). pose proof Hs as (_ & own1 & L).
    apply (reg_node _ own1 _ _ _ _ p d L Hd). apply l_regs_in, elem_of_app. by left. }
  unfold p_bind, p_get. cbn [exec_bind]. rewrite Hf. cbn [exec_bind].
  rewrite (kref_get_run p d _ Hd). cbn [exec_bind p_ret]. rewrite Hname. by eexists.
Qed.

(** A device destroyed while open survives until the last close, with its
    ring untouched; new opens of it fail with -ENODEV. *)
Theorem destroy_while_open os k s' p d :
  k_ida k = ∅ -> lruns base_devno ndevices dev_index os (fresh_sys k) = Done s' ->
  p ∈ c_list (l_w s') -> c_heap (l_w s') !! p = Some d -> p ∈ l_files s' -> 0 <= minor_off d ->
  exists s2 w3, lruns base_devno ndevices dev_index [LUnlink (minor_off d); LTeardown p] s' = Done s2 /\
    c_heap (l_w s2) !! p = Some (d <| ref := ref d - 1 |>) /\ (p ∉ c_list (l_w s2)) /\
    kbuf_open ndevices (ndevices + minor_off d) (l_w s2) = Done (inr (- ENODEV), w3).
Proof.
  intros Hida Hrun Hin Hd Hfile Hm.
  pose proof (lruns_inv base_devno ndevices dev_index (k_held k) os _ s' (fresh_linv k Hida) Hrun) as Hs.
  clear Hrun os.
  pose proof Hs as (Hnd & own & [Lr _ Hids]).
  destruct (unlink_run base_devno ndevices dev_index _ s' p d Hs Hin Hd) as (Hu & Hs2).
  set (s2 := LSys _ _ _ _) in Hu, Hs2. cbn [lruns]. rewrite Hu. cbn [exec_bind lrun].
  rewrite decide_True by (by left). pose proof Hs2 as (_ & own2 & L2).
  assert (Hreg : p ∈ l_regs s2) by (apply l_regs_in, elem_of_app; right; by left).
  assert (Hr2 : 1 < l_refs s2 p).
  { unfold l_refs. rewrite reg_ref_in by done. rewrite elem_of_multiplicity in Hfile. cbn [l_files s2].
    unfold buf_refs. lia. }
  destruct (live_teardown _ _ (l_w s2) _ _ _ p d L2 Hd Hreg) as (w3 & own3 & -> & _ & Hl3 & _ & Hh3).
  cbn [exec_bind]. specialize (Hh3 Hr2).
  assert (Hnl : p ∉ c_list w3).
  { rewrite Hl3. cbn. by intros [? _]%list_elem_of_filter. }
  eexists _, _. split; [done |]. cbn [l_w]. split; [by rewrite Hh3, lookup_insert_eq |].
  split; [done |]. unfold kbuf_open. rewrite (proj2 (Z.ltb_ge _ _)) by lia.
  replace (ndevices + minor_off d - ndevices) with (minor_off d) by lia. unfold kbuf_dyn_get.
  assert (Hsub : forall q, q ∈ c_list w3 -> q <> p /\ c_heap w3 !! q = c_heap (l_w s') !! q /\ q ∈ c_list (l_w s')).
  { intros q Hq. rewrite Hl3 in Hq. cbn in Hq. apply list_elem_of_filter in Hq as [Hne Hq].
    split; [done |]. split; [| done]. by rewrite Hh3, lookup_insert_ne. }
  destruct (dyn_find_run (c_list w3) (minor_off d) w3) as ([q |] & Hf & Hq).
  { intros q Hq. destruct (Hsub q Hq) as (_ & -> & Hq'). eapply linv_listed; [done |]. apply elem_of_app. by left. }
  - destruct Hq as (Hq & e & He & Hme). destruct (Hsub q Hq) as (Hne & Hh & _). rewrite Hh in He.
    by destruct Hne; apply (id_inj _ _ Hids q p e d).
  - unfold p_bind, p_get. cbn [exec_bind]. rewrite Hf. done.
Qed.

(** The control node goes, then every device left on the list. *)
Lemma unregister_run base w misc :
  linv base (LSys w ∅ ∅ []) -> base !! misc = Some RkMisc ->
  exists w', kbuf_ctl_unregister misc w = Done (true, w') /\
    c_heap w' = ∅ /\ c_list w' = [] /\ k_ida (c_kern w') = ∅ /\
    k_held (c_kern w') = delete misc base.
Proof.
  intros Hs Hm. pose proof Hs as (Hnd & own & [Lr Lo Li]).
  cbn [l_w l_bufs] in *. destruct (ow_base _ _ _ _ _ _ Lo misc) as [_ Hmk].
  destruct (release_ok RkMisc misc (c_kern w)) as [Hk Hi]; [rewrite Hmk; by rewrite ?Hm |].
  set (w1 := w <| c_kern := k_release RkMisc misc (c_kern w) |>).
  assert (Hs1 : linv (delete misc base) (LSys w1 ∅ ∅ [])).
  { split; [done |]. exists (delete misc own). split; [exact Lr | |].
    - cbn [l_w w1 c_kern set_field set_c_kern]. rewrite Hk. by eapply owned_base_del.
    - cbn [l_w w1 c_kern set_field set_c_kern]. by rewrite Hi. }
  destruct (dyn_drain_run _ (length (c_list w)) w1 Hs1 eq_refl) as (w' & Hd & Hs' & Hl).
  destruct (linv_empty _ _ Hs' Hl eq_refl eq_refl eq_refl) as (Hh & _ & Hk').
  destruct (ida_destroy_ok (c_kern w')) as [Hi' Hk2].
  exists (w' <| c_kern := ida_destroy (c_kern w') |>). cbn. split_and!; [| done | done | done | by rewrite Hk2].
  unfold kbuf_ctl_unregister, release, p_bind, p_modify, p_get. cbn [exec_bind].
  change (c_list _) with (c_list w). fold w1. by rewrite Hd.
Qed.

(** Unloading: with no file open and no buffer exported,
    [kbuf_ctl_unregister] gets through its loop, tears down whatever devices
    the user left behind, and gives back everything they held and the control
    node. *)
Theorem unregister_drains os k s' misc :
  k_ida k = ∅ -> k_held k !! misc = Some RkMisc ->
  lruns base_devno ndevices dev_index os (fresh_sys k) = Done s' ->
  l_tearing s' = [] -> l_files s' = ∅ -> l_bufs s' = ∅ ->
  exists w', kbuf_ctl_unregister misc (l_w s') = Done (true, w') /\
    c_heap w' = ∅ /\ c_list w' = [] /\ k_ida (c_kern w') = ∅ /\
    k_held (c_kern w') = delete misc (k_held k).
Proof.
  intros Hida Hm Hrun Ht Hf Hb.
  pose proof (lruns_inv base_devno ndevices dev_index (k_held k) os _ s' (fresh_linv k Hida) Hrun) as Hs.
  destruct s' as [w f b t]. cbn in *. subst. by apply unregister_run.
Qed.

(** C23: [kbuf_dyn_create] either publishes a device that is an empty ring of
    the default geometry under an unused id below the maximum, holding fresh
    resources only, or returns an error having given back everything it
    took, wherever it failed. *)
Theorem create_exits w :
  (forall p d, c_heap w !! p = Some d -> k_held (c_kern w) !! p = Some RkMem) ->
  exists r w', kbuf_dyn_create base_devno ndevices dev_index w = Done (r, w') /\ create_exit w r w'.
Proof. apply kbuf_dyn_create_run. Qed.
End props.

(** ** Concrete runs *)
Definition unloaded : simkernel := SimKernel {[7 := RkMisc]} [] ∅.

Abbreviation run4 := (lruns 100 4 (fun p => p)).

(** The state a run ends in. *)
Definition after (os : list lop) (k : simkernel) : lsys simkernel :=
  match run4 os (fresh_sys k) with Done s => s | Oops _ => fresh_sys k end.

Lemma after_run os k :
  match run4 os (fresh_sys k) with Done _ => true | Oops _ => false end = true ->
  run4 os (fresh_sys k) = Done (after os k).
Proof. unfold after. by destruct (run4 os (fresh_sys k)). Qed.

(** The listed device found again by its minor. *)
Lemma open_finds_witness :
  exists w', kbuf_open 4 4 (l_w (after [LCreate; LCreate] unloaded)) = Done (inl (DynDev 8), w').
Proof.
  assert (E : minor_off <$> c_heap (l_w (after [LCreate; LCreate] unloaded)) !! 8 = Some 0) by (by vm_compute).
  apply fmap_Some in E as (d & Hd & Hm). symmetry in Hm.
  destruct (open_finds 100 4 (fun p => p) [LCreate; LCreate] unloaded (after [LCreate; LCreate] unloaded) 8 d)
    as (w' & Hrun & _); [reflexivity | apply after_run; by vm_compute
                        | apply (bool_decide_unpack _); by vm_compute | exact Hd | lia |].
  exists w'. by rewrite Hm in Hrun.
Defined.

Lemma destroy_while_open_witness :
  exists s2 w3, run4 [LUnlink 0; LTeardown 8] (after [LCreate; LOpen 4] unloaded) = Done s2 /\
    is_Some (c_heap (l_w s2) !! 8) /\ kbuf_open 4 4 (l_w s2) = Done (inr (- ENODEV), w3).
Proof.
  assert (E : minor_off <$> c_heap (l_w (after [LCreate; LOpen 4] unloaded)) !! 8 = Some 0) by (by vm_compute).
  apply fmap_Some in E as (d & Hd & Hm). symmetry in Hm.
  destruct (destroy_while_open 100 4 (fun p => p) [LCreate; LOpen 4] unloaded
              (after [LCreate; LOpen 4] unloaded) 8 d)
    as (s2 & w3 & Hrun & Hh & _ & Ho);
    [reflexivity | apply after_run; by vm_compute | apply (bool_decide_unpack _); by vm_compute
     | exact Hd | apply (bool_decide_unpack _); by vm_compute | lia |].
  rewrite Hm in *. exists s2, w3. split; [exact Hrun |]. split; [by eexists | exact Ho].
Defined.

Lemma unregister_drains_witness :
  exists w', kbuf_ctl_unregister 7 (l_w (after [LCreate; LCreate; LCreate] unloaded)) = Done (true, w') /\
    c_heap w' = ∅ /\ k_held (c_kern w') = ∅.
Proof.
  destruct (unregister_drains 100 4 (fun p => p) [LCreate; LCreate; LCreate] unloaded
              (after [LCreate; LCreate; LCreate] unloaded) 7) as (w' & Hrun & Hh & _ & _ & Hk);
    [reflexivity | reflexivity | apply after_run; by vm_compute | by vm_compute | by vm_compute
     | by vm_compute |].
  exists w'. split; [exact Hrun |]. split; [exact Hh |]. rewrite Hk. by vm_compute.
Defined.

(** The node cannot be created: the ninth acquisition and what follows. *)
Lemma create_exits_witness :
  exists r w', kbuf_dyn_create 100 4 (fun p => p)
                 (CWorld ∅ [] (SimKernel ∅ (replicate 14 0 ++ [- ENOMEM]) ∅) ∅) = Done (r, w') /\
    r = (- ENOMEM, 0) /\ k_held (c_kern w') = ∅.
Proof.
  destruct (create_exits (kk := sim_kernel) 100 4 (fun p => p)
              (CWorld ∅ [] (SimKernel ∅ (replicate 14 0 ++ [- ENOMEM]) ∅) ∅))
    as (r & w' & Hrun & Hex); [intros p d Hd; cbn in Hd; by apply lookup_empty_Some in Hd |].
  assert (Hr : r = (- ENOMEM, 0)) by (apply (ret_of_done _ r w' _ Hrun); by vm_compute).
  exists r, w'. split; [exact Hrun |]. split; [exact Hr |]. subst r.
  unfold create_exit, undone in Hex. cbn [fst snd] in Hex.
  destruct Hex as [[_ Hu] | (p & d & Hz & _)]; [apply Hu | discriminate Hz].
Defined.

(** ** Where the code falls short *)

(** Closing a device that was destroyed while open evaluates
    [dev_name(dev->dev)] on a node [device_destroy] has already released; so
    does exporting it.  Closed before the destroy, nothing goes wrong. *)
Theorem close_after_destroy_reads_freed_name :
  run4 [LCreate; LOpen 4; LUnlink 0; LTeardown 8; LClose 8] (fresh_sys unloaded) = Oops UseAfterFree /\
  run4 [LCreate; LOpen 4; LUnlink 0; LTeardown 8; LExport 8] (fresh_sys unloaded) = Oops UseAfterFree /\
  match run4 [LCreate; LOpen 4; LClose 8; LUnlink 0; LTeardown 8] (fresh_sys unloaded) with
  | Done s' => c_heap (l_w s') = ∅
  | Oops _ => False
  end.
Proof. split_and!; by vm_compute. Qed.

(** The dma-buf core keeps the [exp_name] it was given for as long as the buffer
    exists: after the device is closed and destroyed, with only the buffer
    holding it, the name points into a node that is gone. *)
Theorem exported_name_dangles :
  let s := after [LCreate; LOpen 4; LExport 8; LClose 8; LUnlink 0; LTeardown 8] unloaded in
  c_names (l_w s) !! 22 = Some 21 /\ k_held (c_kern (l_w s)) !! 22 = Some RkDmaBuf /\
  k_held (c_kern (l_w s)) !! 21 = None /\ is_Some (c_heap (l_w s) !! 8) /\
  k_held (c_kern (l_w (after [LCreate; LOpen 4; LExport 8] unloaded))) !! 21 = Some RkNode.
Proof. intros s. apply (bool_decide_unpack _). vm_compute. exact I. Qed.
