(* ===== verification/InitProps.v ===== *)
(** * InitProps: loading the module, on every exit of [kbuf_init] *)

From S2P Require Import Prelude Kernel Uapi Device Alloc Ring RingFacts Mmap Ctl CtlFacts Init InitFacts Lifetime LifetimeProps.
#[local] Open Scope Z_scope.

Section props.
Context {K : Type} {kk : Kernel K} {kl : KernelLaws K}.

(** C22: [kbuf_init] returns.  Either it reports an error and the kernel
    holds exactly what it held before, whichever of its steps failed; or it
    returns 0, every one of the [ndevices] static devices is a well-formed
    empty blocking ring with its index, and the module holds the resources
    recorded in its globals, all of them fresh. *)
Theorem init_exits ndevices base_devno (k : K) :
  exists r om k', kbuf_init ndevices base_devno k = Done (r, om, k') /\
    init_exit ndevices k r om k'.
Proof. apply kbuf_init_run. Qed.
End props.

(** ** Concrete loads *)
Definition idle_kernel : simkernel := SimKernel ∅ [] ∅.

(** The globals and the kernel after a load that returns 0. *)
Definition loaded (n base : Z) (k : simkernel) : option (kmod * simkernel) :=
  match kbuf_init n base k with Done (0, Some md, k1) => Some (md, k1) | _ => None end.

Definition globals (n base : Z) (k : simkernel) : kmod :=
  match loaded n base k with Some (md, _) => md | None => Kmod 0 0 0 [] None None 0 0 end.

Definition kernel_after (n base : Z) (k : simkernel) : simkernel :=
  match loaded n base k with Some (_, k1) => k1 | None => k end.

Lemma loaded_run n base k :
  match loaded n base k with Some _ => true | None => false end = true ->
  kbuf_init n base k = Done (0, Some (globals n base k), kernel_after n base k).
Proof.
  unfold globals, kernel_after, loaded. destruct (kbuf_init n base k) as [[[r om] k1] |]; [| done].
  destruct r; [| done | done]. by destruct om.
Qed.

(** The twenty-first kernel call fails: the second device is half made. *)
Definition failing_kernel : simkernel := SimKernel ∅ (replicate 20 0 ++ [- ENOMEM]) ∅.

Lemma init_exits_witness :
  exists k', kbuf_init 2 100 failing_kernel = Done (- ENOMEM, None, k') /\ k_held k' = ∅.
Proof.
  assert (Hc : match kbuf_init 2 100 failing_kernel with
               | Done (r, None, _) => r | _ => 0 end = - ENOMEM) by (vm_compute; reflexivity).
  destruct (init_exits (kk := sim_kernel) 2 100 failing_kernel) as (r & om & k' & Hrun & _ & Hex).
  rewrite Hrun in *. destruct om as [md |]; [discriminate Hc |]. destruct Hex as [_ Hk].
  exists k'. split; [by rewrite Hc | exact Hk].
Defined.
