(* ===== verification/RingSpec.v ===== *)
(** * RingSpec: the contract of a ring discipline, and its two implementations

    [spec_produce] and [spec_consume] are the abstract bounded FIFO of
    messages.  [RingDiscipline] is what the file operations need of a ring
    core; [blocking_ring] and [spsc_ring] are the two disciplines of
    src/kbuf_ring.c, proved to meet it. *)

From S2P Require Import Prelude Kernel Uapi Device Ring RingFacts.
#[local] Open Scope Z_scope.

Section spec.
Context {U : Type} `{UAccess U}.

(** Append the user's message, or fail without touching the queue. *)
Definition spec_produce (u : U) (a n : Z) (q : list (list byte)) : Z * list (list byte) :=
  match user_bytes u a n with
  | Some bs => (n, q ++ [bs])
  | None => (- EFAULT, q)
  end.

(** Deliver the head of the queue, cut to the reader's buffer; the rest of a
    message longer than the buffer is dropped (datagram semantics). *)
Definition spec_consume (u : U) (a n : Z) (q : list (list byte))
  : Z * U * list (list byte) :=
  match q with
  | [] => (- EAGAIN, u, q)
  | m :: q' =>
    let k := Z.min n (Z.of_nat (length m)) in
    let '(u', missed) := copy_to_user u a (take (Z.to_nat k) m) in
    if missed =? 0 then (k, u', q') else (- EFAULT, u', q)
  end.
End spec.

(** What ring traffic leaves alone: geometry, mode, and everything the ring
    core does not own. *)
Record same_config (d d' : kbuf_dev) : Prop := {
  sc_n : num_buffers d' = num_buffers d;
  sc_b : buffer_size d' = buffer_size d;
  sc_mode : mode d' = mode d;
  sc_self : self d' = self d;
  sc_mmap : mmap_ctrl d' = mmap_ctrl d /\ mmap_data d' = mmap_data d;
  sc_life : (cdevp d', devno d', dev_node d', dynamic d', minor_off d', ref d')
            = (cdevp d, devno d, dev_node d, dynamic d, minor_off d, ref d)
}.

#[export] Instance same_config_refl : Reflexive same_config.
Proof. by split. Qed.

#[export] Instance same_config_trans : Transitive same_config.
Proof.
  intros d1 d2 d3 [??? ? [??] ?] [??? ? [??] ?]. split; try congruence. split; congruence.
Qed.

(** The counters ring traffic maintains. *)
Record tally := Tally {
  ta_bytes_in : Z; ta_bytes_out : Z; ta_msgs_in : Z; ta_msgs_out : Z; ta_peak : Z
}.

Definition tally_of (d : kbuf_dev) : tally :=
  Tally (bytes_produced d) (bytes_consumed d) (msgs_produced d) (msgs_consumed d) (peak_count d).

(** A transfer that returned [r] and left [occ] messages queued. *)
Definition tally_in (r occ : Z) (t : tally) : tally :=
  if r <? 0 then t else
  Tally (u64 (ta_bytes_in t + r)) (ta_bytes_out t) (u64 (ta_msgs_in t + 1)) (ta_msgs_out t)
        (Z.max (ta_peak t) occ).

Definition tally_out (r : Z) (t : tally) : tally :=
  if r <? 0 then t else
  Tally (ta_bytes_in t) (u64 (ta_bytes_out t + r)) (ta_msgs_in t) (u64 (ta_msgs_out t + 1))
        (ta_peak t).

Record RingDiscipline (U : Type) := {
  rd_mode : Z;
  rd_empty : kbuf_dev -> bool;
  rd_full : kbuf_dev -> bool;
  rd_produce : Z -> Z -> prog (rworld U) Z;
  rd_consume : Z -> Z -> prog (rworld U) Z
}.
Arguments rd_mode {U}.
Arguments rd_empty {U}.
Arguments rd_full {U}.
Arguments rd_produce {U}.
Arguments rd_consume {U}.

Class RingLaws {U : Type} `{UAccess U} (R : RingDiscipline U) : Prop := {
  rl_empty d : dev_ok d -> mode d = rd_mode R -> rd_empty R d = true <-> dev_queue d = [];
  rl_full d : dev_ok d -> mode d = rd_mode R ->
    rd_full R d = true <-> Z.of_nat (length (dev_queue d)) = num_buffers d;
  rl_produce d u tr a n :
    dev_ok d -> mode d = rd_mode R -> rd_full R d = false -> 0 <= n <= buffer_size d ->
    exists d' ev,
      rd_produce R a n (RWorld d u tr)
        = Done ((spec_produce u a n (dev_queue d)).1, RWorld d' u (tr ++ ev)) /\
      dev_queue d' = (spec_produce u a n (dev_queue d)).2 /\
      dev_ok d' /\ same_config d d' /\
      tally_of d' = tally_in (spec_produce u a n (dev_queue d)).1
                             (Z.of_nat (length (dev_queue d'))) (tally_of d);
  rl_consume d u tr a n :
    dev_ok d -> mode d = rd_mode R -> rd_empty R d = false -> 0 <= n ->
    exists d' ev,
      rd_consume R a n (RWorld d u tr)
        = Done ((spec_consume u a n (dev_queue d)).1.1,
                RWorld d' (spec_consume u a n (dev_queue d)).1.2 (tr ++ ev)) /\
      dev_queue d' = (spec_consume u a n (dev_queue d)).2 /\
      dev_ok d' /\ same_config d d' /\
      tally_of d' = tally_out (spec_consume u a n (dev_queue d)).1.1 (tally_of d)
}.

(** ** Facts shared by the two implementations *)
Section shared.
Context {U : Type} `{UAccessLaws U}.
Implicit Types (d : kbuf_dev) (u : U).

(** The two outcomes of a copy from user space, in the terms of the spec. *)
Lemma copy_from_user_spec u a n bs missed q :
  0 <= n -> copy_from_user u a n = (bs, missed) ->
  length bs = Z.to_nat n /\
  spec_produce u a n q = if missed =? 0 then (n, q ++ [bs]) else (- EFAULT, q).
Proof.
  intros Hn Hc. pose proof (cfu_length u a n Hn) as Hl. rewrite Hc in Hl. split; [done |].
  unfold spec_produce. destruct (Z.eqb_spec missed 0) as [-> | Hm].
  - by rewrite (cfu_done u a n bs).
  - destruct (user_bytes u a n) as [bs' |] eqn:E; [| done].
    apply cfu_accessible in E; [| done]. congruence.
Qed.

(** The counters after an accepted, a delivered and a refused transfer. *)
Lemma tally_accepted d d0 n occ :
  0 <= n -> tally_of d0 = tally_of d ->
  tally_of (account_produced n (raise_peak occ d0)) = tally_in n occ (tally_of d) /\
  tally_of (raise_peak occ (account_produced n d0)) = tally_in n occ (tally_of d).
Proof.
  intros Hn Ht. unfold tally_in. rewrite (proj2 (Z.ltb_ge n 0)) by lia.
  rewrite !raise_peak_max. injection Ht as H1 H2 H3 H4 H5.
  split; unfold tally_of; cbn [ta_bytes_in ta_bytes_out ta_msgs_in ta_msgs_out ta_peak];
    rewrite <- H1, <- H2, <- H3, <- H4, <- H5; done.
Qed.

Lemma tally_delivered d d0 n :
  0 <= n -> tally_of d0 = tally_of d ->
  tally_of (account_consumed n d0) = tally_out n (tally_of d).
Proof.
  intros Hn Ht. unfold tally_out. rewrite (proj2 (Z.ltb_ge n 0)) by lia.
  injection Ht as H1 H2 H3 H4 H5. unfold tally_of; cbn.
  rewrite <- H1, <- H2, <- H3, <- H4, <- H5. done.
Qed.

Lemma tally_refused d occ :
  tally_in (- EFAULT) occ (tally_of d) = tally_of d /\ tally_out (- EFAULT) (tally_of d) = tally_of d.
Proof. done. Qed.

Lemma tally_put_slot i s d : tally_of (put_slot i s d) = tally_of d.
Proof. unfold put_slot. by destruct (slots d). Qed.

Lemma ring_produced_fields d s n :
  mode (ring_produced d s n) = mode d /\ count (ring_produced d s n) = count d + 1.
Proof.
  unfold ring_produced. destruct (put_slot_self d (write_pos d) s) as [sl ->].
  by rewrite raise_peak_max.
Qed.

Lemma spsc_produced_fields d s n :
  mode (spsc_produced d s n) = mode d /\
  prod_idx (spsc_produced d s n) = u32 (prod_idx d + 1) /\
  cons_idx (spsc_produced d s n) = cons_idx d.
Proof.
  unfold spsc_produced.
  destruct (put_slot_self d (prod_idx d mod num_buffers d) s) as [sl ->].
  by rewrite raise_peak_max.
Qed.

Lemma filled_ok bsize s bs n l :
  slot_ok bsize s -> 0 <= n <= bsize -> length bs = Z.to_nat n -> 0 <= l <= bsize ->
  slot_ok bsize (filled s bs n l).
Proof.
  intros [Hb _] Hn Hl Hlen. split; [| done]. simpl. rewrite length_app, length_drop. lia.
Qed.

Lemma filled_msg s bs n : length bs = Z.to_nat n -> slot_msg (filled s bs n n) = bs.
Proof. intros Hl. unfold slot_msg. simpl. rewrite <- Hl. apply take_app_length. Qed.

Lemma slot_msg_length bsize s : slot_ok bsize s -> Z.of_nat (length (slot_msg s)) = len s.
Proof. intros [Hb Hl]. unfold slot_msg. rewrite length_take. lia. Qed.

Lemma take_slot_msg bsize s n :
  slot_ok bsize s -> 0 <= n ->
  take (Z.to_nat (Z.min n (len s))) (kb_bytes (data s))
  = take (Z.to_nat (Z.min n (Z.of_nat (length (slot_msg s))))) (slot_msg s).
Proof.
  intros Hs Hn. rewrite (slot_msg_length bsize s Hs). unfold slot_msg.
  rewrite take_take. f_equal. lia.
Qed.

(** An aborted copy into the free slot leaves a well-formed device with the
    same queue. *)
Lemma aborted_fill d i start k s :
  dev_ok d -> slot_ok (buffer_size d) s ->
  0 <= k < num_buffers d -> i = (start + k) mod num_buffers d ->
  dev_ok (put_slot i s d) /\ same_config d (put_slot i s d) /\
  queue_window (put_slot i s d) start k = queue_window d start k /\
  exists sl, put_slot i s d = d <| slots := sl |>.
Proof.
  intros (Hg & Hr & Hst) Hs Hk Hi.
  pose proof (put_slot_geometry d i s Hg Hs) as Hg'.
  pose proof (queue_window_past d start k i s Hg Hk Hi) as Hq.
  destruct (put_slot_self d i s) as [sl Hsl]. rewrite Hsl in *.
  split_and!; [| by split | done | by eexists].
  split_and!; [done | |].
  - by apply (ring_ok_same d).
  - by destruct Hst; split.
Qed.
End shared.

(** ** The two disciplines of the driver *)
Definition blocking_ring {U} `{UAccess U} : RingDiscipline U := {|
  rd_mode := KBUF_MODE_BLOCKING;
  rd_empty := kbuf_ring_is_empty;
  rd_full := kbuf_ring_is_full;
  rd_produce := kbuf_ring_produce;
  rd_consume := kbuf_ring_consume
|}.

Definition spsc_ring {U} `{UAccess U} : RingDiscipline U := {|
  rd_mode := KBUF_MODE_SPSC;
  rd_empty := kbuf_spsc_is_empty;
  rd_full := kbuf_spsc_is_full;
  rd_produce := kbuf_spsc_produce;
  rd_consume := kbuf_spsc_consume
|}.

Section blocking.
Context {U : Type} `{UAccessLaws U}.
Implicit Types (d : kbuf_dev) (u : U).

Lemma blocking_occ d :
  dev_ok d -> mode d = KBUF_MODE_BLOCKING ->
  Z.of_nat (length (dev_queue d)) = count d /\ 0 <= count d <= num_buffers d /\
  u32 (count d) = count d.
Proof.
  intros (Hg & Hr & _) Hm. apply ring_ok_blocking in Hr as ([_ Hc _ _] & _); [| done].
  rewrite dev_queue_blocking by done. unfold blocking_queue.
  pose proof (geo_n d Hg). unfold KBUF_MAX_NUM_BUFFERS in *.
  rewrite length_queue_window, u32_small by (done || unfold in_u32; lia). lia.
Qed.

Lemma blocking_write_slot d :
  dev_ok d -> mode d = KBUF_MODE_BLOCKING ->
  blocking_ok d /\ write_pos d = (read_pos d + count d) mod num_buffers d /\
  exists s, slot_at d (write_pos d) = Some s /\ slot_ok (buffer_size d) s.
Proof.
  intros (Hg & Hr & _) Hm. apply ring_ok_blocking in Hr as (Hb & _); [| done].
  pose proof Hb as [_ _ Hwp _]. split_and!; [done | done |]. apply slot_at_ok; [done |].
  rewrite Hwp. pose proof (geo_n d Hg). by apply Z.mod_pos_bound; lia.
Qed.

Lemma blocking_produce_spec d u tr a n :
  dev_ok d -> mode d = KBUF_MODE_BLOCKING -> count d < num_buffers d ->
  0 <= n <= buffer_size d ->
  exists d' ev,
    kbuf_ring_produce a n (RWorld d u tr)
      = Done ((spec_produce u a n (dev_queue d)).1, RWorld d' u (tr ++ ev)) /\
    dev_queue d' = (spec_produce u a n (dev_queue d)).2 /\
    dev_ok d' /\ same_config d d' /\
    tally_of d' = tally_in (spec_produce u a n (dev_queue d)).1
                           (Z.of_nat (length (dev_queue d'))) (tally_of d).
Proof.
  intros Hok Hm Hfull Hn. pose proof Hok as (Hg & _ & _).
  destruct (blocking_occ d Hok Hm) as (_ & Hc & _).
  destruct (blocking_write_slot d Hok Hm) as (Hb & Hwp & s & Hs & Hso).
  destruct (copy_from_user u a n) as [bs missed] eqn:Hcopy.
  destruct (copy_from_user_spec u a n bs missed (dev_queue d)) as [Hbl Hsp]; [lia | done |].
  rewrite (kbuf_ring_produce_run d u tr s a n bs missed) by (done || lia). rewrite Hsp.
  destruct (missed =? 0); cbn [fst snd].
  - destruct (ring_produced_ok d (filled s bs n n) n Hok Hm Hfull) as [Hok' Hq].
    { by apply filled_ok. }
    destruct (ring_produced_fields d (filled s bs n n) n) as [Hm' Hc'].
    destruct (blocking_occ _ Hok') as (Hocc & _); [congruence |].
    eexists _, _. split; [done |]. rewrite filled_msg in Hq by done. split_and!; [done | done | |].
    + unfold ring_produced. destruct (put_slot_self d (write_pos d) (filled s bs n n)) as [sl ->].
      rewrite raise_peak_max. by split.
    + rewrite Hocc, Hc'. apply tally_accepted; [lia |].
      by rewrite <- (tally_put_slot (write_pos d) (filled s bs n n) d).
  - destruct Hso as [Hsl Hsb].
    destruct (aborted_fill d (write_pos d) (read_pos d) (count d) (filled s bs n (len s)))
      as (Hok' & Hsame & Hq & sl & Hsl'); [done | by apply filled_ok | lia | done |].
    exists (put_slot (write_pos d) (filled s bs n (len s)) d), []. rewrite app_nil_r.
    split_and!; [done | | done | done | by rewrite tally_put_slot].
    pose proof (sc_mode _ _ Hsame) as Hm'. rewrite !dev_queue_blocking by congruence. unfold blocking_queue. rewrite <- Hq.
    by rewrite Hsl'.
Qed.

Lemma blocking_consume_spec d u tr a n :
  dev_ok d -> mode d = KBUF_MODE_BLOCKING -> 0 < count d -> 0 <= n ->
  exists d' ev,
    kbuf_ring_consume a n (RWorld d u tr)
      = Done ((spec_consume u a n (dev_queue d)).1.1,
              RWorld d' (spec_consume u a n (dev_queue d)).1.2 (tr ++ ev)) /\
    dev_queue d' = (spec_consume u a n (dev_queue d)).2 /\
    dev_ok d' /\ same_config d d' /\
    tally_of d' = tally_out (spec_consume u a n (dev_queue d)).1.1 (tally_of d).
Proof.
  intros Hok Hm Hne Hn. pose proof Hok as (Hg & Hr & _).
  apply ring_ok_blocking in Hr as (Hb & _); [| done].
  destruct (slot_at_ok d (read_pos d) Hg (blk_rp d Hb)) as (s & Hs & Hso).
  destruct (ring_consumed_ok d s (Z.min n (len s)) Hok Hm Hne Hs) as [Hok' Hq].
  rewrite Hq. unfold spec_consume.
  rewrite <- (take_slot_msg _ s n Hso Hn), (slot_msg_length _ s Hso).
  destruct (copy_to_user u a _) as [u' missed] eqn:Hcopy.
  rewrite (kbuf_ring_consume_run d u tr s a n u' missed) by done.
  destruct (missed =? 0); cbn [fst snd].
  - eexists _, _. split; [done |]. split_and!; [done | done | done |].
    apply tally_delivered; [destruct Hso; lia | done].
  - exists d, []. rewrite app_nil_r. by split_and!.
Qed.

#[export] Instance blocking_ring_laws : RingLaws (U := U) blocking_ring.
Proof.
  split; cbn [rd_mode rd_empty rd_full rd_produce rd_consume blocking_ring].
  - intros d Hok Hm. destruct (blocking_occ d Hok Hm) as (Hl & Hc & _).
    unfold kbuf_ring_is_empty. rewrite Z.eqb_eq, <- length_zero_iff_nil. lia.
  - intros d Hok Hm. destruct (blocking_occ d Hok Hm) as (Hl & Hc & Hu).
    unfold kbuf_ring_is_full. rewrite Hu, Z.eqb_eq. lia.
  - intros d u tr a n Hok Hm Hf Hn. destruct (blocking_occ d Hok Hm) as (Hl & Hc & Hu).
    unfold kbuf_ring_is_full in Hf. rewrite Hu in Hf.
    apply blocking_produce_spec; [done | done | lia | done].
  - intros d u tr a n Hok Hm Hf Hn. destruct (blocking_occ d Hok Hm) as (Hl & Hc & Hu).
    unfold kbuf_ring_is_empty in Hf. apply blocking_consume_spec; [done | done | lia | done].
Qed.
End blocking.

Section spsc.
Context {U : Type} `{UAccessLaws U}.
Implicit Types (d : kbuf_dev) (u : U).

Lemma spsc_occ d :
  dev_ok d -> mode d = KBUF_MODE_SPSC ->
  Z.of_nat (length (dev_queue d)) = u32 (prod_idx d - cons_idx d) /\
  u32 (prod_idx d - cons_idx d) <= num_buffers d /\ spsc_ok d.
Proof.
  intros (Hg & Hr & _) Hm. apply ring_ok_spsc in Hr as (Hs & _); [| done].
  rewrite dev_queue_spsc by done. unfold spsc_queue.
  pose proof (u32_range (prod_idx d - cons_idx d)) as [Hlo _].
  rewrite length_queue_window by done. by destruct Hs.
Qed.

Lemma spsc_empty_iff d :
  dev_ok d -> mode d = KBUF_MODE_SPSC ->
  prod_idx d = cons_idx d <-> u32 (prod_idx d - cons_idx d) = 0.
Proof.
  intros Hok Hm. destruct (spsc_occ d Hok Hm) as (_ & _ & [_ Hp Hc _]).
  unfold in_u32 in *. split; [intros ->; by rewrite Z.sub_diag |].
  intros E. apply Z.mod_divide in E as [q Hq]; lia.
Qed.

Lemma spsc_slot d i :
  dev_ok d -> exists s, slot_at d (i mod num_buffers d) = Some s /\ slot_ok (buffer_size d) s.
Proof.
  intros (Hg & _). apply slot_at_ok; [done |]. pose proof (geo_n d Hg).
  by apply Z.mod_pos_bound; lia.
Qed.

Lemma spsc_produce_spec d u tr a n :
  dev_ok d -> mode d = KBUF_MODE_SPSC -> u32 (prod_idx d - cons_idx d) < num_buffers d ->
  0 <= n <= buffer_size d ->
  exists d' ev,
    kbuf_spsc_produce a n (RWorld d u tr)
      = Done ((spec_produce u a n (dev_queue d)).1, RWorld d' u (tr ++ ev)) /\
    dev_queue d' = (spec_produce u a n (dev_queue d)).2 /\
    dev_ok d' /\ same_config d d' /\
    tally_of d' = tally_in (spec_produce u a n (dev_queue d)).1
                           (Z.of_nat (length (dev_queue d'))) (tally_of d).
Proof.
  intros Hok Hm Hfull Hn. pose proof Hok as (Hg & _ & _).
  destruct (spsc_occ d Hok Hm) as (_ & _ & Hsp).
  destruct (spsc_slot d (prod_idx d) Hok) as (s & Hs & Hso).
  destruct (copy_from_user u a n) as [bs missed] eqn:Hcopy.
  destruct (copy_from_user_spec u a n bs missed (dev_queue d)) as [Hbl Hsc]; [lia | done |].
  rewrite (kbuf_spsc_produce_run d u tr s a n bs missed) by (done || lia). rewrite Hsc.
  destruct (missed =? 0); cbn [fst snd].
  - destruct (spsc_produced_ok d (filled s bs n n) n Hok Hm Hfull) as [Hok' Hq].
    { by apply filled_ok. }
    destruct (spsc_produced_fields d (filled s bs n n) n) as (Hm' & Hp' & Hc').
    destruct (spsc_occ _ Hok') as (Hocc & _); [congruence |].
    eexists _, _. split; [done |]. rewrite filled_msg in Hq by done. split_and!; [done | done | |].
    + unfold spsc_produced.
      destruct (put_slot_self d (prod_idx d mod num_buffers d) (filled s bs n n)) as [sl ->].
      rewrite raise_peak_max. by split.
    + rewrite Hocc, Hp', Hc'. unfold u32 at 1 2. rewrite Zminus_mod_idemp_l. fold (u32 (prod_idx d + 1 - cons_idx d)). apply tally_accepted; [lia |].
      by rewrite <- (tally_put_slot (prod_idx d mod num_buffers d) (filled s bs n n) d).
  - pose proof (u32_range (prod_idx d - cons_idx d)) as [Hlo _]. destruct Hso as [Hsl Hsb].
    destruct (aborted_fill d (prod_idx d mod num_buffers d) (cons_idx d)
                (u32 (prod_idx d - cons_idx d)) (filled s bs n (len s)))
      as (Hok' & Hsame & Hq & sl & Hsl');
      [done | by apply filled_ok | lia | by apply spsc_prod_slot; destruct Hg, Hsp |].
    exists (put_slot (prod_idx d mod num_buffers d) (filled s bs n (len s)) d), [].
    rewrite app_nil_r. split_and!; [done | | done | done | by rewrite tally_put_slot].
    pose proof (sc_mode _ _ Hsame) as Hm'.
    rewrite !dev_queue_spsc by congruence. unfold spsc_queue. rewrite <- Hq. by rewrite Hsl'.
Qed.

Lemma spsc_consume_spec d u tr a n :
  dev_ok d -> mode d = KBUF_MODE_SPSC -> prod_idx d <> cons_idx d -> 0 <= n ->
  exists d' ev,
    kbuf_spsc_consume a n (RWorld d u tr)
      = Done ((spec_consume u a n (dev_queue d)).1.1,
              RWorld d' (spec_consume u a n (dev_queue d)).1.2 (tr ++ ev)) /\
    dev_queue d' = (spec_consume u a n (dev_queue d)).2 /\
    dev_ok d' /\ same_config d d' /\
    tally_of d' = tally_out (spec_consume u a n (dev_queue d)).1.1 (tally_of d).
Proof.
  intros Hok Hm Hne Hn. pose proof Hok as (Hg & _ & _).
  destruct (spsc_occ d Hok Hm) as (_ & _ & Hsp).
  destruct (spsc_slot d (cons_idx d) Hok) as (s & Hs & Hso).
  destruct (spsc_consumed_ok d s (Z.min n (len s)) Hok Hm Hne Hs) as [Hok' Hq].
  rewrite Hq. unfold spec_consume.
  rewrite <- (take_slot_msg _ s n Hso Hn), (slot_msg_length _ s Hso).
  destruct (copy_to_user u a _) as [u' missed] eqn:Hcopy.
  rewrite (kbuf_spsc_consume_run d u tr s a n u' missed) by done.
  destruct (missed =? 0); cbn [fst snd].
  - eexists _, _. split; [done |]. split_and!; [done | done | done |].
    apply tally_delivered; [destruct Hso; lia | done].
  - exists d, []. rewrite app_nil_r. by split_and!.
Qed.

#[export] Instance spsc_ring_laws : RingLaws (U := U) spsc_ring.
Proof.
  split; cbn [rd_mode rd_empty rd_full rd_produce rd_consume spsc_ring].
  - intros d Hok Hm. destruct (spsc_occ d Hok Hm) as (Hl & _).
    unfold kbuf_spsc_is_empty. rewrite Z.eqb_eq, spsc_empty_iff by done.
    rewrite <- length_zero_iff_nil. lia.
  - intros d Hok Hm. destruct (spsc_occ d Hok Hm) as (Hl & Hc & _).
    unfold kbuf_spsc_is_full. rewrite Z.geb_le. lia.
  - intros d u tr a n Hok Hm Hf Hn. unfold kbuf_spsc_is_full in Hf.
    apply spsc_produce_spec; [done | done | lia | done].
  - intros d u tr a n Hok Hm Hf Hn. unfold kbuf_spsc_is_empty in Hf.
    apply spsc_consume_spec; [done | done | lia | done].
Qed.
End spsc.
