(* ===== verification/Samples.v ===== *)
(** * Samples: concrete devices and memories

    Small well-formed devices in both modes and a user address space, on which
    the theorems of the other files are exercised. *)

From S2P Require Import Prelude Kernel Uapi Device Ring RingFacts RingSpec.
#[local] Open Scope Z_scope.

Definition demo_slot (p : Z) (bs : list byte) (l : Z) : kbuf_slot := KbufSlot (KBuffer p bs) l.

Definition demo_dev : kbuf_dev :=
  zero_dev <| slots := Some (SlotArray 10 [demo_slot 11 [x00; x00; x00; x00] 0;
                                           demo_slot 12 [x00; x00; x00; x00] 0]) |>
           <| num_buffers := 2 |> <| buffer_size := 4 |>.

Lemma zero_counters_ok d :
  bytes_produced d = 0 -> bytes_consumed d = 0 -> msgs_produced d = 0 -> msgs_consumed d = 0 ->
  read_sleeps d = 0 -> write_sleeps d = 0 -> 0 <= peak_count d <= num_buffers d -> stats_ok d.
Proof.
  intros H1 H2 H3 H4 H5 H6 Hp. split; [done |]. rewrite H1, H2, H3, H4, H5, H6.
  repeat first [apply List.Forall_nil | apply List.Forall_cons]; by unfold in_u64.
Qed.

(** Well-formedness of a concrete device. *)
Ltac sample_ok :=
  split_and!;
    [ split; [done | done |]; eexists; split; [done |]; split; [done |];
      repeat first [apply List.Forall_nil | apply List.Forall_cons]; by split
    | first [ apply ring_ok_blocking; [done |]; split; [| done]; by split
            | apply ring_ok_spsc; [done |]; split; [| done]; by split ]
    | by apply zero_counters_ok ].

Lemma demo_dev_ok : dev_ok demo_dev.
Proof. sample_ok. Qed.

(** One four-byte slot, full. *)
Definition full_dev : kbuf_dev :=
  zero_dev <| slots := Some (SlotArray 10 [demo_slot 11 [x31; x32; x33; x34] 4]) |>
           <| num_buffers := 1 |> <| buffer_size := 4 |> <| count := 1 |> <| peak_count := 1 |>.

Lemma full_dev_ok : dev_ok full_dev.
Proof. sample_ok. Qed.

(** Two four-byte slots in SPSC mode holding one message, with both indices
    about to wrap at the word size. *)
Definition spsc_dev : kbuf_dev :=
  demo_dev <| slots := Some (SlotArray 10 [demo_slot 11 [x00; x00; x00; x00] 0;
                                           demo_slot 12 [x31; x32; x33; x34] 3]) |>
           <| mode := KBUF_MODE_SPSC |> <| prod_idx := 0 |> <| cons_idx := 4294967295 |>.

Lemma spsc_dev_ok : dev_ok spsc_dev.
Proof. sample_ok. Qed.

(** The same content in blocking mode. *)
Definition block_dev : kbuf_dev :=
  spsc_dev <| mode := KBUF_MODE_BLOCKING |> <| prod_idx := 0 |> <| cons_idx := 0 |>
           <| read_pos := 1 |> <| write_pos := 0 |> <| count := 1 |> <| peak_count := 1 |>.

Lemma block_dev_ok : dev_ok block_dev.
Proof. sample_ok. Qed.

Definition demo_user : simuser := sim_put ∅ 100 [x61; x62; x63; x64; x65; x66].
