(* ===== verification/RingProps.v ===== *)
(** * RingProps: what the two ring disciplines guarantee

    The refinement of every ring operation of src/kbuf_ring.c against the
    abstract FIFO, and, for sequences of non-blocking reads and writes, the
    equivalence of the blocking and the lock-free discipline and the accounting
    of the counters.  The sequences are proved once, against [RingLaws]. *)

From S2P Require Import Prelude Kernel Uapi Device Ring RingFacts RingSpec Samples.
#[local] Open Scope Z_scope.

(** ** Sequences of non-blocking calls *)
Inductive rop : Set :=
  | RWrite (ubuf n : Z)
  | RRead (ubuf n : Z).

Section ops.
Context {U : Type} {ua : UAccess U}.
Implicit Types (q : list (list byte)).

(** An O_NONBLOCK call: the fast path of [kbuf_write_spsc] and
    [kbuf_read_spsc], and of their blocking counterparts under the lock. *)
Definition ring_op (R : RingDiscipline U) (o : rop) : prog (rworld U) Z :=
  w <-- p_get ;;
  let d := w_dev w in
  match o with
  | RWrite a n =>
    let n := if n >? buffer_size d then buffer_size d else n in
    if rd_full R d then p_ret (- EAGAIN) else rd_produce R a n
  | RRead a n => if rd_empty R d then p_ret (- EAGAIN) else rd_consume R a n
  end.

Fixpoint ring_ops (R : RingDiscipline U) (os : list rop) : prog (rworld U) (list Z) :=
  match os with
  | [] => p_ret []
  | o :: os' => r <-- ring_op R o ;; rs <-- ring_ops R os' ;; p_ret (r :: rs)
  end.

(** The same calls on a bounded FIFO of [cap] messages of [bsize] bytes. *)
Definition spec_op (cap bsize : Z) (o : rop) (u : U) q : Z * U * list (list byte) :=
  match o with
  | RWrite a n =>
    if Z.of_nat (length q) =? cap then (- EAGAIN, u, q)
    else let '(r, q') := spec_produce u a (Z.min n bsize) q in (r, u, q')
  | RRead a n => match q with [] => (- EAGAIN, u, q) | _ => spec_consume u a n q end
  end.

Fixpoint spec_ops (cap bsize : Z) (os : list rop) (u : U) q : list Z * U * list (list byte) :=
  match os with
  | [] => ([], u, q)
  | o :: os' =>
    let '(r, u1, q1) := spec_op cap bsize o u q in
    let '(rs, u2, q2) := spec_ops cap bsize os' u1 q1 in
    (r :: rs, u2, q2)
  end.

Definition tally_op (o : rop) (r occ : Z) (t : tally) : tally :=
  match o with RWrite _ _ => tally_in r occ t | RRead _ _ => tally_out r t end.

(** The counters the abstract FIFO predicts. *)
Fixpoint tally_ops (cap bsize : Z) (os : list rop) (u : U) q (t : tally) : tally :=
  match os with
  | [] => t
  | o :: os' =>
    let '(r, u1, q1) := spec_op cap bsize o u q in
    tally_ops cap bsize os' u1 q1 (tally_op o r (Z.of_nat (length q1)) t)
  end.

Definition rop_ok (o : rop) : Prop := match o with RWrite _ n | RRead _ n => 0 <= n end.
End ops.

Section generic.
Context {U : Type} {ua : UAccess U} {R : RingDiscipline U} {laws : RingLaws R}.
Implicit Types (d : kbuf_dev) (u : U).

Lemma ring_op_refines o d u tr :
  dev_ok d -> mode d = rd_mode R -> rop_ok o ->
  let '(r, u', q') := spec_op (num_buffers d) (buffer_size d) o u (dev_queue d) in
  exists d' tr', ring_op R o (RWorld d u tr) = Done (r, RWorld d' u' tr') /\
    dev_queue d' = q' /\ dev_ok d' /\ same_config d d' /\
    tally_of d' = tally_op o r (Z.of_nat (length q')) (tally_of d).
Proof.
  intros Hok Hm Hn. unfold ring_op, p_get, p_bind. cbn [exec_bind w_dev].
  pose proof (geo_b d (proj1 Hok)) as Hb. destruct o as [a n | a n]; cbn [rop_ok] in Hn.
  - pose proof (rl_full d Hok Hm) as Hf. unfold spec_op.
    destruct (Z.eqb_spec (Z.of_nat (length (dev_queue d))) (num_buffers d)) as [E | E].
    { rewrite (proj2 Hf E). exists d, tr. by split_and!. }
    destruct (rd_full R d) eqn:Ef; [by destruct E; apply Hf |].
    replace (if n >? buffer_size d then buffer_size d else n) with (Z.min n (buffer_size d))
      by (destruct (Z.gtb_spec n (buffer_size d)); lia).
    destruct (rl_produce d u tr a (Z.min n (buffer_size d)) Hok Hm Ef)
      as (d' & ev & Hrun & Hq & Hok' & Hsc & Ht); [lia |].
    destruct (spec_produce _ _ _ _) as [r q']. cbn [fst snd] in *. eexists _, _.
    split; [done |]. split_and!; try done. unfold tally_op. by rewrite <- Hq.
  - pose proof (rl_empty d Hok Hm) as He. unfold spec_op.
    destruct (dev_queue d) as [| m q] eqn:Eq.
    { rewrite (proj2 He eq_refl). exists d, tr. by split_and!. }
    destruct (rd_empty R d) eqn:Ee; [by discriminate (proj1 He eq_refl) |].
    destruct (rl_consume d u tr a n Hok Hm Ee Hn) as (d' & ev & Hrun & Hq & Hok' & Hsc & Ht).
    rewrite Eq in *. destruct (spec_consume u a n (m :: q)) as [[r u'] q']. cbn [fst snd] in *.
    eexists _, _. split; [done |]. by split_and!.
Qed.

Lemma ring_ops_refines os d u tr :
  dev_ok d -> mode d = rd_mode R -> Forall rop_ok os ->
  let '(rs, u', q') := spec_ops (num_buffers d) (buffer_size d) os u (dev_queue d) in
  exists d' tr', ring_ops R os (RWorld d u tr) = Done (rs, RWorld d' u' tr') /\
    dev_queue d' = q' /\ dev_ok d' /\ same_config d d' /\
    tally_of d' = tally_ops (num_buffers d) (buffer_size d) os u (dev_queue d) (tally_of d).
Proof.
  revert d u tr. induction os as [| o os IH]; intros d u tr Hok Hm Hall.
  { exists d, tr. by split_and!. }
  apply Forall_cons in Hall as [Ho Hall]. cbn [spec_ops tally_ops ring_ops].
  pose proof (ring_op_refines o d u tr Hok Hm Ho) as H1.
  destruct (spec_op _ _ o u (dev_queue d)) as [[r u1] q1].
  destruct H1 as (d1 & tr1 & Hrun1 & <- & Hok1 & Hsc1 & Ht1).
  specialize (IH d1 u1 tr1 Hok1 ltac:(by rewrite (sc_mode _ _ Hsc1)) Hall).
  rewrite (sc_n _ _ Hsc1), (sc_b _ _ Hsc1) in IH.
  destruct (spec_ops _ _ os u1 (dev_queue d1)) as [[rs u2] q2].
  destruct IH as (d2 & tr2 & Hrun2 & Hq2 & Hok2 & Hsc2 & Ht2).
  exists d2, tr2. split.
  { unfold p_bind. rewrite Hrun1. cbn [exec_bind]. by rewrite Hrun2. }
  split_and!; try done; [by etrans |]. by rewrite Ht2, Ht1.
Qed.
End generic.

(** Accepted minus delivered messages tracks the queue length. *)
Definition in_flight (t : tally) : Z := u64 (ta_msgs_in t - ta_msgs_out t).

Lemma u64_add_l x y : u64 (u64 x + y) = u64 (x + y).
Proof. apply Zplus_mod_idemp_l. Qed.

Lemma u64_sub_r x y : u64 (x - u64 y) = u64 (x - y).
Proof. apply Zminus_mod_idemp_r. Qed.

Lemma in_flight_sub t n : u64 (in_flight t - n) = u64 (ta_msgs_in t - ta_msgs_out t - n).
Proof. apply Zminus_mod_idemp_l. Qed.

Section conservation.
Context {U : Type} {ua : UAccess U}.
Implicit Types (u : U) (q : list (list byte)).

Lemma tally_op_conserves cap bsize o u q t :
  0 <= bsize -> rop_ok o ->
  let '(r, u', q') := spec_op cap bsize o u q in
  u64 (in_flight (tally_op o r (Z.of_nat (length q')) t) - Z.of_nat (length q'))
  = u64 (in_flight t - Z.of_nat (length q)).
Proof.
  intros Hb Ho. destruct (spec_op cap bsize o u q) as [[r u'] q'] eqn:E. rewrite !in_flight_sub.
  revert E.
  destruct o as [a n | a n]; cbn [spec_op rop_ok tally_op] in *.
  - destruct (_ =? cap); [by intros [= <- <- <-] |]. unfold spec_produce.
    destruct (user_bytes u a (Z.min n bsize)); intros [= <- <- <-]; [| done]. unfold tally_in.
    rewrite (proj2 (Z.ltb_ge _ 0)) by lia. cbn [ta_msgs_in ta_msgs_out].
    rewrite length_app. cbn [length]. rewrite <- Z.sub_add_distr. unfold Z.sub at 1.
    rewrite u64_add_l. f_equal. lia.
  - destruct q as [| m q]; [by intros [= <- <- <-] |]. unfold spec_consume.
    destruct (copy_to_user _ _ _) as [u1 missed].
    destruct (missed =? 0); intros [= <- <- <-]; [| done].
    unfold tally_out. rewrite (proj2 (Z.ltb_ge _ 0)) by lia. cbn [ta_msgs_in ta_msgs_out length].
    replace (ta_msgs_in t - u64 (ta_msgs_out t + 1) - Z.of_nat (length q))
      with (ta_msgs_in t - Z.of_nat (length q) - u64 (ta_msgs_out t + 1)) by lia.
    rewrite u64_sub_r. f_equal. lia.
Qed.

Lemma tally_ops_conserves cap bsize os u q t :
  0 <= bsize -> Forall rop_ok os ->
  let '(rs, u', q') := spec_ops cap bsize os u q in
  u64 (in_flight (tally_ops cap bsize os u q t) - Z.of_nat (length q'))
  = u64 (in_flight t - Z.of_nat (length q)).
Proof.
  intros Hb. revert u q t. induction os as [| o os IH]; intros u q t Hall; [done |].
  apply Forall_cons in Hall as [Ho Hall]. cbn [spec_ops tally_ops].
  pose proof (tally_op_conserves cap bsize o u q t Hb Ho) as H1.
  destruct (spec_op cap bsize o u q) as [[r u1] q1].
  specialize (IH u1 q1 (tally_op o r (Z.of_nat (length q1)) t) Hall).
  destruct (spec_ops cap bsize os u1 q1) as [[rs u2] q2]. congruence.
Qed.
End conservation.

(** ** The properties *)
Section props.
Context {U : Type} {ua : UAccess U} {ual : UAccessLaws U}.
Implicit Types (d : kbuf_dev) (u : U).

(** C15: [kbuf_ring_produce] on a ring that is not full appends exactly the
    user's bytes to the queue and returns their number, or returns -EFAULT and
    leaves the queue alone when the user memory is not readable; the device
    stays well-formed, every access is in bounds, and the counters and the
    high-water mark move with the queue. *)
Theorem ring_produce_refines d u tr a n :
  dev_ok d -> mode d = KBUF_MODE_BLOCKING -> kbuf_ring_is_full d = false ->
  0 <= n <= buffer_size d ->
  exists d' ev,
    kbuf_ring_produce a n (RWorld d u tr)
      = Done ((spec_produce u a n (dev_queue d)).1, RWorld d' u (tr ++ ev)) /\
    dev_queue d' = (spec_produce u a n (dev_queue d)).2 /\
    dev_ok d' /\ same_config d d' /\
    tally_of d' = tally_in (spec_produce u a n (dev_queue d)).1
                           (Z.of_nat (length (dev_queue d'))) (tally_of d).
Proof. exact (rl_produce (R := blocking_ring) d u tr a n). Qed.

(** C16: [kbuf_ring_consume] on a ring that is not empty delivers the oldest
    message, cut to the reader's buffer, and removes it, or returns -EFAULT
    and keeps it when the user memory is not writable. *)
Theorem ring_consume_refines d u tr a n :
  dev_ok d -> mode d = KBUF_MODE_BLOCKING -> kbuf_ring_is_empty d = false -> 0 <= n ->
  exists d' ev,
    kbuf_ring_consume a n (RWorld d u tr)
      = Done ((spec_consume u a n (dev_queue d)).1.1,
              RWorld d' (spec_consume u a n (dev_queue d)).1.2 (tr ++ ev)) /\
    dev_queue d' = (spec_consume u a n (dev_queue d)).2 /\
    dev_ok d' /\ same_config d d' /\
    tally_of d' = tally_out (spec_consume u a n (dev_queue d)).1.1 (tally_of d).
Proof. exact (rl_consume (R := blocking_ring) d u tr a n). Qed.

(** C13: the lock-free [kbuf_spsc_produce] meets the same contract, for every
    value of the free-running 32-bit indices, wrap-around included. *)
Theorem spsc_produce_refines d u tr a n :
  dev_ok d -> mode d = KBUF_MODE_SPSC -> kbuf_spsc_is_full d = false ->
  0 <= n <= buffer_size d ->
  exists d' ev,
    kbuf_spsc_produce a n (RWorld d u tr)
      = Done ((spec_produce u a n (dev_queue d)).1, RWorld d' u (tr ++ ev)) /\
    dev_queue d' = (spec_produce u a n (dev_queue d)).2 /\
    dev_ok d' /\ same_config d d' /\
    tally_of d' = tally_in (spec_produce u a n (dev_queue d)).1
                           (Z.of_nat (length (dev_queue d'))) (tally_of d).
Proof. exact (rl_produce (R := spsc_ring) d u tr a n). Qed.

(** C14: the lock-free [kbuf_spsc_consume] meets the same contract. *)
Theorem spsc_consume_refines d u tr a n :
  dev_ok d -> mode d = KBUF_MODE_SPSC -> kbuf_spsc_is_empty d = false -> 0 <= n ->
  exists d' ev,
    kbuf_spsc_consume a n (RWorld d u tr)
      = Done ((spec_consume u a n (dev_queue d)).1.1,
              RWorld d' (spec_consume u a n (dev_queue d)).1.2 (tr ++ ev)) /\
    dev_queue d' = (spec_consume u a n (dev_queue d)).2 /\
    dev_ok d' /\ same_config d d' /\
    tally_of d' = tally_out (spec_consume u a n (dev_queue d)).1.1 (tally_of d).
Proof. exact (rl_consume (R := spsc_ring) d u tr a n). Qed.

(** C17: for a caller that does not race, the two modes cannot be told apart:
    any sequence of non-blocking reads and writes on a blocking and on an SPSC
    device of the same geometry and content returns the same values, leaves
    the same user memory and the same queue, namely those of a bounded
    FIFO. *)
Theorem modes_equivalent os d1 d2 u tr1 tr2 :
  dev_ok d1 -> mode d1 = KBUF_MODE_BLOCKING -> dev_ok d2 -> mode d2 = KBUF_MODE_SPSC ->
  num_buffers d1 = num_buffers d2 -> buffer_size d1 = buffer_size d2 ->
  dev_queue d1 = dev_queue d2 -> Forall rop_ok os ->
  let '(rs, u', q') := spec_ops (num_buffers d1) (buffer_size d1) os u (dev_queue d1) in
  exists d1' d2' tr1' tr2',
    ring_ops blocking_ring os (RWorld d1 u tr1) = Done (rs, RWorld d1' u' tr1') /\
    ring_ops spsc_ring os (RWorld d2 u tr2) = Done (rs, RWorld d2' u' tr2') /\
    dev_queue d1' = q' /\ dev_queue d2' = q'.
Proof.
  intros Hok1 Hm1 Hok2 Hm2 Hn Hb Hq Hall.
  pose proof (ring_ops_refines (R := blocking_ring) os d1 u tr1 Hok1 Hm1 Hall) as H1.
  pose proof (ring_ops_refines (R := spsc_ring) os d2 u tr2 Hok2 Hm2 Hall) as H2.
  rewrite <- Hn, <- Hb, <- Hq in H2.
  destruct (spec_ops _ _ os u (dev_queue d1)) as [[rs u'] q'].
  destruct H1 as (d1' & tr1' & Hr1 & Hq1 & _), H2 as (d2' & tr2' & Hr2 & Hq2 & _).
  by exists d1', d2', tr1', tr2'.
Qed.

(** The counters are exact: over any sequence of non-blocking calls, in
    either mode, bytes, messages and peak are those the abstract FIFO predicts
    call by call, and accepted minus delivered messages moves with the queue
    length (in 64-bit arithmetic). *)
Theorem counters_conserved os d u tr :
  dev_ok d -> mode d = KBUF_MODE_BLOCKING \/ mode d = KBUF_MODE_SPSC -> Forall rop_ok os ->
  let R := if mode d =? KBUF_MODE_SPSC then spsc_ring else blocking_ring in
  exists rs d' u' tr', ring_ops R os (RWorld d u tr) = Done (rs, RWorld d' u' tr') /\
    tally_of d' = tally_ops (num_buffers d) (buffer_size d) os u (dev_queue d) (tally_of d) /\
    u64 (msgs_produced d' - msgs_consumed d' - Z.of_nat (length (dev_queue d')))
    = u64 (msgs_produced d - msgs_consumed d - Z.of_nat (length (dev_queue d))).
Proof.
  intros Hok Hm Hall. pose proof (geo_b d (proj1 Hok)) as Hb.
  pose proof (tally_ops_conserves (num_buffers d) (buffer_size d) os u (dev_queue d) (tally_of d)
                ltac:(lia) Hall) as Hc.
  assert (Hrun : let R := if mode d =? KBUF_MODE_SPSC then spsc_ring else blocking_ring in
    let '(rs, u', q') := spec_ops (num_buffers d) (buffer_size d) os u (dev_queue d) in
    exists d' tr', ring_ops R os (RWorld d u tr) = Done (rs, RWorld d' u' tr') /\
      dev_queue d' = q' /\ dev_ok d' /\ same_config d d' /\
      tally_of d' = tally_ops (num_buffers d) (buffer_size d) os u (dev_queue d) (tally_of d)).
  { destruct Hm as [Hm | Hm]; rewrite Hm; by apply ring_ops_refines. }
  cbv zeta in *. destruct (spec_ops _ _ os u (dev_queue d)) as [[rs u'] q'].
  destruct Hrun as (d' & tr' & Hrun & <- & _ & _ & Ht). exists rs, d', u', tr'.
  split; [done |]. split; [done |]. rewrite <- Ht, !in_flight_sub in Hc. exact Hc.
Qed.
End props.

(** ** Concrete runs *)

(** Wraps [write_pos] to slot 1. *)
Lemma ring_produce_refines_witness :
  exists d', kbuf_ring_produce 101 3 (RWorld block_dev demo_user [])
             = Done (3, RWorld d' demo_user [kbuf_produce 0 3 2]) /\
             dev_queue d' = [[x31; x32; x33]; [x62; x63; x64]] /\ dev_ok d'.
Proof.
  destruct (ring_produce_refines block_dev demo_user [] 101 3 block_dev_ok eq_refl eq_refl)
    as (d' & ev & Hrun & Hq & Hok & _); [by vm_compute |].
  exists d'. split_and!; [| rewrite Hq; by vm_compute | done].
  rewrite Hrun. vm_compute in Hrun. by injection Hrun as <- <-.
Defined.

(** A two-byte buffer takes the first two bytes of a three-byte message. *)
Lemma ring_consume_refines_witness :
  exists d' u', kbuf_ring_consume 104 2 (RWorld block_dev demo_user [])
                = Done (2, RWorld d' u' [kbuf_consume 0 2 0]) /\
                user_bytes u' 103 3 = Some [x64; x31; x32] /\ dev_queue d' = [] /\ dev_ok d'.
Proof.
  destruct (ring_consume_refines block_dev demo_user [] 104 2 block_dev_ok eq_refl eq_refl)
    as (d' & ev & Hrun & Hq & Hok & _); [by vm_compute |].
  exists d', (spec_consume demo_user 104 2 (dev_queue block_dev)).1.2.
  split_and!; [| by vm_compute | rewrite Hq; by vm_compute | done].
  rewrite Hrun. vm_compute in Hrun. by injection Hrun as <- <-.
Defined.

(** The producer index has wrapped to 0, the consumer is at 2^32 - 1. *)
Lemma spsc_produce_refines_witness :
  exists d', kbuf_spsc_produce 100 4 (RWorld spsc_dev demo_user [])
             = Done (4, RWorld d' demo_user [kbuf_produce 0 4 2]) /\
             dev_queue d' = [[x31; x32; x33]; [x61; x62; x63; x64]] /\ dev_ok d'.
Proof.
  destruct (spsc_produce_refines spsc_dev demo_user [] 100 4 spsc_dev_ok eq_refl eq_refl)
    as (d' & ev & Hrun & Hq & Hok & _); [by vm_compute |].
  exists d'. split_and!; [| rewrite Hq; by vm_compute | done].
  rewrite Hrun. vm_compute in Hrun. by injection Hrun as <- <-.
Defined.

(** The read address is not mapped: the message stays. *)
Lemma spsc_consume_refines_witness :
  exists d', kbuf_spsc_consume 5000 4 (RWorld spsc_dev demo_user [])
             = Done (- EFAULT, RWorld d' demo_user []) /\
             dev_queue d' = [[x31; x32; x33]] /\ dev_ok d'.
Proof.
  destruct (spsc_consume_refines spsc_dev demo_user [] 5000 4 spsc_dev_ok eq_refl eq_refl)
    as (d' & ev & Hrun & Hq & Hok & _); [by vm_compute |].
  exists d'. split_and!; [| rewrite Hq; by vm_compute | done].
  rewrite Hrun. vm_compute in Hrun. by injection Hrun as <- <-.
Defined.

(** Fill, overflow, fault, drain, underflow. *)
Definition sample_ops : list rop :=
  [RWrite 100 9; RWrite 100 1; RRead 102 8; RWrite 5000 1; RRead 100 1; RRead 100 1].

Lemma sample_ops_ok : Forall rop_ok sample_ops.
Proof. repeat first [apply List.Forall_nil | apply List.Forall_cons]; cbn; lia. Qed.

Lemma modes_equivalent_witness :
  exists d1 d2 u' tr1 tr2,
    ring_ops blocking_ring sample_ops (RWorld block_dev demo_user [])
    = Done ([4; - EAGAIN; 3; - EFAULT; 1; - EAGAIN], RWorld d1 u' tr1) /\
    ring_ops spsc_ring sample_ops (RWorld spsc_dev demo_user [])
    = Done ([4; - EAGAIN; 3; - EFAULT; 1; - EAGAIN], RWorld d2 u' tr2) /\
    dev_queue d1 = dev_queue d2.
Proof.
  pose proof (modes_equivalent sample_ops block_dev spsc_dev demo_user [] [] block_dev_ok eq_refl
                spsc_dev_ok eq_refl eq_refl eq_refl ltac:(by vm_compute) sample_ops_ok) as H.
  destruct (spec_ops (num_buffers block_dev) (buffer_size block_dev) sample_ops demo_user
              (dev_queue block_dev)) as [[rs u'] q'] eqn:E.
  assert (rs = [4; - EAGAIN; 3; - EFAULT; 1; - EAGAIN]) as ->
    by (change rs with (rs, u', q').1.1; rewrite <- E; by vm_compute).
  destruct H as (d1 & d2 & tr1 & tr2 & H1 & H2 & Hq1 & Hq2).
  exists d1, d2, u', tr1, tr2. split_and!; [done | done | congruence].
Defined.

Lemma counters_conserved_witness :
  exists rs d' u' tr', ring_ops spsc_ring sample_ops (RWorld spsc_dev demo_user [])
                       = Done (rs, RWorld d' u' tr') /\
    tally_of d' = Tally 4 4 1 2 2 /\
    u64 (msgs_produced d' - msgs_consumed d' - Z.of_nat (length (dev_queue d'))) = u64 (- 1).
Proof.
  destruct (counters_conserved sample_ops spsc_dev demo_user [] spsc_dev_ok (or_intror eq_refl)
              sample_ops_ok) as (rs & d' & u' & tr' & Hrun & Ht & Hc).
  exists rs, d', u', tr'. split; [exact Hrun |]. split; [rewrite Ht; by vm_compute |].
  rewrite Hc. by vm_compute.
Defined.
