(* ===== verification/Ioctl.v ===== *)
(** * Ioctl: statistics, reset, resize and mode switch (src/kbuf_ioctl.c)

    Each handler as one caller runs it: the sections under [dev->lock] are
    named separately, so that Machine.v can interleave them with other
    threads.  [dev_name(dev->dev)], which the log line of a resize evaluates,
    reads the device node object and goes wrong if that is gone ([node_live]). *)

From S2P Require Import Prelude Kernel Uapi Device Alloc Mmap Ctl Ring RingFacts RingSpec.
#[local] Open Scope Z_scope.

(** [memset(&st, 0, sizeof(st))] and the assignments under the lock. *)
Definition stats_snapshot (d : kbuf_dev) : kbuf_stats :=
  {| st_bytes_produced := bytes_produced d; st_bytes_consumed := bytes_consumed d;
     st_msgs_produced := msgs_produced d; st_msgs_consumed := msgs_consumed d;
     st_read_sleeps := read_sleeps d; st_write_sleeps := write_sleeps d;
     st_num_buffers := num_buffers d; st_buffer_size := buffer_size d;
     st_cur_count := kbuf_occupancy d; st_peak_count := peak_count d |}.

(** The locked section of [kbuf_ioc_reset]. *)
Definition reset_counters (d : kbuf_dev) : kbuf_dev :=
  d <| bytes_produced := 0 |> <| bytes_consumed := 0 |>
    <| msgs_produced := 0 |> <| msgs_consumed := 0 |>
    <| read_sleeps := 0 |> <| write_sleeps := 0 |>
    <| peak_count := u32 (count d) |>.

(** The argument checks of [kbuf_ioc_resize], made before taking the lock. *)
Definition resize_invalid (rq : kbuf_resize) (mode : Z) : bool :=
  (rq_num_buffers rq <? 1) || (rq_num_buffers rq >? KBUF_MAX_NUM_BUFFERS) ||
  (rq_buffer_size rq <? 1) || (rq_buffer_size rq >? KBUF_MAX_BUFFER_SIZE) ||
  ((mode =? KBUF_MODE_SPSC) && negb (is_power_of_2 (rq_num_buffers rq))).

(** The locked section of [kbuf_ioc_resize]: [None] is the busy exit. *)
Definition resize_swap (new_slots : slot_array) (rq : kbuf_resize) (d : kbuf_dev)
  : option kbuf_dev :=
  if negb (kbuf_occupancy d =? 0) then None
  else Some (d <| slots := Some new_slots |>
               <| num_buffers := rq_num_buffers rq |>
               <| buffer_size := rq_buffer_size rq |>
               <| read_pos := 0 |> <| write_pos := 0 |> <| count := 0 |>
               <| prod_idx := 0 |> <| cons_idx := 0 |> <| peak_count := 0 |>).

(** The locked section of [kbuf_ioc_smode], with its return value. *)
Definition smode_locked (m : Z) (d : kbuf_dev) : Z * kbuf_dev :=
  if negb (kbuf_occupancy d =? 0) then (- EBUSY, d)
  else if (m =? KBUF_MODE_SPSC) && negb (is_power_of_2 (num_buffers d)) then (- EINVAL, d)
  else (0, d <| read_pos := 0 |> <| write_pos := 0 |> <| count := 0 |>
             <| prod_idx := 0 |> <| cons_idx := 0 |> <| mode := m |>).

Section ioctl.
Context {U K : Type} `{UAccess U} `{Kernel K}.

Record iworld := IWorld {
  i_dev : kbuf_dev;
  i_user : U;
  i_kern : K;
  i_woken : Z              (** wake-ups of [write_wq] so far *)
}.

Definition kbuf_ioc_getstats (arg : Z) : prog iworld Z := fun w =>
  let '(u', missed) :=
    copy_to_user (i_user w) arg (bytes_of_kbuf_stats (stats_snapshot (i_dev w))) in
  Done (if missed =? 0 then 0 else - EFAULT, IWorld (i_dev w) u' (i_kern w) (i_woken w)).

Definition kbuf_ioc_reset : prog iworld Z := fun w =>
  Done (0, IWorld (reset_counters (i_dev w)) (i_user w) (i_kern w) (i_woken w)).

Definition kbuf_ioc_resize (arg : Z) : prog iworld Z := fun w =>
  let d := i_dev w in
  let '(bs, missed) := copy_from_user (i_user w) arg sizeof_kbuf_resize in
  if negb (missed =? 0) then Done (- EFAULT, w) else
  let rq := kbuf_resize_of_bytes bs in
  if resize_invalid rq (mode d) then Done (- EINVAL, w) else
  match kbuf_alloc_slots (rq_num_buffers rq) (rq_buffer_size rq) (i_kern w) with
  | (None, k1) => Done (- ENOMEM, IWorld d (i_user w) k1 (i_woken w))
  | (Some new_slots, k1) =>
    match resize_swap new_slots rq d with
    | None =>
      exec_bind (kbuf_free_slots (Some new_slots) (rq_num_buffers rq) k1) (fun k2 =>
      Done (- EBUSY, IWorld d (i_user w) k2 (i_woken w)))
    | Some d' =>
      exec_bind (kbuf_free_slots (slots d) (num_buffers d) k1) (fun k2 =>
      if node_live k2 d' then Done (0, IWorld d' (i_user w) k2 (i_woken w + 1))
      else Oops UseAfterFree)
    end
  end.

Definition kbuf_ioc_smode (arg : Z) : prog iworld Z := fun w =>
  match get_user (i_user w) arg with
  | None => Done (- EFAULT, w)
  | Some m =>
    if negb (m =? KBUF_MODE_BLOCKING) && negb (m =? KBUF_MODE_SPSC) then Done (- EINVAL, w)
    else let '(r, d') := smode_locked m (i_dev w) in
         Done (r, IWorld d' (i_user w) (i_kern w) (i_woken w))
  end.
End ioctl.
Arguments iworld U K : clear implicits.
Arguments IWorld {U K}.

(** ** The locked sections keep the device well formed *)
Lemma occupancy_queue d :
  dev_ok d -> kbuf_occupancy d = Z.of_nat (length (dev_queue d)).
Proof.
  intros (Hg & Hr & Hst). unfold kbuf_occupancy. pose proof (geo_n d Hg) as Hn.
  unfold KBUF_MAX_NUM_BUFFERS in Hn.
  destruct (Z.eqb_spec (mode d) KBUF_MODE_SPSC) as [Hm | Hm].
  - rewrite dev_queue_spsc by done. unfold spsc_queue.
    pose proof (u32_range (prod_idx d - cons_idx d)) as [? _].
    by rewrite length_queue_window.
  - unfold ring_ok in Hr. rewrite (proj2 (Z.eqb_neq _ _) Hm) in Hr.
    destruct Hr as (Hm' & [_ Hc _ _] & _). rewrite dev_queue_blocking by done.
    unfold blocking_queue. rewrite u32_small by (unfold in_u32; lia).
    by rewrite length_queue_window by (done || lia).
Qed.

Lemma occupancy_zero d : dev_ok d -> kbuf_occupancy d = 0 <-> dev_queue d = [].
Proof.
  intros Hok. rewrite (occupancy_queue d Hok), <- length_zero_iff_nil. lia.
Qed.

Lemma queue_window_0 d start : queue_window d start 0 = [].
Proof. unfold queue_window. by destruct (slots d). Qed.

Lemma resize_invalid_false rq m :
  resize_invalid rq m = false ->
  1 <= rq_num_buffers rq <= KBUF_MAX_NUM_BUFFERS /\
  1 <= rq_buffer_size rq <= KBUF_MAX_BUFFER_SIZE /\
  (m = KBUF_MODE_SPSC -> is_power_of_2 (rq_num_buffers rq) = true).
Proof.
  unfold resize_invalid. intros Hf. apply orb_false_iff in Hf as [Hf Hm].
  split; [lia |]. split; [lia |]. intros ->. simpl in Hm. by apply negb_false_iff in Hm.
Qed.

(** A device whose indices are all zero is empty in either mode. *)
Lemma cleared_ok d d' :
  dev_ok d -> geometry_ok d' -> mode d' = KBUF_MODE_BLOCKING \/ mode d' = KBUF_MODE_SPSC ->
  (mode d' = KBUF_MODE_SPSC -> is_power_of_2 (num_buffers d') = true) ->
  read_pos d' = 0 -> write_pos d' = 0 -> count d' = 0 -> prod_idx d' = 0 -> cons_idx d' = 0 ->
  stats_ok d' -> dev_ok d' /\ dev_queue d' = [].
Proof.
  intros (Hg & Hr & Hst) Hg' Hm Hp Hr0 Hw0 Hc0 Hpi Hci Hst'.
  pose proof (geo_n d' Hg') as Hn. pose proof (sto_peak d' Hst') as Hpk.
  assert (H0 : 0 mod num_buffers d' = 0) by (apply Z.mod_0_l; lia).
  destruct Hm as [Hm | Hm].
  - split; [| by rewrite dev_queue_blocking, <- (queue_window_0 d' (read_pos d')), <- Hc0].
    split_and!; [done | | done]. apply ring_ok_blocking; [done |]. split; [| done].
    split; rewrite ?Hr0, ?Hc0, ?Hw0; (done || lia).
  - split; [| rewrite dev_queue_spsc by done; unfold spsc_queue; rewrite Hpi, Hci;
              apply queue_window_0].
    split_and!; [done | | done]. apply ring_ok_spsc; [done |]. split; [| done].
    split; [by apply Hp | rewrite Hpi | rewrite Hci |
            rewrite Hpi, Hci; change (u32 (0 - 0)) with 0]; unfold in_u32; lia.
Qed.

Lemma smode_locked_ok m d :
  dev_ok d -> m = KBUF_MODE_BLOCKING \/ m = KBUF_MODE_SPSC ->
  let '(r, d') := smode_locked m d in
  dev_ok d' /\ dev_queue d' = dev_queue d /\
  (r = 0 <-> dev_queue d = [] /\ (m = KBUF_MODE_SPSC -> is_power_of_2 (num_buffers d) = true)) /\
  (r = 0 -> mode d' = m) /\ (r <> 0 -> d' = d).
Proof.
  intros Hok Hm. unfold smode_locked. pose proof (occupancy_zero d Hok) as Hz.
  destruct (Z.eqb_spec (kbuf_occupancy d) 0) as [E | E]; cbn [negb].
  2: { unfold EBUSY. do 2 (split; [done |]). split; [| split; [lia | done]].
       split; [lia |]. intros [Hq _]. tauto. }
  apply Hz in E as Hq.
  destruct ((m =? KBUF_MODE_SPSC) && negb (is_power_of_2 (num_buffers d))) eqn:Hp.
  { apply andb_true_iff in Hp as [Hm1%Z.eqb_eq Hnp%negb_true_iff].
    unfold EINVAL. do 2 (split; [done |]). split; [| split; [lia | done]].
    split; [lia |]. intros [_ Hpow]. rewrite Hpow in Hnp by done. done. }
  assert (Hpow : m = KBUF_MODE_SPSC -> is_power_of_2 (num_buffers d) = true).
  { intros ->. rewrite Z.eqb_refl in Hp. by apply negb_false_iff in Hp. }
  match goal with |- dev_ok ?d1 /\ _ => set (d' := d1) end.
  destruct (cleared_ok d d' Hok) as [Hok' Hq']; try done; try (by destruct Hok as (Hg & _ & []); split).
  { destruct Hok as (Hg & _ & _). by eapply geometry_same; [.. | exact Hg]. }
  split; [done |]. split; [congruence |]. by split_and!.
Qed.

Lemma reset_counters_ok d :
  dev_ok d -> dev_ok (reset_counters d) /\ dev_queue (reset_counters d) = dev_queue d.
Proof.
  intros (Hg & Hr & [Hpk H64]). split; [| done]. pose proof (geo_n d Hg) as Hn.
  assert (Hc : 0 <= count d <= num_buffers d).
  { unfold ring_ok in Hr. destruct (mode d =? KBUF_MODE_SPSC).
    - destruct Hr as (_ & _ & _ & ->). lia.
    - by destruct Hr as (_ & [] & _). }
  unfold KBUF_MAX_NUM_BUFFERS in Hn.
  assert (Hu : u32 (count d) = count d) by (apply u32_small; unfold in_u32; lia).
  unfold reset_counters. rewrite Hu.
  split_and!; [by eapply geometry_same; [.. | exact Hg] | |].
  - unfold ring_ok in *. dev_fields. destruct (mode d =? KBUF_MODE_SPSC).
    + destruct Hr as [[] ?]. by split; [split |].
    + destruct Hr as (? & [] & ?). by split_and!; [| split | ..]; destruct_and?.
  - split; dev_fields; [lia |].
    repeat first [apply List.Forall_nil | apply List.Forall_cons]; by unfold in_u64.
Qed.

Lemma resize_swap_ok d sa rq d' :
  dev_ok d -> resize_invalid rq (mode d) = false ->
  Z.of_nat (length (sa_slots sa)) = rq_num_buffers rq ->
  Forall (slot_ok (rq_buffer_size rq)) (sa_slots sa) ->
  resize_swap sa rq d = Some d' ->
  dev_ok d' /\ dev_queue d' = [] /\ dev_queue d = [] /\ mode d' = mode d /\
  slots d' = Some sa /\ num_buffers d' = rq_num_buffers rq /\
  buffer_size d' = rq_buffer_size rq /\ dev_node d' = dev_node d.
Proof.
  intros Hok (Hn & Hb & Hp)%resize_invalid_false Hlen Hall Hsw. unfold resize_swap in Hsw.
  pose proof (occupancy_zero d Hok) as Hz.
  destruct (Z.eqb_spec (kbuf_occupancy d) 0) as [E | E]; cbn [negb] in Hsw; [| done].
  injection Hsw as <-. match goal with |- dev_ok ?d1 /\ _ => set (d' := d1) end.
  assert (Hg' : geometry_ok d') by (split; [done | done | by exists sa]).
  destruct (cleared_ok d d' Hok Hg') as [Hok' Hq']; try done.
  - destruct Hok as (_ & Hr & _). unfold ring_ok in Hr. change (mode d') with (mode d).
    destruct (Z.eqb_spec (mode d) KBUF_MODE_SPSC); [by right | left; by destruct Hr].
  - destruct Hok as (_ & _ & [? H64]). split; [unfold d'; dev_fields; lia |]. exact H64.
  - by split_and!; [| | apply Hz | ..].
Qed.

(** The device's slot array is outstanding in the ledger. *)
Definition owns {K} `{Kernel K} (k : K) (d : kbuf_dev) : Prop :=
  exists sa, slots d = Some sa /\ held_batch RkMem (array_ptrs sa) (k_held k).

Section handlers.
Context {U K : Type} `{UAccessLaws U} `{KernelLaws K}.
Implicit Types (w : iworld U K).

Lemma held_batch_disjoint rk ps qs m :
  held_batch rk ps m -> fresh_batch qs m ->
  held_batch rk ps (ledger_add RkMem qs m).
Proof.
  intros [Hnd Hp] [_ Hq]. split; [done |]. intros p Hin. rewrite ledger_add_lookup.
  case_decide as Hd; [| by apply Hp]. specialize (Hp p Hin). by rewrite (Hq p Hd) in Hp.
Qed.

(** What the caller sees when a resize takes effect. *)
Definition resized (w w' : iworld U K) (rq : kbuf_resize) : Prop :=
  dev_queue (i_dev w) = [] /\ dev_queue (i_dev w') = [] /\
  mode (i_dev w') = mode (i_dev w) /\ i_woken w' = i_woken w + 1 /\
  num_buffers (i_dev w') = rq_num_buffers rq /\ buffer_size (i_dev w') = rq_buffer_size rq /\
  exists old new, slots (i_dev w) = Some old /\ slots (i_dev w') = Some new /\
    fresh_batch (array_ptrs new) (k_held (i_kern w)) /\
    k_held (i_kern w')
    = ledger_del (array_ptrs old) (ledger_add RkMem (array_ptrs new) (k_held (i_kern w))).

Definition intact (w w' : iworld U K) : Prop :=
  i_dev w' = i_dev w /\ i_user w' = i_user w /\ k_held (i_kern w') = k_held (i_kern w).

Definition healthy (w : iworld U K) : Prop :=
  dev_ok (i_dev w) /\ owns (i_kern w) (i_dev w) /\ node_live (i_kern w) (i_dev w) = true.

Lemma intact_healthy w w' : intact w w' -> healthy w -> healthy w'.
Proof.
  intros (Hd & _ & Hh) (Hok & Ho & Hn). unfold healthy, owns, node_live in *.
  by rewrite Hd, Hh.
Qed.

Lemma intact_refl w : intact w w.
Proof. by unfold intact. Qed.

(** Releasing the old array once the new one is in place. *)
Lemma swap_ledger d d' old new (k k1 k2 : K) :
  slots d = Some old -> held_batch RkMem (array_ptrs old) (k_held k) ->
  fresh_batch (array_ptrs new) (k_held k) -> node_live k d = true ->
  k_held k1 = ledger_add RkMem (array_ptrs new) (k_held k) ->
  k_held k2 = ledger_del (array_ptrs old) (k_held k1) ->
  slots d' = Some new -> dev_node d' = dev_node d ->
  owns k2 d' /\ node_live k2 d' = true.
Proof.
  intros Hs [Hnd Hold] [Hndn Hnew] Hnode Hh1 Hh2 Hs' Hdn.
  assert (Hsep : forall p, p ∈ array_ptrs new -> p ∉ array_ptrs old).
  { intros p Hp Hq. specialize (Hold p Hq). by rewrite (Hnew p Hp) in Hold. }
  split.
  - exists new. split; [done |]. split; [done |]. intros p Hp.
    rewrite Hh2, Hh1, ledger_del_lookup, ledger_add_lookup.
    rewrite decide_False by auto. by rewrite decide_True.
  - unfold node_live in *. apply bool_decide_eq_true in Hnode. apply bool_decide_eq_true.
    rewrite Hh2, Hh1, Hdn, ledger_del_lookup, ledger_add_lookup.
    rewrite decide_False by (intros Hin; specialize (Hold _ Hin); congruence).
    rewrite decide_False by (intros Hin; specialize (Hnew _ Hin); congruence). done.
Qed.

(** All exits of [kbuf_ioc_resize]: it takes effect, or it reports why not and
    leaves device and ledger as they were. *)
(** Why a resize was refused. *)
Definition resize_cause (w : iworld U K) (arg r : Z) : Prop :=
  let '(bs, missed) := copy_from_user (i_user w) arg sizeof_kbuf_resize in
  if negb (missed =? 0) then r = - EFAULT
  else if resize_invalid (kbuf_resize_of_bytes bs) (mode (i_dev w)) then r = - EINVAL
  else r = - ENOMEM \/ (r = - EBUSY /\ dev_queue (i_dev w) <> []).

Inductive resize_exit (w : iworld U K) (arg : Z) : Z -> iworld U K -> Prop :=
  | resize_done bs w' :
      copy_from_user (i_user w) arg sizeof_kbuf_resize = (bs, 0) ->
      resized w w' (kbuf_resize_of_bytes bs) -> i_user w' = i_user w -> healthy w' ->
      resize_exit w arg 0 w'
  | resize_failed r w' :
      resize_cause w arg r -> intact w w' -> healthy w' -> resize_exit w arg r w'.

Lemma resize_fail r w w' arg :
  healthy w -> resize_cause w arg r -> intact w w' -> resize_exit w arg r w'.
Proof. intros Hw Hr Hi. apply resize_failed; [done | done |]. by eapply intact_healthy. Qed.

Lemma kbuf_ioc_resize_exits w arg :
  healthy w -> exists r w', kbuf_ioc_resize arg w = Done (r, w') /\ resize_exit w arg r w'.
Proof.
  intros Hw. pose proof Hw as (Hok & (old & Hold & Hbatch) & Hnode).
  pose proof (fun r w' => resize_fail r w w' arg Hw) as Hfail. unfold resize_cause in Hfail.
  unfold kbuf_ioc_resize. destruct (copy_from_user _ _ _) as [bs missed] eqn:Hcopy.
  destruct (Z.eqb_spec missed 0) as [-> | Hm]; cbn [negb] in *;
    [| eexists _, _; split; [done |]; by apply Hfail].
  destruct (resize_invalid _ _) eqn:Hinv;
    [eexists _, _; split; [done |]; by apply Hfail |].
  set (rq := kbuf_resize_of_bytes bs) in *.
  pose proof (resize_invalid_false _ _ Hinv) as (Hrn & Hrb & _).
  pose proof (kbuf_alloc_slots_spec (rq_num_buffers rq) (rq_buffer_size rq) (i_kern w)
                ltac:(lia) ltac:(lia)) as Ha.
  destruct (kbuf_alloc_slots _ _ (i_kern w)) as [[new |] k1].
  2: { destruct Ha as [Hh _]. eexists _, _. split; [done |]. apply Hfail; [by left | done]. }
  destruct Ha as (Hlen & Hall & Hfr & Hh1 & _).
  destruct (resize_swap new rq (i_dev w)) as [d' |] eqn:Hsw.
  - destruct (resize_swap_ok _ new rq d' Hok Hinv Hlen Hall Hsw)
      as (Hok' & Hq' & Hq & Hm' & Hs' & Hn' & Hb' & Hdn).
    rewrite Hold. pose proof (geo_slots _ (proj1 Hok)) as (sa & Hsa & Hlo & _).
    rewrite Hold in Hsa. injection Hsa as <-.
    destruct (kbuf_free_slots_spec old (num_buffers (i_dev w)) k1) as (k2 & -> & Hh2 & _);
      [done | rewrite Hh1; by apply held_batch_disjoint |].
    destruct (swap_ledger _ d' old new _ k1 k2 Hold Hbatch Hfr Hnode Hh1 Hh2 Hs' Hdn) as [Ho' Hn2].
    cbn [exec_bind]. rewrite Hn2. eexists _, _. split; [done |].
    apply (resize_done w arg bs); [done | | done | done].
    do 6 (split; [done |]). exists old, new. by rewrite <- Hh1.
  - destruct (kbuf_free_slots_spec new (rq_num_buffers rq) k1) as (k2 & -> & Hh2 & _);
      [done | rewrite Hh1; apply held_batch_add, Hfr |].
    cbn [exec_bind]. eexists _, _. split; [done |]. apply Hfail.
    + right. split; [done |]. intros Hq. apply (occupancy_zero _ Hok) in Hq.
      unfold resize_swap in Hsw. by rewrite Hq in Hsw.
    + unfold intact. cbn. by rewrite Hh2, Hh1, ledger_del_add.
Qed.
End handlers.
