(* ===== verification/Dispatch.v ===== *)
(** * Dispatch: the ioctl entry point and the dma-buf commands (src/kbuf_ioctl.c)

    The world of an open file: the devices and the kernel of Ctl.v, the caller's
    memory, and the caller's file descriptors for exported buffers.  The file
    refers to the device at one address of [c_heap], static or dynamic. *)

From S2P Require Import Prelude Kernel Uapi Device Alloc Mmap Ctl CtlFacts DmaBuf.
From S2P Require Import Ring RingFacts RingSpec Ioctl.
#[local] Open Scope Z_scope.

Definition EBADF : Z := 9.

(** An open descriptor of the caller: a buffer this driver exported, with its
    handle and its device, a dma-buf of another driver, or a file that is not a
    dma-buf. *)
Inductive fdfile : Set := FdKbuf (h p : Z) | FdForeign | FdOther.

Section dispatch.
Context {U K : Type} `{UAccess U} `{Kernel K} `{IocEncoding} `{Paging}.

Record fworld := FWorld {
  f_c : cworld K;
  f_user : U;
  f_fds : gmap Z fdfile;
  f_woken : Z
}.

(** A handler of Ioctl.v on the device at [p]. *)
Definition on_dev (p : Z) (h : prog (iworld U K) Z) : prog fworld Z := fun w =>
  match c_heap (f_c w) !! p with
  | None => Oops UseAfterFree
  | Some d =>
    exec_bind (h (IWorld d (f_user w) (c_kern (f_c w)) (f_woken w))) (fun '(r, iw) =>
    Done (r, FWorld ((f_c w) <| c_heap := <[p := i_dev iw]> (c_heap (f_c w)) |> <| c_kern := i_kern iw |>)
                    (i_user iw) (f_fds w) (i_woken iw)))
  end.

(** Closing the fd that the caller will not learn drops the only reference to
    the buffer. *)
Definition kbuf_ioc_export (p arg : Z) : prog fworld Z := fun w =>
  exec_bind (kbuf_dmabuf_export p (f_c w)) (fun '(r, c1) =>
  match r with
  | inr e => Done (e, FWorld c1 (f_user w) (f_fds w) (f_woken w))
  | inl (fd, h) =>
    match put_user (f_user w) arg fd with
    | None =>
      exec_bind (dma_buf_put h p c1) (fun '(_, c2) =>
      Done (- EFAULT, FWorld c2 (f_user w) (f_fds w) (f_woken w)))
    | Some u' => Done (0, FWorld c1 u' (<[fd := FdKbuf h p]> (f_fds w)) (f_woken w))
    end
  end).

(** [dma_buf_get] refuses an fd that is not open, and a file that is not a
    dma-buf. *)
Definition kbuf_ioc_import (arg : Z) : prog fworld Z := fun w =>
  match get_user (f_user w) arg with
  | None => Done (- EFAULT, w)
  | Some fd =>
    match f_fds w !! fd with
    | None => Done (- EBADF, w)
    | Some FdOther => Done (- EINVAL, w)
    | Some FdForeign =>
      exec_bind (kbuf_dmabuf_import_selftest foreign_ops tt (c_kern (f_c w))) (fun '(r, _, k') =>
      Done (r, FWorld ((f_c w) <| c_kern := k' |>) (f_user w) (f_fds w) (f_woken w)))
    | Some (FdKbuf _ q) =>
      match c_heap (f_c w) !! q with
      | None => Oops UseAfterFree
      | Some d =>
        exec_bind (kbuf_dmabuf_import_selftest (kbuf_dmabuf_ops d) d (c_kern (f_c w))) (fun '(r, d', k') =>
        Done (r, FWorld ((f_c w) <| c_heap := <[q := d']> (c_heap (f_c w)) |> <| c_kern := k' |>)
                        (f_user w) (f_fds w) (f_woken w)))
      end
    end
  end.

Definition kbuf_ioctl (p cmd arg : Z) : prog fworld Z :=
  if negb (IOC_TYPE cmd =? KBUF_IOC_MAGIC) then p_ret (- ENOTTY) else
  if (IOC_NR cmd =? 0) || (IOC_NR cmd >? KBUF_IOC_MAXNR) then p_ret (- ENOTTY) else
  if cmd =? KBUF_IOCGSTATS then on_dev p (kbuf_ioc_getstats arg) else
  if cmd =? KBUF_IOCRESET then on_dev p kbuf_ioc_reset else
  if cmd =? KBUF_IOCRESIZE then on_dev p (kbuf_ioc_resize arg) else
  if cmd =? KBUF_IOCSMODE then on_dev p (kbuf_ioc_smode arg) else
  if cmd =? KBUF_IOCEXPORT then kbuf_ioc_export p arg else
  if cmd =? KBUF_IOCIMPORT then kbuf_ioc_import arg else
  p_ret (- ENOTTY).
End dispatch.
Arguments fworld U K : clear implicits.

(** ** Command numbers *)
Section numbers.
Context `{IocLaws}.

(** The driver's commands with their handlers' numbers. *)
Definition kbuf_commands : list Z :=
  [KBUF_IOCRESIZE; KBUF_IOCGSTATS; KBUF_IOCRESET; KBUF_IOCSMODE; KBUF_IOCEXPORT; KBUF_IOCIMPORT].

Lemma command_numbers : IOC_NR <$> kbuf_commands = [1; 2; 3; 4; 5; 6].
Proof.
  unfold kbuf_commands, KBUF_IOCRESIZE, KBUF_IOCGSTATS, KBUF_IOCRESET, KBUF_IOCSMODE, KBUF_IOCEXPORT,
    KBUF_IOCIMPORT. cbn [fmap list_fmap]. by rewrite !ioc_nr.
Qed.

Lemma command_types : Forall (fun c => IOC_TYPE c = KBUF_IOC_MAGIC) kbuf_commands.
Proof.
  repeat first [apply List.Forall_nil | apply List.Forall_cons]; by apply ioc_type.
Qed.

Lemma commands_differ c c' : IOC_NR c <> IOC_NR c' -> (c =? c') = false.
Proof. intros Hne. apply Z.eqb_neq. congruence. Qed.
End numbers.

(** ** Export *)
Section export.
Context {U K : Type} {ua : UAccess U} {ual : UAccessLaws U} {kk : Kernel K} {kl : KernelLaws K}.
Implicit Types (w : cworld K) (d : kbuf_dev).

(** The reference the buffer holds on a dynamic device. *)
Definition pinned d : kbuf_dev := if dynamic d then d <| ref := ref d + 1 |> else d.

Lemma pinned_dynamic d : dynamic (pinned d) = dynamic d.
Proof. unfold pinned. by destruct (dynamic d) eqn:E; cbn; rewrite ?E. Qed.

(** Dropping it again while the open file holds its own. *)
Lemma unpin_run p d w :
  (dynamic d = true -> 1 <= ref d) -> c_heap w !! p = Some (pinned d) ->
  (if dynamic d then kref_put p else p_ret tt) w
  = Done (tt, w <| c_heap := <[p := d]> (c_heap w) |>).
Proof.
  unfold pinned. destruct (dynamic d) eqn:Hdyn; intros Hr E.
  - unfold kref_put. rewrite (run_bind _ _ _ _ _ (upd_dev_run p _ _ w E)).
    erewrite (run_bind _ _ _ _ _ (get_dev_run p _ _ (lookup_insert_eq _ p _))).
    cbn [ref set_field set_ref]. replace (ref d + 1 - 1) with (ref d) by lia.
    rewrite (proj2 (Z.eqb_neq _ 0)) by (specialize (Hr eq_refl); lia). unfold p_ret. do 3 f_equal.
    cbn. by destruct d, w.
  - unfold p_ret. do 2 f_equal. destruct w; cbn in *. by rewrite insert_id.
Qed.

(** The last reference to the buffer goes while the file is open. *)
Lemma put_run p h d w :
  (dynamic d = true -> 1 <= ref d) -> c_heap w !! p = Some (pinned d) ->
  dma_buf_put h p w
  = Done (tt, w <| c_heap := <[p := d]> (c_heap w) |> <| c_kern := k_release RkDmaBuf h (c_kern w) |>
                <| c_names := delete h (c_names w) |>).
Proof.
  intros Hr E. unfold dma_buf_put, kbuf_dmabuf_release.
  assert (Hrel : (d0 <-- get_dev p ;; if dynamic d0 then kref_put p else p_ret tt) w
                 = Done (tt, w <| c_heap := <[p := d]> (c_heap w) |>)).
  { rewrite (run_bind _ _ _ _ _ (get_dev_run p _ _ E)), pinned_dynamic. by apply unpin_run. }
  by rewrite (run_bind _ _ _ _ _ Hrel).
Qed.

(** A device whose node is gone has no name to export. *)
Lemma export_dead p d w :
  c_heap w !! p = Some d -> node_live (c_kern w) d = false -> kbuf_dmabuf_export p w = Oops UseAfterFree.
Proof. intros E Hn. unfold kbuf_dmabuf_export, p_bind at 1. by rewrite (dev_name_run p d w E), Hn. Qed.

(** Exported and pinned, or as it was. *)
Lemma export_run p d w :
  c_heap w !! p = Some d -> node_live (c_kern w) d = true -> (dynamic d = true -> 1 <= ref d) ->
  exists r w', kbuf_dmabuf_export p w = Done (r, w') /\ k_ida (c_kern w') = k_ida (c_kern w) /\
    c_list w' = c_list w /\
    match r with
    | inl (fd, h) => 0 <= fd < 2 ^ 31 /\ k_held (c_kern w) !! h = None /\
                     k_held (c_kern w') = <[h := RkDmaBuf]> (k_held (c_kern w)) /\
                     c_heap w' = <[p := pinned d]> (c_heap w) /\
                     c_names w' = <[h := dev_node d]> (c_names w)
    | inr e => is_errno e /\ k_held (c_kern w') = k_held (c_kern w) /\ c_heap w' = c_heap w
    end.
Proof.
  intros E Hnode Hr. unfold kbuf_dmabuf_export.
  rewrite (run_bind _ _ _ _ _ (dev_name_live p d w E Hnode)), (run_bind _ _ _ _ _ (get_dev_run p d w E)).
  set (w2 := w <| c_heap := <[p := pinned d]> (c_heap w) |>).
  assert (Hpin : (if dynamic d then kref_get p else p_ret tt) w = Done (tt, w2)).
  { unfold w2, pinned. destruct (dynamic d).
    - by rewrite (kref_get_run p d w E).
    - unfold p_ret. do 2 f_equal. destruct w; cbn in *. by rewrite insert_id. }
  rewrite (run_bind _ _ _ _ _ Hpin).
  assert (E2 : forall k, c_heap (w2 <| c_kern := k |>) !! p = Some (pinned d))
    by (intros k; apply lookup_insert_eq).
  assert (Hback : <[p := d]> (<[p := pinned d]> (c_heap w)) = c_heap w)
    by (by rewrite insert_insert_eq, insert_id by done).
  destruct (k_acquire RkDmaBuf (c_kern w2)) as [[h | e] k3] eqn:Ea;
    rewrite (run_bind _ _ _ _ _ (kern_run _ w2 _ k3 Ea)).
  2: { apply acquire_err in Ea as (He & Hk & Hi). rewrite (run_bind _ _ _ _ _ (unpin_run p d _ Hr (E2 k3))).
       eexists _, _. split; [done |]. cbn. rewrite Hk, Hi. cbn. by split_and!. }
  apply acquire_ok in Ea as (Hn & Hk & Hi). cbn [w2 c_kern set_field set_c_heap] in Hn, Hk, Hi.
  destruct (k_call k3) as [fd k4] eqn:Ec.
  set (w3 := w2 <| c_kern := k3 |> <| c_names := <[h := dev_node d]> (c_names w2) |>).
  rewrite (run_bind _ _ _ tt w3) by done.
  assert (Hc : kern k_call w3 = Done (fd, w3 <| c_kern := k4 |>)) by (apply kern_run; exact Ec).
  rewrite (run_bind _ _ _ _ _ Hc).
  apply call_ok in Ec as ([Hfd Hint] & Hk4 & Hi4). destruct (Z.ltb_spec fd 0) as [Hneg | Hpos].
  - assert (E4 : c_heap (w3 <| c_kern := k4 |>) !! p = Some (pinned d))
      by (change (<[p := pinned d]> (c_heap w) !! p = Some (pinned d)); apply lookup_insert_eq).
    pose proof (put_run p h d _ Hr E4) as Hput. rewrite (run_bind _ _ _ _ _ Hput).
    destruct (release_ok RkDmaBuf h k4) as [Hk5 Hi5]; [by rewrite Hk4, Hk, lookup_insert_eq |].
    eexists _, _. split; [done |]. cbn. rewrite Hk5, Hi5, Hk4, Hk, Hi4, Hi, delete_insert_id by done.
    split_and!; try done. by apply Hfd.
  - eexists _, _. split; [done |]. cbn. rewrite Hk4, Hk, Hi4, Hi. by split_and!.
Qed.
End export.
