(* ===== verification/IoctlProps.v ===== *)
(** * IoctlProps: allocation and the ioctls

    What the slot allocator and the handlers of src/kbuf_ioctl.c guarantee on
    every exit, and the two places where they fall short of what the code
    means. *)

From S2P Require Import Prelude Kernel Uapi Device Alloc Ring RingFacts RingSpec Samples RingProps Ioctl.
#[local] Open Scope Z_scope.

(** A kernel with an empty failure plan, and one that already lent out the
    sample device's memory and node. *)
Definition kernel0 : simkernel := SimKernel ∅ [] ∅.

Definition kernel_demo (plan : list Z) : simkernel :=
  SimKernel (<[7 := RkNode]> (ledger_add RkMem [10; 11; 12] ∅)) plan ∅.

Definition node_dev (d : kbuf_dev) : kbuf_dev := d <| dev_node := 7 |>.

Lemma node_demo_ok : dev_ok (node_dev demo_dev).
Proof. sample_ok. Qed.

Lemma snapshot_in_range d : dev_ok d -> kbuf_stats_in_range (stats_snapshot d).
Proof.
  intros Hok. pose proof Hok as ([Hn Hb _] & _ & [Hp H64]). split; [exact H64 |].
  pose proof (occupancy_queue d Hok) as Ho. unfold KBUF_MAX_NUM_BUFFERS, KBUF_MAX_BUFFER_SIZE in *.
  assert (Hocc : in_u32 (kbuf_occupancy d))
    by (unfold kbuf_occupancy; destruct (mode d =? KBUF_MODE_SPSC); apply u32_range).
  repeat first [apply List.Forall_nil | apply List.Forall_cons]; cbn; try done; unfold in_u32; lia.
Qed.

Section props.
Context {U K : Type} {ua : UAccess U} {ual : UAccessLaws U} {kk : Kernel K} {kl : KernelLaws K}.
Implicit Types (w : iworld U K) (d : kbuf_dev).

(** [kbuf_alloc_slots] leaks nothing: when any of its allocations fails
    everything it had allocated is back, and when it succeeds the array has
    [n] empty slots of [size] bytes in memory nobody else holds, and
    [kbuf_free_slots] on it restores the ledger exactly. *)
Theorem alloc_free_balanced n size (k : K) :
  0 <= n -> 0 <= size ->
  match kbuf_alloc_slots n size k with
  | (None, k') => k_held k' = k_held k
  | (Some sa, k') =>
    Z.of_nat (length (sa_slots sa)) = n /\ Forall (slot_ok size) (sa_slots sa) /\
    fresh_batch (array_ptrs sa) (k_held k) /\
    exists k'', kbuf_free_slots (Some sa) n k' = Done k'' /\ k_held k'' = k_held k
  end.
Proof.
  intros Hn Hs. pose proof (kbuf_alloc_slots_spec n size k Hn Hs) as Ha.
  destruct (kbuf_alloc_slots n size k) as [[sa |] k']; [| by destruct Ha].
  destruct Ha as (Hl & Hall & Hf & Hh & _). split_and!; [done | done | done |].
  destruct (kbuf_free_slots_spec sa n k') as (k'' & Hrun & Hh2 & _); [done | |].
  { rewrite Hh. apply held_batch_add, Hf. }
  exists k''. split; [done |]. rewrite Hh2, Hh. by apply ledger_del_add.
Qed.

(** C24: [kbuf_ioc_resize] always returns.  It takes effect only on an empty
    ring, then with the requested geometry, both index representations cleared
    and the old array's memory returned, the writers woken once; every other
    exit reports its cause and leaves device, user memory and ledger as they
    were. *)
Theorem resize_exits w arg :
  healthy w -> exists r w', kbuf_ioc_resize arg w = Done (r, w') /\ resize_exit w arg r w'.
Proof. apply kbuf_ioc_resize_exits. Qed.

(** C25: [kbuf_ioc_smode] refuses what is not a mode, refuses a ring with
    messages in it and a slot count SPSC cannot mask, and otherwise switches an
    empty ring to an empty ring; no exit but success changes the device. *)
Theorem smode_exits w arg :
  dev_ok (i_dev w) ->
  exists r d', kbuf_ioc_smode arg w = Done (r, IWorld d' (i_user w) (i_kern w) (i_woken w)) /\
    dev_ok d' /\ dev_queue d' = dev_queue (i_dev w) /\ (r <> 0 -> d' = i_dev w) /\
    (r = 0 <-> exists m, get_user (i_user w) arg = Some m /\ mode d' = m /\
               (m = KBUF_MODE_BLOCKING \/
                m = KBUF_MODE_SPSC /\ is_power_of_2 (num_buffers (i_dev w)) = true) /\
               dev_queue (i_dev w) = []).
Proof.
  intros Hok. unfold kbuf_ioc_smode. destruct w as [d u k n]. cbn [i_dev i_user i_kern i_woken] in *.
  destruct (get_user u arg) as [m |]; cbn [negb].
  2: { exists (- EFAULT), d. split_and!; try done. split; [done |]. by intros (m & ? & _). }
  destruct (Z.eqb_spec m KBUF_MODE_BLOCKING) as [Hb | Hb], (Z.eqb_spec m KBUF_MODE_SPSC) as [Hs | Hs];
    cbn [negb andb].
  4: { exists (- EINVAL), d. split_and!; try done. split; [done |].
       intros (m' & [= <-] & _ & [? | [? _]] & _); done. }
  all: pose proof (smode_locked_ok m d Hok ltac:(tauto)) as H;
    destruct (smode_locked m d) as [r d']; destruct H as (Hok' & Hq & Hr & Hmode & Hsame);
    exists r, d'; split_and!; try done.
  all: split; [intros Hr0; pose proof (proj1 Hr Hr0) as [Hq0 Hp]; exists m; split_and!; auto; tauto |].
  all: intros (m' & [= <-] & _ & Hc & Hq0); apply Hr; split;
    [done | intros Hsp; destruct Hc as [Hbl | [_ ?]]; [rewrite Hsp in Hbl |]; done].
Qed.

(** C34: what [KBUF_IOCGSTATS] leaves in the caller's memory decodes, through
    the layout of struct kbuf_stats, to the device's counters, each in its own
    field, its geometry, the number of messages queued and the peak. *)
Theorem getstats_roundtrip w arg w' :
  dev_ok (i_dev w) -> kbuf_ioc_getstats arg w = Done (0, w') ->
  i_dev w' = i_dev w /\
  exists bs, user_bytes (i_user w') arg sizeof_kbuf_stats = Some bs /\
    kbuf_stats_of_bytes bs =
      {| st_bytes_produced := bytes_produced (i_dev w); st_bytes_consumed := bytes_consumed (i_dev w);
         st_msgs_produced := msgs_produced (i_dev w); st_msgs_consumed := msgs_consumed (i_dev w);
         st_read_sleeps := read_sleeps (i_dev w); st_write_sleeps := write_sleeps (i_dev w);
         st_num_buffers := num_buffers (i_dev w); st_buffer_size := buffer_size (i_dev w);
         st_cur_count := Z.of_nat (length (dev_queue (i_dev w))); st_peak_count := peak_count (i_dev w) |}.
Proof.
  intros Hok. unfold kbuf_ioc_getstats.
  destruct (copy_to_user _ _ _) as [u' missed] eqn:Hcopy.
  destruct (Z.eqb_spec missed 0) as [-> | Hm]; [| by intros [=]].
  intros [= <-]. split; [done |]. apply ctu_done in Hcopy.
  rewrite length_bytes_of_kbuf_stats in Hcopy. eexists. split; [exact Hcopy |].
  rewrite kbuf_stats_layout by (by apply snapshot_in_range). unfold stats_snapshot.
  by rewrite (occupancy_queue _ Hok).
Qed.
End props.

(** ** Concrete runs *)

(** Three slots of four bytes; the third buffer allocation fails. *)
Lemma alloc_free_balanced_witness :
  exists k', kbuf_alloc_slots 3 4 (SimKernel ∅ [0; 0; 0; - ENOMEM] ∅) = (None, k') /\
             k_held k' = ∅ /\
  exists sa k1 k2, kbuf_alloc_slots 3 4 kernel0 = (Some sa, k1) /\
                   kbuf_free_slots (Some sa) 3 k1 = Done k2 /\ k_held k2 = ∅.
Proof.
  pose proof (alloc_free_balanced 3 4 (SimKernel ∅ [0; 0; 0; - ENOMEM] ∅) ltac:(lia) ltac:(lia)) as H1.
  pose proof (alloc_free_balanced 3 4 kernel0 ltac:(lia) ltac:(lia)) as H2.
  destruct (kbuf_alloc_slots 3 4 (SimKernel ∅ [0; 0; 0; - ENOMEM] ∅)) as [[sa |] k'] eqn:E1;
    [by vm_compute in E1 |].
  destruct (kbuf_alloc_slots 3 4 kernel0) as [[sa |] k1] eqn:E2; [| by vm_compute in E2].
  exists k'. split; [done |]. split; [exact H1 |].
  destruct H2 as (_ & _ & _ & k2 & Hf & Hk). by exists sa, k1, k2.
Defined.

(** A user page holding the request "2 slots of 3 bytes" and some room. *)
Definition resize_user : simuser :=
  sim_put ∅ 0 (le_encode 4 2 ++ le_encode 4 3 ++ replicate 64 x00).

Definition demo_world (plan : list Z) : iworld simuser simkernel :=
  IWorld (node_dev demo_dev) resize_user (kernel_demo plan) 0.

Lemma demo_world_healthy plan : healthy (demo_world plan).
Proof.
  split; [exact node_demo_ok |]. split; [| by vm_compute].
  exists (SlotArray 10 [demo_slot 11 [x00; x00; x00; x00] 0; demo_slot 12 [x00; x00; x00; x00] 0]).
  split; [done |]. split.
  - apply (bool_decide_unpack _). by vm_compute.
  - intros p Hp. apply elem_of_cons in Hp as [-> | Hp]; [by vm_compute |].
    apply elem_of_cons in Hp as [-> | Hp]; [by vm_compute |].
    apply elem_of_cons in Hp as [-> | Hp]; [by vm_compute |].
    by apply elem_of_nil in Hp.
Qed.

(** The same request succeeds, or is refused for want of memory. *)
Lemma resize_exits_witness :
  (exists r w', kbuf_ioc_resize 0 (demo_world []) = Done (r, w') /\
                resize_exit (demo_world []) 0 r w' /\ r = 0) /\
  (exists r w', kbuf_ioc_resize 0 (demo_world [0; - ENOMEM]) = Done (r, w') /\
                resize_exit (demo_world [0; - ENOMEM]) 0 r w' /\ r = - ENOMEM).
Proof.
  split;
    [destruct (resize_exits (demo_world []) 0 (demo_world_healthy [])) as (r & w' & Hrun & He)
    | destruct (resize_exits (demo_world [0; - ENOMEM]) 0 (demo_world_healthy _))
        as (r & w' & Hrun & He)];
    exists r, w'; (split; [exact Hrun |]); (split; [exact He |]);
    apply (ret_of_done _ r w' _ Hrun); by vm_compute.
Defined.

(** The word at address 8 is 0: switch to blocking mode succeeds. *)
Lemma smode_exits_witness :
  exists d', kbuf_ioc_smode 8 (demo_world [])
             = Done (0, IWorld d' resize_user (kernel_demo []) 0) /\
             dev_ok d' /\ mode d' = KBUF_MODE_BLOCKING.
Proof.
  destruct (smode_exits (demo_world []) 8 node_demo_ok) as (r & d' & Hrun & Hok & _ & _ & Hr).
  assert (r = 0) as -> by (apply (ret_of_done _ r _ _ Hrun); by vm_compute).
  exists d'. split; [exact Hrun |]. split; [exact Hok |].
  destruct (proj1 Hr eq_refl) as (m & Hg & Hm & _). rewrite Hm. vm_compute in Hg. by injection Hg as <-.
Defined.

Lemma getstats_roundtrip_witness :
  exists w' bs, kbuf_ioc_getstats 0 (IWorld spsc_dev resize_user kernel0 0) = Done (0, w') /\
    user_bytes (i_user w') 0 sizeof_kbuf_stats = Some bs /\
    st_cur_count (kbuf_stats_of_bytes bs) = 1.
Proof.
  destruct (kbuf_ioc_getstats 0 (IWorld spsc_dev resize_user kernel0 0)) as [[r w'] | why] eqn:E;
    [| by vm_compute in E].
  assert (r = 0) as -> by (apply (ret_of_done _ r w' _ E); by vm_compute).
  destruct (getstats_roundtrip (IWorld spsc_dev resize_user kernel0 0) 0 w' spsc_dev_ok E)
    as (_ & bs & Hb & Hc).
  exists w', bs. split; [reflexivity |]. split; [exact Hb |]. rewrite Hc. by vm_compute.
Defined.

(** ** Where the code falls short *)

(** [KBUF_IOCRESET] means to restart the high-water mark from the current
    depth, but reads [dev->count], which SPSC mode leaves at zero: with a message
    queued the mark becomes 0, below the depth. *)
Theorem reset_peak_spsc d :
  dev_ok d -> mode d = KBUF_MODE_SPSC -> dev_queue d <> [] ->
  peak_count (reset_counters d) = 0 /\
  peak_count (reset_counters d) < kbuf_occupancy (reset_counters d).
Proof.
  intros Hok Hm Hq. pose proof Hok as (_ & Hr & _). apply ring_ok_spsc in Hr as (_ & _ & _ & Hc); [| done].
  assert (Hp : peak_count (reset_counters d) = 0) by (cbn; by rewrite Hc).
  split; [done |]. rewrite Hp. destruct (reset_counters_ok d Hok) as [Hok' Hq'].
  rewrite (occupancy_queue _ Hok'), Hq'. destruct (dev_queue d); [done |]. simpl. lia.
Qed.

Lemma reset_peak_spsc_witness :
  peak_count (reset_counters spsc_dev) = 0 /\
  peak_count (reset_counters spsc_dev) < kbuf_occupancy (reset_counters spsc_dev).
Proof. apply reset_peak_spsc; [exact spsc_dev_ok | reflexivity | by vm_compute]. Defined.

(** Three one-byte slots, freshly allocated. *)
Definition three_slots : slot_array :=
  SlotArray 20 [demo_slot 21 [x00] 0; demo_slot 22 [x00] 0; demo_slot 23 [x00] 0].

(** The device after a resize to three slots whose checks ran in blocking mode
    and whose locked section runs after another caller switched to SPSC. *)
Definition raced_dev : option kbuf_dev :=
  if resize_invalid (KbufResize 3 1) (mode demo_dev) then None
  else resize_swap three_slots (KbufResize 3 1) (smode_locked KBUF_MODE_SPSC demo_dev).2.

(** [kbuf_ioc_resize] checks mode against slot count before it takes the
    lock, so a mode switch in between yields an SPSC ring of three slots.  Its
    mask then maps two indices to one slot: two writes are accepted and the
    first read returns the bytes of the second. *)
Theorem resize_smode_race :
  exists d w, raced_dev = Some d /\
    mode d = KBUF_MODE_SPSC /\ is_power_of_2 (num_buffers d) = false /\
    ring_ops spsc_ring [RWrite 100 1; RWrite 101 1; RRead 105 1] (RWorld d demo_user [])
    = Done ([1; 1; 1], w) /\
    user_bytes (w_user w) 100 2 = Some [x61; x62] /\ user_bytes (w_user w) 105 1 = Some [x62].
Proof.
  eexists _, _. split; [by vm_compute |]. split; [done |]. split; [by vm_compute |].
  split; [by vm_compute |]. by vm_compute.
Qed.
