(* ===== verification/MmapProps.v ===== *)
(** * MmapProps: the zero-copy ring

    The aliasing of the double mapping, what [kbuf_mmap] accepts, the memory of
    the two areas, and the byte stream user space builds on them. *)

From S2P Require Import Prelude Kernel Uapi Device Alloc Mmap LibKbuf Samples IoctlProps.
#[local] Open Scope Z_scope.

(** ** Sequences of transfers *)
Inductive mop : Set :=
  | MWrite (bs : list byte)
  | MRead (n : Z).

Section ops.
Context `{Paging}.

(** Bytes accepted, bytes delivered, and the device afterwards. *)
Fixpoint map_ops (m : kbuf_map) (os : list mop) (d : kbuf_dev)
  : exec (list byte * list byte * kbuf_dev) :=
  match os with
  | [] => Done ([], [], d)
  | MWrite bs :: os' =>
    exec_bind (kbuf_map_write m bs d) (fun '(n, d1) =>
    exec_bind (map_ops m os' d1) (fun '(i, o, d2) => Done (take (Z.to_nat n) bs ++ i, o, d2)))
  | MRead n :: os' =>
    exec_bind (kbuf_map_read m n d) (fun '(_, bs, d1) =>
    exec_bind (map_ops m os' d1) (fun '(i, o, d2) => Done (i, bs ++ o, d2)))
  end.

Definition mop_ok (o : mop) : Prop := match o with MWrite _ => True | MRead n => 0 <= n end.
End ops.

Section props.
Context `{PagingLaws}.

Lemma map_ops_stream base os d c buf :
  map_ok d c buf -> Forall mop_ok os ->
  exists i o d' c' buf', map_ops (user_map base) os d = Done (i, o, d') /\ map_ok d' c' buf' /\
    map_stream d ++ i = o ++ map_stream d' /\ ring_ptrs c' buf' = ring_ptrs c buf.
Proof.
  revert d c buf. induction os as [| op os IH]; intros d c buf Hok Hall.
  { exists [], [], d, c, buf. by rewrite app_nil_r. }
  apply Forall_cons in Hall as [Hop Hall]. destruct op as [bs | n]; cbn [map_ops].
  - destruct (kbuf_map_write_spec base bs d c buf Hok) as (d1 & c1 & buf1 & -> & Hok1 & Hs & _ & <-).
    destruct (IH d1 c1 buf1 Hok1 Hall) as (i & o & d' & c' & buf' & Hr & Hok' & Hq & Hp).
    cbn [exec_bind]. rewrite Hr. cbn [exec_bind]. eexists _, o, d', c', buf'.
    split; [done |]. split; [done |]. split; [| done]. rewrite <- Hq, Hs. by rewrite <- app_assoc.
  - destruct (kbuf_map_read_spec base n d c buf Hok Hop) as (d1 & c1 & -> & Hok1 & Hs & _ & <-).
    destruct (IH d1 c1 buf Hok1 Hall) as (i & o & d' & c' & buf' & Hr & Hok' & Hq & Hp).
    cbn [exec_bind]. rewrite Hr. cbn [exec_bind]. eexists i, _, d', c', buf'.
    split; [done |]. split; [done |]. split; [| done].
    rewrite <- app_assoc, <- Hq, Hs, app_assoc. f_equal.
    by rewrite take_drop.
Qed.

(** The two halves of the mapping are one memory: byte [x] of the first
    copy and of the second resolve to the same page, and what is stored
    through either is what is loaded through both. *)
Theorem double_mapping d c buf x b :
  mapped d c buf -> 0 <= x < KBUF_MMAP_CAPACITY ->
  resolve d (PAGE_SIZE + x) = resolve d (PAGE_SIZE + (x + KBUF_MMAP_CAPACITY)) /\
  exists d', map_store d (PAGE_SIZE + x) b = Some d' /\
    map_store d (PAGE_SIZE + (x + KBUF_MMAP_CAPACITY)) b = Some d' /\
    map_load d' (PAGE_SIZE + x) = Some b /\
    map_load d' (PAGE_SIZE + (x + KBUF_MMAP_CAPACITY)) = Some b.
Proof.
  intros Hm Hx.
  assert (Hwrap : (x + KBUF_MMAP_CAPACITY) mod KBUF_MMAP_CAPACITY = x mod KBUF_MMAP_CAPACITY)
    by (rewrite <- (Z.mul_1_l KBUF_MMAP_CAPACITY) at 1; by apply Z.mod_add).
  split.
  - pose proof (resolve_data d c buf x Hm ltac:(lia)) as (i & -> & Hi).
    pose proof (resolve_data d c buf (x + KBUF_MMAP_CAPACITY) Hm ltac:(lia)) as (j & -> & Hj).
    assert (Hpg : (x + KBUF_MMAP_CAPACITY) mod PAGE_SIZE = x mod PAGE_SIZE).
    { destruct page_divides as [m ->]. apply Z.mod_add. pose proof page_pos. lia. }
    rewrite Hwrap, Hpg in *. pose proof page_pos.
    assert (i = j) as -> by nia. done.
  - rewrite !(map_store_data d c buf _ b Hm) by lia. rewrite Hwrap. eexists.
    split; [done |]. split; [done |].
    set (l := <[_ := b]> (kb_bytes buf)).
    assert (Hm' : mapped (d <| mmap_data := Some (KBuffer (kb_ptr buf) l) |>) c (KBuffer (kb_ptr buf) l))
      by (apply mapped_write; [done | apply length_insert]).
    rewrite !(map_load_data _ _ _ _ Hm'), Hwrap by lia. cbn [kb_bytes].
    assert (Hlk : l !! Z.to_nat (x mod KBUF_MMAP_CAPACITY) = Some b).
    { apply list_lookup_insert_eq. destruct Hm as [_ _ Hl _].
      pose proof (Z.mod_pos_bound x KBUF_MMAP_CAPACITY ltac:(done)). lia. }
    by rewrite Hlk.
Qed.

(** [kbuf_mmap] accepts a request exactly when it is for the whole region
    at offset 0, which is the one [kbuf_map_open] makes, and leaves a refused
    area untouched. *)
Theorem mmap_accepts dev vma base :
  ((kbuf_mmap dev vma).1 = 0 <->
   vm_pgoff vma = 0 /\ vm_end vma - vm_start vma = PAGE_SIZE + 2 * KBUF_MMAP_CAPACITY) /\
  ((kbuf_mmap dev vma).1 <> 0 -> kbuf_mmap dev vma = (- EINVAL, vma)) /\
  kbuf_map_open dev base = Some (user_map base).
Proof.
  unfold kbuf_map_open, sys_mmap, kbuf_mmap, kbuf_mmap_len. cbn [vm_start vm_end vm_pgoff].
  replace (base + (PAGE_SIZE + 2 * KBUF_MMAP_CAPACITY) - base)
    with (PAGE_SIZE + 2 * KBUF_MMAP_CAPACITY) by lia.
  rewrite !Z.eqb_refl. cbn [negb fst]. split; [| split; [| done]].
  - destruct (Z.eqb_spec (vm_pgoff vma) 0), (Z.eqb_spec (vm_end vma - vm_start vma)
      (PAGE_SIZE + 2 * KBUF_MMAP_CAPACITY)); cbn; unfold EINVAL; split; lia.
  - by destruct (vm_pgoff vma =? 0), (vm_end vma - vm_start vma =? _).
Qed.

(** C30: [kbuf_map_write] copies as many bytes as fit, in one contiguous copy
    that never leaves the mapping, and appends exactly them to the stream,
    whatever the 64-bit counters hold. *)
Theorem map_write_refines base bs d c buf :
  map_ok d c buf ->
  let n := Z.min (Z.of_nat (length bs)) (KBUF_MMAP_CAPACITY - Z.of_nat (length (map_stream d))) in
  exists d' c' buf', kbuf_map_write (user_map base) bs d = Done (n, d') /\ map_ok d' c' buf' /\
    map_stream d' = map_stream d ++ take (Z.to_nat n) bs /\ tail c' = tail c.
Proof.
  intros Hok n. destruct (kbuf_map_write_spec base bs d c buf Hok) as (d' & c' & b' & ? & ? & ? & ? & _).
  by exists d', c', b'.
Qed.

(** [kbuf_map_read] delivers the oldest bytes of the stream, as many as
    there are up to the caller's limit, and removes exactly them. *)
Theorem map_read_refines base n0 d c buf :
  map_ok d c buf -> 0 <= n0 ->
  let n := Z.min n0 (Z.of_nat (length (map_stream d))) in
  exists d' c', kbuf_map_read (user_map base) n0 d
                = Done (n, take (Z.to_nat n) (map_stream d), d') /\
    map_ok d' c' buf /\ map_stream d' = drop (Z.to_nat n) (map_stream d) /\ head c' = head c.
Proof.
  intros Hok Hn n. destruct (kbuf_map_read_spec base n0 d c buf Hok Hn) as (d' & c' & ? & ? & ? & ? & _).
  by exists d', c'.
Qed.
End props.

Section memory.
Context {K : Type} {kk : Kernel K} {kl : KernelLaws K} `{PagingLaws}.

(** From the allocation of the two areas to their release: any sequence of
    transfers in between delivers the accepted bytes in order, and the release
    gives back exactly the two areas. *)
Theorem map_lifetime base os d (k k1 : K) d1 :
  kbuf_mmap_dev_alloc d k = (0, d1, k1) -> Forall mop_ok os ->
  exists i o d2, map_ops (user_map base) os d1 = Done (i, o, d2) /\
    i = o ++ map_stream d2 /\
    k_held (kbuf_mmap_dev_free d2 k1).2 = k_held k /\
    mmap_ctrl (kbuf_mmap_dev_free d2 k1).1 = None /\
    mmap_data (kbuf_mmap_dev_free d2 k1).1 = None.
Proof.
  intros Ha Hall. pose proof (kbuf_mmap_dev_alloc_spec d k) as Hs. rewrite Ha in Hs.
  destruct Hs as (_ & [(_ & c & buf & Hm & _ & Hh & Ht & _ & Hf & Hk) | (E & _)]); [| done].
  destruct (alloc_stream d1 c buf Hm Hh Ht) as [Hok Hnil].
  destruct (map_ops_stream base os d1 c buf Hok Hall) as (i & o & d2 & c2 & buf2 & Hr & Hok2 & Hq & Hpt).
  exists i, o, d2. split; [done |]. rewrite Hnil in Hq. split; [done |].
  pose proof (kbuf_mmap_dev_free_spec d2 c2 buf2 k1 (mo_mapped _ _ _ Hok2)) as Hfree. rewrite Hpt, Hk in Hfree.
  specialize (Hfree ltac:(apply held_batch_add, Hf)).
  destruct (kbuf_mmap_dev_free d2 k1) as [d3 k3]. destruct Hfree as (-> & Hk3 & _).
  split; [| done]. cbn [snd]. rewrite Hk3. by apply ledger_del_add.
Qed.
End memory.

(** ** Concrete runs *)
Definition zero_ring (p : Z) : kbuffer :=
  KBuffer p (replicate (Z.to_nat KBUF_MMAP_CAPACITY) x00).

(** A ring whose counters are about to wrap at 2^64, and with them its offset,
    holding two bytes. *)
Definition wrap_ctrl : kbuf_mmap_ctrl :=
  KbufMmapCtrl 50 18446744073709551614 18446744073709551612 KBUF_MMAP_CAPACITY.

Definition wrap_dev : kbuf_dev :=
  zero_dev <| mmap_ctrl := Some wrap_ctrl |> <| mmap_data := Some (zero_ring 51) |>.

Lemma wrap_mapped : mapped wrap_dev wrap_ctrl (zero_ring 51).
Proof.
  split; [reflexivity | reflexivity | | done]. cbn [kb_bytes zero_ring].
  by rewrite length_replicate, Z2Nat.id.
Qed.

Lemma wrap_ok : map_ok wrap_dev wrap_ctrl (zero_ring 51).
Proof. split; [exact wrap_mapped | done | done | done]. Qed.

Lemma double_mapping_witness :
  exists d', map_store wrap_dev (4096 + 5) x61 = Some d' /\
             map_load d' (4096 + (5 + 65536)) = Some x61.
Proof.
  destruct (double_mapping wrap_dev wrap_ctrl (zero_ring 51) 5 x61 wrap_mapped)
    as (_ & d' & H1 & _ & _ & H2); [by unfold KBUF_MMAP_CAPACITY |].
  exists d'. split; [exact H1 | exact H2].
Defined.

(** Six bytes, of which two end the ring and four start it again. *)
Lemma map_write_refines_witness :
  exists d', kbuf_map_write (user_map 0) [x61; x62; x63; x64; x65; x66] wrap_dev = Done (6, d') /\
             map_stream d' = [x00; x00; x61; x62; x63; x64; x65; x66].
Proof.
  destruct (map_write_refines 0 [x61; x62; x63; x64; x65; x66] wrap_dev wrap_ctrl (zero_ring 51) wrap_ok)
    as (d' & c' & buf' & Hrun & _ & Hs & _).
  assert (E : map_stream wrap_dev = [x00; x00]) by (by vm_compute). rewrite E in *.
  exists d'. split; [exact Hrun |]. rewrite Hs. by vm_compute.
Defined.

Lemma map_read_refines_witness :
  exists d', kbuf_map_read (user_map 0) 9 wrap_dev = Done (2, [x00; x00], d') /\ map_stream d' = [].
Proof.
  destruct (map_read_refines 0 9 wrap_dev wrap_ctrl (zero_ring 51) wrap_ok ltac:(lia))
    as (d' & c' & Hrun & _ & Hs & _).
  assert (E : map_stream wrap_dev = [x00; x00]) by (by vm_compute). rewrite E in *.
  exists d'. split; [exact Hrun | exact Hs].
Defined.

Definition fresh_ring : kbuf_dev * simkernel :=
  let '(_, d, k) := kbuf_mmap_dev_alloc zero_dev kernel0 in (d, k).

Lemma fresh_ring_alloc : kbuf_mmap_dev_alloc zero_dev kernel0 = (0, fresh_ring.1, fresh_ring.2).
Proof.
  assert (E : (kbuf_mmap_dev_alloc zero_dev kernel0).1.1 = 0) by (by vm_compute).
  unfold fresh_ring. destruct (kbuf_mmap_dev_alloc zero_dev kernel0) as [[r d] k].
  cbn [fst snd] in *. by rewrite E.
Qed.

Lemma map_lifetime_witness :
  exists d2, map_ops (user_map 0) [MWrite [x61; x62; x63]; MRead 2] fresh_ring.1
             = Done ([x61; x62; x63], [x61; x62], d2) /\
             k_held (kbuf_mmap_dev_free d2 fresh_ring.2).2 = ∅.
Proof.
  destruct (map_lifetime 0 [MWrite [x61; x62; x63]; MRead 2] zero_dev kernel0
              fresh_ring.2 fresh_ring.1)
    as (i & o & d2 & Hrun & Hi & Hk & _); [exact fresh_ring_alloc | |].
  { repeat first [apply List.Forall_nil | apply List.Forall_cons]; cbn; [done | lia]. }
  assert (i = [x61; x62; x63] /\ o = [x61; x62]) as [-> ->].
  { pose proof (ret_of_done _ (i, o) d2 ([x61; x62; x63], [x61; x62]) Hrun) as E.
    split; [apply (f_equal fst) in E | apply (f_equal snd) in E]; try exact E; by vm_compute. }
  exists d2. split; [exact Hrun | exact Hk].
Defined.
