(* ===== verification/DispatchProps.v ===== *)
(** * DispatchProps: the ioctl interface as a caller sees it

    The dispatcher over all six commands, on a device that has not been
    destroyed: it never goes wrong, it answers zero or an errno, and it leaves the
    open file's device usable.  Then what the two dma-buf commands do, down to the
    pages, and that an export of a destroyed device reads freed memory. *)

From S2P Require Import Prelude Kernel Uapi Device Alloc Mmap Ctl CtlFacts DmaBuf.
From S2P Require Import Ring RingFacts RingSpec Samples RingProps Ioctl Dispatch IoctlProps MmapProps.
#[local] Open Scope Z_scope.

(** What a system call hands back when it has no count to report. *)
Definition answer (r : Z) : Prop := r = 0 \/ is_errno r.

Ltac errno := unfold answer, is_errno, EINVAL, EFAULT, EBUSY, ENOMEM, ENOTTY, EBADF, EIO in *; lia.

Section handlers.
Context {U K : Type} {ua : UAccess U} {ual : UAccessLaws U} {kk : Kernel K} {kl : KernelLaws K}.
Implicit Types (w : iworld U K) (d : kbuf_dev).

(** The fields the handlers of Ioctl.v leave alone. *)
Definition same_areas d d' : Prop :=
  mmap_data d' = mmap_data d /\ mmap_ctrl d' = mmap_ctrl d /\ dynamic d' = dynamic d /\ ref d' = ref d.

(** A handler that always returns, with an answer, and keeps its device. *)
Definition sound (h : prog (iworld U K) Z) : Prop := forall w,
  healthy w -> exists r w', h w = Done (r, w') /\ answer r /\ healthy w' /\ same_areas (i_dev w) (i_dev w').

Lemma getstats_sound arg : sound (kbuf_ioc_getstats arg).
Proof.
  intros w Hw. unfold kbuf_ioc_getstats. destruct (copy_to_user _ _ _) as [u' missed].
  eexists _, _. split; [done |]. split; [destruct (missed =? 0); errno | done].
Qed.

Lemma reset_sound : sound kbuf_ioc_reset.
Proof.
  intros w (Hok & Ho & Hn). eexists _, _. split; [done |]. split; [errno |].
  split; [| done]. split_and!; [by apply reset_counters_ok | exact Ho | exact Hn].
Qed.

Lemma smode_sound arg : sound (kbuf_ioc_smode arg).
Proof.
  intros w Hw. pose proof Hw as (Hok & Ho & Hn). unfold kbuf_ioc_smode. destruct (get_user (i_user w) arg) as [m |].
  2: { eexists _, _. split; [done |]. split; [errno | done]. }
  destruct (_ && _) eqn:Hm; [eexists _, _; split; [done |]; split; [errno | done] |].
  assert (Hmode : m = KBUF_MODE_BLOCKING \/ m = KBUF_MODE_SPSC) by (unfold KBUF_MODE_BLOCKING, KBUF_MODE_SPSC in *; lia).
  pose proof (smode_locked_ok m (i_dev w) Hok Hmode) as Hs. unfold smode_locked in *.
  destruct (negb (kbuf_occupancy _ =? 0)); [| destruct ((m =? KBUF_MODE_SPSC) && negb (is_power_of_2 _))];
    (eexists _, _; split; [done |]; split; [errno |]; split; [split_and!; [apply Hs | done | done] | done]).
Qed.

Lemma resize_frame arg w r w' :
  kbuf_ioc_resize arg w = Done (r, w') -> answer r /\ same_areas (i_dev w) (i_dev w').
Proof.
  unfold kbuf_ioc_resize. destruct (copy_from_user _ _ _) as [bs missed].
  destruct (negb _); [intros [= <- <-]; split; [errno | done] |].
  destruct (resize_invalid _ _); [intros [= <- <-]; split; [errno | done] |].
  destruct (kbuf_alloc_slots _ _ _) as [[new |] k1]; [| intros [= <- <-]; split; [errno | done]].
  unfold resize_swap. destruct (negb _).
  - destruct (kbuf_free_slots _ _ _); [| done]. intros [= <- <-]. split; [errno | done].
  - destruct (kbuf_free_slots _ _ _); [| done]. cbn [exec_bind]. destruct (node_live _ _); [| done].
    intros [= <- <-]. split; [errno | done].
Qed.

Lemma resize_sound arg : sound (kbuf_ioc_resize arg).
Proof.
  intros w Hw. destruct (kbuf_ioc_resize_exits w arg Hw) as (r & w' & Hrun & He).
  exists r, w'. destruct (resize_frame _ _ _ _ Hrun) as [Hr Hs].
  split_and!; [done | done | by destruct He | done | ..]; apply Hs.
Qed.
End handlers.

#[export] Hint Resolve getstats_sound reset_sound smode_sound resize_sound : kbuf.

(** ** Open files *)
Section files.
Context {U K : Type} {ua : UAccess U} {ual : UAccessLaws U} {kk : Kernel K} {kl : KernelLaws K}.
Context `{IocLaws} `{PagingLaws}.
Implicit Types (w : fworld U K) (d : kbuf_dev).

(** A device whose mmap ring is in place. *)
Definition ring_at (c : cworld K) (q : Z) : Prop :=
  exists d ctl ring, c_heap c !! q = Some d /\ mapped d ctl ring.

(** The device at [p] as the handlers see it. *)
Definition view w d : iworld U K := IWorld d (f_user w) (c_kern (f_c w)) (f_woken w).

(** The file refers to a live device with a ring, a reference of its own if the
    device is dynamic, and so does every buffer the caller has open. *)
Record file_ok (p : Z) w : Prop := {
  fo_dev : exists d, c_heap (f_c w) !! p = Some d /\ healthy (view w d) /\
                     (dynamic d = true -> 1 <= ref d);
  fo_ring : ring_at (f_c w) p;
  fo_bufs fd h q : f_fds w !! fd = Some (FdKbuf h q) -> ring_at (f_c w) q
}.

(** Replacing a device by one with the same ring areas. *)
Lemma ring_at_insert (c : cworld K) p q d d' k :
  c_heap c !! p = Some d -> (forall ctl ring, mapped d ctl ring -> exists ring', mapped d' ctl ring') ->
  ring_at c q -> ring_at (c <| c_heap := <[p := d']> (c_heap c) |> <| c_kern := k |>) q.
Proof.
  intros E Hm (d0 & ctl & ring & E0 & M0). unfold ring_at. cbn.
  destruct (decide (p = q)) as [-> | Hne].
  - rewrite E in E0. injection E0 as <-. destruct (Hm _ _ M0) as [ring' M'].
    exists d', ctl, ring'. by rewrite lookup_insert_eq.
  - exists d0, ctl, ring. by rewrite lookup_insert_ne.
Qed.

Lemma same_areas_mapped d d' ctl ring : same_areas d d' -> mapped d ctl ring -> mapped d' ctl ring.
Proof. intros (E1 & E2 & _) []. by split; congruence. Qed.

Lemma on_dev_ok p h w :
  sound h -> file_ok p w -> exists r w', on_dev p h w = Done (r, w') /\ answer r /\ file_ok p w'.
Proof.
  intros Hh [(d & E & Hw & Hr) Hring Hbufs]. unfold on_dev. rewrite E.
  destruct (Hh _ Hw) as (r & iw & Hrun & Ha & Hw' & Hs). unfold view in Hrun. rewrite Hrun. cbn [exec_bind].
  eexists _, _. split; [done |]. split; [done |].
  pose proof (fun q => ring_at_insert (f_c w) p q d (i_dev iw) (i_kern iw) E
                (fun ctl ring M => ex_intro _ ring (same_areas_mapped _ _ _ _ Hs M))) as Hkeep.
  split; cbn [f_c f_fds].
  - exists (i_dev iw). split; [apply lookup_insert_eq |]. split; [by destruct iw |].
    destruct Hs as (_ & _ & -> & ->). exact Hr.
  - by apply Hkeep.
  - intros fd h' q Hq. apply Hkeep. by eapply Hbufs.
Qed.

(** A ledger with one more fresh entry serves the device as before. *)
Lemma healthy_grow d d' u (k k' : K) n h rk :
  healthy (IWorld d u k n : iworld U K) -> k_held k !! h = None -> k_held k' = <[h := rk]> (k_held k) ->
  dev_ok d' -> slots d' = slots d -> dev_node d' = dev_node d -> forall u' n',
  healthy (IWorld d' u' k' n' : iworld U K).
Proof.
  intros (_ & (sa & Hs & Hnd & Hall) & Hn) Hh Hk Hok Es Ed u' n'. unfold healthy, owns, node_live in *.
  cbn [i_dev i_kern] in *. rewrite Es, Ed, Hk. apply bool_decide_eq_true in Hn.
  split; [done |]. split.
  - exists sa. split; [done |]. split; [done |]. intros q Hq. rewrite lookup_insert_ne; [by apply Hall |].
    intros ->. specialize (Hall _ Hq). congruence.
  - apply bool_decide_eq_true. rewrite lookup_insert_ne; [done | congruence].
Qed.

Lemma pinned_ok d : dev_ok d -> dev_ok (pinned d) /\ slots (pinned d) = slots d /\ dev_node (pinned d) = dev_node d.
Proof. unfold pinned. destruct (dynamic d); [| done]. intros Hok. split; [| done]. by apply (dev_ok_same d). Qed.

Lemma pinned_mapped d ctl ring : mapped d ctl ring -> mapped (pinned d) ctl ring.
Proof. unfold pinned. destruct (dynamic d); [| done]. intros []. by split. Qed.

(** Both outcomes of the export command. *)
Definition exported (p arg : Z) w d w' : Prop :=
  exists fd h, 0 <= fd < 2 ^ 31 /\ put_user (f_user w) arg fd = Some (f_user w') /\
    f_fds w' = <[fd := FdKbuf h p]> (f_fds w) /\
    k_held (c_kern (f_c w)) !! h = None /\
    k_held (c_kern (f_c w')) = <[h := RkDmaBuf]> (k_held (c_kern (f_c w))) /\
    c_heap (f_c w') = <[p := pinned d]> (c_heap (f_c w)) /\
    c_names (f_c w') = <[h := dev_node d]> (c_names (f_c w)).

Definition unchanged w w' : Prop :=
  f_user w' = f_user w /\ f_fds w' = f_fds w /\ f_woken w' = f_woken w /\
  c_heap (f_c w') = c_heap (f_c w) /\ k_held (c_kern (f_c w')) = k_held (c_kern (f_c w)).

Lemma ioc_export_run p arg w d :
  c_heap (f_c w) !! p = Some d -> node_live (c_kern (f_c w)) d = true -> (dynamic d = true -> 1 <= ref d) ->
  exists r w', kbuf_ioc_export p arg w = Done (r, w') /\ c_list (f_c w') = c_list (f_c w) /\
    k_ida (c_kern (f_c w')) = k_ida (c_kern (f_c w)) /\
    ((r = 0 /\ exported p arg w d w') \/ (is_errno r /\ unchanged w w')).
Proof.
  intros E Hnode Hr. unfold kbuf_ioc_export.
  destruct (export_run p d (f_c w) E Hnode Hr) as (res & c1 & Hrun & Hi & Hl & Hres). rewrite Hrun. cbn [exec_bind].
  destruct res as [[fd h] | e].
  2: { destruct Hres as (He & Hk & Hh). eexists _, _. split; [done |]. split_and!; [done | done |].
       right. by split. }
  destruct Hres as (Hfd & Hn & Hk & Hh & Hnm).
  destruct (put_user (f_user w) arg fd) as [u' |] eqn:Hu.
  - eexists _, _. split; [done |]. split_and!; [done | done |]. left. split; [done |].
    exists fd, h. split; [exact Hfd |]. by split_and!.
  - rewrite (put_run p h d c1 Hr) by (by rewrite Hh, lookup_insert_eq). cbn [exec_bind].
    destruct (release_ok RkDmaBuf h (c_kern c1)) as [Hk2 Hi2]; [by rewrite Hk, lookup_insert_eq |].
    eexists _, _. split; [done |]. split; [done |]. cbn. split; [by rewrite Hi2 |].
    right. split; [errno |]. split_and!; try done; cbn.
    + by rewrite Hh, insert_insert_eq, insert_id.
    + by rewrite Hk2, Hk, delete_insert_id.
Qed.

Lemma ring_at_heap (c c' : cworld K) q : c_heap c' = c_heap c -> ring_at c q -> ring_at c' q.
Proof. unfold ring_at. by intros ->. Qed.

Lemma unchanged_ok p w w' : unchanged w w' -> file_ok p w -> file_ok p w'.
Proof.
  intros (Hu & Hf & Hn & Hh & Hk) [(d & E & Hw & Hr) Hring Hbufs].
  pose proof (fun q => ring_at_heap (f_c w) (f_c w') q Hh) as Hkeep.
  split; [| by apply Hkeep | rewrite Hf; intros; apply Hkeep; by eapply Hbufs].
  exists d. rewrite Hh. split; [done |]. split; [| done].
  eapply (intact_healthy (view w d)); [| done]. by split_and!.
Qed.

Lemma exported_ok p arg w d w' :
  file_ok p w -> c_heap (f_c w) !! p = Some d -> exported p arg w d w' -> file_ok p w'.
Proof.
  intros [(d0 & E0 & Hw & Hr) Hring Hbufs] E (fd & h & _ & _ & Hf & Hn & Hk & Hh & _).
  rewrite E in E0. injection E0 as <-. pose proof (pinned_ok d (proj1 Hw)) as (Hok & Es & Ed).
  assert (Hkeep : forall q, ring_at (f_c w) q -> ring_at (f_c w') q).
  { intros q Hq. eapply (ring_at_heap ((f_c w) <| c_heap := <[p := pinned d]> (c_heap (f_c w)) |>
                                        <| c_kern := c_kern (f_c w) |>)); [exact Hh |].
    apply (ring_at_insert _ p q d _ _ E); [| done].
    intros ctl ring M. exists ring. by apply pinned_mapped. }
  split.
  - exists (pinned d). rewrite Hh, lookup_insert_eq. split; [done |]. split.
    + by eapply healthy_grow; [exact Hw | ..].
    + rewrite pinned_dynamic. unfold pinned. intros Hd. rewrite Hd. cbn. specialize (Hr Hd). lia.
  - by apply Hkeep.
  - rewrite Hf. intros fd' h' q. destruct (decide (fd = fd')) as [-> | Hne].
    + rewrite lookup_insert_eq. intros [= <- <-]. by apply Hkeep.
    + rewrite lookup_insert_ne by done. intros Hq. apply Hkeep. by eapply Hbufs.
Qed.

(** Both outcomes of the import command on a buffer of the device at [q]. *)
Definition echoed (q : Z) (ring : kbuffer) d w w' : Prop :=
  f_user w' = f_user w /\ f_fds w' = f_fds w /\ f_woken w' = f_woken w /\
  k_held (c_kern (f_c w')) = k_held (c_kern (f_c w)) /\
  c_heap (f_c w') = <[q := d <| mmap_data := Some (KBuffer (kb_ptr ring) (echo_word (kb_bytes ring))) |>]>
                      (c_heap (f_c w)).

Lemma ioc_import_run arg w fd h q d ctl ring :
  get_user (f_user w) arg = Some fd -> f_fds w !! fd = Some (FdKbuf h q) ->
  c_heap (f_c w) !! q = Some d -> mapped d ctl ring ->
  exists r w', kbuf_ioc_import arg w = Done (r, w') /\
    ((r = 0 /\ echoed q ring d w w') \/ (is_errno r /\ unchanged w w')).
Proof.
  intros Hu Hf E M. unfold kbuf_ioc_import. rewrite Hu, Hf, E.
  destruct (import_run _ d _ (kbuf_exporter d ctl ring M) (c_kern (f_c w))) as (r & d' & k' & Hrun & Hk & _ & Hr).
  rewrite Hrun. cbn [exec_bind]. eexists _, _. split; [done |].
  destruct Hr as [[-> ->] | [He ->]]; [left; by split | right].
  split; [done |]. split_and!; try done. cbn. by apply insert_id.
Qed.

(** On a buffer of another driver. *)
Lemma ioc_import_foreign arg w fd :
  get_user (f_user w) arg = Some fd -> f_fds w !! fd = Some FdForeign ->
  exists r w', kbuf_ioc_import arg w = Done (r, w') /\ answer r /\ unchanged w w' /\
    c_list (f_c w') = c_list (f_c w) /\ k_ida (c_kern (f_c w')) = k_ida (c_kern (f_c w)).
Proof.
  intros Hu Hf. unfold kbuf_ioc_import. rewrite Hu, Hf.
  destruct (import_run _ tt _ foreign_exporter (c_kern (f_c w))) as (r & [] & k' & Hrun & Hk & Hi & Hr).
  rewrite Hrun. cbn [exec_bind]. eexists _, _. split; [done |].
  split; [destruct Hr as [[-> _] | [? _]]; [by left | by right] |]. by split.
Qed.

Lemma length_echo bs : (8 <= length bs)%nat -> length (echo_word bs) = length bs.
Proof. intros Hl. unfold echo_word. rewrite !length_app, !length_take, length_drop. lia. Qed.

Lemma echo_mapped d ctl ring :
  mapped d ctl ring ->
  mapped (d <| mmap_data := Some (KBuffer (kb_ptr ring) (echo_word (kb_bytes ring))) |>) ctl
         (KBuffer (kb_ptr ring) (echo_word (kb_bytes ring))).
Proof.
  intros M. apply mapped_write; [done |]. apply length_echo.
  pose proof (mp_len _ _ _ M). unfold KBUF_MMAP_CAPACITY in *. lia.
Qed.

Lemma echoed_ok p q ring d w w' ctl :
  file_ok p w -> c_heap (f_c w) !! q = Some d -> mapped d ctl ring -> echoed q ring d w w' -> file_ok p w'.
Proof.
  intros [(d0 & E0 & Hw & Hr) Hring Hbufs] E M (Hu & Hf & Hn & Hk & Hh).
  set (d' := d <| mmap_data := Some _ |>) in Hh.
  assert (Hkeep : forall x, ring_at (f_c w) x -> ring_at (f_c w') x).
  { intros x Hx. eapply (ring_at_heap ((f_c w) <| c_heap := <[q := d']> (c_heap (f_c w)) |>
                                        <| c_kern := c_kern (f_c w) |>)); [exact Hh |].
    apply (ring_at_insert _ q x d _ _ E); [| done]. intros ctl0 ring0 M0. eexists.
    assert (ring0 = ring) as -> by (destruct M, M0; congruence). by apply echo_mapped. }
  split; [| by apply Hkeep | rewrite Hf; intros; apply Hkeep; by eapply Hbufs].
  destruct (decide (q = p)) as [-> | Hne].
  - rewrite E in E0. injection E0 as <-. exists d'. rewrite Hh, lookup_insert_eq.
    split; [done |]. split; [| done]. destruct Hw as (Hok & Ho & Hnode).
    unfold healthy, owns, node_live, view in *. cbn [i_dev i_kern] in *. rewrite Hk.
    split; [by apply (dev_ok_same d) | done].
  - exists d0. rewrite Hh, lookup_insert_ne by done. split; [done |]. split; [| done].
    eapply (intact_healthy (view w d0)); [| done]. by split_and!.
Qed.

(** ** The dispatcher *)
Lemma import_ok p arg w :
  file_ok p w -> exists r w', kbuf_ioc_import arg w = Done (r, w') /\ answer r /\ file_ok p w'.
Proof.
  intros Hok. destruct (get_user (f_user w) arg) as [fd |] eqn:Hu;
    [destruct (f_fds w !! fd) as [[h q | |] |] eqn:Hf |].
  1: { destruct (fo_bufs _ _ Hok _ _ _ Hf) as (d & ctl & ring & E & M).
       destruct (ioc_import_run arg w fd h q d ctl ring Hu Hf E M) as (r & w' & Hrun & Hr).
       exists r, w'. split; [done |]. destruct Hr as [[-> He] | [He Hs]].
       - split; [errno | by eapply echoed_ok].
       - split; [by right | by eapply unchanged_ok]. }
  1: { destruct (ioc_import_foreign arg w fd Hu Hf) as (r & w' & Hrun & Ha & Hs & _).
       exists r, w'. split; [done |]. split; [done | by eapply unchanged_ok]. }
  all: unfold kbuf_ioc_import; rewrite Hu, ?Hf; eexists _, _; split; [done |]; split; [errno | done].
Qed.

Lemma export_ok p arg w :
  file_ok p w -> exists r w', kbuf_ioc_export p arg w = Done (r, w') /\ answer r /\ file_ok p w'.
Proof.
  intros Hok. destruct (fo_dev _ _ Hok) as (d & E & (_ & _ & Hnode) & Hr).
  destruct (ioc_export_run p arg w d E Hnode Hr) as (r & w' & Hrun & _ & _ & Hres).
  exists r, w'. split; [done |]. destruct Hres as [[-> He] | [He Hs]].
  - split; [errno | by eapply exported_ok].
  - split; [by right | by eapply unchanged_ok].
Qed.

Lemma kbuf_ioctl_ok p cmd arg w :
  file_ok p w -> exists r w', kbuf_ioctl p cmd arg w = Done (r, w') /\ answer r /\ file_ok p w'.
Proof.
  intros Hok. unfold kbuf_ioctl.
  assert (Hno : exists r w', p_ret (- ENOTTY) w = Done (r, w') /\ answer r /\ file_ok p w')
    by (eexists _, _; split; [done |]; split; [errno | done]).
  repeat case_match; eauto using on_dev_ok, export_ok, import_ok with kbuf.
Qed.

(** A caller's sequence of ioctls on one file. *)
Fixpoint ioctls (p : Z) (cs : list (Z * Z)) : prog (fworld U K) (list Z) :=
  match cs with
  | [] => p_ret []
  | (cmd, arg) :: cs' => r <-- kbuf_ioctl p cmd arg ;; rs <-- ioctls p cs' ;; p_ret (r :: rs)
  end.

Lemma ioctls_ok p cs w :
  file_ok p w -> exists rs w', ioctls p cs w = Done (rs, w') /\ Forall answer rs /\
    length rs = length cs /\ file_ok p w'.
Proof.
  revert w. induction cs as [| [cmd arg] cs IH]; intros w Hok; cbn [ioctls].
  { exists [], w. split_and!; [done | apply List.Forall_nil | done | done]. }
  destruct (kbuf_ioctl_ok p cmd arg w Hok) as (r & w1 & Hr & Ha & Hok1).
  destruct (IH w1 Hok1) as (rs & w2 & Hrs & Hall & Hl & Hok2).
  unfold p_bind. rewrite Hr. cbn [exec_bind]. rewrite Hrs. eexists _, _. split; [done |].
  split_and!; [by apply List.Forall_cons | cbn; by rewrite Hl | done].
Qed.

(** C26: any sequence of ioctls with any command numbers and arguments, on a file
    whose device is well-formed and has not been destroyed, so that its node is
    still there: no call goes wrong, each answers 0 or an errno, and the device,
    its slots and node in the ledger, its ring and the rings behind the caller's
    dma-bufs are all still in order.  The caller's descriptors can be buffers of
    this driver, dma-bufs of other drivers and other files. *)
Theorem ioctl_safe p cs w :
  file_ok p w ->
  exists rs w', ioctls p cs w = Done (rs, w') /\ Forall answer rs /\ length rs = length cs /\ file_ok p w'.
Proof. apply ioctls_ok. Qed.

(** The dispatcher tells its six commands apart under any encoding of
    command numbers that decodes, and everything else is -ENOTTY without
    effect: a foreign type, a number of 0 or above the last, and a known number
    with another direction or size. *)
Theorem ioctl_dispatch p arg w :
  kbuf_ioctl p KBUF_IOCGSTATS arg w = on_dev p (kbuf_ioc_getstats arg) w /\
  kbuf_ioctl p KBUF_IOCRESET arg w = on_dev p kbuf_ioc_reset w /\
  kbuf_ioctl p KBUF_IOCRESIZE arg w = on_dev p (kbuf_ioc_resize arg) w /\
  kbuf_ioctl p KBUF_IOCSMODE arg w = on_dev p (kbuf_ioc_smode arg) w /\
  kbuf_ioctl p KBUF_IOCEXPORT arg w = kbuf_ioc_export p arg w /\
  kbuf_ioctl p KBUF_IOCIMPORT arg w = kbuf_ioc_import arg w /\
  forall cmd, cmd ∉ kbuf_commands -> kbuf_ioctl p cmd arg w = Done (- ENOTTY, w).
Proof.
  pose proof command_types as Ht. pose proof command_numbers as Hn. unfold kbuf_commands in *.
  apply Forall_cons in Ht as [T1 Ht]. apply Forall_cons in Ht as [T2 Ht]. apply Forall_cons in Ht as [T3 Ht].
  apply Forall_cons in Ht as [T4 Ht]. apply Forall_cons in Ht as [T5 Ht]. apply Forall_cons in Ht as [T6 _].
  cbn [fmap list_fmap] in Hn. injection Hn as N1 N2 N3 N4 N5 N6. unfold kbuf_ioctl.
  rewrite T1, T2, T3, T4, T5, T6, N1, N2, N3, N4, N5, N6, !Z.eqb_refl. cbn [negb Z.eqb Z.gtb Z.compare orb KBUF_IOC_MAXNR].
  repeat match goal with
  | |- context [?a =? ?b] => rewrite (commands_differ a b) by congruence
  end.
  do 6 (split; [done |]). intros cmd Hc. rewrite !not_elem_of_cons in Hc.
  destruct Hc as (H1' & H2' & H3' & H4' & H5' & H6' & _).
  rewrite !(proj2 (Z.eqb_neq cmd _)) by done. by repeat case_match.
Qed.

(** C27: as long as the device has its node, [KBUF_IOCEXPORT] either hands out a
    descriptor for a fresh buffer that holds one more reference on a dynamic
    device and carries the node's name, or reports an error with the devices,
    the ledger, the descriptors and the caller's memory as before, also when the
    descriptor could not be stored.  On a device whose node is gone, destroyed
    while the file was open, it reads the name from freed memory. *)
Theorem export_exits p arg w d :
  c_heap (f_c w) !! p = Some d -> (dynamic d = true -> 1 <= ref d) ->
  if node_live (c_kern (f_c w)) d then
    exists r w', kbuf_ioc_export p arg w = Done (r, w') /\
      ((r = 0 /\ exported p arg w d w') \/ (is_errno r /\ unchanged w w'))
  else kbuf_ioc_export p arg w = Oops UseAfterFree.
Proof.
  intros E Hr. destruct (node_live (c_kern (f_c w)) d) eqn:Hn.
  - destruct (ioc_export_run p arg w d E Hn Hr) as (r & w' & Hrun & _ & _ & Hres). by exists r, w'.
  - unfold kbuf_ioc_export. by rewrite (export_dead p d _ E Hn).
Qed.

Lemma map_read_flat d ctl ring x n :
  mapped d ctl ring -> 0 <= x -> x + Z.of_nat n <= KBUF_MMAP_CAPACITY ->
  map_read d (PAGE_SIZE + x) n = Some (take n (drop (Z.to_nat x) (kb_bytes ring))).
Proof.
  intros M Hx Hn. rewrite (map_read_data d ctl ring x n M) by lia. f_equal.
  apply window_flat; [done | done | done |]. by rewrite (mp_len _ _ _ M).
Qed.

Lemma echo_first bs : (8 <= length bs)%nat -> take 4 (echo_word bs) = take 4 bs.
Proof. intros Hl. unfold echo_word. rewrite take_app_le by (rewrite length_take; lia). by rewrite take_take. Qed.

Lemma echo_drop bs : (8 <= length bs)%nat -> drop 4 (echo_word bs) = take 4 bs ++ drop 8 bs.
Proof. intros Hl. unfold echo_word. apply drop_app_length'. rewrite length_take. lia. Qed.

Lemma echo_second bs : (8 <= length bs)%nat -> take 4 (drop 4 (echo_word bs)) = take 4 bs.
Proof. intros Hl. rewrite echo_drop by done. apply take_app_length'. rewrite length_take. lia. Qed.

Lemma echo_rest bs k : (8 <= length bs)%nat -> (8 <= k)%nat -> drop k (echo_word bs) = drop k bs.
Proof.
  intros Hl Hk. replace k with (4 + (4 + (k - 8)))%nat at 1 by lia. rewrite <- drop_drop, echo_drop by done.
  rewrite <- drop_drop, (drop_app_length' (take 4 bs)) by (rewrite length_take; lia).
  rewrite drop_drop. f_equal. lia.
Qed.

(** C28: [KBUF_IOCIMPORT] on a buffer of this driver gives back every reference,
    attachment, table and mapping it took.  On success the caller finds, in the
    device's own mmap, the first word of the ring in the second and everything
    else as it was: the importer wrote to the very pages; on failure nothing
    changed. *)
Theorem import_echo arg w fd h q d ctl ring :
  get_user (f_user w) arg = Some fd -> f_fds w !! fd = Some (FdKbuf h q) ->
  c_heap (f_c w) !! q = Some d -> mapped d ctl ring ->
  exists r w', kbuf_ioc_import arg w = Done (r, w') /\
    k_held (c_kern (f_c w')) = k_held (c_kern (f_c w)) /\
    ((is_errno r /\ unchanged w w') \/
     (r = 0 /\ exists d', c_heap (f_c w') = <[q := d']> (c_heap (f_c w)) /\
        map_read d' PAGE_SIZE 4 = map_read d PAGE_SIZE 4 /\
        map_read d' (PAGE_SIZE + 4) 4 = map_read d PAGE_SIZE 4 /\
        forall x n, 8 <= x -> x + Z.of_nat n <= KBUF_MMAP_CAPACITY ->
          map_read d' (PAGE_SIZE + x) n = map_read d (PAGE_SIZE + x) n)).
Proof.
  intros Hu Hf E M. destruct (ioc_import_run arg w fd h q d ctl ring Hu Hf E M) as (r & w' & Hrun & Hr).
  exists r, w'. split; [done |]. pose proof (echo_mapped _ _ _ M) as M'.
  destruct Hr as [(-> & _ & _ & _ & Hk & Hh) | [He Hs]]; [| split; [apply Hs | by left]].
  split; [done |]. right. split; [done |]. eexists. split; [exact Hh |].
  assert (Hl : (8 <= length (kb_bytes ring))%nat)
    by (pose proof (mp_len _ _ _ M); unfold KBUF_MMAP_CAPACITY in *; lia).
  pose proof (map_read_flat _ _ _ 0 4 M ltac:(done) ltac:(done)) as R0.
  pose proof (map_read_flat _ _ _ 0 4 M' ltac:(done) ltac:(done)) as R0'.
  pose proof (map_read_flat _ _ _ 4 4 M' ltac:(done) ltac:(done)) as R4'.
  rewrite Z.add_0_r in R0, R0'. rewrite R0, R0', R4'. cbn [kb_bytes Z.to_nat]. rewrite drop_0.
  split; [f_equal; by apply echo_first |]. split; [f_equal; by apply echo_second |].
  intros x n Hx Hn. rewrite (map_read_flat _ _ _ x n M'), (map_read_flat _ _ _ x n M) by lia.
  cbn [kb_bytes]. by rewrite echo_rest by lia.
Qed.

End files.

(** ** Concrete runs *)
Definition word_ring : kbuffer :=
  KBuffer 51 ([x61; x62; x63; x64] ++ replicate (Z.to_nat (KBUF_MMAP_CAPACITY - 4)) x00).

(** A dynamic device opened once, besides the list's reference. *)
Definition file_dev : kbuf_dev :=
  (node_dev demo_dev) <| mmap_ctrl := Some wrap_ctrl |> <| mmap_data := Some word_ring |>
    <| dynamic := true |> <| ref := 2 |>.

(** The word at address 8 is 0 and at address 12 is 3, at address 16 it is 1; descriptor 3 is a buffer
    of the device, descriptor 2 one of another driver, descriptor 0 some other file. *)
Definition file_user : simuser :=
  sim_put ∅ 0 (le_encode 4 2 ++ le_encode 4 3 ++ le_encode 4 0 ++ le_encode 4 3 ++ le_encode 4 1 ++ replicate 64 x00).

Definition file_world (plan : list Z) : fworld simuser simkernel :=
  FWorld (CWorld {[5 := file_dev]} [5] (kernel_demo plan) ∅) file_user
         (<[0 := FdOther]> (<[2 := FdForeign]> {[3 := FdKbuf 60 5]})) 0.

Lemma file_mapped : mapped file_dev wrap_ctrl word_ring.
Proof.
  split; [reflexivity | reflexivity | | done]. cbn [kb_bytes word_ring].
  rewrite length_app, length_replicate, Nat2Z.inj_add, Z2Nat.id; [reflexivity | by unfold KBUF_MMAP_CAPACITY].
Qed.

Lemma file_world_ok plan : file_ok 5 (file_world plan).
Proof.
  assert (Hring : ring_at (f_c (file_world plan)) 5)
    by (exists file_dev, wrap_ctrl, word_ring; split; [done | exact file_mapped]).
  split; [| exact Hring |].
  - exists file_dev. split; [done |]. split; [| done].
    destruct (demo_world_healthy plan) as (_ & Ho & Hn).
    split; [| split; [exact Ho | exact Hn]]. by apply (dev_ok_same (node_dev demo_dev)); [.. | exact node_demo_ok].
  - intros fd h q. cbn [f_fds file_world]. destruct (decide (fd = 0)) as [-> | ?].
    + by rewrite lookup_insert_eq.
    + rewrite lookup_insert_ne by done. intros [[_ ?] | [_ [_ [= _ <-]]%lookup_singleton_Some]]%lookup_insert_Some; [done |].
      exact Hring.
Qed.

(** All six commands and a stray one; the word at address 0 is 2. *)
Definition session : list (Z * Z) :=
  [(KBUF_IOCEXPORT, 20); (KBUF_IOCIMPORT, 12); (KBUF_IOCIMPORT, 0); (KBUF_IOCSMODE, 8); (KBUF_IOCRESIZE, 0);
   (KBUF_IOCGSTATS, 8); (KBUF_IOCRESET, 0); (KBUF_IOCIMPORT, 900); (21585, 0)].

Definition session_answers (plan : list Z) : option (list Z) := ret_of (ioctls 5 session (file_world plan)).

Lemma ioctl_safe_witness :
  exists rs w', ioctls 5 session (file_world []) = Done (rs, w') /\ file_ok 5 w' /\
                rs = [0; 0; - EIO; 0; 0; 0; 0; - EFAULT; - ENOTTY].
Proof.
  destruct (ioctl_safe 5 session (file_world []) (file_world_ok [])) as (rs & w' & Hrun & _ & _ & Hok).
  exists rs, w'. split; [exact Hrun |]. split; [exact Hok |].
  apply (ret_of_done _ rs w' _ Hrun). by vm_compute.
Defined.

Lemma ioctl_dispatch_witness :
  kbuf_ioctl 5 KBUF_IOCRESET 0 (file_world []) = on_dev 5 kbuf_ioc_reset (file_world []) /\
  kbuf_ioctl 5 21585 0 (file_world []) = Done (- ENOTTY, file_world []).
Proof.
  destruct (ioctl_dispatch 5 0 (file_world [])) as (_ & Hr & _ & _ & _ & _ & Hno).
  split; [exact Hr |]. apply Hno. apply (bool_decide_unpack _). by vm_compute.
Defined.

(** The device's node is gone from the ledger. *)
Definition orphan_world : fworld simuser simkernel :=
  FWorld (CWorld {[5 := file_dev]} [] (k_release RkNode (dev_node file_dev) (kernel_demo [])) ∅) file_user ∅ 0.

(** Handed out; refused by the descriptor table; refused by the caller's memory;
    and destroyed before. *)
Lemma export_exits_witness :
  (exists w', kbuf_ioc_export 5 20 (file_world []) = Done (0, w') /\
              exported 5 20 (file_world []) file_dev w') /\
  (exists r w', kbuf_ioc_export 5 20 (file_world [0; -24]) = Done (r, w') /\ is_errno r /\
                unchanged (file_world [0; -24]) w') /\
  (exists r w', kbuf_ioc_export 5 900 (file_world []) = Done (r, w') /\ is_errno r /\
                unchanged (file_world []) w') /\
  kbuf_ioc_export 5 20 orphan_world = Oops UseAfterFree.
Proof.
  assert (Hd : forall plan, c_heap (f_c (file_world plan)) !! 5 = Some file_dev) by done.
  assert (Hr : dynamic file_dev = true -> 1 <= ref file_dev) by done.
  destruct (export_exits 5 20 (file_world []) file_dev (Hd _) Hr) as (r1 & w1 & Hrun1 & H1).
  destruct (export_exits 5 20 (file_world [0; -24]) file_dev (Hd _) Hr) as (r2 & w2 & Hrun2 & H2).
  destruct (export_exits 5 900 (file_world []) file_dev (Hd _) Hr) as (r3 & w3 & Hrun3 & H3).
  pose proof (ret_of_done _ r1 w1 0 Hrun1 ltac:(by vm_compute)) as ->.
  pose proof (ret_of_done _ r2 w2 (-24) Hrun2 ltac:(by vm_compute)) as ->.
  pose proof (ret_of_done _ r3 w3 (- EFAULT) Hrun3 ltac:(by vm_compute)) as ->.
  destruct H1 as [[_ H1] | [He _]]; [| errno]. destruct H2 as [[? _] | H2]; [done |].
  destruct H3 as [[? _] | H3]; [done |].
  split; [by exists w1 |]. split; [by exists (-24), w2 |]. split; [by exists (- EFAULT), w3 |].
  exact (export_exits 5 20 orphan_world file_dev eq_refl Hr).
Defined.

Lemma import_echo_witness :
  exists w' d', kbuf_ioc_import 12 (file_world []) = Done (0, w') /\ c_heap (f_c w') = <[5 := d']> {[5 := file_dev]} /\
    map_read d' (PAGE_SIZE + 4) 4 = map_read file_dev PAGE_SIZE 4 /\
    map_read file_dev PAGE_SIZE 4 = Some [x61; x62; x63; x64].
Proof.
  destruct (import_echo 12 (file_world []) 3 60 5 file_dev wrap_ctrl word_ring) as (r & w' & Hrun & _ & Hr);
    [by vm_compute | done | done | exact file_mapped |].
  pose proof (ret_of_done _ r w' 0 Hrun ltac:(by vm_compute)) as ->.
  destruct Hr as [[He _] | (_ & d' & Hh & _ & H4 & _)]; [errno |].
  exists w', d'. split; [exact Hrun |]. split; [exact Hh |]. split; [exact H4 | by vm_compute].
Defined.


