(* ===== verification/Machine.v ===== *)
(** * Machine: the blocking file operations as interleaved threads
    (src/kbuf_main.c)

    Any number of threads run [kbuf_read_blocking], [kbuf_write_blocking],
    [kbuf_poll] under a poll(2) that sleeps, and the locked sections of the ioctls
    on one device.  A thread is a program counter with its locals; one step is
    what it does between two points where another thread can run: taking or
    dropping the mutex, testing the wait condition, queueing itself,
    transferring one message, waking the other side.

    The mutex, the wait queues and signals behave as the kernel documents them:
    [mutex_lock_interruptible] returns with the lock or, on a signal, without
    it; [wait_event_interruptible] queues the caller, tests the condition again
    and sleeps only while it is still queued; [wake_up_interruptible] takes
    every waiter off its queue.  poll(2) puts the caller on the queues the driver
    names with [poll_wait], sleeps while none of them has been woken and nothing it
    asked for is ready, and asks again; that an entry has been woken is shown by
    its absence from the queue, and asking again puts it back.  The memory of the
    calling processes can change at any moment.

    This is the driver while the device is in blocking mode.  The locked section
    of a mode switch is among the steps; once a switch to the lock-free mode has
    taken effect, new calls take the other path, which is in Spsc.v. *)

From S2P Require Import Prelude Kernel Uapi Device Alloc Ring RingFacts RingSpec Ioctl.
#[local] Open Scope Z_scope.

Definition EINTR : Z := 4.
Definition EPOLLIN : Z := 1.
Definition EPOLLOUT : Z := 4.
Definition EPOLLRDNORM : Z := 64.
Definition EPOLLWRNORM : Z := 256.

(** The two blocking calls have one shape and differ in these choices. *)
Inductive side : Set := Reader | Writer.

#[export] Instance side_eq_dec : EqDecision side.
Proof. solve_decision. Defined.

(** The wait condition negated: [kbuf_ring_is_empty] or [kbuf_ring_is_full]. *)
Definition must_wait (sd : side) (d : kbuf_dev) : bool :=
  match sd with
  | Reader => kbuf_ring_is_empty d
  | Writer => kbuf_ring_is_full d
  end.

(** [dev->read_sleeps++] or [dev->write_sleeps++]. *)
Definition count_sleep (sd : side) (d : kbuf_dev) : kbuf_dev :=
  match sd with
  | Reader => d <| read_sleeps := u64 (read_sleeps d + 1) |>
  | Writer => d <| write_sleeps := u64 (write_sleeps d + 1) |>
  end.

(** Locals of a read or write call. *)
Record io := Io {
  io_side : side;
  io_nonblock : bool;     (** [filp->f_flags & O_NONBLOCK] *)
  io_ubuf : Z;
  io_count : Z
}.

(** Points of [kbuf_read_blocking] / [kbuf_write_blocking]. *)
Inductive io_pc : Set :=
  | io_lock               (** the first [mutex_lock_interruptible] *)
  | io_clamp              (** writer: clamp [count], holding the lock *)
  | io_test               (** the [while] test, holding the lock *)
  | io_wait               (** [wait_event_interruptible]: first test *)
  | io_prepare            (** about to queue itself *)
  | io_recheck            (** queued, tests again *)
  | io_asleep             (** in [schedule()] *)
  | io_relock             (** the second [mutex_lock_interruptible] *)
  | io_xfer               (** consume or produce, holding the lock *)
  | io_unlock (r : Z)     (** [mutex_unlock] with the result in hand *)
  | io_wake (r : Z)       (** [wake_up_interruptible] of the other side *)
  | io_ret (r : Z).

(** What the other callers of [dev->lock] do in their critical section. *)
Inductive locked_op : Type :=
  | OpPoll                (** poll(2) with a timeout of 0: nothing is queued *)
  | OpStats
  | OpReset
  | OpResize (rq : kbuf_resize) (new_slots : slot_array)
  | OpSmode (m : Z).

Inductive locked_pc : Set :=
  | lk_lock               (** [mutex_lock] *)
  | lk_body
  | lk_unlock (r : Z)
  | lk_wake (r : Z)       (** resize: [wake_up_interruptible(&dev->write_wq)] *)
  | lk_ret (r : Z).

(** Points of poll(2) over [kbuf_poll]; [m] is the mask it returned. *)
Inductive poll_pc : Set :=
  | pl_read_wq            (** [poll_wait(filp, &dev->read_wq, wait)] *)
  | pl_write_wq           (** [poll_wait(filp, &dev->write_wq, wait)] *)
  | pl_lock
  | pl_body
  | pl_unlock (m : Z)
  | pl_check (m : Z)      (** back in poll(2) *)
  | pl_asleep (m : Z)
  | pl_ret (m : Z).

Inductive thread : Type :=
  | TIo (l : io) (pc : io_pc)
  | TLocked (op : locked_op) (pc : locked_pc)
  | TPoll (events : Z) (pc : poll_pc).

(** [Signal]: the step is the one taken when a signal is pending. *)
Inductive choice : Set := Run | Signal.

(** The mask [kbuf_poll] builds under the lock. *)
Definition poll_mask (empty full : bool) : Z :=
  let m := if negb empty then Z.lor 0 (Z.lor EPOLLIN EPOLLRDNORM) else 0 in
  if negb full then Z.lor m (Z.lor EPOLLOUT EPOLLWRNORM) else m.

Definition poll_body (d : kbuf_dev) : Z := poll_mask (kbuf_ring_is_empty d) (kbuf_ring_is_full d).

(** The critical section: the result and the device it leaves. *)
Definition locked_body (op : locked_op) (d : kbuf_dev) : Z * kbuf_dev :=
  match op with
  | OpPoll => (poll_body d, d)
  | OpStats => (0, d)
  | OpReset => (0, reset_counters d)
  | OpResize rq new_slots =>
    match resize_swap new_slots rq d with
    | None => (- EBUSY, d)
    | Some d' => (0, d')
    end
  | OpSmode m => smode_locked m d
  end.

Definition wakes_writers (op : locked_op) (r : Z) : bool :=
  match op with
  | OpResize _ _ => r =? 0
  | _ => false
  end.

Section machine.
Context {U : Type} `{UAccess U}.

Record shared := Shared {
  sh_dev : kbuf_dev;
  sh_user : U;
  sh_trace : list trace_event;
  sh_lock : option nat;
  sh_rwq : gset nat;
  sh_wwq : gset nat
}.

Definition eta_shared (s : shared) : shared :=
  Shared (sh_dev s) (sh_user s) (sh_trace s) (sh_lock s) (sh_rwq s) (sh_wwq s).

#[global] Instance set_sh_dev : Setter sh_dev := ltac:(make_setter sh_dev eta_shared).
#[global] Instance set_sh_user : Setter sh_user := ltac:(make_setter sh_user eta_shared).
#[global] Instance set_sh_trace : Setter sh_trace := ltac:(make_setter sh_trace eta_shared).
#[global] Instance set_sh_lock : Setter sh_lock := ltac:(make_setter sh_lock eta_shared).
#[global] Instance set_sh_rwq : Setter sh_rwq := ltac:(make_setter sh_rwq eta_shared).
#[global] Instance set_sh_wwq : Setter sh_wwq := ltac:(make_setter sh_wwq eta_shared).

Definition wq (sd : side) (s : shared) : gset nat :=
  match sd with Reader => sh_rwq s | Writer => sh_wwq s end.

Definition set_wq (sd : side) (q : gset nat) (s : shared) : shared :=
  match sd with Reader => s <| sh_rwq := q |> | Writer => s <| sh_wwq := q |> end.

Definition other (sd : side) : side :=
  match sd with Reader => Writer | Writer => Reader end.

(** [wake_up_interruptible] and its tracepoint. *)
Definition wake_other (sd : side) (s : shared) : shared :=
  let s := set_wq (other sd) ∅ s in
  s <| sh_trace := sh_trace s ++ [kbuf_wakeup (kbuf_id (sh_dev s))
                                    (match sd with Reader => 0 | Writer => 1 end)] |>.

(** [mutex_lock_interruptible]: [None] while another thread holds it. *)
Definition try_lock (c : choice) (t : nat) (l : io) (next : io_pc) (s : shared)
  : option (exec (thread * shared)) :=
  match c with
  | Signal => Some (Done (TIo l (io_ret (- ERESTARTSYS)), s))
  | Run =>
    match sh_lock s with
    | None => Some (Done (TIo l next, s <| sh_lock := Some t |>))
    | Some _ => None
    end
  end.

Definition run_xfer (l : io) (s : shared) : exec (Z * shared) :=
  let w := RWorld (sh_dev s) (sh_user s) (sh_trace s) in
  exec_bind
    (match io_side l with
     | Reader => kbuf_ring_consume (io_ubuf l) (io_count l) w
     | Writer => kbuf_ring_produce (io_ubuf l) (io_count l) w
     end)
    (fun '(r, w') =>
       Done (r, s <| sh_dev := w_dev w' |> <| sh_user := w_user w' |>
                  <| sh_trace := w_trace w' |>)).

(** One step of a read or write call. *)
Definition io_step (c : choice) (t : nat) (l : io) (pc : io_pc) (s : shared)
  : option (exec (thread * shared)) :=
  let sd := io_side l in
  match pc, c with
  | io_lock, _ => try_lock c t l io_clamp s
  | io_relock, _ => try_lock c t l io_test s
  | io_clamp, Run =>
    let l' := match sd with
              | Reader => l
              | Writer => if io_count l >? buffer_size (sh_dev s)
                          then Io sd (io_nonblock l) (io_ubuf l) (buffer_size (sh_dev s))
                          else l
              end in
    Some (Done (TIo l' io_test, s))
  | io_test, Run =>
    if must_wait sd (sh_dev s) then
      if io_nonblock l then Some (Done (TIo l (io_unlock (- EAGAIN)), s))
      else Some (Done (TIo l io_wait,
                       s <| sh_dev := count_sleep sd (sh_dev s) |> <| sh_lock := None |>))
    else Some (Done (TIo l io_xfer, s))
  | io_wait, Run =>
    Some (Done (TIo l (if must_wait sd (sh_dev s) then io_prepare else io_relock), s))
  | io_prepare, Signal => Some (Done (TIo l (io_ret (- ERESTARTSYS)), s))
  | io_prepare, Run => Some (Done (TIo l io_recheck, set_wq sd ({[t]} ∪ wq sd s) s))
  | io_recheck, Run =>
    if must_wait sd (sh_dev s) then Some (Done (TIo l io_asleep, s))
    else Some (Done (TIo l io_relock, set_wq sd (wq sd s ∖ {[t]}) s))
  | io_asleep, Signal =>
    Some (Done (TIo l (io_ret (- ERESTARTSYS)), set_wq sd (wq sd s ∖ {[t]}) s))
  | io_asleep, Run =>
    if bool_decide (t ∈ wq sd s) then None else Some (Done (TIo l io_prepare, s))
  | io_xfer, Run =>
    Some (exec_bind (run_xfer l s) (fun '(r, s') => Done (TIo l (io_unlock r), s')))
  | io_unlock r, Run =>
    Some (Done (TIo l (if 0 <=? r then io_wake r else io_ret r), s <| sh_lock := None |>))
  | io_wake r, Run => Some (Done (TIo l (io_ret r), wake_other sd s))
  | _, _ => None
  end.

(** poll(2) takes its entries off the queues before it returns. *)
Definition poll_freewait (t : nat) (s : shared) : shared :=
  s <| sh_rwq := sh_rwq s ∖ {[t]} |> <| sh_wwq := sh_wwq s ∖ {[t]} |>.

(** One step of a caller of [mutex_lock(&dev->lock)]. *)
Definition locked_step (c : choice) (t : nat) (op : locked_op) (pc : locked_pc) (s : shared)
  : option (exec (thread * shared)) :=
  match pc, c with
  | lk_lock, Run =>
    match sh_lock s with
    | None => Some (Done (TLocked op lk_body, s <| sh_lock := Some t |>))
    | Some _ => None
    end
  | lk_body, Run =>
    let '(r, d') := locked_body op (sh_dev s) in
    Some (Done (TLocked op (lk_unlock r), s <| sh_dev := d' |>))
  | lk_unlock r, Run =>
    Some (Done (TLocked op (if wakes_writers op r then lk_wake r else lk_ret r),
                s <| sh_lock := None |>))
  | lk_wake r, Run => Some (Done (TLocked op (lk_ret r), s <| sh_wwq := ∅ |>))
  | _, _ => None
  end.

(** One step of a caller of poll(2) that waits for some of [events]. *)
Definition poll_step (c : choice) (t : nat) (events : Z) (pc : poll_pc) (s : shared)
  : option (exec (thread * shared)) :=
  match pc, c with
  | pl_read_wq, Run => Some (Done (TPoll events pl_write_wq, s <| sh_rwq := {[t]} ∪ sh_rwq s |>))
  | pl_write_wq, Run => Some (Done (TPoll events pl_lock, s <| sh_wwq := {[t]} ∪ sh_wwq s |>))
  | pl_lock, Run =>
    match sh_lock s with
    | None => Some (Done (TPoll events pl_body, s <| sh_lock := Some t |>))
    | Some _ => None
    end
  | pl_body, Run =>
    Some (Done (TPoll events (pl_unlock (poll_body (sh_dev s))), s))
  | pl_unlock m, Run => Some (Done (TPoll events (pl_check m), s <| sh_lock := None |>))
  | pl_check m, Run =>
    if Z.land m events =? 0 then Some (Done (TPoll events (pl_asleep m), s))
    else Some (Done (TPoll events (pl_ret (Z.land m events)), poll_freewait t s))
  | pl_asleep m, Run =>
    if bool_decide (t ∈ sh_rwq s) && bool_decide (t ∈ sh_wwq s) then None
    else Some (Done (TPoll events pl_read_wq, s))
  | pl_asleep m, Signal => Some (Done (TPoll events (pl_ret (- EINTR)), poll_freewait t s))
  | _, _ => None
  end.

Definition thread_step (c : choice) (t : nat) (th : thread) (s : shared)
  : option (exec (thread * shared)) :=
  match th with
  | TIo l pc => io_step c t l pc s
  | TLocked op pc => locked_step c t op pc s
  | TPoll events pc => poll_step c t events pc s
  end.

Record sys := Sys {
  threads : gmap nat thread;
  sh : shared
}.

Definition sys_next (c : choice) (t : nat) (σ : sys) : option (exec sys) :=
  th ← threads σ !! t;
  (fun e => exec_bind e (fun '(th', s') => Done (Sys (<[t := th']> (threads σ)) s')))
    <$> thread_step c t th (sh σ).
End machine.
Arguments shared U : clear implicits.
Arguments sys U : clear implicits.
