(* ===== verification/MachineFacts.v ===== *)
(** * MachineFacts: safety, FIFO order and wake-ups of the blocking machine

    The invariant of Machine.v and what follows from it: mutual exclusion, no
    step goes wrong, messages come out in the order they went in whatever the
    interleaving, no wake-up is lost, and a machine that cannot move is one
    where every caller legitimately waits. *)

From S2P Require Import Prelude Kernel Uapi Device Alloc Ring RingFacts RingSpec Ioctl Machine.
#[local] Open Scope Z_scope.

(** ** Observable events *)
Inductive event : Type :=
  | Sent (t : nat) (m : list byte)             (** a write accepted [m] *)
  | Rcvd (t : nat) (m : list byte) (k : Z).    (** a read took [m] and returned [k] bytes of it *)

Definition sent (evs : list event) : list (list byte) :=
  omap (fun e => match e with Sent _ m => Some m | Rcvd _ _ _ => None end) evs.

Definition received (evs : list event) : list (list byte) :=
  omap (fun e => match e with Sent _ _ => None | Rcvd _ m _ => Some m end) evs.

Lemma sent_app e1 e2 : sent (e1 ++ e2) = sent e1 ++ sent e2.
Proof. apply omap_app. Qed.

Lemma received_app e1 e2 : received (e1 ++ e2) = received e1 ++ received e2.
Proof. apply omap_app. Qed.

(** ** Static conditions on threads *)

(** Between acquiring and releasing [dev->lock]. *)
Definition holds_lock (th : thread) : bool :=
  match th with
  | TIo _ (io_clamp | io_test | io_xfer | io_unlock _) => true
  | TLocked _ (lk_body | lk_unlock _) => true
  | TPoll _ (pl_body | pl_unlock _) => true
  | _ => false
  end.

(** On its way to wake the waiters of [sd]. *)
Definition will_wake (sd : side) (th : thread) : bool :=
  match th with
  | TIo l (io_unlock r) | TIo l (io_wake r) => bool_decide (io_side l = other sd) && (0 <=? r)
  | TLocked op (lk_unlock r) => bool_decide (sd = Writer) && wakes_writers op r
  | TLocked _ (lk_wake _) => bool_decide (sd = Writer)
  | _ => false
  end.

(** The bits of a poll mask that say a side need not wait. *)
Definition poll_bits (sd : side) : Z :=
  match sd with
  | Reader => Z.lor EPOLLIN EPOLLRDNORM
  | Writer => Z.lor EPOLLOUT EPOLLWRNORM
  end.

(** Counts on being woken when [sd] need not wait any more: it sleeps in a read
    or a write, or has asked [kbuf_poll] and was told that [sd] must wait. *)
Definition waits_on (sd : side) (th : thread) : bool :=
  match th with
  | TIo l io_asleep => bool_decide (io_side l = sd)
  | TPoll _ (pl_unlock m | pl_check m | pl_asleep m) => Z.land m (poll_bits sd) =? 0
  | _ => false
  end.

Definition sleeping (th : thread) : bool :=
  match th with
  | TIo _ io_asleep | TPoll _ (pl_asleep _) => true
  | _ => false
  end.

(** The request of a resize passed its checks and its array fits it. *)
Definition resize_op_ok (rq : kbuf_resize) (sa : slot_array) : Prop :=
  resize_invalid rq KBUF_MODE_BLOCKING = false /\
  Z.of_nat (length (sa_slots sa)) = rq_num_buffers rq /\
  Forall (slot_ok (rq_buffer_size rq)) (sa_slots sa).

Definition op_ok (op : locked_op) : Prop :=
  match op with
  | OpResize rq sa => resize_op_ok rq sa
  | OpSmode m => m = KBUF_MODE_BLOCKING \/ m = KBUF_MODE_SPSC
  | _ => True
  end.

(** The clamp has been applied and the transfer is still ahead. *)
Definition clamped (pc : io_pc) : bool :=
  match pc with
  | io_test | io_wait | io_prepare | io_recheck | io_asleep | io_relock | io_xfer => true
  | _ => false
  end.

(** A writer that has measured its message against the slot size fits a slot. *)
Definition fits (d : kbuf_dev) (th : thread) : bool :=
  match th with
  | TIo (Io Writer _ _ n) pc => negb (clamped pc) || (n <=? buffer_size d)
  | _ => true
  end.

Definition thread_ok (th : thread) (d : kbuf_dev) : Prop :=
  match th with
  | TIo l pc =>
    0 <= io_count l /\
    (clamped pc = true -> io_side l = Writer -> io_count l <= buffer_size d) /\
    (pc = io_xfer -> must_wait (io_side l) d = false)
  | TLocked op _ => op_ok op
  | TPoll ev pc =>
    match pc with
    | pl_unlock m | pl_check m => exists e f, m = poll_mask e f
    | pl_asleep m => (exists e f, m = poll_mask e f) /\ Z.land m ev = 0
    | _ => True
    end
  end.

Section facts.
Context {U : Type} {ua : UAccess U} {ual : UAccessLaws U}.
Implicit Types (s : shared U) (σ : sys U) (d : kbuf_dev).

(** The event of a transfer, from the state it starts in. *)
Definition xfer_event (t : nat) (l : io) (s : shared U) : list event :=
  match io_side l with
  | Writer =>
    match user_bytes (sh_user s) (io_ubuf l) (io_count l) with
    | Some bs => [Sent t bs]
    | None => []
    end
  | Reader =>
    match dev_queue (sh_dev s) with
    | m :: _ =>
      let k := Z.min (io_count l) (Z.of_nat (length m)) in
      if (copy_to_user (sh_user s) (io_ubuf l) (take (Z.to_nat k) m)).2 =? 0
      then [Rcvd t m k] else []
    | [] => []
    end
  end.

Definition step_events (t : nat) (th : thread) (s : shared U) : list event :=
  match th with
  | TIo l io_xfer => xfer_event t l s
  | _ => []
  end.

(** What a step has to leave alone for the guarantees to go on (see
    [writer_overflow] and [smode_strands_reader] for why): no switch to the
    lock-free mode has taken effect, and no resize has made the slots too small
    for a writer that had measured its message before.  Resizes in either
    direction, switches that are refused and switches to blocking mode are all
    calm otherwise. *)
Definition calm (σ σ' : sys U) : Prop :=
  mode (sh_dev (sh σ')) = KBUF_MODE_BLOCKING /\
  map_Forall (fun _ th => fits (sh_dev (sh σ')) th = true) (threads σ).

#[global] Instance calm_dec σ σ' : Decision (calm σ σ').
Proof. unfold calm. apply _. Defined.

(** A call at its first instruction. *)
Definition entering (th : thread) : Prop :=
  match th with
  | TIo l io_lock => 0 <= io_count l
  | TLocked op lk_lock => op_ok op
  | TPoll _ pl_read_wq => True
  | _ => False
  end.

Definition finished (th : thread) : bool :=
  match th with
  | TIo _ (io_ret _) | TLocked _ (lk_ret _) | TPoll _ (pl_ret _) => true
  | _ => false
  end.

(** A step of the system: a thread moves, a process writes its own memory, or
    a thread enters a call. *)
Inductive sys_step : sys U -> list event -> sys U -> Prop :=
  | step_thread c t th σ σ' :
      threads σ !! t = Some th -> sys_next c t σ = Some (Done σ') ->
      sys_step σ (step_events t th (sh σ)) σ'
  | step_user σ u : sys_step σ [] (Sys (threads σ) ((sh σ) <| sh_user := u |>))
  | step_call σ t th :
      (forall th0, threads σ !! t = Some th0 -> finished th0 = true) -> entering th ->
      sys_step σ [] (Sys (<[t := th]> (threads σ)) (sh σ)).

(** Runs whose steps all satisfy [G]. *)
Inductive run (G : sys U -> sys U -> Prop) : sys U -> list event -> sys U -> Prop :=
  | run_nil σ : run G σ [] σ
  | run_snoc σ evs σ1 e σ2 : run G σ evs σ1 -> sys_step σ1 e σ2 -> G σ1 σ2 -> run G σ (evs ++ e) σ2.

(** ** The invariant *)
Record inv (σ : sys U) : Prop := {
  inv_dev : dev_ok (sh_dev (sh σ));
  inv_mode : mode (sh_dev (sh σ)) = KBUF_MODE_BLOCKING;
  inv_lock t th : threads σ !! t = Some th ->
    holds_lock th = true <-> sh_lock (sh σ) = Some t;
  inv_owner t : sh_lock (sh σ) = Some t -> is_Some (threads σ !! t);
  inv_threads t th : threads σ !! t = Some th -> thread_ok th (sh_dev (sh σ));
  inv_wake t th sd : threads σ !! t = Some th -> waits_on sd th = true -> t ∈ wq sd (sh σ) ->
    must_wait sd (sh_dev (sh σ)) = true \/
    exists t' th', threads σ !! t' = Some th' /\ will_wake sd th' = true
}.

(** The step that exchanges the slots. *)
Definition resizes (th : thread) : bool :=
  match th with TLocked (OpResize _ _) lk_body => true | _ => false end.

(** What one thread's step does to the shared state, as the others see it. *)
Record step_effect (t : nat) (th th' : thread) (s s' : shared U) : Prop := {
  se_dev : dev_ok (sh_dev s');
  se_mode : mode (sh_dev s') = KBUF_MODE_BLOCKING;
  se_size : resizes th = false -> buffer_size (sh_dev s') = buffer_size (sh_dev s);
  se_ring : holds_lock th = true \/
            forall sd, must_wait sd (sh_dev s') = must_wait sd (sh_dev s);
  se_lock : (sh_lock s' = sh_lock s /\ holds_lock th' = holds_lock th) \/
            (sh_lock s = None /\ sh_lock s' = Some t /\ holds_lock th' = true) \/
            (holds_lock th = true /\ sh_lock s' = None /\ holds_lock th' = false);
  se_thread : thread_ok th' (sh_dev s');
  se_wq sd : wq sd s' ⊆ {[t]} ∪ wq sd s;
  se_wait sd : must_wait sd (sh_dev s) = true ->
               must_wait sd (sh_dev s') = true \/ will_wake sd th' = true;
  se_waker sd : will_wake sd th = true -> will_wake sd th' = true \/ wq sd s' = ∅;
  se_sleep sd : waits_on sd th' = true ->
                must_wait sd (sh_dev s') = true \/ (waits_on sd th = true /\ (t ∈ wq sd s' -> t ∈ wq sd s))
}.

Lemma fits_count d l pc : fits d (TIo l pc) = true -> clamped pc = true -> io_side l = Writer -> io_count l <= buffer_size d.
Proof. destruct l as [[] nb a n]; cbn; [done |]. intros Hf Hc _. rewrite Hc in Hf. cbn in Hf. lia. Qed.

Lemma ok_fits d th : thread_ok th d -> fits d th = true.
Proof.
  destruct th as [[[] nb a n] pc | op pc | ev pc]; cbn; try done. intros (_ & Hc & _).
  destruct (clamped pc); [| done]. specialize (Hc eq_refl eq_refl). cbn. lia.
Qed.

(** A step that is neither a switch nor a resize is calm. *)
Lemma effect_calm σ t th th' s' :
  inv σ -> step_effect t th th' (sh σ) s' -> resizes th = false -> calm σ (Sys (<[t := th']> (threads σ)) s').
Proof.
  intros Hinv He Hr. split; [apply He |]. intros t0 th0 H0. pose proof (ok_fits _ _ (inv_threads σ Hinv t0 th0 H0)) as Hf.
  cbn [sh]. destruct th0 as [[[] nb a n] pc | op pc | ev pc]; cbn in *; try done. by rewrite (se_size _ _ _ _ _ He Hr).
Qed.

(** An effect of that kind preserves the invariant. *)
Lemma step_effect_inv σ t th th' s' :
  inv σ -> threads σ !! t = Some th -> step_effect t th th' (sh σ) s' ->
  calm σ (Sys (<[t := th']> (threads σ)) s') -> inv (Sys (<[t := th']> (threads σ)) s').
Proof.
  intros [Hd Hm Hl Ho Ht Hw] Hth [Sd Sm Ssz Sr Sl St Swq Sw Swk Ssl] [_ Hfit].
  split; cbn [threads sh]; [done | done | | | |].
  - intros t0 th0 H0. destruct (decide (t0 = t)) as [-> | Hne].
    + rewrite lookup_insert_eq in H0. injection H0 as <-. pose proof (Hl t th Hth) as Hlt.
      destruct Sl as [[-> ->] | [(_ & -> & ->) | (_ & -> & ->)]]; [done | done |].
      split; done.
    + rewrite lookup_insert_ne in H0 by done. pose proof (Hl t0 th0 H0) as Hlt.
      destruct Sl as [[-> _] | [(HN & -> & _) | (Hh & -> & _)]]; [done | |].
      * rewrite Hlt, HN. split; [done |]. congruence.
      * apply (Hl t th Hth) in Hh. rewrite Hlt, Hh. split; congruence.
  - intros t0 H0. destruct (decide (t0 = t)) as [-> | Hne]; [by rewrite lookup_insert_eq |].
    rewrite lookup_insert_ne by done. apply Ho.
    destruct Sl as [[<- _] | [(HN & Hs & _) | (_ & Hs & _)]]; congruence.
  - intros t0 th0 H0. destruct (decide (t0 = t)) as [-> | Hne].
    + rewrite lookup_insert_eq in H0. by injection H0 as <-.
    + rewrite lookup_insert_ne in H0 by done. specialize (Ht t0 th0 H0).
      destruct th0 as [l pc | op pc | ev pc]; simpl in *; [| done | done]. destruct Ht as (Hc & Hcl & Hx).
      split; [done |]. split; [intros Hpc Hsd; by apply (fits_count _ l pc (Hfit t0 _ H0)) |].
      intros ->. destruct Sr as [Hh | Hr]; [| rewrite Hr; by apply Hx].
      apply (Hl t th Hth) in Hh. pose proof (proj1 (Hl t0 _ H0) eq_refl). congruence.
  - intros t0 th0 sd H0 Hws Hq.
    assert (Hkeep : forall tho, threads σ !! t0 = Some tho -> waits_on sd tho = true -> t0 ∈ wq sd (sh σ) ->
      must_wait sd (sh_dev s') = true \/
      exists t' th1, <[t := th']> (threads σ) !! t' = Some th1 /\ will_wake sd th1 = true).
    { intros tho Hto Hwo Hqo. destruct (Hw t0 tho sd Hto Hwo Hqo) as [Hmw | (t1 & th1 & H1 & Hwk)].
      - destruct (Sw _ Hmw) as [? | ?]; [by left | right]. exists t, th'. by rewrite lookup_insert_eq.
      - right. destruct (decide (t1 = t)) as [-> | Hne1].
        + rewrite Hth in H1. injection H1 as <-. exists t, th'. rewrite lookup_insert_eq.
          split; [done |]. destruct (Swk _ Hwk) as [? | He]; [done |]. set_solver.
        + exists t1, th1. by rewrite lookup_insert_ne. }
    destruct (decide (t0 = t)) as [-> | Hne].
    + rewrite lookup_insert_eq in H0. injection H0 as <-.
      destruct (Ssl sd Hws) as [? | [Hws0 Hq0]]; [by left | by eapply Hkeep; auto].
    + rewrite lookup_insert_ne in H0 by done. pose proof (Swq sd). eapply Hkeep; [done | done | set_solver].
Qed.

(** ** Effects of the individual steps *)
Lemma must_wait_spec sd d :
  dev_ok d -> mode d = KBUF_MODE_BLOCKING ->
  must_wait sd d = true <->
  match sd with
  | Reader => dev_queue d = []
  | Writer => Z.of_nat (length (dev_queue d)) = num_buffers d
  end.
Proof.
  intros Hok Hm. destruct sd; simpl.
  - exact (rl_empty (R := blocking_ring (U := U)) d Hok Hm).
  - exact (rl_full (R := blocking_ring (U := U)) d Hok Hm).
Qed.

Lemma count_sleep_ok sd d : dev_ok d -> dev_ok (count_sleep sd d).
Proof.
  intros (Hg & Hr & [Hpk H64]). destruct sd; unfold count_sleep.
  all: split_and!; [by eapply geometry_same; [.. | exact Hg] | by apply (ring_ok_same d) |].
  all: split; [done | dev_fields; counters].
Qed.

(** A step that leaves the ring's occupancy and geometry alone. *)
Lemma quiet_effect t th th' s s' :
  dev_ok (sh_dev s') -> mode (sh_dev s') = KBUF_MODE_BLOCKING ->
  buffer_size (sh_dev s') = buffer_size (sh_dev s) ->
  (forall sd, must_wait sd (sh_dev s') = must_wait sd (sh_dev s)) ->
  (sh_lock s' = sh_lock s /\ holds_lock th' = holds_lock th) \/
  (sh_lock s = None /\ sh_lock s' = Some t /\ holds_lock th' = true) \/
  (holds_lock th = true /\ sh_lock s' = None /\ holds_lock th' = false) ->
  thread_ok th' (sh_dev s') ->
  (forall sd, wq sd s' ⊆ {[t]} ∪ wq sd s) ->
  (forall sd, will_wake sd th = true -> will_wake sd th' = true \/ wq sd s' = ∅) ->
  (forall sd, waits_on sd th' = true ->
     must_wait sd (sh_dev s') = true \/ (waits_on sd th = true /\ (t ∈ wq sd s' -> t ∈ wq sd s))) ->
  step_effect t th th' s s'.
Proof.
  intros Hd Hm Hb Hmw Hl Ht Hq Hw Hs. split; [done | done | done | by right | done | done | done | | done | done].
  intros sd Hsd. left. by rewrite Hmw.
Qed.

(** A transfer with a known effect on the queue. *)
Lemma xfer_step_effect t l s s' r :
  dev_ok (sh_dev s) -> mode (sh_dev s) = KBUF_MODE_BLOCKING ->
  thread_ok (TIo l io_xfer) (sh_dev s) ->
  dev_ok (sh_dev s') -> same_config (sh_dev s) (sh_dev s') ->
  sh_lock s' = sh_lock s -> (forall sd, wq sd s' = wq sd s) ->
  (0 <= r \/ dev_queue (sh_dev s') = dev_queue (sh_dev s)) ->
  step_effect t (TIo l io_xfer) (TIo l (io_unlock r)) s s'.
Proof.
  intros Hok Hm (Hc & Hcl & Hx) Hok' [Hn Hb Hm' _ _ _] Hl Hq Hr.
  specialize (Hx eq_refl). rewrite Hm in Hm'.
  split; [done | done | done | by left | by left | | | | done | done].
  - done.
  - intros sd. rewrite Hq. set_solver.
  - intros sd Hsd. destruct (decide (io_side l = sd)) as [<- | Hne]; [congruence |].
    destruct Hr as [Hr | Hsame].
    + right. simpl. rewrite (proj2 (Z.leb_le 0 r) Hr), bool_decide_eq_true_2; [done |].
      destruct (io_side l), sd; done.
    + left. rewrite must_wait_spec in Hsd |- * by done. by rewrite Hsame, Hn.
Qed.

Lemma run_xfer_spec t l s :
  dev_ok (sh_dev s) -> mode (sh_dev s) = KBUF_MODE_BLOCKING ->
  thread_ok (TIo l io_xfer) (sh_dev s) ->
  exists r s', run_xfer l s = Done (r, s') /\
    step_effect t (TIo l io_xfer) (TIo l (io_unlock r)) s s' /\
    dev_queue (sh_dev s) ++ sent (xfer_event t l s)
    = received (xfer_event t l s) ++ dev_queue (sh_dev s').
Proof.
  intros Hok Hm Hth. pose proof Hth as (Hc & Hcl & Hx). specialize (Hx eq_refl).
  unfold run_xfer, xfer_event. destruct (io_side l) eqn:Hs; simpl in Hx.
  - destruct (rl_consume (R := blocking_ring) (sh_dev s) (sh_user s) (sh_trace s)
                (io_ubuf l) (io_count l) Hok Hm Hx Hc) as (d' & ev & Hrun & Hq & Hok' & Hsc & _).
    simpl in Hrun. rewrite Hrun. cbn [exec_bind]. eexists _, _. split; [done |].
    destruct (dev_queue (sh_dev s)) as [| m q] eqn:Hdq.
    { apply (rl_empty (R := blocking_ring (U := U)) _ Hok Hm) in Hdq. simpl in Hdq. congruence. }
    unfold spec_consume in *. cbv zeta.
    destruct (copy_to_user _ _ _) as [u' missed]. cbn [snd] in *.
    destruct (missed =? 0); cbn [fst snd] in *.
    + split; [| by simpl; rewrite Hq, app_nil_r].
      apply xfer_step_effect; try done. left. lia.
    + split; [| by simpl; rewrite Hq, app_nil_r].
      apply xfer_step_effect; try done. right. by rewrite Hdq.
  - destruct (rl_produce (R := blocking_ring) (sh_dev s) (sh_user s) (sh_trace s)
                (io_ubuf l) (io_count l) Hok Hm Hx) as (d' & ev & Hrun & Hq & Hok' & Hsc & _).
    { split; [done | by apply Hcl]. }
    simpl in Hrun. rewrite Hrun. cbn [exec_bind]. eexists _, _. split; [done |].
    unfold spec_produce in *. destruct (user_bytes _ _ _) as [bs |]; cbn [fst snd] in *.
    + split; [| by simpl; rewrite Hq].
      apply xfer_step_effect; try done. by left.
    + split; [| by simpl; rewrite Hq, app_nil_r].
      apply xfer_step_effect; try done. by right.
Qed.

(** The locked section of a resize, when it takes effect. *)
Lemma resize_effect t rq sa s d' :
  dev_ok (sh_dev s) -> mode (sh_dev s) = KBUF_MODE_BLOCKING -> resize_op_ok rq sa ->
  resize_swap sa rq (sh_dev s) = Some d' ->
  step_effect t (TLocked (OpResize rq sa) lk_body) (TLocked (OpResize rq sa) (lk_unlock 0)) s
    (s <| sh_dev := d' |>) /\
  dev_queue d' = dev_queue (sh_dev s).
Proof.
  intros Hok Hm (Hinv & Hlen & Hall) Hsw.
  destruct (resize_swap_ok (sh_dev s) sa rq d' Hok) as (Hok' & Hq' & Hq & Hm' & _ & Hn' & Hb' & _);
    try done; [by rewrite Hm |].
  split; [| congruence].
  split; cbn; [done | congruence | done | by left | by left | done | | | | done].
  - intros sd. destruct sd; set_solver.
  - intros [] _; [left | by right].
    apply (proj2 (must_wait_spec Reader d' Hok' ltac:(congruence))). done.
  - intros sd Hsd. done.
Qed.

(** A mode switch that leaves the device in blocking mode: the ring is as empty
    or as full as before. *)
Lemma smode_effect m d :
  dev_ok d -> mode d = KBUF_MODE_BLOCKING -> m = KBUF_MODE_BLOCKING \/ m = KBUF_MODE_SPSC ->
  mode (smode_locked m d).2 = KBUF_MODE_BLOCKING ->
  let d' := (smode_locked m d).2 in
  dev_ok d' /\ dev_queue d' = dev_queue d /\ buffer_size d' = buffer_size d /\
  forall sd, must_wait sd d' = must_wait sd d.
Proof.
  intros Hok Hm Hop Hm'. pose proof (smode_locked_ok m d Hok Hop) as Hs.
  assert (Hgeo : buffer_size (smode_locked m d).2 = buffer_size d /\ num_buffers (smode_locked m d).2 = num_buffers d)
    by (unfold smode_locked; by repeat case_match).
  destruct (smode_locked m d) as [r d']. destruct Hs as (Hok' & Hq & _). cbn [snd] in *. destruct Hgeo as [Hb Hn].
  split_and!; [done.. |]. intros sd. apply eq_true_iff_eq. rewrite !(must_wait_spec sd) by done. by rewrite Hq, Hn.
Qed.

Lemma wq_set_wq sd sd' q s :
  wq sd (set_wq sd' q s) = if decide (sd = sd') then q else wq sd s.
Proof. by destruct sd, sd'. Qed.

Lemma set_wq_rest sd q s :
  sh_dev (set_wq sd q s) = sh_dev s /\ sh_lock (set_wq sd q s) = sh_lock s.
Proof. by destruct sd. Qed.

(** Steps of a read or write other than the transfer. *)
Lemma io_quiet t l l' pc pc' s s' :
  dev_ok (sh_dev s') -> mode (sh_dev s) = KBUF_MODE_BLOCKING ->
  ring_fields (sh_dev s') = ring_fields (sh_dev s) ->
  buffer_size (sh_dev s') = buffer_size (sh_dev s) ->
  dev_queue (sh_dev s') = dev_queue (sh_dev s) -> pc <> io_xfer ->
  (sh_lock s' = sh_lock s /\ holds_lock (TIo l' pc') = holds_lock (TIo l pc)) \/
  (sh_lock s = None /\ sh_lock s' = Some t /\ holds_lock (TIo l' pc') = true) \/
  (holds_lock (TIo l pc) = true /\ sh_lock s' = None /\ holds_lock (TIo l' pc') = false) ->
  thread_ok (TIo l' pc') (sh_dev s) ->
  (forall sd, wq sd s' ⊆ {[t]} ∪ wq sd s) ->
  (forall sd, will_wake sd (TIo l pc) = true ->
              will_wake sd (TIo l' pc') = true \/ wq sd s' = ∅) ->
  (pc' = io_asleep -> must_wait (io_side l') (sh_dev s) = true) ->
  exists th'' s'', Done (TIo l' pc', s') = Done (th'', s'') /\
    step_effect t (TIo l pc) th'' s s'' /\
    dev_queue (sh_dev s) ++ sent (step_events t (TIo l pc) s)
    = received (step_events t (TIo l pc) s) ++ dev_queue (sh_dev s'').
Proof.
  intros Hok Hm Hf Hb Hq Hpc Hl Ht Hwq Hww Hsl. eexists _, _. split; [done |].
  assert (Hmw : forall sd, must_wait sd (sh_dev s') = must_wait sd (sh_dev s)).
  { unfold ring_fields in Hf. injection Hf as _ Hn _ _ Hc _ _ _.
    intros []; simpl; unfold kbuf_ring_is_empty, kbuf_ring_is_full; by rewrite ?Hn, Hc. }
  split; [| destruct pc; simpl; rewrite ?app_nil_r; by rewrite ?Hq].
  apply quiet_effect; try done.
  - unfold ring_fields in Hf. injection Hf as Hm' _ _ _ _ _ _ _. congruence.
  - destruct Ht as (H1 & H2 & H3). split; [done |]. rewrite Hb. split; [done |].
    by rewrite Hmw.
  - intros sd Hsd. left. destruct pc'; try done. cbn in Hsd. apply bool_decide_eq_true in Hsd as <-.
    rewrite Hmw. by apply Hsl.
Qed.

Ltac lock_case := cbn; first [by left | by right; left | by right; right].
Ltac io_case :=
  apply io_quiet; try done; try lock_case;
  try (intros sd; rewrite ?wq_set_wq; try case_decide; set_solver);
  try (split_and!; cbn; try done; auto).

Ltac wq_case Hd Hk :=
  apply io_quiet; rewrite ?Hd, ?Hk; try done; try lock_case;
  try (intros sd; rewrite wq_set_wq; case_decide; set_solver);
  try (split_and!; cbn; try done; auto).

Lemma clamp_ok l d :
  0 <= io_count l -> 1 <= buffer_size d ->
  let l' := match io_side l with
            | Reader => l
            | Writer => if io_count l >? buffer_size d
                        then Io (io_side l) (io_nonblock l) (io_ubuf l) (buffer_size d) else l
            end in
  thread_ok (TIo l' io_test) d.
Proof.
  intros Hc Hb. destruct l as [[] nb ub cnt]; cbn in *; [split_and!; done |].
  destruct (Z.gtb_spec cnt (buffer_size d)); split_and!; cbn; (done || lia).
Qed.

Lemma io_step_effect c t l pc s e :
  dev_ok (sh_dev s) -> mode (sh_dev s) = KBUF_MODE_BLOCKING -> thread_ok (TIo l pc) (sh_dev s) ->
  io_step c t l pc s = Some e ->
  exists th' s', e = Done (th', s') /\ step_effect t (TIo l pc) th' s s' /\
    dev_queue (sh_dev s) ++ sent (step_events t (TIo l pc) s)
    = received (step_events t (TIo l pc) s) ++ dev_queue (sh_dev s').
Proof.
  intros Hok Hm Hth Hst. pose proof Hth as (Hc & Hcl & Hx).
  destruct (set_wq_rest (io_side l) ({[t]} ∪ wq (io_side l) s) s) as [Hd1 Hk1].
  destruct (set_wq_rest (io_side l) (wq (io_side l) s ∖ {[t]}) s) as [Hd2 Hk2].
  destruct (set_wq_rest (other (io_side l)) ∅ s) as [Hd3 Hk3].
  destruct pc; cbn in Hst; unfold try_lock in Hst; destruct c; simplify_eq.
  - destruct (sh_lock s) eqn:El; simplify_eq. io_case.
  - io_case.
  - apply io_quiet; try done; [lock_case | | by set_solver].
    apply clamp_ok; [done |]. apply (geo_b _ (proj1 Hok)).
  - destruct (must_wait (io_side l) (sh_dev s)) eqn:Emw; [destruct (io_nonblock l) |]; simplify_eq.
    + io_case.
    + pose proof (count_sleep_ok (io_side l) _ Hok) as Hok'.
      apply io_quiet; try done; try lock_case; [by destruct (io_side l).. |].
      intros sd. set_solver.
    + io_case.
  - destruct (must_wait _ _); io_case.
  - wq_case Hd1 Hk1.
  - io_case.
  - destruct (must_wait _ _) eqn:Emw; simplify_eq; [io_case |].
    wq_case Hd2 Hk2.
  - case_bool_decide; simplify_eq. io_case.
  - wq_case Hd2 Hk2.
  - destruct (sh_lock s) eqn:El; simplify_eq. io_case.
  - io_case.
  - destruct (run_xfer_spec t l s Hok Hm Hth) as (r & s' & -> & He & Hq).
    eexists _, _. by split_and!.
  - destruct (Z.leb_spec 0 r) as [Hr | Hr]; apply io_quiet; try done; try lock_case.
    all: try (intros sd; apply union_subseteq_r).
    intros sd Hsd. apply andb_true_iff in Hsd as [_ Hsd]. lia.
  - unfold wake_other. apply io_quiet; cbn; rewrite ?Hd3, ?Hk3; try done; [lock_case | |].
    + intros sd. destruct sd, (io_side l); cbn;
        first [apply union_subseteq_r | apply empty_subseteq].
    + intros sd Hsd. right. apply andb_true_iff in Hsd as [Hsd _]. apply bool_decide_eq_true in Hsd.
      destruct sd, (io_side l); done.
Qed.

(** Steps of the other lock users that leave the ring alone. *)
Lemma locked_quiet t op pc pc' s s' :
  dev_ok (sh_dev s') -> mode (sh_dev s') = KBUF_MODE_BLOCKING ->
  buffer_size (sh_dev s') = buffer_size (sh_dev s) ->
  (forall sd, must_wait sd (sh_dev s') = must_wait sd (sh_dev s)) ->
  dev_queue (sh_dev s') = dev_queue (sh_dev s) -> op_ok op ->
  (sh_lock s' = sh_lock s /\ holds_lock (TLocked op pc') = holds_lock (TLocked op pc)) \/
  (sh_lock s = None /\ sh_lock s' = Some t /\ holds_lock (TLocked op pc') = true) \/
  (holds_lock (TLocked op pc) = true /\ sh_lock s' = None /\
   holds_lock (TLocked op pc') = false) ->
  (forall sd, wq sd s' ⊆ {[t]} ∪ wq sd s) ->
  (forall sd, will_wake sd (TLocked op pc) = true ->
              will_wake sd (TLocked op pc') = true \/ wq sd s' = ∅) ->
  step_effect t (TLocked op pc) (TLocked op pc') s s' /\ dev_queue (sh_dev s') = dev_queue (sh_dev s).
Proof. intros. split; [| done]. by apply quiet_effect. Qed.

Lemma locked_step_effect c t op pc s e :
  dev_ok (sh_dev s) -> mode (sh_dev s) = KBUF_MODE_BLOCKING -> op_ok op ->
  locked_step c t op pc s = Some e ->
  exists th' s', e = Done (th', s') /\ (mode (sh_dev s') = KBUF_MODE_BLOCKING ->
    step_effect t (TLocked op pc) th' s s' /\ dev_queue (sh_dev s') = dev_queue (sh_dev s)).
Proof.
  intros Hok Hm Hop Hst.
  destruct pc; cbn in Hst; destruct c; simplify_eq.
  - destruct (sh_lock s) eqn:El; simplify_eq. eexists _, _. split; [done |]. intros _.
    apply locked_quiet; try done; [by right; left |]. intros sd. apply union_subseteq_r.
  - destruct (locked_body op (sh_dev s)) as [r d'] eqn:Hb. simplify_eq. eexists _, _. split; [done |]. intros Hm'. cbn in Hm'.
    destruct op as [| | | rq sa | m]; cbn in Hb; simplify_eq.
    1-2: apply locked_quiet; try done; [by left | intros sd; apply union_subseteq_r].
    + destruct (reset_counters_ok (sh_dev s) Hok) as [Hok' Hq'].
      apply locked_quiet; try done; [by left | intros sd; apply union_subseteq_r].
    + destruct (resize_swap sa rq (sh_dev s)) as [d1 |] eqn:Hsw; simplify_eq; [by apply resize_effect |].
      apply locked_quiet; try done; [by left | intros sd; apply union_subseteq_r].
    + pose proof (smode_effect m (sh_dev s) Hok Hm Hop) as Hs. rewrite Hb in Hs. destruct (Hs Hm') as (Hok' & Hq' & Hbs & Hmw).
      apply locked_quiet; try done; [by left | intros sd; apply union_subseteq_r].
  - eexists _, _. split; [done |]. intros _. apply locked_quiet; try done.
    + right. right. by destruct (wakes_writers op r).
    + intros sd. apply union_subseteq_r.
    + intros sd Hsd. cbn in Hsd. apply andb_true_iff in Hsd as [Hsd ->]. by left.
  - eexists _, _. split; [done |]. intros _. apply locked_quiet; try done; [by left | |].
    + intros []; [apply union_subseteq_r | apply empty_subseteq].
    + intros [] Hsd; [done | by right].
Qed.

(** What the mask of [kbuf_poll] says of a side. *)
Lemma mask_bits sd d :
  (Z.land (poll_body d) (poll_bits sd) =? 0) = must_wait sd d.
Proof. unfold poll_body. destruct sd; cbn [must_wait]; by destruct (kbuf_ring_is_empty d), (kbuf_ring_is_full d). Qed.

(** A step of poll(2), which leaves the device alone. *)
Lemma poll_quiet t ev pc pc' s s' :
  dev_ok (sh_dev s) -> mode (sh_dev s) = KBUF_MODE_BLOCKING -> sh_dev s' = sh_dev s ->
  (sh_lock s' = sh_lock s /\ holds_lock (TPoll ev pc') = holds_lock (TPoll ev pc)) \/
  (sh_lock s = None /\ sh_lock s' = Some t /\ holds_lock (TPoll ev pc') = true) \/
  (holds_lock (TPoll ev pc) = true /\ sh_lock s' = None /\ holds_lock (TPoll ev pc') = false) ->
  thread_ok (TPoll ev pc') (sh_dev s) ->
  (forall sd, wq sd s' ⊆ {[t]} ∪ wq sd s) ->
  (forall sd, waits_on sd (TPoll ev pc') = true -> must_wait sd (sh_dev s) = true \/
     (waits_on sd (TPoll ev pc) = true /\ wq sd s' ⊆ wq sd s)) ->
  exists th'' s'', Done (TPoll ev pc', s') = Done (th'', s'') /\
    step_effect t (TPoll ev pc) th'' s s'' /\ dev_queue (sh_dev s'') = dev_queue (sh_dev s).
Proof.
  intros Hok Hm Hd Hl Hth Hq Hw. eexists _, _. split; [done |]. rewrite Hd. split; [| done].
  apply quiet_effect; rewrite ?Hd; try done. intros sd Hsd. destruct (Hw sd Hsd) as [? | [? Hsub]]; [by left | right].
  split; [done |]. set_solver.
Qed.

Lemma poll_step_effect c t ev pc s e :
  dev_ok (sh_dev s) -> mode (sh_dev s) = KBUF_MODE_BLOCKING -> thread_ok (TPoll ev pc) (sh_dev s) ->
  poll_step c t ev pc s = Some e ->
  exists th' s', e = Done (th', s') /\ step_effect t (TPoll ev pc) th' s s' /\
    dev_queue (sh_dev s') = dev_queue (sh_dev s).
Proof.
  intros Hok Hm Hth Hst. destruct pc; cbn in Hst; destruct c; simplify_eq.
  - apply poll_quiet; try done; [by left | intros []; set_solver].
  - apply poll_quiet; try done; [by left | intros []; set_solver].
  - destruct (sh_lock s) eqn:El; simplify_eq. apply poll_quiet; try done; [by right; left | intros []; set_solver].
  - apply poll_quiet; try done; [by left | by eexists _, _ | intros []; set_solver |].
    intros sd Hsd. left. cbn in Hsd. by rewrite mask_bits in Hsd.
  - apply poll_quiet; try done; [by right; right | intros []; set_solver | intros sd Hsd; right; by split; [| destruct sd]].
  - destruct (Z.eqb_spec (Z.land m ev) 0); simplify_eq.
    + apply poll_quiet; try done; [by left | intros []; set_solver | intros sd Hsd; right; by split; [| destruct sd]].
    + apply poll_quiet; try done; [by left | intros []; set_solver].
  - destruct (_ && _); simplify_eq. apply poll_quiet; try done; [by left | intros []; set_solver].
  - apply poll_quiet; try done; [by left | intros []; set_solver].
Qed.

Lemma thread_step_effect c t th s e :
  dev_ok (sh_dev s) -> mode (sh_dev s) = KBUF_MODE_BLOCKING -> thread_ok th (sh_dev s) ->
  thread_step c t th s = Some e ->
  exists th' s', e = Done (th', s') /\ (mode (sh_dev s') = KBUF_MODE_BLOCKING ->
    step_effect t th th' s s' /\
    dev_queue (sh_dev s) ++ sent (step_events t th s)
    = received (step_events t th s) ++ dev_queue (sh_dev s')).
Proof.
  intros Hok Hm Hth Hst. destruct th as [l pc | op pc | ev pc].
  - destruct (io_step_effect c t l pc s e Hok Hm Hth Hst) as (th' & s' & -> & He). by eexists _, _.
  - destruct (locked_step_effect c t op pc s e Hok Hm Hth Hst) as (th' & s' & -> & He).
    eexists _, _. split; [done |]. intros [He' Hq]%He. split; [done |]. simpl. by rewrite app_nil_r, Hq.
  - destruct (poll_step_effect c t ev pc s e Hok Hm Hth Hst) as (th' & s' & -> & He & Hq).
    eexists _, _. split; [done |]. intros _. split; [done |]. simpl. by rewrite app_nil_r, Hq.
Qed.

(** A scheduled thread of a machine in the invariant never goes wrong, and its
    step, if calm, keeps the invariant and accounts for every message. *)
Lemma sys_next_inv c t th σ e :
  inv σ -> threads σ !! t = Some th -> sys_next c t σ = Some e ->
  exists σ', e = Done σ' /\ (calm σ σ' -> inv σ' /\
    dev_queue (sh_dev (sh σ)) ++ sent (step_events t th (sh σ))
    = received (step_events t th (sh σ)) ++ dev_queue (sh_dev (sh σ'))).
Proof.
  intros Hinv Hth Hst. unfold sys_next in Hst. rewrite Hth in Hst. simpl in Hst.
  destruct (thread_step c t th (sh σ)) as [e0 |] eqn:Hts; [| done]. simpl in Hst.
  pose proof (inv_threads σ Hinv t th Hth) as Hok.
  destruct (thread_step_effect c t th (sh σ) e0 (inv_dev σ Hinv) (inv_mode σ Hinv) Hok Hts) as (th' & s' & -> & He).
  simpl in Hst. injection Hst as <-. eexists. split; [done |]. intros Hc. destruct (He (proj1 Hc)) as [He' Hq].
  split; [| done]. by eapply step_effect_inv.
Qed.

Lemma entering_ok th d :
  entering th -> holds_lock th = false /\ thread_ok th d /\ (forall sd, waits_on sd th = false).
Proof.
  destruct th as [l [] | op [] | ev []]; try done; intros He; simpl in *; split_and!; try done.
Qed.

Lemma finished_idle th sd : finished th = true -> holds_lock th = false /\ will_wake sd th = false.
Proof. by destruct th as [l [] | op [] | ev []]. Qed.

(** Entering a call from user space. *)
Lemma call_inv σ t th :
  inv σ -> (forall th0, threads σ !! t = Some th0 -> finished th0 = true) -> entering th ->
  inv (Sys (<[t := th]> (threads σ)) (sh σ)).
Proof.
  intros [Hd Hm Hl Ho Ht Hw] Hfree Hent.
  destruct (entering_ok th (sh_dev (sh σ)) Hent) as (Hh & Hok & Hna).
  assert (Hnl : sh_lock (sh σ) <> Some t).
  { intros Hs. destruct (Ho t Hs) as [th0 H0]. apply (Hl t th0 H0) in Hs.
    destruct (finished_idle th0 Reader (Hfree th0 H0)). congruence. }
  split; cbn [threads sh]; [done | done | | | |].
  - intros t0 th0 H0. destruct (decide (t0 = t)) as [-> | Hne].
    + rewrite lookup_insert_eq in H0. injection H0 as <-. rewrite Hh. by split.
    + rewrite lookup_insert_ne in H0 by done. by apply Hl.
  - intros t0 H0. destruct (decide (t0 = t)) as [-> | Hne]; [done |].
    rewrite lookup_insert_ne by done. by apply Ho.
  - intros t0 th0 H0. destruct (decide (t0 = t)) as [-> | Hne].
    + rewrite lookup_insert_eq in H0. by injection H0 as <-.
    + rewrite lookup_insert_ne in H0 by done. by eapply Ht.
  - intros t0 tho sd H0 Hws Hq. destruct (decide (t0 = t)) as [-> | Hne].
    { rewrite lookup_insert_eq in H0. injection H0 as <-. by rewrite Hna in Hws. }
    rewrite lookup_insert_ne in H0 by done.
    destruct (Hw t0 tho sd H0 Hws Hq) as [? | (t1 & th1 & H1 & Hwk)]; [by left | right].
    exists t1, th1. split; [| done]. rewrite lookup_insert_ne; [done |]. intros <-.
    destruct (finished_idle th1 sd (Hfree th1 H1)). congruence.
Qed.

Lemma sys_step_inv σ ev σ' :
  inv σ -> sys_step σ ev σ' -> calm σ σ' ->
  inv σ' /\ dev_queue (sh_dev (sh σ)) ++ sent ev = received ev ++ dev_queue (sh_dev (sh σ')).
Proof.
  intros Hinv Hst Hc. destruct Hst as [c t th σ σ' Hth Hn | σ u | σ t th Hfree Hent].
  - destruct (sys_next_inv c t th σ _ Hinv Hth Hn) as (σ'' & He & Hres).
    injection He as <-. by apply Hres.
  - split; [| by rewrite app_nil_r]. destruct Hinv. by split.
  - split; [| by rewrite app_nil_r]. by apply call_inv.
Qed.

(** ** Runs from the start of a set of calls *)
Definition idle (σ : sys U) : Prop :=
  map_Forall (fun _ th => entering th) (threads σ) /\ sh_lock (sh σ) = None /\
  dev_ok (sh_dev (sh σ)) /\ mode (sh_dev (sh σ)) = KBUF_MODE_BLOCKING.

Lemma idle_inv σ : idle σ -> inv σ.
Proof.
  intros (Ht & Hl & Hd & Hm). split; rewrite ?Hl; try done.
  - intros t th Hth. destruct (entering_ok th (sh_dev (sh σ)) (Ht t th Hth)) as (-> & _ & _).
    by split.
  - intros t th Hth. by destruct (entering_ok th (sh_dev (sh σ)) (Ht t th Hth)) as (_ & ? & _).
  - intros t th sd Hth Hws _. destruct (entering_ok _ (sh_dev (sh σ)) (Ht t _ Hth)) as (_ & _ & Hna).
    by rewrite Hna in Hws.
Qed.

(** A device with the calls [ths] about to start. *)
Lemma idle_start ths s :
  List.Forall entering ths.*2 -> sh_lock s = None -> dev_ok (sh_dev s) ->
  mode (sh_dev s) = KBUF_MODE_BLOCKING -> idle (Sys (list_to_map ths) s).
Proof.
  intros Hf ???. split_and!; cbn; [| done..]. intros t th Hth%elem_of_list_to_map_2.
  eapply List.Forall_forall in Hf; [done |]. apply list_elem_of_In, list_elem_of_fmap.
  by exists (t, th).
Qed.

Lemma run_inv σ evs σ' :
  inv σ -> run calm σ evs σ' ->
  inv σ' /\
  dev_queue (sh_dev (sh σ)) ++ sent evs = received evs ++ dev_queue (sh_dev (sh σ')).
Proof.
  intros Hinv Hrun. induction Hrun as [σ | σ evs σ1 e σ2 Hrun IH Hst Hc].
  { split; [done |]. by rewrite app_nil_r. }
  destruct (IH Hinv) as [Hinv1 Hq1]. destruct (sys_step_inv σ1 e σ2 Hinv1 Hst Hc) as [Hinv2 Hq2].
  split; [done |]. rewrite sent_app, received_app, app_assoc, Hq1.
  by rewrite <- !app_assoc, Hq2.
Qed.

(** ** Progress *)
Definition wants_lock (th : thread) : bool :=
  match th with
  | TIo _ (io_lock | io_relock) | TLocked _ lk_lock | TPoll _ pl_lock => true
  | _ => false
  end.

(** The only reasons a thread cannot move. *)
Lemma blocked_thread t th s :
  thread_step Run t th s = None ->
  finished th = true \/ (wants_lock th = true /\ sh_lock s <> None) \/
  (sleeping th = true /\ forall sd, waits_on sd th = true -> t ∈ wq sd s).
Proof.
  destruct th as [l pc | op pc | ev pc]; destruct pc; cbn; unfold try_lock; try done; try by left.
  all: try (destruct (sh_lock s) eqn:E; [by right; left |]; done).
  - by repeat case_match.
  - by case_match.
  - case_bool_decide; [| done]. intros _. right. right. split; [done |]. by intros sd <-%bool_decide_eq_true.
  - by case_match.
  - by case_match.
  - destruct (_ && _) eqn:E; [| done]. intros _. right. right. split; [done |].
    apply andb_true_iff in E as [E1%bool_decide_eq_true E2%bool_decide_eq_true]. by intros [].
Qed.

Definition stuck (σ : sys U) : Prop := forall t, sys_next Run t σ = None.

Lemma stuck_thread σ t th :
  stuck σ -> threads σ !! t = Some th -> thread_step Run t th (sh σ) = None.
Proof.
  intros Hs Hth. specialize (Hs t). unfold sys_next in Hs. rewrite Hth in Hs. simpl in Hs.
  by destruct (thread_step Run t th (sh σ)).
Qed.

Lemma stuck_waits σ :
  inv σ -> stuck σ ->
  sh_lock (sh σ) = None /\
  forall t th, threads σ !! t = Some th ->
    finished th = true \/
    (sleeping th = true /\ forall sd, waits_on sd th = true -> must_wait sd (sh_dev (sh σ)) = true).
Proof.
  intros Hinv Hs.
  assert (Hlock : sh_lock (sh σ) = None).
  { destruct (sh_lock (sh σ)) as [t |] eqn:E; [| done]. exfalso.
    destruct (inv_owner σ Hinv t E) as [th Hth].
    pose proof (proj2 (inv_lock σ Hinv t th Hth) E) as Hh.
    destruct (blocked_thread t th (sh σ) (stuck_thread σ t th Hs Hth))
      as [Hf | [[Hw _] | [Hsl _]]].
    - destruct (finished_idle th Reader Hf). congruence.
    - by destruct th as [? [] | ? [] | ? []].
    - by destruct th as [? [] | ? [] | ? []]. }
  split; [done |]. intros t th Hth.
  destruct (blocked_thread t th (sh σ) (stuck_thread σ t th Hs Hth))
    as [Hf | [[_ Hw] | [Hsl Hq]]]; [by left | done |].
  right. split; [done |]. intros sd Hws.
  destruct (inv_wake σ Hinv t th sd Hth Hws (Hq sd Hws)) as [? | (t' & th' & Hth' & Hwk)]; [done |]. exfalso.
  destruct (blocked_thread t' th' (sh σ) (stuck_thread σ t' th' Hs Hth')) as [Hf | [[Hw _] | [Hsl' _]]].
  - destruct (finished_idle th' sd Hf). congruence.
  - by destruct th' as [? [] | ? [] | ? []].
  - by destruct th' as [? [] | ? [] | ? []].
Qed.

(** ** What poll promised *)
Lemma poll_mask_land e f ev :
  Z.land (poll_mask e f) ev = 0 <->
  (e = false -> Z.land (poll_bits Reader) ev = 0) /\ (f = false -> Z.land (poll_bits Writer) ev = 0).
Proof.
  assert (poll_mask e f = Z.lor (if e then 0 else poll_bits Reader) (if f then 0 else poll_bits Writer)) as ->
    by (by destruct e, f).
  rewrite Z.land_lor_distr_l, Z.lor_eq_0_iff. destruct e, f; rewrite ?Z.land_0_l; intuition congruence.
Qed.

(** A poller that sleeps for a reason has nothing ready of what it asked for. *)
Lemma poll_unready d ev m :
  thread_ok (TPoll ev (pl_asleep m)) d ->
  (forall sd, waits_on sd (TPoll ev (pl_asleep m)) = true -> must_wait sd d = true) ->
  Z.land (poll_mask (must_wait Reader d) (must_wait Writer d)) ev = 0.
Proof.
  intros [(e & f & ->) Hz] Hw. rewrite poll_mask_land in Hz |- *. destruct Hz as [Hr Hwr].
  pose proof (Hw Reader) as H1. pose proof (Hw Writer) as H2. cbn [waits_on] in H1, H2.
  split; intros Hne; [apply Hr | apply Hwr]; destruct e, f; try done; exfalso;
    (rewrite H1 in Hne by done) || (rewrite H2 in Hne by done); done.
Qed.

(** ** A single non-blocking call *)
Fixpoint alone (n : nat) (t : nat) (th : thread) (s : shared U) : exec (thread * shared U) :=
  match n with
  | O => Done (th, s)
  | S n' =>
    match thread_step Run t th s with
    | None => Done (th, s)
    | Some e => exec_bind e (fun '(th', s') => alone n' t th' s')
    end
  end.

(** ** Executable schedules

    [schedule] runs the named threads in order; with [strict] it stops before a
    step that is not calm. *)
Fixpoint schedule (strict : bool) (sch : list (choice * nat)) (σ : sys U)
  : option (exec (list event * sys U)) :=
  match sch with
  | [] => Some (Done ([], σ))
  | (c, t) :: sch' =>
    th ← threads σ !! t;
    e ← sys_next c t σ;
    match e with
    | Oops why => Some (Oops why)
    | Done σ1 =>
      if strict && negb (bool_decide (calm σ σ1)) then None else
      (fun e' => exec_bind e' (fun '(evs, σ2) => Done (step_events t th (sh σ) ++ evs, σ2)))
        <$> schedule strict sch' σ1
    end
  end.

Lemma run_cons G σ e σ1 evs σ2 : sys_step σ e σ1 -> G σ σ1 -> run G σ1 evs σ2 -> run G σ (e ++ evs) σ2.
Proof.
  intros Hst Hg Hrun. revert Hst Hg. induction Hrun as [σ1 | σ1 evs σ2 e' σ3 Hrun IH Hst' Hg']; intros Hst Hg.
  - rewrite app_nil_r. apply (run_snoc G σ [] σ); [constructor | done | done].
  - rewrite app_assoc. eapply run_snoc; [by apply IH | done | done].
Qed.

Lemma schedule_run sch σ evs σ' : schedule true sch σ = Some (Done (evs, σ')) -> run calm σ evs σ'.
Proof.
  revert σ evs. induction sch as [| [c t] sch IH]; intros σ evs; simpl.
  { intros [= <- <-]. constructor. }
  destruct (threads σ !! t) as [th |] eqn:Hth; simpl; [| done].
  destruct (sys_next c t σ) as [[σ1 | w] |] eqn:Hn; simpl; [| done | done].
  destruct (bool_decide (calm σ σ1)) eqn:Hc; simpl; [| done]. apply bool_decide_eq_true in Hc.
  destruct (schedule true sch σ1) as [[[evs1 σ2] | w] |] eqn:Hs; simpl; [| done | done].
  intros [= <- <-]. eapply run_cons; [by econstructor | done | by apply IH].
Qed.
End facts.
