(* ===== verification/MachineProps.v ===== *)
(** * MachineProps: what the blocking mode guarantees its callers

    The properties of the blocking file operations under every interleaving,
    each with a concrete run that exercises it, and the interleavings that take
    the guarantees away: a resize to smaller slots under a writer that waits
    ([writer_overflow]), and a switch to the lock-free mode under a reader that
    sleeps ([smode_strands_reader]).  [calm] says that neither happens. *)

From S2P Require Import Prelude Kernel Uapi Device Alloc Ring RingFacts RingSpec Ioctl.
From S2P Require Import Samples Machine MachineFacts.
#[local] Open Scope Z_scope.

Definition demo_shared (d : kbuf_dev) : shared simuser :=
  Shared d demo_user [] None ∅ ∅.

Definition demo_sys (d : kbuf_dev) (ths : list (nat * thread)) : sys simuser :=
  Sys (list_to_map ths) (demo_shared d).

(** Two writers and a reader; the reader sleeps first and is woken. *)
Definition demo_threads : list (nat * thread) :=
  [(0%nat, TIo (Io Reader false 104 2) io_lock);
   (1%nat, TIo (Io Writer true 100 3) io_lock);
   (2%nat, TIo (Io Writer true 102 9) io_lock)].

Definition demo_schedule : list (choice * nat) :=
  replicate 6 (Run, 0%nat) ++ replicate 6 (Run, 1%nat) ++ replicate 8 (Run, 0%nat) ++
  replicate 6 (Run, 2%nat).

(** The events and the final state of a schedule that does not go wrong. *)
Definition outcome (sch : list (choice * nat)) (σ : sys simuser) : list event * sys simuser :=
  match schedule true sch σ with
  | Some (Done r) => r
  | _ => ([], σ)
  end.

Lemma outcome_run sch σ :
  match schedule true sch σ with Some (Done _) => true | _ => false end = true ->
  run calm σ (outcome sch σ).1 (outcome sch σ).2.
Proof.
  unfold outcome. destruct (schedule true sch σ) as [[[evs σ'] | ] |] eqn:E; try done.
  intros _. by apply (schedule_run sch).
Qed.

Lemma demo_idle : idle (demo_sys demo_dev demo_threads).
Proof.
  apply idle_start; [| done | exact demo_dev_ok | done].
  repeat constructor; cbn; lia.
Qed.

Section props.
Context {U : Type} {ua : UAccess U} {ual : UAccessLaws U}.
Implicit Types (σ : sys U).

(** C1: whatever readers, writers, pollers, and callers of the statistics,
    reset, resize and mode ioctls interleave on a blocking device, and whatever
    signals they get, messages are delivered in the order they were accepted,
    none lost or duplicated: what was queued plus what was sent is what was
    received plus what is queued now, and the device stays well-formed.  The run
    is calm: no switch to the lock-free mode takes effect, and no resize leaves
    a writer that has measured its message with slots too small for it. *)
Theorem blocking_fifo σ evs σ' :
  idle σ -> run calm σ evs σ' ->
  dev_queue (sh_dev (sh σ)) ++ sent evs = received evs ++ dev_queue (sh_dev (sh σ')) /\
  dev_ok (sh_dev (sh σ')).
Proof.
  intros Hi Hr. destruct (run_inv σ evs σ' (idle_inv σ Hi) Hr) as [Hinv Hq].
  split; [done |]. apply Hinv.
Qed.


(** The critical sections exclude each other. *)
Theorem blocking_mutex σ evs σ' t1 t2 th1 th2 :
  idle σ -> run calm σ evs σ' ->
  threads σ' !! t1 = Some th1 -> threads σ' !! t2 = Some th2 ->
  holds_lock th1 = true -> holds_lock th2 = true -> t1 = t2.
Proof.
  intros Hi Hr H1 H2 Hl1%(inv_lock _ (proj1 (run_inv _ _ _ (idle_inv σ Hi) Hr)) t1 th1 H1)
    Hl2%(inv_lock _ (proj1 (run_inv _ _ _ (idle_inv σ Hi) Hr)) t2 th2 H2). congruence.
Qed.

(** C3: no wake-up is lost: a caller still on its wait queue -- asleep in a read
    or a write, or told by [kbuf_poll] that a side is not ready -- has nothing to
    do yet, or a thread that will wake it is already past its transfer.  The run
    is calm; after a switch to the lock-free mode a sleeping reader is stranded
    ([smode_strands_reader]). *)
Theorem blocking_no_lost_wakeup σ evs σ' t th sd :
  idle σ -> run calm σ evs σ' ->
  threads σ' !! t = Some th -> waits_on sd th = true -> t ∈ wq sd (sh σ') ->
  must_wait sd (sh_dev (sh σ')) = true \/
  exists t' th', threads σ' !! t' = Some th' /\ will_wake sd th' = true.
Proof.
  intros Hi Hr. apply inv_wake. by apply (run_inv σ evs), Hr; apply idle_inv.
Qed.

(** C4: no deadlock: when after a calm run (no switch to the lock-free mode, no
    resize under a writer) no thread can move, the mutex is free and every call
    that has not returned is a reader of an empty ring, or every one is a
    writer of a full ring; a poller asleep then asked for nothing that [kbuf_poll]
    would report. *)
Theorem blocking_deadlock_free σ evs σ' :
  idle σ -> run calm σ evs σ' -> stuck σ' ->
  sh_lock (sh σ') = None /\
  exists sd, forall t th, threads σ' !! t = Some th ->
    finished th = true \/
    (exists l, th = TIo l io_asleep /\ io_side l = sd /\
       match sd with
       | Reader => dev_queue (sh_dev (sh σ')) = []
       | Writer => Z.of_nat (length (dev_queue (sh_dev (sh σ')))) = num_buffers (sh_dev (sh σ'))
       end) \/
    (exists ev m, th = TPoll ev (pl_asleep m) /\ Z.land (poll_body (sh_dev (sh σ'))) ev = 0).
Proof.
  intros Hi Hr Hst. destruct (run_inv σ evs σ' (idle_inv σ Hi) Hr) as [Hinv _].
  destruct (stuck_waits σ' Hinv Hst) as [Hl Hw]. split; [done |].
  pose proof (inv_dev σ' Hinv) as Hok. pose proof (inv_mode σ' Hinv) as Hm.
  pose proof (fun sd => must_wait_spec (U := U) sd (sh_dev (sh σ')) Hok Hm) as Hspec.
  pose proof (geo_n _ (proj1 Hok)) as Hn.
  destruct (decide (dev_queue (sh_dev (sh σ')) = [])) as [He | Hne];
    [exists Reader | exists Writer]; intros t th Hth;
    (destruct (Hw t th Hth) as [Hf | [Hsl Hmw]]; [by left | right]);
    (destruct th as [l [] | op [] | ev []]; try done;
      [left; exists l | right; eexists _, _; split; [done |];
                        exact (poll_unready _ _ _ (inv_threads σ' Hinv t _ Hth) Hmw)]);
    specialize (Hmw (io_side l) (bool_decide_eq_true_2 _ eq_refl));
    apply Hspec in Hmw; (destruct (io_side l); split_and!; try done).
  - rewrite He in Hmw. simpl in Hmw. lia.
Qed.

(** ** One non-blocking call, nobody else running *)
Definition clamp_count (sd : side) (d : kbuf_dev) (n : Z) : Z :=
  match sd with
  | Reader => n
  | Writer => if n >? buffer_size d then buffer_size d else n
  end.

(** The abstract transfer of a side. *)
Definition spec_xfer (sd : side) (u : U) (a n : Z) (q : list (list byte))
  : Z * U * list (list byte) :=
  match sd with
  | Reader => spec_consume u a n q
  | Writer => let '(r, q') := spec_produce u a n q in (r, u, q')
  end.

Lemma alone_step n t th s th' s' :
  thread_step Run t th s = Some (Done (th', s')) -> alone (S n) t th s = alone n t th' s'.
Proof. intros H. simpl. by rewrite H. Qed.

Lemma spec_xfer_run l s :
  dev_ok (sh_dev s) -> mode (sh_dev s) = KBUF_MODE_BLOCKING ->
  must_wait (io_side l) (sh_dev s) = false ->
  0 <= io_count l -> (io_side l = Writer -> io_count l <= buffer_size (sh_dev s)) ->
  let '(r, u', q') := spec_xfer (io_side l) (sh_user s) (io_ubuf l) (io_count l)
                                (dev_queue (sh_dev s)) in
  exists s', run_xfer l s = Done (r, s') /\ sh_user s' = u' /\ dev_queue (sh_dev s') = q' /\
    dev_ok (sh_dev s') /\ same_config (sh_dev s) (sh_dev s') /\ sh_lock s' = sh_lock s /\
    (forall sd, wq sd s' = wq sd s).
Proof.
  intros Hok Hm Hw Hc Hb. unfold spec_xfer, run_xfer. destruct (io_side l); simpl in Hw.
  - destruct (rl_consume (R := blocking_ring) (sh_dev s) (sh_user s) (sh_trace s)
                (io_ubuf l) (io_count l) Hok Hm Hw Hc) as (d' & ev & Hrun & Hq & Hok' & Hsc & _).
    simpl in Hrun. rewrite Hrun. destruct (spec_consume _ _ _ _) as [[r u'] q'].
    eexists. by split_and!.
  - destruct (rl_produce (R := blocking_ring) (sh_dev s) (sh_user s) (sh_trace s)
                (io_ubuf l) (io_count l) Hok Hm Hw (conj Hc (Hb eq_refl)))
      as (d' & ev & Hrun & Hq & Hok' & Hsc & _).
    simpl in Hrun. rewrite Hrun. destruct (spec_produce _ _ _ _) as [r q'].
    eexists. by split_and!.
Qed.

(** An O_NONBLOCK read or write that meets no contention returns at once,
    with the mutex free again: -EAGAIN and an untouched device when the ring
    is empty (full), otherwise the result, the user memory and the queue of
    the abstract FIFO for the clamped count, waking every waiter of the other
    side when it succeeded. *)
Theorem nonblocking_call sd t a n s :
  dev_ok (sh_dev s) -> mode (sh_dev s) = KBUF_MODE_BLOCKING -> sh_lock s = None -> 0 <= n ->
  let l := Io sd true a (clamp_count sd (sh_dev s) n) in
  let '(r, u', q') := spec_xfer sd (sh_user s) a (clamp_count sd (sh_dev s) n)
                                (dev_queue (sh_dev s)) in
  if must_wait sd (sh_dev s)
  then alone 6 t (TIo (Io sd true a n) io_lock) s
       = Done (TIo l (io_ret (- EAGAIN)), s)
  else exists s', alone 6 t (TIo (Io sd true a n) io_lock) s = Done (TIo l (io_ret r), s') /\
       sh_user s' = u' /\ dev_queue (sh_dev s') = q' /\ dev_ok (sh_dev s') /\
       sh_lock s' = None /\ wq sd s' = wq sd s /\
       wq (other sd) s' = (if 0 <=? r then ∅ else wq (other sd) s).
Proof.
  intros Hok Hm Hl Hn l. set (s1 := s <| sh_lock := Some t |>).
  assert (Hclamp : alone 6 t (TIo (Io sd true a n) io_lock) s = alone 4 t (TIo l io_test) s1).
  { erewrite alone_step by (cbn; unfold try_lock; rewrite Hl; done).
    erewrite alone_step by done. unfold l, clamp_count. cbn. destruct sd; [done |].
    by destruct (n >? _). }
  rewrite Hclamp. pose proof (geo_b _ (proj1 Hok)) as Hb.
  pose proof (spec_xfer_run l s1 Hok Hm) as Hx. cbn [l io_side io_ubuf io_count] in Hx.
  change (sh_dev s1) with (sh_dev s) in *. change (sh_user s1) with (sh_user s) in *.
  destruct (spec_xfer _ _ _ _ _) as [[r u'] q'].
  destruct (must_wait sd (sh_dev s)) eqn:Hmw.
  { erewrite alone_step by (cbn; rewrite Hmw; done). cbn.
    destruct s; cbn in *; subst; done. }
  destruct Hx as (s2 & Hrun & Hu & Hq & Hok2 & Hsc & Hlk & Hwq); [done | | |].
  { unfold clamp_count. destruct sd; [done |]. destruct (Z.gtb_spec n (buffer_size (sh_dev s))); lia. }
  { intros ->. unfold clamp_count. destruct (Z.gtb_spec n (buffer_size (sh_dev s))); lia. }
  erewrite alone_step by (cbn; rewrite Hmw; done).
  erewrite alone_step by (cbn; rewrite Hrun; done).
  erewrite alone_step by done.
  destruct (0 <=? r).
  - erewrite alone_step by done. eexists. split; [done |].
    pose proof (Hwq sd) as Hw1. clear -Hu Hq Hok2 Hw1. by destruct sd.
  - eexists. split; [done |]. pose proof (Hwq sd) as Hw1. pose proof (Hwq (other sd)) as Hw2.
    by destruct sd.
Qed.
End props.

(** ** Concrete runs *)
Abbreviation demo_start := (demo_sys demo_dev demo_threads).

(** The events and the state after the first [n] steps. *)
Definition demo_events (n : nat) : list event := (outcome (take n demo_schedule) demo_start).1.
Definition demo_after (n : nat) : sys simuser := (outcome (take n demo_schedule) demo_start).2.

Lemma demo_run n :
  match schedule true (take n demo_schedule) demo_start with Some (Done _) => true | _ => false end
  = true ->
  run calm demo_start (demo_events n) (demo_after n).
Proof. apply outcome_run. Qed.

(** The same with a switch to blocking mode, a switch to the lock-free mode that
    is refused because a message is queued, and, once the ring is empty, a resize
    to slots of two bytes, before the second writer comes. *)
Definition busy_start : sys simuser :=
  demo_sys demo_dev (demo_threads ++
    [(3%nat, TLocked (OpSmode KBUF_MODE_BLOCKING) lk_lock);
     (4%nat, TLocked (OpSmode KBUF_MODE_SPSC) lk_lock);
     (5%nat, TLocked (OpResize (KbufResize 3 2) (SlotArray 20 [demo_slot 21 [x00; x00] 0; demo_slot 22 [x00; x00] 0;
                                                               demo_slot 23 [x00; x00] 0])) lk_lock)]).

Definition busy_schedule : list (choice * nat) :=
  replicate 6 (Run, 0%nat) ++ replicate 3 (Run, 3%nat) ++ replicate 6 (Run, 1%nat) ++ replicate 3 (Run, 4%nat) ++
  replicate 8 (Run, 0%nat) ++ replicate 4 (Run, 5%nat) ++ replicate 6 (Run, 2%nat).

Lemma busy_idle : idle busy_start.
Proof.
  apply idle_start; [| done | exact demo_dev_ok | done].
  cbn. repeat first [apply List.Forall_nil | apply List.Forall_cons]; cbn;
    first [lia | by left | by right | by repeat constructor].
Qed.

Lemma blocking_fifo_witness :
  let '(evs, σ') := outcome busy_schedule busy_start in
  (sent evs = [[x61; x62; x63]; [x63; x64]] /\ received evs = [[x61; x62; x63]] /\
   threads σ' !! 4%nat = Some (TLocked (OpSmode KBUF_MODE_SPSC) (lk_ret (- EBUSY))) /\
   buffer_size (sh_dev (sh σ')) = 2) /\
  dev_queue (sh_dev (sh busy_start)) ++ sent evs = received evs ++ dev_queue (sh_dev (sh σ')) /\
  dev_ok (sh_dev (sh σ')).
Proof.
  destruct (outcome busy_schedule busy_start) as [evs σ'] eqn:E.
  assert (Hr : run calm busy_start evs σ').
  { pose proof (outcome_run busy_schedule busy_start ltac:(by vm_compute)) as Hr. by rewrite E in Hr. }
  split; [| exact (blocking_fifo busy_start evs σ' busy_idle Hr)].
  assert (Hv : (fun '(evs, σ') => (sent evs, received evs, threads σ' !! 4%nat, buffer_size (sh_dev (sh σ'))))
                 (outcome busy_schedule busy_start)
               = ([[x61; x62; x63]; [x63; x64]], [[x61; x62; x63]],
                  Some (TLocked (OpSmode KBUF_MODE_SPSC) (lk_ret (- EBUSY))), 2)) by (by vm_compute).
  rewrite E in Hv. injection Hv as -> -> -> ->. split_and!; reflexivity.
Defined.


(** The writer inside its critical section while the others are outside. *)
Lemma blocking_mutex_witness :
  threads (demo_after 23) !! 2%nat = Some (TIo (Io Writer true 102 4) io_xfer) /\
  forall t th, threads (demo_after 23) !! t = Some th -> holds_lock th = true -> t = 2%nat.
Proof.
  split; [by vm_compute |]. intros t th Hth Hl.
  apply (blocking_mutex demo_start (demo_events 23) (demo_after 23) t 2 th
           (TIo (Io Writer true 102 4) io_xfer));
    [exact demo_idle | apply demo_run; by vm_compute | exact Hth | by vm_compute | exact Hl
     | reflexivity].
Defined.

(** The reader is queued and the writer has stored its message: it is on its
    way to the wake-up. *)
Lemma blocking_no_lost_wakeup_witness :
  must_wait Reader (sh_dev (sh (demo_after 10))) = true \/
  exists t' th', threads (demo_after 10) !! t' = Some th' /\ will_wake Reader th' = true.
Proof.
  apply (blocking_no_lost_wakeup demo_start (demo_events 10) (demo_after 10)
           0 (TIo (Io Reader false 104 2) io_asleep) Reader);
    [exact demo_idle | apply demo_run; by vm_compute | by vm_compute | reflexivity
     | apply (bool_decide_unpack _); by vm_compute].
Defined.

(** A reader and a poller alone on an empty device sleep for good. *)
Definition lone_reader : sys simuser :=
  demo_sys demo_dev [(0%nat, TIo (Io Reader false 104 2) io_lock); (1%nat, TPoll EPOLLIN pl_read_wq)].

Lemma lone_reader_idle : idle lone_reader.
Proof. apply idle_start; [repeat constructor; cbn; lia | done | exact demo_dev_ok | done]. Qed.

Definition lone_schedule : list (choice * nat) := replicate 6 (Run, 0%nat) ++ replicate 6 (Run, 1%nat).

Definition lone_after : sys simuser := (outcome lone_schedule lone_reader).2.

Lemma lone_stuck : stuck lone_after.
Proof.
  intros t. destruct (decide (t = 0%nat)) as [-> | Hne]; [by vm_compute |].
  destruct (decide (t = 1%nat)) as [-> | Hne1]; [by vm_compute |]. unfold sys_next.
  replace (threads lone_after)
    with ({[0%nat := TIo (Io Reader false 104 2) io_asleep; 1%nat := TPoll EPOLLIN (pl_asleep 260)]} : gmap nat thread)
    by (by vm_compute).
  by rewrite lookup_insert_ne, lookup_singleton_ne.
Qed.

Lemma blocking_deadlock_free_witness :
  stuck lone_after /\ sh_lock (sh lone_after) = None /\
  exists sd, forall t th, threads lone_after !! t = Some th ->
    finished th = true \/
    (exists l, th = TIo l io_asleep /\ io_side l = sd /\
       match sd with
       | Reader => dev_queue (sh_dev (sh lone_after)) = []
       | Writer => Z.of_nat (length (dev_queue (sh_dev (sh lone_after)))) = num_buffers (sh_dev (sh lone_after))
       end) \/
    (exists ev m, th = TPoll ev (pl_asleep m) /\ Z.land (poll_body (sh_dev (sh lone_after))) ev = 0).
Proof.
  split; [exact lone_stuck |].
  apply (blocking_deadlock_free lone_reader (outcome lone_schedule lone_reader).1);
    [exact lone_reader_idle | apply (outcome_run lone_schedule); by vm_compute
     | exact lone_stuck].
Defined.

(** A nine-byte write into four-byte slots stores four bytes. *)
Lemma nonblocking_call_witness :
  exists s', alone 6 7 (TIo (Io Writer true 100 9) io_lock) (demo_shared demo_dev)
             = Done (TIo (Io Writer true 100 4) (io_ret 4), s') /\
             dev_queue (sh_dev s') = [[x61; x62; x63; x64]].
Proof.
  pose proof (nonblocking_call Writer 7 100 9 (demo_shared demo_dev) demo_dev_ok
                eq_refl eq_refl ltac:(lia)) as H. cbv zeta in H.
  replace (spec_xfer _ _ _ _ _) with (4, demo_user, [[x61; x62; x63; x64]]) in H by (by vm_compute).
  change (must_wait Writer (sh_dev (demo_shared demo_dev))) with false in H. cbv iota in H.
  destruct H as (s' & Hrun & _ & Hq & _). by exists s'.
Defined.

(** ** The interleaving that goes wrong *)

(** A writer of four bytes, a reader, and a resize to one slot of one byte. *)
Definition overflow_threads : list (nat * thread) :=
  [(0%nat, TIo (Io Writer false 100 4) io_lock);
   (1%nat, TIo (Io Reader true 104 2) io_lock);
   (2%nat, TLocked (OpResize (KbufResize 1 1) (SlotArray 20 [demo_slot 21 [x00] 0])) lk_lock)].

(** The writer goes to sleep on the full ring, the reader drains it, the resize
    succeeds on the empty device, and the writer resumes. *)
Definition overflow_schedule : list (choice * nat) :=
  replicate 6 (Run, 0%nat) ++ replicate 5 (Run, 1%nat) ++ replicate 4 (Run, 2%nat) ++
  [(Run, 1%nat)] ++ replicate 6 (Run, 0%nat).

(** C40: [kbuf_write_blocking] clamps the count to the slot size once, before it
    waits: when a resize to smaller slots happens while the writer sleeps, the
    copy runs past the end of the new slot. *)
Theorem writer_overflow :
  idle (demo_sys full_dev overflow_threads) /\
  schedule false overflow_schedule (demo_sys full_dev overflow_threads) = Some (Oops OutOfBounds).
Proof.
  split; [| by vm_compute].
  apply idle_start; [| done | | done].
  - repeat constructor; cbn; lia.
  - exact full_dev_ok.
Qed.

(** A reader asleep on an empty device, and a switch to the lock-free mode. *)
Definition stranded_sys : sys simuser :=
  demo_sys demo_dev [(0%nat, TIo (Io Reader false 104 2) io_lock); (1%nat, TLocked (OpSmode KBUF_MODE_SPSC) lk_lock)].

Definition stranded : sys simuser :=
  match schedule false (replicate 6 (Run, 0%nat) ++ replicate 3 (Run, 1%nat)) stranded_sys with
  | Some (Done (_, σ)) => σ
  | _ => stranded_sys
  end.

(** What a writer of the lock-free mode leaves behind, the reader taken off its
    queue by the wake-up. *)
Definition stranded_written : sys simuser :=
  match kbuf_spsc_produce 100 3 (RWorld (sh_dev (sh stranded)) demo_user []) with
  | Done (_, w) => Sys (threads stranded) ((sh stranded) <| sh_dev := w_dev w |> <| sh_rwq := ∅ |>)
  | Oops _ => stranded
  end.

Definition stranded_for_good : sys simuser :=
  match schedule false (replicate 3 (Run, 0%nat)) stranded_written with
  | Some (Done (_, σ)) => σ
  | _ => stranded_written
  end.

(** The switch takes effect under a blocking reader that sleeps, and wakes
    nobody.  A message then queued by a lock-free writer, wake-up and all, is
    invisible to that reader: its test still reads [dev->count], so it goes back
    to sleep with a message in the ring. *)
Theorem smode_strands_reader :
  idle stranded_sys /\ threads stranded !! 1%nat = Some (TLocked (OpSmode KBUF_MODE_SPSC) (lk_ret 0)) /\
  dev_queue (sh_dev (sh stranded_for_good)) = [[x61; x62; x63]] /\
  threads stranded_for_good !! 0%nat = Some (TIo (Io Reader false 104 2) io_asleep) /\
  sys_next Run 0 stranded_written <> None /\ sys_next Run 0 stranded_for_good = None.
Proof.
  split; [apply idle_start; [| done | exact demo_dev_ok | done];
          cbn; repeat first [apply List.Forall_nil | apply List.Forall_cons]; cbn; (lia || by right) |].
  split; [by vm_compute |]. split; [by vm_compute |]. split; [by vm_compute |]. split; [| by vm_compute].
  by vm_compute.
Qed.
