(* ===== verification/Spsc.v ===== *)
(** * Spsc: the lock-free file operations of one producer and one consumer
    (src/kbuf_main.c, src/kbuf_ring.c)

    [kbuf_read_spsc] and [kbuf_write_spsc] as two threads that share the device
    without a lock.  A step is what a thread does between two accesses to
    memory the other side writes.

    Memory is weaker than interleaving.  Each index is written by one side;
    [q_pub sd] counts the stores [sd] has made to its own, and a load by the
    other side may return any of them not older than one it has already seen
    ([st_coh]): the scheduler picks it with [See].  [smp_load_acquire] of a
    store orders the loading thread after everything its writer did before the
    [smp_store_release]; [st_acq] is the newest store a thread is ordered after.
    Slots are plain memory: an access that is not ordered after the other side's
    last access to the slot ([q_stamp]) is a [DataRace].  The lock of a wait
    queue orders a waiter after the wakers that came before it ([q_wqview]).
    The orderings the kernel gives beyond these are not used. *)

From S2P Require Import Prelude Kernel Uapi Device Alloc Ring RingFacts RingSpec Ioctl Machine.
#[local] Open Scope Z_scope.

(** Points of [kbuf_read_spsc] and [kbuf_write_spsc], with the bodies of
    [kbuf_spsc_consume] and [kbuf_spsc_produce]. *)
Inductive sp_pc : Type :=
  | sp_clamp                              (** writer: clamp [count] *)
  | sp_test                               (** the [while] test *)
  | sp_wait                               (** [wait_event_interruptible]: first test *)
  | sp_prepare                            (** about to queue itself *)
  | sp_recheck                            (** queued, tests again *)
  | sp_asleep                             (** in [schedule()] *)
  | sp_slot                               (** [slot = &dev->slots[...]] *)
  | sp_copy (arr i : Z)                   (** the copy, through that pointer *)
  | sp_publish (n : Z) (m : list byte)    (** [smp_store_release]; [m] is the message moved *)
  | sp_account (n : Z)                    (** counters and tracepoint *)
  | sp_wake (r : Z)                       (** [wake_up_interruptible] of the other side *)
  | sp_ret (r : Z).

Record sp_thread := SpThread {
  st_io : io;
  st_pc : sp_pc;
  st_coh : Z;
  st_acq : Z
}.

(** What the scheduler picks: a plain step, the store a load returns, or a
    pending signal. *)
Inductive pick : Set := Go | See (v : Z) | Sig.

Definition on_side {A} (sd : side) (v : A) (f : side -> A) : side -> A :=
  fun s => if decide (s = sd) then v else f s.

Definition spsc_must_wait (sd : side) (d : kbuf_dev) : bool :=
  match sd with
  | Reader => kbuf_spsc_is_empty d
  | Writer => kbuf_spsc_is_full d
  end.

(** The device as [sd] reads it when the peer's index loads as store [v]. *)
Definition seen (sd : side) (v : Z) (d : kbuf_dev) : kbuf_dev :=
  match sd with
  | Reader => d <| prod_idx := u32 v |>
  | Writer => d <| cons_idx := u32 v |>
  end.

Definition own_idx (sd : side) (d : kbuf_dev) : Z :=
  match sd with Reader => cons_idx d | Writer => prod_idx d end.

(** The release store of the side's next index. *)
Definition advance (sd : side) (d : kbuf_dev) : kbuf_dev :=
  match sd with
  | Reader => d <| cons_idx := u32 (cons_idx d + 1) |>
  | Writer => d <| prod_idx := u32 (prod_idx d + 1) |>
  end.

(** Counters after the store, with the peer's index loaded as store [v]. *)
Definition spsc_account (sd : side) (n v : Z) (d : kbuf_dev) : kbuf_dev * trace_event :=
  match sd with
  | Reader =>
    (account_consumed n d, kbuf_consume (kbuf_id d) (u32 n) (u32 (u32 v - cons_idx d)))
  | Writer =>
    let occ := u32 (prod_idx d - u32 v) in
    (raise_peak occ (account_produced n d), kbuf_produce (kbuf_id d) (u32 n) occ)
  end.

Section spsc.
Context {U : Type} `{UAccess U}.

Record spshared := SpShared {
  q_dev : kbuf_dev;
  q_user : U;
  q_trace : list trace_event;
  q_pub : side -> Z;
  q_wq : side -> bool;
  q_wqview : side -> Z;
  q_stamp : side -> Z -> Z
}.

Definition eta_spshared (s : spshared) : spshared :=
  SpShared (q_dev s) (q_user s) (q_trace s) (q_pub s) (q_wq s) (q_wqview s) (q_stamp s).

#[global] Instance set_q_dev : Setter q_dev := ltac:(make_setter q_dev eta_spshared).
#[global] Instance set_q_user : Setter q_user := ltac:(make_setter q_user eta_spshared).
#[global] Instance set_q_trace : Setter q_trace := ltac:(make_setter q_trace eta_spshared).
#[global] Instance set_q_pub : Setter q_pub := ltac:(make_setter q_pub eta_spshared).
#[global] Instance set_q_wq : Setter q_wq := ltac:(make_setter q_wq eta_spshared).
#[global] Instance set_q_wqview : Setter q_wqview := ltac:(make_setter q_wqview eta_spshared).
#[global] Instance set_q_stamp : Setter q_stamp := ltac:(make_setter q_stamp eta_spshared).

(** The copy of [kbuf_spsc_consume] or [kbuf_spsc_produce]: [None] is the
    fault, otherwise the byte count and the message in the slot. *)
Definition spsc_copy (sd : side) (i ubuf cnt : Z) : prog (rworld U) (option (Z * list byte)) :=
  w <-- p_get ;;
  slot <-- p_some OutOfBounds (slot_at (w_dev w) i) ;;
  match sd with
  | Reader =>
    let n := Z.min cnt (len slot) in
    missed <-- copy_out ubuf (data slot) n ;;
    p_ret (if negb (missed =? 0) then None else Some (n, slot_msg slot))
  | Writer =>
    missed <-- copy_in i slot ubuf cnt ;;
    if negb (missed =? 0) then p_ret None else
    set_len i cnt ;;;
    w' <-- p_get ;;
    slot' <-- p_some OutOfBounds (slot_at (w_dev w') i) ;;
    p_ret (Some (cnt, slot_msg slot'))
  end.

Definition run_copy (sd : side) (i : Z) (l : io) (s : spshared)
  : exec (option (Z * list byte) * spshared) :=
  exec_bind (spsc_copy sd i (io_ubuf l) (io_count l) (RWorld (q_dev s) (q_user s) (q_trace s)))
    (fun '(r, w') =>
       Done (r, s <| q_dev := w_dev w' |> <| q_user := w_user w' |> <| q_trace := w_trace w' |>
                  <| q_stamp := on_side sd (fun j => if j =? i then q_pub s sd + 1 else q_stamp s sd j)
                                       (q_stamp s) |>)).

(** A load of the peer's index that returns store [v]. *)
Definition load (acquire : bool) (v : Z) (th : sp_thread) (s : spshared) : option sp_thread :=
  if (st_coh th <=? v) && (v <=? q_pub s (other (io_side (st_io th))))
  then Some (SpThread (st_io th) (st_pc th) v (if acquire then v else st_acq th))
  else None.

Definition goto (pc : sp_pc) (th : sp_thread) : sp_thread :=
  SpThread (st_io th) pc (st_coh th) (st_acq th).

Definition sp_step (c : pick) (th : sp_thread) (s : spshared)
  : option (exec (sp_thread * spshared)) :=
  let l := st_io th in
  let sd := io_side l in
  let d := q_dev s in
  match st_pc th, c with
  | sp_clamp, Go =>
    let l' := match sd with
              | Reader => l
              | Writer => if io_count l >? buffer_size d
                          then Io sd (io_nonblock l) (io_ubuf l) (buffer_size d) else l
              end in
    Some (Done (SpThread l' sp_test (st_coh th) (st_acq th), s))
  | sp_test, See v =>
    (fun th' =>
       if spsc_must_wait sd (seen sd v d) then
         if io_nonblock l then Done (goto (sp_ret (- EAGAIN)) th', s)
         else Done (goto sp_wait th', s <| q_dev := count_sleep sd d |>)
       else Done (goto sp_slot th', s)) <$> load true v th s
  | sp_wait, See v =>
    (fun th' => Done (goto (if spsc_must_wait sd (seen sd v d) then sp_prepare else sp_test) th', s))
      <$> load true v th s
  | sp_prepare, Sig => Some (Done (goto (sp_ret (- ERESTARTSYS)) th, s))
  | sp_prepare, Go =>
    let v := q_wqview s sd in
    Some (Done (SpThread l sp_recheck (Z.max (st_coh th) v) (Z.max (st_acq th) v),
                s <| q_wq := on_side sd true (q_wq s) |>))
  | sp_recheck, See v =>
    (fun th' =>
       if spsc_must_wait sd (seen sd v d) then Done (goto sp_asleep th', s)
       else Done (goto sp_test th', s <| q_wq := on_side sd false (q_wq s) |>))
      <$> load true v th s
  | sp_asleep, Sig =>
    Some (Done (goto (sp_ret (- ERESTARTSYS)) th, s <| q_wq := on_side sd false (q_wq s) |>))
  | sp_asleep, Go => if q_wq s sd then None else Some (Done (goto sp_prepare th, s))
  | sp_slot, Go =>
    match slots d with
    | None => Some (Oops NullDeref)
    | Some sa =>
      Some (Done (goto (sp_copy (sa_ptr sa) (Z.land (own_idx sd d) (u32 (num_buffers d - 1)))) th, s))
    end
  | sp_copy arr i, Go =>
    if negb (bool_decide (sa_ptr <$> slots d = Some arr)) then Some (Oops UseAfterFree) else
    if q_stamp s (other sd) i >? st_acq th then Some (Oops DataRace) else
    Some (exec_bind (run_copy sd i l s) (fun '(r, s') =>
          Done (goto (match r with
                      | None => sp_ret (- EFAULT)
                      | Some (n, m) => sp_publish n m
                      end) th, s')))
  | sp_publish n _, Go =>
    Some (Done (goto (sp_account n) th,
                s <| q_dev := advance sd d |> <| q_pub := on_side sd (q_pub s sd + 1) (q_pub s) |>))
  | sp_account n, See v =>
    (fun th' =>
       let '(d', e) := spsc_account sd n v d in
       Done (goto (if 0 <=? n then sp_wake n else sp_ret n) th',
             s <| q_dev := d' |> <| q_trace := q_trace s ++ [e] |>))
      <$> load false v th s
  | sp_wake r, Go =>
    Some (Done (goto (sp_ret r) th,
                s <| q_wq := on_side (other sd) false (q_wq s) |>
                  <| q_wqview := on_side (other sd) (q_pub s sd) (q_wqview s) |>
                  <| q_trace := q_trace s ++ [kbuf_wakeup (kbuf_id d)
                                  (match sd with Reader => 0 | Writer => 1 end)] |>))
  | _, _ => None
  end.

Record sp_sys := SpSys {
  sp_th : side -> sp_thread;
  sp_sh : spshared
}.

Definition sp_next (c : pick) (sd : side) (σ : sp_sys) : option (exec sp_sys) :=
  (fun e => exec_bind e (fun '(th', s') => Done (SpSys (on_side sd th' (sp_th σ)) s')))
    <$> sp_step c (sp_th σ sd) (sp_sh σ).

(** A device in SPSC mode whose two users are about to call; both have seen
    everything there is, and every slot access is older than any store. *)
Definition sp_start (d : kbuf_dev) (u : U) (calls : side -> io) : sp_sys :=
  let pub sd := match sd with
                | Reader => cons_idx d
                | Writer => cons_idx d + u32 (prod_idx d - cons_idx d)
                end in
  SpSys (fun sd => SpThread (calls sd) sp_clamp (pub (other sd)) (pub (other sd)))
        (SpShared d u [] pub (fun _ => false) (fun sd => pub (other sd))
                  (fun _ _ => - num_buffers d)).

(** The swap of a concurrent [KBUF_IOCRESIZE], which takes [dev->lock] but
    nothing the two sides use; the old array is freed with it. *)
Definition sp_resize (rq : kbuf_resize) (new_slots : slot_array) (s : spshared) : option spshared :=
  (fun d' => s <| q_dev := d' |>) <$> resize_swap new_slots rq (q_dev s).
End spsc.
Arguments spshared U : clear implicits.
Arguments sp_sys U : clear implicits.
