(* ===== verification/SpscFacts.v ===== *)
(** * SpscFacts: the invariant of the lock-free machine

    The two sides are treated alike.  A side's next access is message number
    [q_pub sd]; it may be made once it is below the peer's store the side is
    ordered after, plus [off] (the ring size for the writer, 0 for the
    reader). *)

From S2P Require Import Prelude Kernel Uapi Device Alloc Ring RingFacts RingSpec Ioctl Machine.
From S2P Require Import MachineFacts Spsc.
#[local] Open Scope Z_scope.

Definition off (sd : side) (d : kbuf_dev) : Z :=
  match sd with Reader => 0 | Writer => num_buffers d end.

Lemma other_other sd : other (other sd) = sd.
Proof. by destruct sd. Qed.

Lemma other_ne sd : other sd <> sd.
Proof. by destruct sd. Qed.

Lemma off_sum sd d : off sd d + off (other sd) d = num_buffers d.
Proof. destruct sd; cbn; lia. Qed.

Lemma on_side_eq {A} sd (v : A) f : on_side sd v f sd = v.
Proof. unfold on_side. by rewrite decide_True. Qed.

Lemma on_side_ne {A} sd sd' (v : A) f : sd' <> sd -> on_side sd v f sd' = f sd'.
Proof. intros Hne. unfold on_side. by rewrite decide_False. Qed.

Lemma on_side_other {A} sd (v : A) f : on_side sd v f (other sd) = f (other sd).
Proof. apply on_side_ne, other_ne. Qed.

Lemma on_side_peer {A} sd (v : A) f : on_side (other sd) v f sd = f sd.
Proof. apply on_side_ne. by destruct sd. Qed.

(** ** 32-bit indices of message numbers *)
Lemma u32_sub a b : u32 (u32 a - u32 b) = u32 (a - b).
Proof. unfold u32. by rewrite Zminus_mod_idemp_l, Zminus_mod_idemp_r. Qed.

Lemma u32_diff a b n : 0 <= a - b <= n -> n < 2 ^ 32 -> u32 (u32 a - u32 b) = a - b.
Proof. intros. rewrite u32_sub. apply u32_small. unfold in_u32. lia. Qed.

Lemma u32_inj a b n : 0 <= a - b <= n -> n < 2 ^ 32 -> u32 a = u32 b -> a = b.
Proof.
  intros Hd Hn E. pose proof (u32_diff a b n Hd Hn) as Hu. rewrite E, Z.sub_diag in Hu.
  change (u32 0) with 0 in Hu. lia.
Qed.

(** The test made with a stale value of the peer's index. *)
Lemma seen_wait sd d x v :
  geometry_ok d -> own_idx sd d = u32 x ->
  x <= v + off sd d -> v + off sd d - num_buffers d <= x ->
  spsc_must_wait sd (seen sd v d) = true <-> x = v + off sd d.
Proof.
  intros Hg Hi Hlo Hhi. pose proof (geo_n d Hg) as Hn. unfold KBUF_MAX_NUM_BUFFERS in Hn.
  destruct sd; cbn in *.
  - unfold kbuf_spsc_is_empty. cbn. rewrite Hi, Z.eqb_eq. split.
    + intros E. symmetry. rewrite (u32_inj v x (num_buffers d)); lia.
    + intros ->. by rewrite Z.add_0_r.
  - unfold kbuf_spsc_is_full. cbn. rewrite Hi, (u32_diff x v (num_buffers d)) by lia. lia.
Qed.

(** ** The device under the pieces of the two operations *)

(** What a side has copied and not yet published is still there. *)
Definition staged (sd : side) (d : kbuf_dev) (m : list byte) : Prop :=
  match sd with
  | Reader => exists rest, dev_queue d = m :: rest
  | Writer => exists sl, slot_at d (prod_idx d mod num_buffers d) = Some sl /\ slot_msg sl = m
  end.

(** Same ring, same geometry, same array. *)
Record same_ring (d d' : kbuf_dev) : Prop := {
  sr_ok : dev_ok d';
  sr_conf : same_config d d';
  sr_arr : sa_ptr <$> slots d' = sa_ptr <$> slots d
}.

Lemma spsc_wf d :
  dev_ok d -> mode d = KBUF_MODE_SPSC ->
  geometry_ok d /\ is_power_of_2 (num_buffers d) = true /\ 1 <= num_buffers d < 2 ^ 32.
Proof.
  intros (Hg & Hr & _) Hm. apply ring_ok_spsc in Hr as ([Hp _ _ _] & _); [| done].
  pose proof (geo_n d Hg) as Hn. unfold KBUF_MAX_NUM_BUFFERS in Hn. split_and!; (done || lia).
Qed.

Lemma put_slot_id d i s : slot_at d i = Some s -> put_slot i s d = d.
Proof.
  unfold slot_at, put_slot. destruct (slots d) as [sa |] eqn:E; [| done]. cbn.
  destruct (0 <=? i); [| done]. intros Hs. rewrite list_insert_id by done.
  destruct d, sa; cbn in *; by subst.
Qed.

(** Moving one index, within the bounds of the ring. *)
Lemma advance_ok sd d :
  dev_ok d -> mode d = KBUF_MODE_SPSC -> u32 (prod_idx (advance sd d) - cons_idx (advance sd d)) <= num_buffers d ->
  dev_ok (advance sd d).
Proof.
  intros (Hg & Hr & [Hpk H64]) Hm Hocc. apply ring_ok_spsc in Hr as ([Hp2 Hpi Hci _] & Hz); [| done].
  split_and!; [by destruct sd; apply (geometry_same d) | | by destruct sd; split].
  apply ring_ok_spsc; [by destruct sd |]. split; [| by destruct sd].
  split; [by destruct sd | destruct sd; [done | apply u32_range] | destruct sd; [apply u32_range | done] |].
  by destruct sd.
Qed.

Lemma publish_writer d m :
  dev_ok d -> mode d = KBUF_MODE_SPSC -> u32 (prod_idx d - cons_idx d) < num_buffers d ->
  staged Writer d m -> dev_queue (advance Writer d) = dev_queue d ++ [m].
Proof.
  intros Hok Hm Hlt (sl & Hs & <-). destruct (spsc_wf d Hok Hm) as (Hg & Hp2 & Hn).
  pose proof (u32_range (prod_idx d - cons_idx d)) as Hr. unfold in_u32 in Hr.
  pose proof (queue_window_push d (cons_idx d) (u32 (prod_idx d - cons_idx d))
                (prod_idx d mod num_buffers d) sl Hg ltac:(lia)
                (spsc_prod_slot _ _ _ (geo_n d Hg) Hp2)) as Hq.
  rewrite (put_slot_id d _ sl Hs) in Hq. rewrite !dev_queue_spsc by done. unfold spsc_queue. dev_fields.
  cbn [advance prod_idx cons_idx set_field set_prod_idx]. rewrite u32_occ_succ by lia. rewrite <- Hq.
  by apply queue_window_same.
Qed.

Lemma publish_reader d m :
  dev_ok d -> mode d = KBUF_MODE_SPSC -> prod_idx d <> cons_idx d -> staged Reader d m ->
  dev_queue d = m :: dev_queue (advance Reader d).
Proof.
  intros Hok Hm Hne (rest & Hst). destruct (spsc_slot d (cons_idx d) Hok) as (s & Hs & _).
  destruct (spsc_consumed_ok d s 0 Hok Hm Hne Hs) as [_ Hq]. rewrite Hq in Hst.
  injection Hst as <- _. by rewrite Hq.
Qed.

(** ** The pieces keep the ring *)
Lemma advance_conf sd d : same_config d (advance sd d) /\ slots (advance sd d) = slots d.
Proof. by destruct sd; split. Qed.

(** A change of counters and high-water mark only. *)
Lemma same_ring_stats d d' :
  dev_ok d -> mode d = KBUF_MODE_SPSC -> slots d' = slots d -> same_config d d' ->
  (read_pos d', write_pos d', count d', prod_idx d', cons_idx d')
  = (read_pos d, write_pos d, count d, prod_idx d, cons_idx d) ->
  stats_ok d' -> same_ring d d' /\ dev_queue d' = dev_queue d.
Proof.
  intros (Hg & Hr & _) Hm Hs Hc Hf Hst. pose proof (sc_n _ _ Hc) as Hn. pose proof (sc_b _ _ Hc) as Hb.
  pose proof (sc_mode _ _ Hc) as Hm'. injection Hf as Hrp Hwp Hco Hp Hci.
  split; [split; [| done | by rewrite Hs] |].
  - split_and!; [by apply (geometry_same d) | | done].
    apply ring_ok_spsc in Hr as ([] & Hz); [| done]. apply ring_ok_spsc; [congruence |].
    rewrite Hrp, Hwp, Hco. split; [| done]. split; by rewrite ?Hn, ?Hp, ?Hci.
  - rewrite !dev_queue_spsc by congruence. unfold spsc_queue. rewrite Hp, Hci. by apply queue_window_same.
Qed.

Lemma account_same sd n v d :
  dev_ok d -> mode d = KBUF_MODE_SPSC -> (sd = Writer -> u32 (prod_idx d - u32 v) <= num_buffers d) ->
  same_ring d (spsc_account sd n v d).1 /\ dev_queue (spsc_account sd n v d).1 = dev_queue d /\
  (forall sd', own_idx sd' (spsc_account sd n v d).1 = own_idx sd' d).
Proof.
  intros Hok Hm Hocc. pose proof Hok as (_ & _ & [Hpk H64]).
  assert (Hst : stats_ok (spsc_account sd n v d).1).
  { destruct sd; cbn [spsc_account fst]; [by split; [| counters] |].
    rewrite raise_peak_max. pose proof (u32_range (prod_idx d - u32 v)) as [? _].
    specialize (Hocc eq_refl). split; [cbn; lia |]. cbn. counters. }
  destruct sd; cbn [spsc_account fst] in *; rewrite ?raise_peak_max in *.
  all: match type of Hst with stats_ok ?d' =>
         destruct (same_ring_stats d d' Hok Hm eq_refl ltac:(by split) eq_refl Hst) as [? ?] end.
  all: split_and!; [done | done | by intros []].
Qed.

Lemma sleep_same sd d :
  dev_ok d -> mode d = KBUF_MODE_SPSC ->
  same_ring d (count_sleep sd d) /\ dev_queue (count_sleep sd d) = dev_queue d /\
  (forall sd', own_idx sd' (count_sleep sd d) = own_idx sd' d).
Proof.
  intros Hok Hm. pose proof (count_sleep_ok sd d Hok) as (_ & _ & Hst).
  destruct (same_ring_stats d (count_sleep sd d) Hok Hm) as [? ?]; try by destruct sd.
Qed.

Section copies.
Context {U : Type} {ua : UAccess U} {ual : UAccessLaws U}.
Implicit Types (u : U) (d : kbuf_dev).

(** The writer's copy fills the slot past the end of the queue with the
    caller's bytes. *)
Lemma copy_writer d u tr a cnt :
  dev_ok d -> mode d = KBUF_MODE_SPSC -> u32 (prod_idx d - cons_idx d) < num_buffers d ->
  0 <= cnt <= buffer_size d ->
  exists r d', spsc_copy Writer (prod_idx d mod num_buffers d) a cnt (RWorld d u tr)
               = Done (r, RWorld d' u tr) /\
    same_ring d d' /\ dev_queue d' = dev_queue d /\ (forall sd, own_idx sd d' = own_idx sd d) /\
    match r with
    | None => user_bytes u a cnt = None
    | Some (n, m) => n = cnt /\ user_bytes u a cnt = Some m /\ staged Writer d' m
    end.
Proof.
  intros Hok Hm Hlt Hc. destruct (spsc_wf d Hok Hm) as (Hg & Hp2 & Hn).
  destruct (spsc_slot d (prod_idx d) Hok) as (s & Hs & Hso). set (i := prod_idx d mod num_buffers d) in *.
  destruct (copy_from_user u a cnt) as [bs missed] eqn:Hcp.
  destruct (copy_from_user_spec u a cnt bs missed [] ltac:(lia) Hcp) as [Hbl Hsp].
  pose proof (u32_range (prod_idx d - cons_idx d)) as [Hlo _].
  assert (Hi : 0 <= i < num_buffers d) by (apply Z.mod_pos_bound; lia).
  assert (Hfill : forall l, 0 <= l <= buffer_size d ->
            let d' := put_slot i (filled s bs cnt l) d in
            same_ring d d' /\ dev_queue d' = dev_queue d /\ (forall sd, own_idx sd d' = own_idx sd d)).
  { intros l Hl d'.
    destruct (aborted_fill d i (cons_idx d) (u32 (prod_idx d - cons_idx d)) (filled s bs cnt l))
      as (Hok' & Hsc & Hq & sl & Hsl);
      [done | by apply filled_ok | lia | by apply spsc_prod_slot; [apply (geo_n d Hg) |] |].
    split; [split; [done | done |] |].
    - unfold d', put_slot. destruct (slots d) eqn:E; [done | by rewrite E].
    - unfold d'. rewrite !dev_queue_spsc by (rewrite ?(sc_mode _ _ Hsc); done). unfold spsc_queue.
      split; [rewrite <- Hq; by rewrite Hsl | rewrite Hsl; by intros []]. }
  unfold spsc_copy, p_bind, p_get, p_some. cbn [exec_bind w_dev]. rewrite Hs. cbn [exec_bind p_ret].
  rewrite (copy_in_run d u tr i s a cnt bs missed) by (done || (destruct Hso; lia)).
  cbn [exec_bind]. unfold spec_produce in Hsp. destruct (Z.eqb_spec missed 0) as [-> | Hmi]; cbn [negb].
  - unfold set_len, dev_update, p_modify. cbn [exec_bind w_dev w_user w_trace].
    rewrite slot_at_put, put_put_slot by done. cbn [exec_bind w_dev].
    change (KbufSlot (data (filled s bs cnt (len s))) cnt) with (filled s bs cnt cnt).
    destruct (Hfill cnt Hc) as (Hsr & Hq & Hi'). rewrite slot_at_put by done. cbn [exec_bind p_ret].
    eexists _, _. split; [done |]. do 3 (split; [done |]).
    rewrite filled_msg by done. split; [done |].
    split; [by destruct (user_bytes u a cnt); simplify_eq |].
    exists (filled s bs cnt cnt). split; [| by apply filled_msg].
    rewrite (Hi' Writer : prod_idx _ = _), (sc_n _ _ (sr_conf _ _ Hsr)). by apply slot_at_put.
  - destruct Hso as [Hs1 Hs2]. destruct (Hfill (len s) Hs2) as (Hsr & Hq & Hi').
    eexists _, _. split; [done |]. split_and!; [done | done | done |].
    by destruct (user_bytes u a cnt); simplify_eq.
Qed.

(** The reader's copy delivers the head of the queue, cut to its buffer. *)
Lemma copy_reader d u tr a cnt :
  dev_ok d -> mode d = KBUF_MODE_SPSC -> prod_idx d <> cons_idx d -> 0 <= cnt ->
  exists r u', spsc_copy Reader (cons_idx d mod num_buffers d) a cnt (RWorld d u tr)
               = Done (r, RWorld d u' tr) /\
    match r with
    | None => exists m, staged Reader d m /\
                (copy_to_user u a (take (Z.to_nat (Z.min cnt (Z.of_nat (length m)))) m)).2 <> 0
    | Some (n, m) => staged Reader d m /\ n = Z.min cnt (Z.of_nat (length m)) /\
                     copy_to_user u a (take (Z.to_nat n) m) = (u', 0)
    end.
Proof.
  intros Hok Hm Hne Hc. destruct (spsc_slot d (cons_idx d) Hok) as (s & Hs & Hso).
  destruct (spsc_consumed_ok d s 0 Hok Hm Hne Hs) as [_ Hq].
  unfold spsc_copy, p_bind, p_get, p_some. cbn [exec_bind w_dev]. rewrite Hs. cbn [exec_bind p_ret].
  destruct (copy_to_user u a (take (Z.to_nat (Z.min cnt (len s))) (kb_bytes (data s))))
    as [u' missed] eqn:Hcp.
  rewrite (copy_out_run d u tr (data s) a _ u' missed) by (done || (destruct Hso; lia)).
  rewrite (take_slot_msg _ s cnt Hso Hc) in Hcp.
  cbn [exec_bind]. destruct (Z.eqb_spec missed 0) as [-> | Hmi]; cbn [negb]; (eexists _, _; split; [done |]).
  - split; [by eexists |]. rewrite (slot_msg_length _ s Hso). split; [done |].
    by rewrite (slot_msg_length _ s Hso) in Hcp.
  - exists (slot_msg s). split; [by eexists |]. by rewrite Hcp.
Qed.
End copies.

(** ** The invariant *)

(** Past its store, before the wake-up. *)
Definition waking (th : sp_thread) : bool :=
  match st_pc th with sp_account _ | sp_wake _ => true | _ => false end.

Definition sp_clamped (pc : sp_pc) : bool :=
  match pc with
  | sp_test | sp_wait | sp_prepare | sp_recheck | sp_asleep | sp_slot | sp_copy _ _ => true
  | _ => false
  end.

(** Past the test of the [while]. *)
Definition passed (pc : sp_pc) : bool :=
  match pc with sp_slot | sp_copy _ _ | sp_publish _ _ => true | _ => false end.

(** The highest message number at or above [lo] that lives in slot [j], plus
    one: no access stamp of a side that starts at [lo] exceeds it. *)
Definition slot_bound (n lo j : Z) : Z := lo + (j - lo) mod n + 1.

Lemma slot_bound_mono n lo lo' j : 0 < n -> lo <= lo' -> slot_bound n lo j <= slot_bound n lo' j.
Proof.
  intros Hn Hle. unfold slot_bound. pose proof (Z.mod_pos_bound (j - lo) n Hn).
  pose proof (Z.div_mod (j - lo) n ltac:(lia)). pose proof (Z.div_mod (j - lo') n ltac:(lia)).
  pose proof (Z.div_le_mono (j - lo') (j - lo) n Hn ltac:(lia)). nia.
Qed.

Lemma slot_bound_in n lo x : 0 < n -> lo <= x < lo + n -> slot_bound n lo (x mod n) = x + 1.
Proof.
  intros Hn Hx. unfold slot_bound. rewrite Zminus_mod_idemp_l, Z.mod_small by lia. lia.
Qed.

Section inv.
Context {U : Type} {ua : UAccess U} {ual : UAccessLaws U}.
Implicit Types (s : spshared U) (σ : sp_sys U) (th : sp_thread).

Record th_ok (sd : side) (th peer : sp_thread) s : Prop := {
  to_side : io_side (st_io th) = sd;
  to_count : 0 <= io_count (st_io th);
  to_clamp : sp_clamped (st_pc th) = true -> sd = Writer ->
             io_count (st_io th) <= buffer_size (q_dev s);
  to_views : st_acq th <= st_coh th <= q_pub s (other sd);
  to_room : q_pub s sd <= st_acq th + off sd (q_dev s);
  to_pass : passed (st_pc th) = true -> q_pub s sd < st_acq th + off sd (q_dev s);
  to_pc : match st_pc th with
          | sp_copy arr i =>
            sa_ptr <$> slots (q_dev s) = Some arr /\ i = q_pub s sd mod num_buffers (q_dev s)
          | sp_publish n m => staged sd (q_dev s) m /\ 0 <= n
          | sp_account n => 0 <= n
          | sp_recheck => q_wq s sd = true -> q_wqview s sd <= st_coh th
          | sp_asleep => q_wq s sd = true ->
                         q_pub s sd = q_pub s (other sd) + off sd (q_dev s) \/ waking peer = true
          | _ => True
          end
}.

Record sp_inv σ : Prop := {
  v_dev : dev_ok (q_dev (sp_sh σ));
  v_mode : mode (q_dev (sp_sh σ)) = KBUF_MODE_SPSC;
  v_idx sd : own_idx sd (q_dev (sp_sh σ)) = u32 (q_pub (sp_sh σ) sd);
  v_range sd : q_pub (sp_sh σ) sd <= q_pub (sp_sh σ) (other sd) + off sd (q_dev (sp_sh σ));
  v_th sd : th_ok sd (sp_th σ sd) (sp_th σ (other sd)) (sp_sh σ);
  v_stamp sd j :
    0 <= j < num_buffers (q_dev (sp_sh σ)) ->
    q_stamp (sp_sh σ) sd j <=
    slot_bound (num_buffers (q_dev (sp_sh σ)))
      (q_pub (sp_sh σ) (other sd) + off sd (q_dev (sp_sh σ)) - num_buffers (q_dev (sp_sh σ))) j;
  v_view sd : q_wqview (sp_sh σ) sd <= q_pub (sp_sh σ) (other sd) /\
    (q_wqview (sp_sh σ) sd = q_pub (sp_sh σ) (other sd) \/ waking (sp_th σ (other sd)) = true)
}.

(** What one step of [sd] does to the shared state. *)
Record sp_effect (sd : side) (th peer th' : sp_thread) s s' : Prop := {
  ef_ring : same_ring (q_dev s) (q_dev s');
  ef_peer : q_pub s' (other sd) = q_pub s (other sd);
  ef_idx : own_idx sd (q_dev s') = u32 (q_pub s' sd);
  ef_idx_peer : own_idx (other sd) (q_dev s') = own_idx (other sd) (q_dev s);
  ef_pub : q_pub s sd <= q_pub s' sd /\ (q_pub s' sd = q_pub s sd \/ waking th' = true);
  ef_range : q_pub s' sd <= q_pub s (other sd) + off sd (q_dev s);
  ef_stamp_peer : q_stamp s' (other sd) = q_stamp s (other sd);
  ef_stamp j : 0 <= j < num_buffers (q_dev s) ->
    q_stamp s' sd j <= slot_bound (num_buffers (q_dev s))
      (q_pub s (other sd) + off sd (q_dev s) - num_buffers (q_dev s)) j;
  ef_view : q_wqview s' sd = q_wqview s sd;
  ef_wake : (q_wq s' (other sd) = q_wq s (other sd) /\
             q_wqview s' (other sd) = q_wqview s (other sd) /\
             (waking th = true -> waking th' = true)) \/
            (q_wq s' (other sd) = false /\ q_wqview s' (other sd) = q_pub s' sd);
  ef_staged m : staged (other sd) (q_dev s) m -> staged (other sd) (q_dev s') m;
  ef_th : th_ok sd th' peer s'
}.

(** The peer keeps its own conditions. *)
Lemma peer_ok sd th peer th' s s' :
  sp_effect sd th peer th' s s' -> th_ok (other sd) peer th s -> th_ok (other sd) peer th' s'.
Proof.
  intros E [Hs Hc Hcl Hv Hr Hp Hpc]. pose proof (ef_ring _ _ _ _ _ _ E) as [_ Hsc Harr].
  pose proof (sc_n _ _ Hsc) as Hn. pose proof (sc_b _ _ Hsc) as Hb.
  assert (Ho : forall x, off x (q_dev s') = off x (q_dev s)) by (intros []; [done | exact Hn]).
  pose proof (ef_peer _ _ _ _ _ _ E) as Hpp. pose proof (ef_pub _ _ _ _ _ _ E) as [Hle Hpub].
  rewrite other_other in *.
  split; rewrite ?other_other, ?Hpp, ?Ho, ?Hb; [done | done | done | lia | done | done |].
  destruct (st_pc peer); try done.
  - intros Hq. destruct (ef_wake _ _ _ _ _ _ E) as [(Hw & Hvw & _) | [Hw _]]; [| congruence].
    rewrite Hvw. apply Hpc. congruence.
  - intros Hq. destruct (ef_wake _ _ _ _ _ _ E) as [(Hw & _ & Hwk) | [Hw _]]; [| congruence].
    destruct Hpc as [Hpc | Hpc]; [congruence | | right; by apply Hwk].
    destruct Hpub as [-> | Hpub]; [by left | by right].
  - by rewrite Harr, Hn.
  - destruct Hpc as [Hm Hn']. split; [by apply (ef_staged _ _ _ _ _ _ E) | done].
Qed.

Lemma sp_effect_inv sd th' s' σ :
  sp_inv σ -> sp_effect sd (sp_th σ sd) (sp_th σ (other sd)) th' (sp_sh σ) s' ->
  sp_inv (SpSys (on_side sd th' (sp_th σ)) s').
Proof.
  intros [Hd Hm Hi Hr Ht Hst Hvw] E. pose proof (ef_ring _ _ _ _ _ _ E) as [Hd' Hsc Harr].
  pose proof (sc_n _ _ Hsc) as Hn. set (s := sp_sh σ) in *.
  assert (Ho : forall x, off x (q_dev s') = off x (q_dev s)) by (intros []; [done | exact Hn]).
  pose proof (ef_peer _ _ _ _ _ _ E) as Hpp. pose proof (ef_pub _ _ _ _ _ _ E) as [Hle Hpub].
  pose proof (geo_n _ (proj1 Hd)) as Hgn.
  split; cbn [sp_th sp_sh]; [done | rewrite (sc_mode _ _ Hsc); done | | | | |]; intros x.
  all: assert (Hx : x = sd \/ x = other sd) by (destruct x, sd; tauto).
  - destruct Hx as [-> | ->]; [apply E |]. by rewrite (ef_idx_peer _ _ _ _ _ _ E), Hi, Hpp.
  - rewrite Ho. destruct Hx as [-> | ->]; rewrite ?other_other, Hpp; [apply E |].
    specialize (Hr (other sd)). rewrite other_other in Hr. lia.
  - destruct Hx as [-> | ->].
    + rewrite on_side_eq, on_side_other. apply E.
    + rewrite other_other, on_side_eq, on_side_other. apply (peer_ok sd (sp_th σ sd) _ _ s); [done |].
      specialize (Ht (other sd)). by rewrite other_other in Ht.
  - intros j. rewrite Hn, Ho. intros Hj. destruct Hx as [-> | ->]; rewrite ?other_other, ?Hpp; [by apply E |].
    rewrite (ef_stamp_peer _ _ _ _ _ _ E). specialize (Hst (other sd) j Hj). rewrite other_other in Hst.
    etrans; [exact Hst | apply slot_bound_mono; lia].
  - destruct Hx as [-> | ->].
    + rewrite on_side_other, (ef_view _ _ _ _ _ _ E), Hpp. apply Hvw.
    + rewrite other_other, on_side_eq. specialize (Hvw (other sd)). rewrite other_other in Hvw.
      destruct (ef_wake _ _ _ _ _ _ E) as [(_ & -> & Hwk) | [_ ->]]; [| by split; [lia | left]].
      destruct Hvw as [Hv1 Hv2]. split; [lia |].
      destruct Hpub as [-> | ?]; [| by right]. destruct Hv2; [by left | right; by apply Hwk].
Qed.
(** ** Steps *)
Definition tid (sd : side) : nat := match sd with Reader => 0%nat | Writer => 1%nat end.

(** A message is sent or received when its index is stored. *)
Definition sp_events th : list event :=
  match st_pc th with
  | sp_publish n m =>
    match io_side (st_io th) with
    | Writer => [Sent (tid Writer) m]
    | Reader => [Rcvd (tid Reader) m n]
    end
  | _ => []
  end.

(** A step that moves neither index nor message. *)
Lemma sp_quiet σ sd th' s' :
  sp_inv σ -> let s := sp_sh σ in
  same_ring (q_dev s) (q_dev s') -> slots (q_dev s') = slots (q_dev s) ->
  (forall x, own_idx x (q_dev s') = own_idx x (q_dev s)) -> dev_queue (q_dev s') = dev_queue (q_dev s) ->
  q_pub s' = q_pub s -> q_stamp s' = q_stamp s -> q_wqview s' = q_wqview s ->
  q_wq s' (other sd) = q_wq s (other sd) ->
  (waking (sp_th σ sd) = true -> waking th' = true) ->
  th_ok sd th' (sp_th σ (other sd)) s' ->
  sp_effect sd (sp_th σ sd) (sp_th σ (other sd)) th' s s'.
Proof.
  intros Hinv s Hsr Hsl Hix Hq Hp Hst Hvw Hwq Hwk Hth.
  split; rewrite ?Hp, ?Hst, ?Hvw, ?Hix; try done; [apply Hinv | by split; [lia | left] | apply Hinv
    | intros j Hj; by apply (v_stamp σ Hinv) | by left |].
  intros m. pose proof (sc_n _ _ (sr_conf _ _ Hsr)) as Hn. destruct sd; cbn.
  - intros (sl & Hs & <-). exists sl. split; [| done]. unfold slot_at in *.
    rewrite (Hix Writer : prod_idx _ = _), Hn. by rewrite Hsl.
  - intros [rest Hr]. exists rest. congruence.
Qed.

Lemma same_ring_refl d : dev_ok d -> same_ring d d.
Proof. intros Hok. by split. Qed.

(** The conditions of a thread that only moved on and learnt something. *)
Lemma th_move sd th peer s s' pc coh acq :
  th_ok sd th peer s -> q_pub s' = q_pub s -> same_config (q_dev s) (q_dev s') ->
  st_acq th <= acq <= coh -> coh <= q_pub s (other sd) ->
  (sp_clamped pc = true -> sp_clamped (st_pc th) = true) ->
  (passed pc = true -> q_pub s sd < acq + off sd (q_dev s)) ->
  match pc with
  | sp_copy arr i =>
    sa_ptr <$> slots (q_dev s') = Some arr /\ i = q_pub s sd mod num_buffers (q_dev s)
  | sp_publish n m => staged sd (q_dev s') m /\ 0 <= n
  | sp_account n => 0 <= n
  | sp_recheck => q_wqview s' sd <= coh
  | sp_asleep => q_wq s' sd = true ->
                 q_pub s sd = q_pub s (other sd) + off sd (q_dev s) \/ waking peer = true
  | _ => True
  end ->
  th_ok sd (SpThread (st_io th) pc coh acq) peer s'.
Proof.
  intros [Hs Hc Hcl Hv Hr Hp Hpc] Hpub Hsc Ha Hco Hcl' Hp' Hpc'.
  pose proof (sc_n _ _ Hsc) as Hn. pose proof (sc_b _ _ Hsc) as Hb.
  assert (Ho : off sd (q_dev s') = off sd (q_dev s)) by (destruct sd; [done | exact Hn]).
  split; cbn [st_io st_pc st_coh st_acq]; rewrite ?Hpub, ?Ho, ?Hb, ?Hn; try done; [| lia | lia |].
  - intros Hx. by apply Hcl, Hcl'.
  - by destruct pc.
Qed.

Lemma load_inv acquire v th s th' sd :
  io_side (st_io th) = sd -> load acquire v th s = Some th' ->
  th' = SpThread (st_io th) (st_pc th) v (if acquire then v else st_acq th) /\
  st_coh th <= v <= q_pub s (other sd).
Proof.
  intros <- Hl. unfold load in Hl. destruct (Z.leb_spec (st_coh th) v); [| done].
  destruct (Z.leb_spec v (q_pub s (other (io_side (st_io th))))); [| done]. cbn in Hl.
  injection Hl as <-. split; [done | lia].
Qed.

(** What the test tells a thread that loaded store [v]. *)
Lemma wait_test σ sd v :
  sp_inv σ -> let s := sp_sh σ in
  st_coh (sp_th σ sd) <= v <= q_pub s (other sd) ->
  spsc_must_wait sd (seen sd v (q_dev s)) = true <-> q_pub s sd = v + off sd (q_dev s).
Proof.
  intros Hinv s Hv. destruct (v_th σ Hinv sd) as [_ _ _ Hvs Hr _ _].
  pose proof (v_range σ Hinv (other sd)) as Hr2. rewrite other_other in Hr2.
  pose proof (off_sum sd (q_dev s)). fold s in Hr2, Hvs, Hr.
  apply seen_wait; [apply (v_dev σ Hinv) | apply (v_idx σ Hinv) | lia | lia].
Qed.
(** A step does not go wrong, keeps the invariant and accounts for every
    message. *)
Definition sp_good σ (sd : side) (e : exec (sp_thread * spshared U)) : Prop :=
  exists th' s', e = Done (th', s') /\
    sp_effect sd (sp_th σ sd) (sp_th σ (other sd)) th' (sp_sh σ) s' /\
    dev_queue (q_dev (sp_sh σ)) ++ sent (sp_events (sp_th σ sd))
    = received (sp_events (sp_th σ sd)) ++ dev_queue (q_dev s').

(** A step of a thread alone, up to its own place on its wait queue. *)
Lemma good_quiet σ sd th' s' :
  sp_inv σ -> let s := sp_sh σ in
  sp_events (sp_th σ sd) = [] -> q_dev s' = q_dev s -> q_pub s' = q_pub s -> q_stamp s' = q_stamp s ->
  q_wqview s' = q_wqview s -> q_wq s' (other sd) = q_wq s (other sd) ->
  waking (sp_th σ sd) = false -> th_ok sd th' (sp_th σ (other sd)) s' ->
  sp_good σ sd (Done (th', s')).
Proof.
  intros Hinv s He Hd Hp Hst Hvw Hwq Hwk Hth. exists th', s'. split; [done |].
  rewrite He, Hd. cbn. rewrite app_nil_r. split; [| done].
  apply sp_quiet; rewrite ?Hd; try done; [apply same_ring_refl, (v_dev σ Hinv) |]. by rewrite Hwk.
Qed.

Lemma clamp_good σ sd e :
  sp_inv σ -> st_pc (sp_th σ sd) = sp_clamp -> sp_step Go (sp_th σ sd) (sp_sh σ) = Some e -> sp_good σ sd e.
Proof.
  intros Hinv Hpc Hst. pose proof (v_th σ Hinv sd) as [Hs Hc _ Hv Hr _ _].
  unfold sp_step in Hst. rewrite Hpc, Hs in Hst. injection Hst as <-.
  apply good_quiet; try done; [by unfold sp_events; rewrite Hpc | by unfold waking; rewrite Hpc |].
  pose proof (geo_b _ (proj1 (v_dev σ Hinv))). split; cbn [st_io st_pc st_coh st_acq]; try done.
  all: destruct sd; try done; try (intros _ _).
  all: destruct (Z.gtb_spec (io_count (st_io (sp_th σ Writer))) (buffer_size (q_dev (sp_sh σ)))).
  all: cbn; (done || lia).
Qed.

(** The three tests. *)
Lemma test_good σ sd v e :
  sp_inv σ -> st_pc (sp_th σ sd) = sp_test \/ st_pc (sp_th σ sd) = sp_wait \/ st_pc (sp_th σ sd) = sp_recheck ->
  sp_step (See v) (sp_th σ sd) (sp_sh σ) = Some e -> sp_good σ sd e.
Proof.
  intros Hinv Hpcs Hst. pose proof (v_th σ Hinv sd) as Hth. pose proof Hth as [Hs Hc _ Hv Hr _ Hpc].
  unfold sp_step in Hst. rewrite Hs in Hst.
  assert (Hev : sp_events (sp_th σ sd) = []) by (unfold sp_events; by destruct Hpcs as [-> | [-> | ->]]).
  assert (Hwk : waking (sp_th σ sd) = false) by (unfold waking; by destruct Hpcs as [-> | [-> | ->]]).
  destruct (load true v (sp_th σ sd) (sp_sh σ)) as [th1 |] eqn:Hl;
    [| by destruct Hpcs as [E | [E | E]]; rewrite E in Hst].
  destruct (load_inv _ _ _ _ _ sd Hs Hl) as [-> Hv']. pose proof (wait_test σ sd v Hinv Hv') as Hw.
  pose proof (same_config_refl (q_dev (sp_sh σ))) as Hrefl.
  destruct Hpcs as [E | [E | E]]; rewrite E in Hst; cbn [fmap option_fmap option_map] in Hst;
    injection Hst as <-; rewrite E in Hpc; unfold goto; cbn [st_io st_pc st_coh st_acq].
  - destruct (spsc_must_wait sd (seen sd v (q_dev (sp_sh σ)))) eqn:Hmw.
    + destruct (io_nonblock (st_io (sp_th σ sd))).
      { apply good_quiet; try done. apply th_move with (s := sp_sh σ); rewrite ?E; (done || lia). }
      destruct (sleep_same sd (q_dev (sp_sh σ)) (v_dev σ Hinv) (v_mode σ Hinv)) as (Hsr & Hq & Hix).
      eexists _, _. split; [done |]. rewrite Hev. cbn. rewrite app_nil_r. split; [| done].
      apply sp_quiet; try done; [by destruct sd | by rewrite Hwk |].
      apply th_move with (s := sp_sh σ); rewrite ?E; [done | done | apply Hsr | lia | lia | done | done | done].
    + apply good_quiet; try done. apply th_move with (s := sp_sh σ); rewrite ?E; try (done || lia).
  - apply good_quiet; try done. apply th_move with (s := sp_sh σ); rewrite ?E; try (done || lia);
      by destruct (spsc_must_wait _ _).
  - destruct (spsc_must_wait sd (seen sd v (q_dev (sp_sh σ)))) eqn:Hmw.
    + apply good_quiet; try done. apply th_move with (s := sp_sh σ); rewrite ?E; try (done || lia).
      intros Hq. specialize (Hpc Hq). destruct (v_view σ Hinv sd) as [_ [Hview | ?]]; [left | by right].
      rewrite (proj1 Hw eq_refl). lia.
    + apply good_quiet; try done; [apply on_side_other |].
      apply th_move with (s := sp_sh σ); rewrite ?E; (done || lia).
Qed.
(** Queueing, sleeping and giving up. *)
Lemma queue_good σ sd c e :
  sp_inv σ -> st_pc (sp_th σ sd) = sp_prepare \/ st_pc (sp_th σ sd) = sp_asleep ->
  sp_step c (sp_th σ sd) (sp_sh σ) = Some e -> sp_good σ sd e.
Proof.
  intros Hinv Hpcs Hst. pose proof (v_th σ Hinv sd) as Hth. pose proof Hth as [Hs Hc _ Hv Hr _ Hpc].
  pose proof (v_view σ Hinv sd) as [Hvw _].
  assert (Hev : sp_events (sp_th σ sd) = []) by (unfold sp_events; by destruct Hpcs as [-> | ->]).
  assert (Hwk : waking (sp_th σ sd) = false) by (unfold waking; by destruct Hpcs as [-> | ->]).
  unfold sp_step in Hst. rewrite Hs in Hst.
  destruct Hpcs as [E | E]; rewrite E in Hst; destruct c; try done.
  2: { by injection Hst as <-; apply good_quiet; try done;
         apply th_move with (s := sp_sh σ); rewrite ?E; (done || lia). }
  2: { destruct (q_wq (sp_sh σ) sd); [done |]. injection Hst as <-. apply good_quiet; try done.
       apply th_move with (s := sp_sh σ); rewrite ?E; (done || lia). }
  all: injection Hst as <-; apply good_quiet; try done; try apply on_side_other.
  all: apply th_move with (s := sp_sh σ); rewrite ?E; cbn; (done || lia).
Qed.

(** The slot's number is the message number modulo the ring. *)
Lemma slot_index σ sd :
  sp_inv σ -> let d := q_dev (sp_sh σ) in
  Z.land (own_idx sd d) (u32 (num_buffers d - 1)) = q_pub (sp_sh σ) sd mod num_buffers d.
Proof.
  intros Hinv d. destruct (spsc_wf d (v_dev σ Hinv) (v_mode σ Hinv)) as (Hg & Hp2 & Hn).
  rewrite spsc_slot_index, (v_idx σ Hinv) by done. apply u32_mod_pow2; [apply (geo_n d Hg) | done].
Qed.

Lemma slot_good σ sd e :
  sp_inv σ -> st_pc (sp_th σ sd) = sp_slot -> sp_step Go (sp_th σ sd) (sp_sh σ) = Some e -> sp_good σ sd e.
Proof.
  intros Hinv E Hst. pose proof (v_th σ Hinv sd) as Hth. pose proof Hth as [Hs Hc _ Hv Hr Hp _].
  rewrite E in Hp. unfold sp_step in Hst. rewrite Hs, E in Hst.
  destruct (geo_slots _ (proj1 (v_dev σ Hinv))) as (sa & Hsa & _). rewrite Hsa in Hst. injection Hst as <-.
  apply good_quiet; try done; [by unfold sp_events; rewrite E | by unfold waking; rewrite E |].
  apply th_move with (s := sp_sh σ); rewrite ?E; try (done || lia).
  rewrite Hsa. split; [done | by apply slot_index].
Qed.

(** A thread that passed the test owns its slot. *)
Lemma no_race σ sd :
  sp_inv σ -> let s := sp_sh σ in
  passed (st_pc (sp_th σ sd)) = true ->
  q_stamp s (other sd) (q_pub s sd mod num_buffers (q_dev s)) <= st_acq (sp_th σ sd).
Proof.
  intros Hinv s Hp. pose proof (to_pass _ _ _ _ (v_th σ Hinv sd) Hp) as Hlt. fold s in Hlt.
  pose proof (geo_n _ (proj1 (v_dev σ Hinv))) as Hn. fold s in Hn.
  pose proof (v_stamp σ Hinv (other sd) (q_pub s sd mod num_buffers (q_dev s))) as Hst.
  rewrite other_other in Hst. fold s in Hst. specialize (Hst ltac:(apply Z.mod_pos_bound; lia)).
  pose proof (off_sum sd (q_dev s)) as Ho.
  assert (Hb : slot_bound (num_buffers (q_dev s)) (q_pub s sd + off (other sd) (q_dev s) - num_buffers (q_dev s))
                 (q_pub s sd mod num_buffers (q_dev s)) <= q_pub s sd + off (other sd) (q_dev s) - num_buffers (q_dev s) + 1).
  { unfold slot_bound. rewrite Zminus_mod_idemp_l.
    replace (q_pub s sd - (q_pub s sd + off (other sd) (q_dev s) - num_buffers (q_dev s)))
      with (off sd (q_dev s)) by lia.
    destruct sd; cbn [off]; [rewrite Z.mod_0_l by lia | rewrite Z.mod_same by lia]; lia. }
  lia.
Qed.
(** The indices and the occupancy in terms of message numbers. *)
Lemma sp_occupancy σ :
  sp_inv σ -> let s := sp_sh σ in
  u32 (prod_idx (q_dev s) - cons_idx (q_dev s)) = q_pub s Writer - q_pub s Reader /\
  0 <= q_pub s Writer - q_pub s Reader <= num_buffers (q_dev s).
Proof.
  intros Hinv s. pose proof (v_range σ Hinv Reader) as H1. pose proof (v_range σ Hinv Writer) as H2.
  cbn in H1, H2. fold s in H1, H2.
  destruct (spsc_wf _ (v_dev σ Hinv) (v_mode σ Hinv)) as (_ & _ & Hn). fold s in Hn.
  rewrite (v_idx σ Hinv Writer : prod_idx (q_dev s) = u32 (q_pub s Writer)).
  rewrite (v_idx σ Hinv Reader : cons_idx (q_dev s) = u32 (q_pub s Reader)).
  rewrite (u32_diff _ _ (num_buffers (q_dev s))) by lia. lia.
Qed.

(** The copy of a thread that passed the test. *)
Lemma copy_run σ sd :
  sp_inv σ -> let s := sp_sh σ in let th := sp_th σ sd in
  passed (st_pc th) = true -> sp_clamped (st_pc th) = true ->
  exists r d' u', run_copy sd (q_pub s sd mod num_buffers (q_dev s)) (st_io th) s
    = Done (r, s <| q_dev := d' |> <| q_user := u' |>
                 <| q_stamp := on_side sd (fun j => if j =? q_pub s sd mod num_buffers (q_dev s)
                                                    then q_pub s sd + 1 else q_stamp s sd j)
                                       (q_stamp s) |>) /\
    same_ring (q_dev s) d' /\ (forall x, own_idx x d' = own_idx x (q_dev s)) /\
    dev_queue d' = dev_queue (q_dev s) /\
    (forall m, staged (other sd) (q_dev s) m -> staged (other sd) d' m) /\
    match r with None => True | Some (n, m) => staged sd d' m /\ 0 <= n end.
Proof.
  intros Hinv s th Hp Hcl. destruct (v_th σ Hinv sd) as [_ Hc Hclamp Hv _ Hpass _].
  fold s th in Hc, Hclamp, Hv, Hpass. specialize (Hclamp Hcl). specialize (Hpass Hp).
  destruct (sp_occupancy σ Hinv) as [Hocc Hb]. fold s in Hocc, Hb.
  pose proof (v_dev σ Hinv) as Hok. pose proof (v_mode σ Hinv) as Hm. fold s in Hok, Hm.
  pose proof (slot_index σ sd Hinv) as Hsi. cbv zeta in Hsi. fold s in Hsi. rewrite <- Hsi.
  destruct (spsc_wf _ Hok Hm) as (Hg & Hp2 & Hn). rewrite spsc_slot_index by done.
  unfold run_copy. destruct sd; cbn [own_idx off other] in *.
  - assert (Hne : prod_idx (q_dev s) <> cons_idx (q_dev s)).
    { intros E. rewrite E, Z.sub_diag in Hocc. change (u32 0) with 0 in Hocc. lia. }
    destruct (copy_reader (q_dev s) (q_user s) (q_trace s) (io_ubuf (st_io th)) (io_count (st_io th)) Hok Hm Hne Hc)
      as (r & u' & -> & Hr). exists r, (q_dev s), u'. cbn [exec_bind].
    split; [done |]. split; [by apply same_ring_refl |]. do 3 (split; [done |]).
    destruct r as [[n m] |]; [| done]. destruct Hr as (? & -> & _). split; [done | lia].
  - destruct (copy_writer (q_dev s) (q_user s) (q_trace s) (io_ubuf (st_io th)) (io_count (st_io th)) Hok Hm)
      as (r & d' & -> & Hsr & Hq & Hix & Hr); [lia | split; [done | by apply Hclamp] |].
    exists r, d', (q_user s). cbn [exec_bind]. split; [done |]. do 3 (split; [done |]). split.
    + intros m [rest Hrest]. exists rest. congruence.
    + destruct r as [[n m] |]; [| done]. destruct Hr as (-> & _ & ?). by split.
Qed.

Lemma copy_good σ sd arr i e :
  sp_inv σ -> st_pc (sp_th σ sd) = sp_copy arr i -> sp_step Go (sp_th σ sd) (sp_sh σ) = Some e ->
  sp_good σ sd e.
Proof.
  intros Hinv E Hst. pose proof (v_th σ Hinv sd) as Hth. pose proof Hth as [Hs Hc _ Hv Hr Hp Hpc].
  assert (Hps : passed (st_pc (sp_th σ sd)) = true) by by rewrite E.
  assert (Hcl : sp_clamped (st_pc (sp_th σ sd)) = true) by by rewrite E.
  assert (Hev : sp_events (sp_th σ sd) = []) by (unfold sp_events; by rewrite E).
  pose proof (no_race σ sd Hinv Hps) as Hrace. specialize (Hp Hps).
  destruct (copy_run σ sd Hinv Hps Hcl) as (r & d' & u' & Hrun & Hsr & Hix & Hq & Hpeer & Hres).
  rewrite E in Hpc. destruct Hpc as [Harr ->]. unfold sp_step in Hst. rewrite Hs, E in Hst.
  rewrite bool_decide_eq_true_2 in Hst by done. cbn [negb] in Hst.
  destruct (Z.gtb_spec (q_stamp (sp_sh σ) (other sd) (q_pub (sp_sh σ) sd mod num_buffers (q_dev (sp_sh σ))))
             (st_acq (sp_th σ sd))) as [? | _]; [lia |].
  rewrite Hrun in Hst. cbn [exec_bind] in Hst. injection Hst as <-. eexists _, _. split; [done |].
  rewrite Hev. cbn [sent received omap list_omap app]. rewrite app_nil_r. split; [| done].
  pose proof (geo_n _ (proj1 (v_dev σ Hinv))) as Hn. pose proof (v_range σ Hinv (other sd)) as Hro.
  rewrite other_other in Hro. pose proof (off_sum sd (q_dev (sp_sh σ))) as Hos.
  split; cbn [q_dev q_pub q_stamp q_wq q_wqview set_field set_q_dev set_q_user set_q_stamp]; try done.
  - rewrite Hix. apply Hinv.
  - by split; [lia | left].
  - apply Hinv.
  - by rewrite on_side_other.
  - intros j Hj. rewrite on_side_eq. destruct (Z.eqb_spec j (q_pub (sp_sh σ) sd mod num_buffers (q_dev (sp_sh σ)))) as [-> | _];
      [| by apply (v_stamp σ Hinv)]. rewrite slot_bound_in by lia. lia.
  - left. split_and!; [done | done |]. unfold waking. by rewrite E.
  - apply th_move with (s := sp_sh σ); rewrite ?E; [done | done | apply Hsr | lia | lia | done | by destruct r as [[]|] | by destruct r as [[]|]].
Qed.
Lemma u32_succ x : u32 (u32 x + 1) = u32 (x + 1).
Proof. unfold u32. by rewrite Zplus_mod_idemp_l. Qed.

(** The release store: the message changes hands. *)
Lemma publish_run σ sd m :
  sp_inv σ -> let s := sp_sh σ in let d := q_dev s in
  q_pub s sd < q_pub s (other sd) + off sd d -> staged sd d m ->
  same_ring d (advance sd d) /\ own_idx sd (advance sd d) = u32 (q_pub s sd + 1) /\
  own_idx (other sd) (advance sd d) = own_idx (other sd) d /\
  (forall m', staged (other sd) d m' -> staged (other sd) (advance sd d) m') /\
  match sd with
  | Writer => dev_queue (advance sd d) = dev_queue d ++ [m]
  | Reader => dev_queue d = m :: dev_queue (advance sd d)
  end.
Proof.
  intros Hinv s d Hlt Hm. pose proof (v_dev σ Hinv) as Hok. pose proof (v_mode σ Hinv) as Hmo.
  fold s d in Hok, Hmo. destruct (sp_occupancy σ Hinv) as [Hocc Hb]. fold s d in Hocc, Hb.
  destruct (spsc_wf d Hok Hmo) as (Hg & Hp2 & Hn).
  pose proof (v_idx σ Hinv sd) as Hi. fold s d in Hi.
  assert (Hne : sd = Reader -> prod_idx d <> cons_idx d).
  { intros -> E. cbn in Hlt. rewrite E, Z.sub_diag in Hocc. change (u32 0) with 0 in Hocc. lia. }
  destruct (advance_conf sd d) as [Hsc Hsl].
  split; [split; [| done | by rewrite Hsl] |].
  { apply advance_ok; [done | done |]. destruct sd; cbn [advance prod_idx cons_idx set_field set_prod_idx set_cons_idx other off] in *.
    - rewrite u32_occ_pred by lia. lia.
    - rewrite u32_occ_succ by lia. lia. }
  split; [destruct sd; cbn in *; by rewrite Hi, u32_succ |]. split; [by destruct sd |].
  destruct sd; cbn [other off] in *.
  - split; [| by apply publish_reader; [.. | apply Hne |]]. done.
  - pose proof (publish_writer d m Hok Hmo ltac:(lia) Hm) as Hq. split; [| done].
    intros m' [rest Hrest]. exists (rest ++ [m]). by rewrite Hq, Hrest.
Qed.

Lemma publish_good σ sd n m e :
  sp_inv σ -> st_pc (sp_th σ sd) = sp_publish n m -> sp_step Go (sp_th σ sd) (sp_sh σ) = Some e ->
  sp_good σ sd e.
Proof.
  intros Hinv E Hst. pose proof (v_th σ Hinv sd) as Hth. pose proof Hth as [Hs Hc _ Hv Hr Hp Hpc].
  rewrite E in Hp, Hpc. specialize (Hp eq_refl). destruct Hpc as [Hm Hn].
  destruct (publish_run σ sd m Hinv ltac:(lia) Hm) as (Hsr & Hix & Hixp & Hpeer & Hq).
  unfold sp_step in Hst. rewrite Hs, E in Hst. injection Hst as <-. eexists _, _. split; [done |]. split.
  2: { unfold sp_events. rewrite E, Hs. by destruct sd; cbn; rewrite ?app_nil_r. }
  assert (Ho : off sd (advance sd (q_dev (sp_sh σ))) = off sd (q_dev (sp_sh σ))) by by destruct sd.
  split; cbn [q_dev q_pub q_stamp q_wq q_wqview set_field set_q_dev set_q_pub]; rewrite ?on_side_eq, ?on_side_other;
    try done.
  - split; [lia | by right].
  - lia.
  - intros j Hj. by apply (v_stamp σ Hinv).
  - left. split_and!; [done | done |]. unfold waking. by rewrite E.
  - split; cbn [q_dev q_pub set_field set_q_dev set_q_pub st_io st_pc st_coh st_acq goto];
      rewrite ?on_side_eq, ?on_side_other, ?Ho; try (done || lia).
Qed.

Lemma account_good σ sd n v e :
  sp_inv σ -> st_pc (sp_th σ sd) = sp_account n -> sp_step (See v) (sp_th σ sd) (sp_sh σ) = Some e ->
  sp_good σ sd e.
Proof.
  intros Hinv E Hst. pose proof (v_th σ Hinv sd) as Hth. pose proof Hth as [Hs Hc _ Hv Hr _ Hpc].
  rewrite E in Hpc. unfold sp_step in Hst. rewrite Hs, E in Hst.
  destruct (load false v (sp_th σ sd) (sp_sh σ)) as [th1 |] eqn:Hl; [| done].
  destruct (load_inv _ _ _ _ _ sd Hs Hl) as [-> Hv'].
  pose proof (v_dev σ Hinv) as Hok. pose proof (v_mode σ Hinv) as Hmo.
  destruct (spsc_wf _ Hok Hmo) as (Hg & Hp2 & Hn). destruct (sp_occupancy σ Hinv) as [_ Hb].
  destruct (account_same sd n v (q_dev (sp_sh σ)) Hok Hmo) as (Hsr & Hq & Hix).
  { intros ->. rewrite (v_idx σ Hinv Writer : prod_idx _ = _). cbn [other off] in *.
    rewrite (u32_diff _ _ (num_buffers (q_dev (sp_sh σ)))); lia. }
  assert (Hsl : slots (spsc_account sd n v (q_dev (sp_sh σ))).1 = slots (q_dev (sp_sh σ)))
    by (destruct sd; cbn; by rewrite ?raise_peak_max).
  cbn [fmap option_fmap option_map] in Hst. destruct (spsc_account sd n v (q_dev (sp_sh σ))) as [d' ev].
  injection Hst as <-. rewrite (proj2 (Z.leb_le 0 n) Hpc). eexists _, _. split; [done |].
  unfold sp_events. rewrite E. cbn [sent received omap list_omap app]. rewrite app_nil_r. split; [| done].
  apply sp_quiet; try done. unfold goto. cbn [st_io st_coh st_acq].
  apply th_move with (s := sp_sh σ); rewrite ?E; [done | done | apply Hsr | lia | lia | done | done | done].
Qed.

Lemma wake_good σ sd r e :
  sp_inv σ -> st_pc (sp_th σ sd) = sp_wake r -> sp_step Go (sp_th σ sd) (sp_sh σ) = Some e ->
  sp_good σ sd e.
Proof.
  intros Hinv E Hst. pose proof (v_th σ Hinv sd) as Hth. pose proof Hth as [Hs Hc _ Hv Hr _ _].
  unfold sp_step in Hst. rewrite Hs, E in Hst. injection Hst as <-. eexists _, _. split; [done |].
  unfold sp_events. rewrite E. cbn [sent received omap list_omap app]. rewrite app_nil_r. split; [| done].
  split; cbn [q_dev q_pub q_stamp q_wq q_wqview set_field set_q_wq set_q_wqview set_q_trace];
    rewrite ?on_side_eq, ?on_side_peer; try done.
  - apply same_ring_refl, (v_dev σ Hinv).
  - apply Hinv.
  - split; [lia | by left].
  - apply Hinv.
  - intros j Hj. by apply (v_stamp σ Hinv).
  - by right.
Qed.

(** Every step of a machine in the invariant. *)
Lemma sp_step_good σ sd c e :
  sp_inv σ -> sp_step c (sp_th σ sd) (sp_sh σ) = Some e -> sp_good σ sd e.
Proof.
  intros Hinv Hst. destruct (st_pc (sp_th σ sd)) eqn:E.
  all: try (eapply queue_good; [done | rewrite E; tauto | done]).
  all: destruct c; try (unfold sp_step in Hst; rewrite E in Hst; done).
  all: try (eapply test_good; [done | rewrite E; tauto | done]).
  - by apply clamp_good.
  - by apply slot_good.
  - by eapply copy_good.
  - by eapply publish_good.
  - by eapply account_good.
  - by eapply wake_good.
Qed.
(** ** Runs *)
Definition sp_call_ok (sd : side) (l : io) : Prop := io_side l = sd /\ 0 <= io_count l.

(** A thread moves, a process writes its own memory, or a side that has
    returned calls again. *)
Inductive sp_sys_step : sp_sys U -> list event -> sp_sys U -> Prop :=
  | sps_thread c sd σ σ' :
      sp_next c sd σ = Some (Done σ') -> sp_sys_step σ (sp_events (sp_th σ sd)) σ'
  | sps_user σ u : sp_sys_step σ [] (SpSys (sp_th σ) ((sp_sh σ) <| q_user := u |>))
  | sps_call σ sd r l :
      st_pc (sp_th σ sd) = sp_ret r -> sp_call_ok sd l ->
      sp_sys_step σ []
        (SpSys (on_side sd (SpThread l sp_clamp (st_coh (sp_th σ sd)) (st_acq (sp_th σ sd))) (sp_th σ))
               (sp_sh σ)).

Inductive sp_run : sp_sys U -> list event -> sp_sys U -> Prop :=
  | spr_nil σ : sp_run σ [] σ
  | spr_snoc σ evs σ1 e σ2 : sp_run σ evs σ1 -> sp_sys_step σ1 e σ2 -> sp_run σ (evs ++ e) σ2.

Lemma sp_next_good σ sd c e :
  sp_inv σ -> sp_next c sd σ = Some e ->
  exists σ', e = Done σ' /\ sp_inv σ' /\
    dev_queue (q_dev (sp_sh σ)) ++ sent (sp_events (sp_th σ sd))
    = received (sp_events (sp_th σ sd)) ++ dev_queue (q_dev (sp_sh σ')).
Proof.
  intros Hinv Hn. unfold sp_next in Hn.
  destruct (sp_step c (sp_th σ sd) (sp_sh σ)) as [e0 |] eqn:Hst; [| done].
  destruct (sp_step_good σ sd c e0 Hinv Hst) as (th' & s' & -> & He & Hq).
  cbn in Hn. injection Hn as <-. eexists. split; [done |]. split; [by apply sp_effect_inv | done].
Qed.

Lemma sp_sys_step_inv σ ev σ' :
  sp_inv σ -> sp_sys_step σ ev σ' ->
  sp_inv σ' /\
  dev_queue (q_dev (sp_sh σ)) ++ sent ev = received ev ++ dev_queue (q_dev (sp_sh σ')).
Proof.
  intros Hinv Hst. destruct Hst as [c sd σ σ' Hn | σ u | σ sd r l E [Hs Hc]].
  - destruct (sp_next_good σ sd c _ Hinv Hn) as (σ'' & He & ? & ?). by injection He as <-.
  - split; [| by rewrite app_nil_r]. destruct Hinv as [? ? ? ? Ht ? ?]. split; try done.
    intros sd. by destruct (Ht sd).
  - split; [| by rewrite app_nil_r]. pose proof (v_th σ Hinv sd) as [_ _ _ Hv Hr _ _].
    apply sp_effect_inv with (sd := sd); [done |].
    apply sp_quiet; try done; [apply same_ring_refl, (v_dev σ Hinv) | unfold waking; by rewrite E].
Qed.

Lemma sp_run_inv σ evs σ' :
  sp_inv σ -> sp_run σ evs σ' ->
  sp_inv σ' /\
  dev_queue (q_dev (sp_sh σ)) ++ sent evs = received evs ++ dev_queue (q_dev (sp_sh σ')).
Proof.
  intros Hinv Hrun. induction Hrun as [σ | σ evs σ1 e σ2 Hrun IH Hst].
  { split; [done |]. by rewrite app_nil_r. }
  destruct (IH Hinv) as [Hinv1 Hq1]. destruct (sp_sys_step_inv σ1 e σ2 Hinv1 Hst) as [Hinv2 Hq2].
  split; [done |]. rewrite sent_app, received_app, app_assoc, Hq1.
  by rewrite <- !app_assoc, Hq2.
Qed.

Lemma sp_start_inv d u calls :
  dev_ok d -> mode d = KBUF_MODE_SPSC -> (forall sd, sp_call_ok sd (calls sd)) ->
  sp_inv (sp_start d u calls).
Proof.
  intros Hok Hm Hcalls. destruct (spsc_occ d Hok Hm) as (_ & Hle & [Hp2 Hp Hc _]).
  pose proof (u32_range (prod_idx d - cons_idx d)) as [Hlo _].
  destruct (spsc_wf d Hok Hm) as (Hg & _ & Hn).
  split; cbn [sp_start sp_sh sp_th q_dev q_pub q_stamp q_wqview].
  - done.
  - done.
  - intros []; cbn [own_idx]; [by rewrite u32_small |].
    unfold u32. rewrite Zplus_mod_idemp_r, Z.mod_small; unfold in_u32 in *; lia.
  - intros []; cbn [other off]; lia.
  - intros sd. destruct (Hcalls sd). split; cbn; try done. destruct sd; cbn; lia.
  - intros sd j Hj. unfold slot_bound. pose proof (Z.mod_pos_bound (j - (match other sd with
      | Reader => cons_idx d | Writer => cons_idx d + u32 (prod_idx d - cons_idx d) end
      + off sd d - num_buffers d)) (num_buffers d) ltac:(lia)).
    unfold in_u32 in *. destruct sd; cbn [other off] in *; lia.
  - intros sd. split; [done | by left].
Qed.

(** ** Progress *)
Definition sp_stuck σ : Prop := forall sd c, c <> Sig -> sp_next c sd σ = None.

(** The only reasons a thread cannot move. *)
Lemma sp_blocked σ sd :
  sp_inv σ -> sp_stuck σ ->
  (exists r, st_pc (sp_th σ sd) = sp_ret r) \/
  (st_pc (sp_th σ sd) = sp_asleep /\ q_wq (sp_sh σ) sd = true).
Proof.
  intros Hinv Hs. pose proof (v_th σ Hinv sd) as [Hsd _ _ Hv _ _ _].
  assert (Hl : forall b, is_Some (load b (st_coh (sp_th σ sd)) (sp_th σ sd) (sp_sh σ))).
  { intros b. unfold load. rewrite Hsd, Z.leb_refl, (proj2 (Z.leb_le _ _)) by lia. by eexists. }
  pose proof (Hs sd Go ltac:(done)) as Hgo. pose proof (Hs sd (See (st_coh (sp_th σ sd))) ltac:(done)) as Hsee.
  unfold sp_next, sp_step in Hgo, Hsee. destruct (Hl true) as [t1 E1], (Hl false) as [t2 E2].
  rewrite E1, E2 in Hsee. destruct (st_pc (sp_th σ sd)) eqn:E; cbn in Hgo, Hsee; try done; try (by left; eexists).
  - right. split; [done |]. rewrite Hsd in Hgo. by destruct (q_wq (sp_sh σ) sd).
  - by destruct (slots (q_dev (sp_sh σ))).
  - by repeat case_match.
Qed.
(** ** Executable schedules *)
Fixpoint sp_schedule (sch : list (pick * side)) σ : option (exec (list event * sp_sys U)) :=
  match sch with
  | [] => Some (Done ([], σ))
  | (c, sd) :: sch' =>
    e ← sp_next c sd σ;
    match e with
    | Oops why => Some (Oops why)
    | Done σ1 =>
      (fun e' => exec_bind e' (fun '(evs, σ2) => Done (sp_events (sp_th σ sd) ++ evs, σ2)))
        <$> sp_schedule sch' σ1
    end
  end.

Lemma sp_run_cons σ e σ1 evs σ2 : sp_sys_step σ e σ1 -> sp_run σ1 evs σ2 -> sp_run σ (e ++ evs) σ2.
Proof.
  intros Hst Hrun. revert Hst. induction Hrun as [σ1 | σ1 evs σ2 e' σ3 Hrun IH Hst']; intros Hst.
  - rewrite app_nil_r. apply (spr_snoc σ [] σ); [constructor | done].
  - rewrite app_assoc. eapply spr_snoc; [by apply IH | done].
Qed.

Lemma sp_schedule_run sch σ evs σ' : sp_schedule sch σ = Some (Done (evs, σ')) -> sp_run σ evs σ'.
Proof.
  revert σ evs. induction sch as [| [c sd] sch IH]; intros σ evs; cbn.
  { intros [= <- <-]. constructor. }
  destruct (sp_next c sd σ) as [[σ1 | w] |] eqn:Hn; cbn; [| done | done].
  destruct (sp_schedule sch σ1) as [[[evs1 σ2] | w] |] eqn:Hs; cbn; [| done | done].
  intros [= <- <-]. eapply sp_run_cons; [by econstructor | by apply IH].
Qed.

(** The events and the final state of a schedule that does not go wrong. *)
Definition sp_outcome (sch : list (pick * side)) σ : list event * sp_sys U :=
  match sp_schedule sch σ with Some (Done r) => r | _ => ([], σ) end.

Lemma sp_outcome_run sch σ :
  match sp_schedule sch σ with Some (Done _) => true | _ => false end = true ->
  sp_run σ (sp_outcome sch σ).1 (sp_outcome sch σ).2.
Proof.
  unfold sp_outcome. destruct (sp_schedule sch σ) as [[[evs σ'] | ] |] eqn:E; try done.
  intros _. by apply (sp_schedule_run sch).
Qed.
End inv.
