(* ===== verification/SpscProps.v ===== *)
(** * SpscProps: what the lock-free mode guarantees one producer and one
    consumer

    Under every schedule and every value the weakly ordered loads may return,
    each with a concrete run, and the interleaving with a resize that the code
    does not survive ([spsc_resize_uaf]). *)

From S2P Require Import Prelude Kernel Uapi Device Alloc Ring RingFacts RingSpec Ioctl.
From S2P Require Import Samples Machine MachineFacts Spsc SpscFacts.
#[local] Open Scope Z_scope.

Section props.
Context {U : Type} {ua : UAccess U} {ual : UAccessLaws U}.
Implicit Types (σ : sp_sys U).

(** C5: with one producer and one consumer and no lock, messages are delivered
    in the order they were published, none lost, duplicated or torn, although
    either side may act on an old value of the other's index; the device stays
    well-formed. *)
Theorem spsc_fifo d u calls evs σ :
  dev_ok d -> mode d = KBUF_MODE_SPSC -> (forall sd, sp_call_ok sd (calls sd)) ->
  sp_run (sp_start d u calls) evs σ ->
  dev_queue d ++ sent evs = received evs ++ dev_queue (q_dev (sp_sh σ)) /\
  dev_ok (q_dev (sp_sh σ)).
Proof.
  intros Hok Hm Hc Hrun.
  destruct (sp_run_inv _ _ _ (sp_start_inv d u calls Hok Hm Hc) Hrun) as [Hinv Hq].
  split; [exact Hq | apply (v_dev σ Hinv)].
Qed.

(** C6: no step of either side goes wrong: every slot access is in bounds and
    ordered after the other side's last access to the slot, so the release and
    acquire pairs of the two indices are enough. *)
Theorem spsc_race_free d u calls evs σ c sd why :
  dev_ok d -> mode d = KBUF_MODE_SPSC -> (forall sd, sp_call_ok sd (calls sd)) ->
  sp_run (sp_start d u calls) evs σ -> sp_next c sd σ <> Some (Oops why).
Proof.
  intros Hok Hm Hc Hrun Hn.
  destruct (sp_run_inv _ _ _ (sp_start_inv d u calls Hok Hm Hc) Hrun) as [Hinv _].
  destruct (sp_next_good σ sd c _ Hinv Hn) as (σ' & He & _). discriminate He.
Qed.

(** The queue's length in message numbers. *)
Lemma sp_queue_length σ :
  sp_inv σ ->
  Z.of_nat (length (dev_queue (q_dev (sp_sh σ)))) = q_pub (sp_sh σ) Writer - q_pub (sp_sh σ) Reader.
Proof.
  intros Hinv. destruct (spsc_occ _ (v_dev σ Hinv) (v_mode σ Hinv)) as [-> _].
  by apply sp_occupancy.
Qed.

(** What waiting means for each side. *)
Definition sp_waits (sd : side) (d : kbuf_dev) : Prop :=
  match sd with
  | Reader => dev_queue d = []
  | Writer => Z.of_nat (length (dev_queue d)) = num_buffers d
  end.

Lemma sp_waits_pub σ sd :
  sp_inv σ -> q_pub (sp_sh σ) sd = q_pub (sp_sh σ) (other sd) + off sd (q_dev (sp_sh σ)) ->
  sp_waits sd (q_dev (sp_sh σ)).
Proof.
  intros Hinv Hp. pose proof (sp_queue_length σ Hinv) as Hl.
  destruct sd; cbn in *; [| lia]. apply length_zero_iff_nil. lia.
Qed.

(** C7: no wake-up is lost although the tests may read old indices: a caller
    still on its wait queue has an empty (full) ring in front of it, or the other
    side has stored its index and is on its way to the wake-up. *)
Theorem spsc_no_lost_wakeup d u calls evs σ sd :
  dev_ok d -> mode d = KBUF_MODE_SPSC -> (forall sd, sp_call_ok sd (calls sd)) ->
  sp_run (sp_start d u calls) evs σ ->
  st_pc (sp_th σ sd) = sp_asleep -> q_wq (sp_sh σ) sd = true ->
  sp_waits sd (q_dev (sp_sh σ)) \/ waking (sp_th σ (other sd)) = true.
Proof.
  intros Hok Hm Hc Hrun Hpc Hq.
  destruct (sp_run_inv _ _ _ (sp_start_inv d u calls Hok Hm Hc) Hrun) as [Hinv _].
  pose proof (to_pc _ _ _ _ (v_th σ Hinv sd)) as Hto. rewrite Hpc in Hto.
  destruct (Hto Hq) as [Hp | ?]; [left; by apply sp_waits_pub | by right].
Qed.

(** C8: no deadlock: when neither side can move, each has returned or sleeps
    for a reason that is still true, and they do not both sleep. *)
Theorem spsc_deadlock_free d u calls evs σ :
  dev_ok d -> mode d = KBUF_MODE_SPSC -> (forall sd, sp_call_ok sd (calls sd)) ->
  sp_run (sp_start d u calls) evs σ -> sp_stuck σ ->
  (forall sd, (exists r, st_pc (sp_th σ sd) = sp_ret r) \/
              (st_pc (sp_th σ sd) = sp_asleep /\ sp_waits sd (q_dev (sp_sh σ)))) /\
  exists sd r, st_pc (sp_th σ sd) = sp_ret r.
Proof.
  intros Hok Hm Hc Hrun Hs.
  destruct (sp_run_inv _ _ _ (sp_start_inv d u calls Hok Hm Hc) Hrun) as [Hinv _].
  assert (Hall : forall sd, (exists r, st_pc (sp_th σ sd) = sp_ret r) \/
            (st_pc (sp_th σ sd) = sp_asleep /\ sp_waits sd (q_dev (sp_sh σ)))).
  { intros sd. destruct (sp_blocked σ sd Hinv Hs) as [? | [Hpc Hq]]; [by left | right]. split; [done |].
    pose proof (to_pc _ _ _ _ (v_th σ Hinv sd)) as Hto. rewrite Hpc in Hto.
    destruct (Hto Hq) as [Hp | Hw]; [by apply sp_waits_pub |].
    unfold waking in Hw. by destruct (sp_blocked σ (other sd) Hinv Hs) as [[r E] | [E _]]; rewrite E in Hw. }
  split; [exact Hall |].
  destruct (Hall Reader) as [[r Hr] | [_ He]]; [by exists Reader, r |].
  destruct (Hall Writer) as [[r Hr] | [_ Hf]]; [by exists Writer, r |].
  cbn in He, Hf. rewrite He in Hf. pose proof (geo_n _ (proj1 (v_dev σ Hinv))). cbn in Hf. lia.
Qed.

(** The pieces of the machine in sequence, nobody else moving. *)
Definition spsc_in_sequence (sd : side) (a n : Z) : prog (rworld U) Z := fun w =>
  let d := w_dev w in
  exec_bind (spsc_copy sd (Z.land (own_idx sd d) (u32 (num_buffers d - 1))) a n w) (fun '(r, w1) =>
  match r with
  | None => Done (- EFAULT, w1)
  | Some (k, _) =>
    let '(d2, e) := spsc_account sd k (own_idx (other sd) (w_dev w1)) (advance sd (w_dev w1)) in
    Done (k, RWorld d2 (w_user w1) (w_trace w1 ++ [e]))
  end).

(** The steps into which the machine cuts the two operations are, run in
    sequence, [kbuf_spsc_produce] and [kbuf_spsc_consume]. *)
Theorem spsc_steps_compose a n (w : rworld U) :
  dev_ok (w_dev w) -> mode (w_dev w) = KBUF_MODE_SPSC ->
  spsc_in_sequence Writer a n w = kbuf_spsc_produce a n w /\
  spsc_in_sequence Reader a n w = kbuf_spsc_consume a n w.
Proof.
  intros Hok Hm. destruct w as [d u tr]. cbn in Hok, Hm. destruct (spsc_wf d Hok Hm) as (Hg & Hp2 & Hn).
  unfold spsc_in_sequence, spsc_copy, kbuf_spsc_produce, kbuf_spsc_consume, p_bind, p_get.
  cbn [exec_bind w_dev own_idx]. rewrite !spsc_slot_index by done. split.
  - destruct (spsc_slot d (prod_idx d) Hok) as (s & Hs & _). rewrite Hs. cbn [p_some p_ret exec_bind].
    unfold copy_in. cbn [w_user w_dev w_trace]. destruct (n <=? _); [| done].
    destruct (copy_from_user u a n) as [bs missed]. cbn [exec_bind].
    destruct (missed =? 0); cbn [negb]; [| done].
    unfold set_len, dev_update, p_modify, emit. cbn [exec_bind w_dev w_user w_trace].
    pose proof (Z.mod_pos_bound (prod_idx d) (num_buffers d) ltac:(lia)) as Hi.
    rewrite slot_at_put, put_put_slot, slot_at_put by done. cbn [p_some p_ret exec_bind other own_idx spsc_account].
    destruct (put_slot_self d (prod_idx d mod num_buffers d)
                (KbufSlot (data (KbufSlot (KBuffer (kb_ptr (data s)) (bs ++ drop (Z.to_nat n) (kb_bytes (data s)))) (len s))) n))
      as [sl ->]. cbn [advance]. dev_fields. rewrite u32_sub.
    cbn [account_produced]. dev_fields. done.
  - destruct (spsc_slot d (cons_idx d) Hok) as (s & Hs & _). rewrite Hs. cbn [p_some p_ret exec_bind].
    unfold copy_out. cbn [w_user w_dev w_trace]. destruct (_ <=? _); [| done].
    destruct (copy_to_user u a _) as [u' missed]. cbn [exec_bind].
    destruct (missed =? 0); cbn [negb exec_bind]; [| done].
    unfold p_ret, dev_update, p_modify, emit. cbn [exec_bind w_dev w_user w_trace other own_idx spsc_account].
    unfold account_consumed, advance. dev_fields. rewrite u32_sub. done.
Qed.
End props.

(** ** Concrete runs *)
Definition both (r w : io) (sd : side) : io := match sd with Reader => r | Writer => w end.

(** The consumer takes message 2^32 - 1 while the producer, which has not seen
    that yet, fills the other slot with message 2^32. *)
Definition overlap_start : sp_sys simuser :=
  sp_start spsc_dev demo_user (both (Io Reader false 104 2) (Io Writer false 100 3)).

Definition overlap_schedule : list (pick * side) :=
  [(Go, Reader); (Go, Writer); (See 4294967296, Reader); (See 4294967295, Writer);
   (Go, Reader); (Go, Writer); (Go, Reader); (Go, Writer); (Go, Writer); (Go, Reader);
   (See 4294967295, Writer); (See 4294967296, Reader); (Go, Writer); (Go, Reader)].

Lemma overlap_calls sd : sp_call_ok sd (both (Io Reader false 104 2) (Io Writer false 100 3) sd).
Proof. by destruct sd. Qed.

Definition overlap (n : nat) : list event * sp_sys simuser :=
  sp_outcome (take n overlap_schedule) overlap_start.

Lemma overlap_ok n :
  match sp_schedule (take n overlap_schedule) overlap_start with Some (Done _) => true | _ => false end
  = true ->
  sp_run overlap_start (overlap n).1 (overlap n).2.
Proof. apply sp_outcome_run. Qed.

Lemma spsc_fifo_witness :
  (dev_queue spsc_dev = [[x31; x32; x33]] /\
   sent (overlap 14).1 = [[x61; x62; x63]] /\ received (overlap 14).1 = [[x31; x32; x33]]) /\
  dev_queue spsc_dev ++ sent (overlap 14).1
  = received (overlap 14).1 ++ dev_queue (q_dev (sp_sh (overlap 14).2)).
Proof.
  split; [by vm_compute |].
  exact (proj1 (spsc_fifo spsc_dev demo_user _ (overlap 14).1 (overlap 14).2 spsc_dev_ok eq_refl
                  overlap_calls (overlap_ok 14 ltac:(by vm_compute)))).
Defined.

Lemma spsc_race_free_witness :
  st_pc (sp_th (overlap 6).2 Reader) = sp_copy 10 1 /\ st_pc (sp_th (overlap 6).2 Writer) = sp_copy 10 0 /\
  sp_next Go Reader (overlap 6).2 <> Some (Oops DataRace).
Proof.
  split; [by vm_compute |]. split; [by vm_compute |].
  exact (spsc_race_free spsc_dev demo_user _ (overlap 6).1 (overlap 6).2 Go Reader DataRace spsc_dev_ok
           eq_refl overlap_calls (overlap_ok 6 ltac:(by vm_compute))).
Defined.

(** An empty ring; the reader goes to sleep. *)
Definition empty_spsc : kbuf_dev := demo_dev <| mode := KBUF_MODE_SPSC |>.

Lemma empty_spsc_ok : dev_ok empty_spsc.
Proof. sample_ok. Qed.

Definition sleeper_start (w : io) : sp_sys simuser :=
  sp_start empty_spsc demo_user (both (Io Reader false 104 2) w).

Definition falls_asleep : list (pick * side) :=
  [(Go, Reader); (See 0, Reader); (See 0, Reader); (Go, Reader); (See 0, Reader)].

Definition good_write : io := Io Writer false 100 3.
Definition bad_write : io := Io Writer false 500 3.

Lemma sleeper_calls w sd : sp_call_ok Writer w -> sp_call_ok sd (both (Io Reader false 104 2) w sd).
Proof. by destruct sd. Qed.

(** The writer has stored its index; the reader still sleeps. *)
Definition stored : list event * sp_sys simuser :=
  sp_outcome (falls_asleep ++ [(Go, Writer); (See 0, Writer); (Go, Writer); (Go, Writer); (Go, Writer)])
    (sleeper_start good_write).

Lemma stored_run :
  sp_run (sp_start empty_spsc demo_user (both (Io Reader false 104 2) good_write)) stored.1 stored.2.
Proof. apply sp_outcome_run. by vm_compute. Qed.

Lemma spsc_no_lost_wakeup_witness :
  sp_waits Reader (q_dev (sp_sh stored.2)) \/ waking (sp_th stored.2 (other Reader)) = true.
Proof.
  refine (spsc_no_lost_wakeup empty_spsc demo_user (both (Io Reader false 104 2) good_write)
            stored.1 stored.2 Reader empty_spsc_ok eq_refl
            (fun sd => sleeper_calls good_write sd (conj eq_refl _)) stored_run _ _).
  - by cbn.
  - by vm_compute.
  - by vm_compute.
Defined.

(** The writer's call faults; nobody will wake the reader, and nobody should. *)
Definition faulted : list event * sp_sys simuser :=
  sp_outcome (falls_asleep ++ [(Go, Writer); (See 0, Writer); (Go, Writer); (Go, Writer)])
    (sleeper_start bad_write).

Lemma faulted_run :
  sp_run (sp_start empty_spsc demo_user (both (Io Reader false 104 2) bad_write)) faulted.1 faulted.2.
Proof. apply sp_outcome_run. by vm_compute. Qed.

Lemma faulted_stuck : sp_stuck faulted.2.
Proof. intros sd c Hc. by destruct sd, c; vm_compute. Qed.

Lemma spsc_deadlock_free_witness :
  st_pc (sp_th faulted.2 Reader) = sp_asleep /\ st_pc (sp_th faulted.2 Writer) = sp_ret (- EFAULT) /\
  exists sd r, st_pc (sp_th faulted.2 sd) = sp_ret r.
Proof.
  split; [by vm_compute |]. split; [by vm_compute |].
  refine (proj2 (spsc_deadlock_free empty_spsc demo_user (both (Io Reader false 104 2) bad_write)
            faulted.1 faulted.2 empty_spsc_ok eq_refl
            (fun sd => sleeper_calls bad_write sd (conj eq_refl _)) faulted_run faulted_stuck)).
  by cbn.
Defined.

Lemma spsc_steps_compose_witness :
  spsc_in_sequence Writer 100 3 (RWorld spsc_dev demo_user [])
  = kbuf_spsc_produce 100 3 (RWorld spsc_dev demo_user []).
Proof. exact (proj1 (spsc_steps_compose 100 3 (RWorld spsc_dev demo_user []) spsc_dev_ok eq_refl)). Defined.

(** A resize of an SPSC device needs an empty ring but not an idle one: it
    frees the slot array between the moment a writer takes its slot's address
    and the copy into it. *)
Theorem spsc_resize_uaf :
  exists s, sp_resize (KbufResize 2 4) (SlotArray 20 [demo_slot 21 [x00; x00; x00; x00] 0;
                                                      demo_slot 22 [x00; x00; x00; x00] 0])
              (sp_sh (sp_outcome [(Go, Writer); (See 0, Writer); (Go, Writer)]
                        (sleeper_start good_write)).2) = Some s /\
    sp_next Go Writer
      (SpSys (sp_th (sp_outcome [(Go, Writer); (See 0, Writer); (Go, Writer)]
                       (sleeper_start good_write)).2) s)
    = Some (Oops UseAfterFree).
Proof. eexists. split; [by vm_compute |]. by vm_compute. Qed.
