(* ===== verification/FileOps.v ===== *)
(** * FileOps: read, write and poll of an open file (src/kbuf_main.c)

    The entry points that pick the path by [dev->mode], as a caller that nobody
    competes with runs them: first one with O_NONBLOCK, then one with whatever
    flags its file has.  Machine.v and Spsc.v have the paths themselves with
    everybody in them. *)

From S2P Require Import Prelude Kernel Uapi Device Alloc Mmap Ctl DmaBuf Ring RingFacts RingSpec RingProps.
From S2P Require Import Ioctl Dispatch Machine.
#[local] Open Scope Z_scope.

Section ops.
Context {U : Type} `{UAccess U}.

Definition kbuf_read (ubuf n : Z) : prog (rworld U) Z :=
  w <-- p_get ;;
  if mode (w_dev w) =? KBUF_MODE_SPSC then ring_op spsc_ring (RRead ubuf n)
  else ring_op blocking_ring (RRead ubuf n).

Definition kbuf_write (ubuf n : Z) : prog (rworld U) Z :=
  w <-- p_get ;;
  if mode (w_dev w) =? KBUF_MODE_SPSC then ring_op spsc_ring (RWrite ubuf n)
  else ring_op blocking_ring (RWrite ubuf n).

(** ** With the flags of the file *)
Definition ring_side (o : rop) : side := match o with RRead _ _ => Reader | RWrite _ _ => Writer end.

(** The condition of the [while] loops: nothing to read, or no slot to fill. *)
Definition ring_waits (o : rop) (d : kbuf_dev) : bool :=
  if mode d =? KBUF_MODE_SPSC
  then match o with RRead _ _ => kbuf_spsc_is_empty d | RWrite _ _ => kbuf_spsc_is_full d end
  else must_wait (ring_side o) d.

(** Without O_NONBLOCK a call that has to wait counts its sleep and goes to sleep:
    [None], for as long as nobody else comes. *)
Definition kbuf_io (nonblock : bool) (o : rop) : prog (rworld U) (option Z) :=
  w <-- p_get ;;
  if ring_waits o (w_dev w) && negb nonblock
  then dev_update (count_sleep (ring_side o)) ;;; p_ret None
  else r <-- match o with RRead a n => kbuf_read a n | RWrite a n => kbuf_write a n end ;; p_ret (Some r).
End ops.

Definition kbuf_poll (d : kbuf_dev) : Z :=
  if mode d =? KBUF_MODE_SPSC then poll_mask (kbuf_spsc_is_empty d) (kbuf_spsc_is_full d)
  else poll_mask (kbuf_ring_is_empty d) (kbuf_ring_is_full d).

(** A system call on an open file. *)
Inductive fcall : Set :=
  | FRead (ubuf n : Z)
  | FWrite (ubuf n : Z)
  | FPoll
  | FIoctl (cmd arg : Z).

Section calls.
Context {U K : Type} `{UAccess U} `{Kernel K} `{IocEncoding} `{Paging}.

(** A ring operation on the device at [p]. *)
Definition on_ring {A} (p : Z) (h : prog (rworld U) A) : prog (fworld U K) A := fun w =>
  match c_heap (f_c w) !! p with
  | None => Oops UseAfterFree
  | Some d =>
    exec_bind (h (RWorld d (f_user w) [])) (fun '(r, rw) =>
    Done (r, FWorld ((f_c w) <| c_heap := <[p := w_dev rw]> (c_heap (f_c w)) |>) (w_user rw) (f_fds w) (f_woken w)))
  end.

Definition file_call (p : Z) (c : fcall) : prog (fworld U K) Z :=
  match c with
  | FRead a n => on_ring p (kbuf_read a n)
  | FWrite a n => on_ring p (kbuf_write a n)
  | FPoll => on_ring p (fun rw => Done (kbuf_poll (w_dev rw), rw))
  | FIoctl cmd arg => kbuf_ioctl p cmd arg
  end.

(** A read or write of a file opened with or without O_NONBLOCK. *)
Definition file_io (nonblock : bool) (p : Z) (o : rop) : prog (fworld U K) (option Z) :=
  on_ring p (kbuf_io nonblock o).

Fixpoint file_calls (p : Z) (cs : list fcall) : prog (fworld U K) (list Z) :=
  match cs with
  | [] => p_ret []
  | c :: cs' => r <-- file_call p c ;; rs <-- file_calls p cs' ;; p_ret (r :: rs)
  end.
End calls.

(** ** The heap objects of the slots stay where they are *)
Definition ptrs_of (d : kbuf_dev) : option (list Z) := array_ptrs <$> slots d.

Lemma put_slot_ptrs d i s s0 :
  slot_at d i = Some s0 -> kb_ptr (data s) = kb_ptr (data s0) -> ptrs_of (put_slot i s d) = ptrs_of d.
Proof.
  unfold ptrs_of, slot_at, put_slot. destruct (slots d) as [sa |] eqn:E; [| by rewrite E]. cbn.
  destruct (0 <=? i); [| done]. intros Hl Hp. unfold array_ptrs, slot_ptrs. cbn. do 2 f_equal.
  rewrite list_fmap_insert. apply list_insert_id. rewrite list_lookup_fmap, Hl. cbn. by rewrite Hp.
Qed.

Section ptrs.
Context {U : Type} `{UAccess U}.
Implicit Types (w : rworld U).

Definition keeps_ptrs {A} (m : prog (rworld U) A) : Prop := forall w a w',
  m w = Done (a, w') -> ptrs_of (w_dev w') = ptrs_of (w_dev w).

Lemma keeps_ret {A} (a : A) : keeps_ptrs (p_ret a).
Proof. by intros w a' w' [= _ <-]. Qed.

Lemma keeps_bind {A B} (m : prog (rworld U) A) (k : A -> prog (rworld U) B) :
  keeps_ptrs m -> (forall a, keeps_ptrs (k a)) -> keeps_ptrs (p_bind m k).
Proof.
  intros Hm Hk w b w'. unfold p_bind. destruct (m w) as [[a w1] |] eqn:E; [| done]. cbn.
  intros E2. by rewrite (Hk _ _ _ _ E2), (Hm _ _ _ E).
Qed.

Lemma keeps_update f : (forall d, ptrs_of (f d) = ptrs_of d) -> keeps_ptrs (dev_update f).
Proof. intros Hf w a w' [= _ <-]. apply Hf. Qed.

Lemma keeps_emit e : keeps_ptrs (emit e).
Proof. by intros w a w' [= _ <-]. Qed.

Lemma keeps_get {B} (k : rworld U -> prog (rworld U) B) :
  (forall w b w', k w w = Done (b, w') -> ptrs_of (w_dev w') = ptrs_of (w_dev w)) -> keeps_ptrs (p_bind p_get k).
Proof. intros Hk w b w' E. by apply Hk with b. Qed.

Lemma keeps_umod a b : keeps_ptrs (umod a b).
Proof. intros w x w'. unfold umod. destruct (b =? 0); [done |]. by intros [= _ <-]. Qed.

Lemma keeps_copy_out ubuf buf n : keeps_ptrs (copy_out ubuf buf n).
Proof.
  intros w x w'. unfold copy_out. destruct (_ <=? _); [| done]. destruct (copy_to_user _ _ _). by intros [= _ <-].
Qed.

Lemma keeps_set_len i n : keeps_ptrs (set_len i n).
Proof. apply keeps_update. intros d. destruct (slot_at d i) eqn:E; [by eapply put_slot_ptrs | done]. Qed.

(** The one access through a slot pointer that writes. *)
Lemma copy_in_ptrs i s ubuf n w a w' :
  slot_at (w_dev w) i = Some s -> copy_in i s ubuf n w = Done (a, w') -> ptrs_of (w_dev w') = ptrs_of (w_dev w).
Proof.
  intros Hs. unfold copy_in. destruct (_ <=? _); [| done]. destruct (copy_from_user _ _ _).
  intros [= _ <-]. by eapply put_slot_ptrs.
Qed.

Lemma keeps_if {A} (b : bool) (m1 m2 : prog (rworld U) A) :
  keeps_ptrs m1 -> keeps_ptrs m2 -> keeps_ptrs (if b then m1 else m2).
Proof. by destruct b. Qed.

(** After [slot = &dev->slots[i]], which is read. *)
Lemma keeps_slot_read {A} i (k : kbuf_slot -> prog (rworld U) A) w a w' :
  (forall s, keeps_ptrs (k s)) ->
  (slot <-- p_some OutOfBounds (slot_at (w_dev w) i) ;; k slot) w = Done (a, w') ->
  ptrs_of (w_dev w') = ptrs_of (w_dev w).
Proof. intros Hk. unfold p_bind. destruct (slot_at (w_dev w) i); [apply Hk | done]. Qed.

(** ... or written first. *)
Lemma keeps_slot_write {A} i ubuf n (k : kbuf_slot -> Z -> prog (rworld U) A) w a w' :
  (forall s m, keeps_ptrs (k s m)) ->
  (slot <-- p_some OutOfBounds (slot_at (w_dev w) i) ;; missed <-- copy_in i slot ubuf n ;; k slot missed) w
  = Done (a, w') ->
  ptrs_of (w_dev w') = ptrs_of (w_dev w).
Proof.
  intros Hk. unfold p_bind. destruct (slot_at (w_dev w) i) as [s |] eqn:Hs; [| done]. cbn [p_some p_ret exec_bind].
  destruct (copy_in i s ubuf n w) as [[m w1] |] eqn:Hc; [| done]. cbn [exec_bind].
  intros E. by rewrite (Hk _ _ _ _ _ E), (copy_in_ptrs _ _ _ _ _ _ _ Hs Hc).
Qed.

Lemma keeps_getw : keeps_ptrs p_get.
Proof. by intros w a w' [= _ <-]. Qed.

Ltac keeps :=
  repeat first [ apply keeps_ret | apply keeps_getw | apply keeps_emit | apply keeps_umod | apply keeps_copy_out | apply keeps_set_len
               | apply keeps_if | apply keeps_bind; [| intros ?]
               | apply keeps_update; intros; unfold raise_peak; repeat case_match; done ].

Lemma ring_consume_ptrs a n : keeps_ptrs (kbuf_ring_consume a n : prog (rworld U) Z).
Proof. apply keeps_get. intros w b w'. apply keeps_slot_read. intros s. keeps. Qed.

Lemma ring_produce_ptrs a n : keeps_ptrs (kbuf_ring_produce a n : prog (rworld U) Z).
Proof. apply keeps_get. intros w b w'. apply keeps_slot_write. intros s m. keeps. Qed.

Lemma spsc_consume_ptrs a n : keeps_ptrs (kbuf_spsc_consume a n : prog (rworld U) Z).
Proof. apply keeps_get. intros w b w'. apply keeps_slot_read. intros s. keeps. Qed.

Lemma spsc_produce_ptrs a n : keeps_ptrs (kbuf_spsc_produce a n : prog (rworld U) Z).
Proof. apply keeps_get. intros w b w'. apply keeps_slot_write. intros s m. keeps. Qed.

Lemma rw_ptrs o (R : RingDiscipline U) :
  (forall a n, keeps_ptrs (rd_produce R a n)) -> (forall a n, keeps_ptrs (rd_consume R a n)) ->
  keeps_ptrs (ring_op R o).
Proof.
  intros Hp Hc. unfold ring_op. apply keeps_bind; [by intros w a w' [= _ <-] |]. intros w.
  destruct o; apply keeps_if; auto using keeps_ret.
Qed.
End ptrs.
