(* ===== verification/SpscPoll.v ===== *)
(** * SpscPoll: poll(2) on a device in lock-free mode (src/kbuf_main.c)

    Any number of pollers beside the producer and the consumer of Spsc.v.  The
    SPSC branch of [kbuf_poll] takes no lock: it puts the caller on both wait
    queues and then loads each index twice, once for [kbuf_spsc_is_empty] and once
    for [kbuf_spsc_is_full].

    A load may return any store not older than the last one of that index the
    poller has seen ([po_seen]).  Queueing takes the queue's own lock, so a poller
    that queues itself has seen everything that preceded the last wake-up there
    ([q_wqview] of Spsc.v).  The four loads are one step: the choice of what they
    return is the same as if other threads ran between them, because it only grows
    with time. *)

From S2P Require Import Prelude Kernel Uapi Device Alloc Ring RingFacts RingSpec Ioctl Machine.
From S2P Require Import Samples MachineFacts Spsc SpscFacts SpscProps FileOps.
#[local] Open Scope Z_scope.

Inductive po_pc : Set :=
  | po_queue (sd : side)      (** [poll_wait] on the queue of [sd] *)
  | po_load
  | po_check (m : Z)          (** back in poll(2) with the mask *)
  | po_asleep (m : Z)
  | po_ret (m : Z).

Record poller := Poller {
  po_events : Z;
  po_at : po_pc;
  po_seen : side -> Z;
  po_wq : side -> bool        (** on the queue and not woken *)
}.

(** The stores the loads return: of [prod_idx] and [cons_idx] for the first test
    and for the second. *)
Record po_loads := PoLoads { ld_prod1 : Z; ld_cons1 : Z; ld_prod2 : Z; ld_cons2 : Z }.

Inductive po_pick : Set := PoGo | PoSee (v : po_loads) | PoSig.

(** The device as a load of both indices shows it. *)
Definition indices (p c : Z) (d : kbuf_dev) : kbuf_dev := d <| prod_idx := u32 p |> <| cons_idx := u32 c |>.

Definition po_mask (v : po_loads) (d : kbuf_dev) : Z :=
  poll_mask (kbuf_spsc_is_empty (indices (ld_prod1 v) (ld_cons1 v) d))
            (kbuf_spsc_is_full (indices (ld_prod2 v) (ld_cons2 v) d)).

Section poll.
Context {U : Type} `{UAccess U}.

(** What coherence allows the loads to return. *)
Definition loadable (v : po_loads) (p : poller) (s : spshared U) : bool :=
  (po_seen p Writer <=? ld_prod1 v) && (ld_prod1 v <=? ld_prod2 v) && (ld_prod2 v <=? q_pub s Writer) &&
  (po_seen p Reader <=? ld_cons1 v) && (ld_cons1 v <=? ld_cons2 v) && (ld_cons2 v <=? q_pub s Reader).

Definition po_step (c : po_pick) (p : poller) (s : spshared U) : option poller :=
  match po_at p, c with
  | po_queue sd, PoGo =>
    Some (Poller (po_events p) (match sd with Reader => po_queue Writer | Writer => po_load end)
                 (on_side (other sd) (Z.max (po_seen p (other sd)) (q_wqview s sd)) (po_seen p))
                 (on_side sd true (po_wq p)))
  | po_load, PoSee v =>
    if loadable v p s
    then Some (Poller (po_events p) (po_check (po_mask v (q_dev s)))
                      (fun sd => match sd with Writer => ld_prod2 v | Reader => ld_cons2 v end) (po_wq p))
    else None
  | po_check m, PoGo =>
    Some (if Z.land m (po_events p) =? 0 then Poller (po_events p) (po_asleep m) (po_seen p) (po_wq p)
          else Poller (po_events p) (po_ret (Z.land m (po_events p))) (po_seen p) (fun _ => false))
  | po_asleep m, PoGo =>
    if po_wq p Reader && po_wq p Writer then None
    else Some (Poller (po_events p) (po_queue Reader) (po_seen p) (po_wq p))
  | po_asleep m, PoSig => Some (Poller (po_events p) (po_ret (- EINTR)) (po_seen p) (fun _ => false))
  | _, _ => None
  end.

(** A side's wake-up reaches every poller on the other side's queue. *)
Definition po_woken (th : sp_thread) (sd : side) (p : poller) : poller :=
  match st_pc th with
  | sp_wake _ => Poller (po_events p) (po_at p) (po_seen p) (on_side (other sd) false (po_wq p))
  | _ => p
  end.

Record po_sys := PoSys { ps_sys : sp_sys U; ps_pollers : gmap nat poller }.

(** A poller that has queued nothing yet and has seen no more than there is. *)
Definition po_entering (p : poller) (s : spshared U) : Prop :=
  po_at p = po_queue Reader /\ (forall sd, po_seen p sd <= q_pub s sd) /\ (forall sd, po_wq p sd = false).

Inductive po_sys_step : po_sys -> list event -> po_sys -> Prop :=
  | pos_thread c sd σ σ' ps :
      sp_next c sd σ = Some (Done σ') ->
      po_sys_step (PoSys σ ps) (sp_events (sp_th σ sd)) (PoSys σ' (po_woken (sp_th σ sd) sd <$> ps))
  | pos_user σ u ps : po_sys_step (PoSys σ ps) [] (PoSys (SpSys (sp_th σ) ((sp_sh σ) <| q_user := u |>)) ps)
  | pos_call σ sd r l ps :
      st_pc (sp_th σ sd) = sp_ret r -> sp_call_ok sd l ->
      po_sys_step (PoSys σ ps) []
        (PoSys (SpSys (on_side sd (SpThread l sp_clamp (st_coh (sp_th σ sd)) (st_acq (sp_th σ sd))) (sp_th σ))
                      (sp_sh σ)) ps)
  | pos_poll c t p p' σ ps :
      ps !! t = Some p -> po_step c p (sp_sh σ) = Some p' -> po_sys_step (PoSys σ ps) [] (PoSys σ (<[t := p']> ps))
  | pos_enter t p σ ps :
      (forall p0, ps !! t = Some p0 -> exists m, po_at p0 = po_ret m) -> po_entering p (sp_sh σ) ->
      po_sys_step (PoSys σ ps) [] (PoSys σ (<[t := p]> ps)).

Inductive po_run : po_sys -> list event -> po_sys -> Prop :=
  | por_nil σ : po_run σ [] σ
  | por_snoc σ evs σ1 e σ2 : po_run σ evs σ1 -> po_sys_step σ1 e σ2 -> po_run σ (evs ++ e) σ2.
End poll.
Arguments po_sys U : clear implicits.

(** ** The invariant of a poller *)
Section facts.
Context {U : Type} {ua : UAccess U} {ual : UAccessLaws U}.
Implicit Types (σ : sp_sys U) (ω : po_sys U) (s : spshared U).

(** The mask a poller was given comes from loads that had seen every wake-up made
    before it queued itself; a queue it is still on has had none since. *)
Definition told (m : Z) (p : poller) s : Prop :=
  exists v d, m = po_mask v d /\ num_buffers d = num_buffers (q_dev s) /\
    ld_prod1 v <= ld_prod2 v <= q_pub s Writer /\ ld_cons1 v <= ld_cons2 v <= q_pub s Reader /\
    (po_wq p Reader = true -> q_wqview s Reader <= ld_prod1 v) /\
    (po_wq p Writer = true -> q_wqview s Writer <= ld_cons1 v).

Record po_ok (p : poller) s : Prop := {
  pk_seen sd : po_seen p sd <= q_pub s sd;
  pk_queue sd : po_wq p sd = true -> q_wqview s sd <= po_seen p (other sd);
  pk_told : match po_at p with
            | po_check m => told m p s
            | po_asleep m => told m p s /\ Z.land m (po_events p) = 0
            | _ => True
            end
}.

(** Only a wake-up moves the view of a queue. *)
Lemma step_view c th s th' s' :
  sp_step c th s = Some (Done (th', s')) ->
  (exists r, st_pc th = sp_wake r) \/ q_wqview s' = q_wqview s.
Proof.
  intros Hst. destruct (st_pc th) eqn:E; [..| by left; eexists |]; right; destruct c as [| v |];
    unfold sp_step in Hst; rewrite E in Hst; try done.
  all: try (apply fmap_Some in Hst as (th1 & _ & Hst)).
  all: try (by repeat case_match; simplify_eq).
  - destruct (negb _); [done |]. destruct (_ >? _); [done |]. unfold run_copy in Hst.
    destruct (spsc_copy _ _ _ _ _) as [[r w'] |]; [| done]. cbn in Hst. by simplify_eq.
Qed.

(** A poller while others move: it may be woken, and what it has seen only ages. *)
Lemma po_ok_later p p' s s' :
  po_ok p s -> (forall sd, q_pub s sd <= q_pub s' sd) -> num_buffers (q_dev s') = num_buffers (q_dev s) ->
  po_at p' = po_at p -> po_events p' = po_events p -> po_seen p' = po_seen p ->
  (forall sd, po_wq p' sd = true -> po_wq p sd = true /\ q_wqview s' sd = q_wqview s sd) ->
  po_ok p' s'.
Proof.
  intros [Hs Hq Ht] Hpub Hn Hat Hev Hseen Hwq.
  assert (Htold : forall m, told m p s -> told m p' s').
  { intros m (v & d & -> & Hd & Hp & Hc & Hr & Hw). exists v, d. pose proof (Hpub Reader). pose proof (Hpub Writer).
    split_and!; try done; try lia; intros E; destruct (Hwq _ E) as [E' ->]; auto. }
  split.
  - intros sd. rewrite Hseen. pose proof (Hs sd). pose proof (Hpub sd). lia.
  - intros sd E. destruct (Hwq _ E) as [E' ->]. rewrite Hseen. by apply Hq.
  - rewrite Hat, Hev. destruct (po_at p); try done; [by apply Htold |]. destruct Ht. by split; [apply Htold |].
Qed.

(** ... and its own steps. *)
Lemma po_step_ok c p p' σ : sp_inv σ -> po_ok p (sp_sh σ) -> po_step c p (sp_sh σ) = Some p' -> po_ok p' (sp_sh σ).
Proof.
  intros Hinv [Hs Hq Ht] Hst. unfold po_step in Hst. destruct (po_at p) as [sd | | m | m | m] eqn:E, c as [| v |]; simplify_eq.
  - pose proof (proj1 (v_view σ Hinv sd)) as Hv. pose proof (Hs (other sd)) as Ho. split; cbn.
    + intros x. destruct (decide (x = other sd)) as [-> | Hne]; [rewrite on_side_eq; lia |].
      by rewrite on_side_ne.
    + intros x Hx. destruct (decide (x = sd)) as [-> | Hne]; [rewrite on_side_eq; lia |].
      rewrite on_side_ne in Hx by done. rewrite on_side_ne; [by apply Hq |]. by destruct x, sd.
    + by destruct sd.
  - destruct (loadable v p (sp_sh σ)) eqn:El; [| done]. injection Hst as <-. unfold loadable in El.
    assert (Hl : po_seen p Writer <= ld_prod1 v <= ld_prod2 v /\ ld_prod2 v <= q_pub (sp_sh σ) Writer /\
                 po_seen p Reader <= ld_cons1 v <= ld_cons2 v /\ ld_cons2 v <= q_pub (sp_sh σ) Reader) by lia.
    pose proof (Hq Reader) as HR. pose proof (Hq Writer) as HW. cbn [other] in HR, HW. split; cbn.
    + intros []; lia.
    + intros [] Hx; cbn; [specialize (HR Hx) | specialize (HW Hx)]; lia.
    + exists v, (q_dev (sp_sh σ)). split_and!; try done; try lia; intros Hx; [specialize (HR Hx) | specialize (HW Hx)]; lia.
  - destruct (Z.eqb_spec (Z.land m (po_events p)) 0); split; cbn; try done.
  - destruct (_ && _); simplify_eq. by split.
  - by split.
Qed.

Lemma po_woken_ok th sd σ th' s' p :
  sp_inv σ -> th = sp_th σ sd -> (exists c, sp_step c th (sp_sh σ) = Some (Done (th', s'))) ->
  po_ok p (sp_sh σ) -> po_ok (po_woken th sd p) s'.
Proof.
  intros Hinv -> [c Hst] Hp. destruct (sp_step_good σ sd c _ Hinv Hst) as (th1 & s1 & [= <- <-] & He & _).
  destruct He as [Hring Hpeer _ _ [Hpub _] _ _ _ Hview _ _ _].
  apply (po_ok_later p _ (sp_sh σ)); try done; try (unfold po_woken; by destruct (st_pc (sp_th σ sd))).
  - intros x. destruct (decide (x = sd)) as [-> | Hne]; [done |].
    replace x with (other sd) by (by destruct x, sd). by rewrite Hpeer.
  - apply (sc_n _ _ (sr_conf _ _ Hring)).
  - intros x Hx. destruct (step_view c _ _ _ _ Hst) as [[r E] | ->].
    + unfold po_woken in Hx. rewrite E in Hx. cbn in Hx.
      destruct (decide (x = other sd)) as [-> | Hne]; [by rewrite on_side_eq in Hx |].
      rewrite on_side_ne in Hx by done. replace x with sd in * by (by destruct x, sd). by rewrite Hview.
    + split; [| done]. unfold po_woken in Hx. destruct (st_pc (sp_th σ sd)); try done. cbn in Hx.
      unfold on_side in Hx. by case_decide.
Qed.

Definition po_inv ω : Prop :=
  sp_inv (ps_sys ω) /\ map_Forall (fun _ p => po_ok p (sp_sh (ps_sys ω))) (ps_pollers ω).

Lemma po_sys_step_inv ω ev ω' : po_inv ω -> po_sys_step ω ev ω' -> po_inv ω'.
Proof.
  intros [Hinv Hps] Hst. destruct Hst as [c sd σ σ' ps Hn | σ u ps | σ sd r l ps E Hl | c t p p' σ ps Hp Hst | t p σ ps Hf (E & Hs & Hw)];
    cbn [ps_sys ps_pollers] in *.
  - pose proof (sps_thread c sd σ σ' Hn) as Hsys. split; [by apply (sp_sys_step_inv σ _ σ' Hinv Hsys) |].
    unfold sp_next in Hn. destruct (sp_step c (sp_th σ sd) (sp_sh σ)) as [e |] eqn:Hst; [| done].
    destruct (sp_step_good σ sd c e Hinv Hst) as (th' & s' & -> & _ & _). cbn in Hn. injection Hn as <-. cbn [ps_sys sp_sh ps_pollers].
    apply map_Forall_fmap. intros t p Hp. cbn. eapply po_woken_ok; [done | done | by eexists | by eapply Hps].
  - pose proof (sps_user σ u) as Hsys. split; [by apply (sp_sys_step_inv _ _ _ Hinv Hsys) |].
    intros t p Hp. by apply (po_ok_later p _ (sp_sh σ) _ (Hps t p Hp)).
  - pose proof (sps_call σ sd r l E Hl) as Hsys. split; [by apply (sp_sys_step_inv _ _ _ Hinv Hsys) | done].
  - split; [done |]. apply map_Forall_insert_2; [| done]. eapply po_step_ok; [done | by eapply Hps | done].
  - split; [done |]. apply map_Forall_insert_2; [| done]. split; [done | |]; [intros sd; by rewrite Hw | by rewrite E].
Qed.

Lemma po_run_inv ω evs ω' : po_inv ω -> po_run ω evs ω' -> po_inv ω'.
Proof. intros Hinv Hrun. induction Hrun; [done |]. by eapply po_sys_step_inv; [apply IHHrun |]. Qed.

(** A mask made of exact indices is what [kbuf_poll] returns. *)
Lemma po_mask_exact v d d' :
  mode d' = KBUF_MODE_SPSC -> num_buffers d = num_buffers d' ->
  u32 (ld_prod1 v) = prod_idx d' -> u32 (ld_prod2 v) = prod_idx d' ->
  u32 (ld_cons1 v) = cons_idx d' -> u32 (ld_cons2 v) = cons_idx d' -> po_mask v d = kbuf_poll d'.
Proof.
  intros Hm Hn H1 H2 H3 H4. unfold po_mask, kbuf_poll, kbuf_spsc_is_empty, kbuf_spsc_is_full, indices. rewrite Hm.
  cbn [Z.eqb KBUF_MODE_SPSC]. cbn. by rewrite H1, H2, H3, H4, Hn.
Qed.

(** C9: poll(2) in lock-free mode misses nothing, although its loads may return
    old indices: a poller that can take no step has returned, or it sleeps with
    none of its events in the mask it was given, and that mask is what
    [kbuf_poll] would return now unless a side that has stored its index since is
    on its way to the wake-up. *)
Theorem spsc_poll_no_lost_wakeup d u calls evs ω t p :
  dev_ok d -> mode d = KBUF_MODE_SPSC -> (forall sd, sp_call_ok sd (calls sd)) ->
  po_run (PoSys (sp_start d u calls) ∅) evs ω -> ps_pollers ω !! t = Some p ->
  (forall c, c <> PoSig -> po_step c p (sp_sh (ps_sys ω)) = None) ->
  (exists m, po_at p = po_ret m) \/
  (exists m, po_at p = po_asleep m /\ Z.land m (po_events p) = 0 /\
     (m = kbuf_poll (q_dev (sp_sh (ps_sys ω))) \/ exists sd, waking (sp_th (ps_sys ω) sd) = true)).
Proof.
  intros Hok Hm Hc Hrun Hp Hst.
  destruct (po_run_inv _ _ _ (conj (sp_start_inv d u calls Hok Hm Hc) (map_Forall_empty _) : po_inv (PoSys _ ∅)) Hrun) as [Hinv Hps].
  destruct (Hps t p Hp) as [Hs Hq Ht]. set (s := sp_sh (ps_sys ω)) in *.
  pose proof (Hst PoGo ltac:(done)) as Hgo. unfold po_step in Hgo. destruct (po_at p) as [sd | | m | m | m] eqn:E; try done.
  - exfalso. specialize (Hst (PoSee (PoLoads (po_seen p Writer) (po_seen p Reader) (po_seen p Writer) (po_seen p Reader))) ltac:(done)).
    unfold po_step in Hst. rewrite E in Hst. unfold loadable in Hst. cbn in Hst.
    pose proof (Hs Writer). pose proof (Hs Reader). rewrite !Z.leb_refl, !(proj2 (Z.leb_le _ _)) in Hst by done. done.
  - right. exists m. destruct Ht as [(v & d0 & -> & Hn & Hp1 & Hc1 & Hr & Hw) Hz]. split; [done |]. split; [done |].
    destruct (po_wq p Reader && po_wq p Writer) eqn:Eq; [| done]. apply andb_true_iff in Eq as [Eq1 Eq2].
    specialize (Hr Eq1). specialize (Hw Eq2).
    destruct (v_view _ Hinv Reader) as [_ [Vr | Wr]]; [| right; by exists Writer].
    destruct (v_view _ Hinv Writer) as [_ [Vw | Ww]]; [| right; by exists Reader].
    left. cbn [other] in Vr, Vw. fold s in Vr, Vw. pose proof (v_idx _ Hinv Writer : prod_idx (q_dev s) = _) as Ip. pose proof (v_idx _ Hinv Reader : cons_idx (q_dev s) = _) as Ic.
    apply po_mask_exact; [apply (v_mode _ Hinv) | done | ..]; rewrite ?Ip, ?Ic; f_equal; fold s; lia.
  - left. by exists m.
Qed.
End facts.

(** ** A concrete run *)
Section exec.
Context {U : Type} `{UAccess U}.

Fixpoint po_schedule (sch : list (pick * side + po_pick * nat)) (ω : po_sys U) : option (po_sys U) :=
  match sch with
  | [] => Some ω
  | inl (c, sd) :: sch' =>
    match sp_next c sd (ps_sys ω) with
    | Some (Done σ') => po_schedule sch' (PoSys σ' (po_woken (sp_th (ps_sys ω) sd) sd <$> ps_pollers ω))
    | _ => None
    end
  | inr (c, t) :: sch' =>
    p ← ps_pollers ω !! t; p' ← po_step c p (sp_sh (ps_sys ω));
    po_schedule sch' (PoSys (ps_sys ω) (<[t := p']> (ps_pollers ω)))
  end.

Lemma po_run_cons ω e ω1 evs ω2 : po_sys_step ω e ω1 -> po_run ω1 evs ω2 -> po_run ω (e ++ evs) ω2.
Proof.
  intros Hst Hrun. revert Hst. induction Hrun as [ω1 | ω1 evs ω2 e' ω3 Hrun IH Hst']; intros Hst.
  - rewrite app_nil_r. apply (por_snoc ω [] ω); [constructor | done].
  - rewrite app_assoc. eapply por_snoc; [by apply IH | done].
Qed.

Lemma po_schedule_run sch ω ω' : po_schedule sch ω = Some ω' -> exists evs, po_run ω evs ω'.
Proof.
  revert ω. induction sch as [| [[c sd] | [c t]] sch IH]; intros [σ ps]; cbn.
  - intros [= <-]. exists []. constructor.
  - destruct (sp_next c sd σ) as [[σ' |] |] eqn:Hn; try done. intros [evs Hr]%IH.
    eexists. eapply po_run_cons; [eapply pos_thread; exact Hn | exact Hr].
  - destruct (ps !! t) as [p |] eqn:Hp; [| done]. cbn. destruct (po_step c p (sp_sh σ)) as [p' |] eqn:Hs; [| done].
    cbn. intros [evs Hr]%IH. eexists. eapply po_run_cons; [eapply pos_poll; [exact Hp | exact Hs] | exact Hr].
Qed.
End exec.

(** On an empty ring a poller for EPOLLIN falls asleep; then the writer stores its
    index and has not yet woken anybody. *)
Definition poll_start : po_sys simuser :=
  PoSys (sleeper_start (Io Writer false 100 3))
        {[7%nat := Poller EPOLLIN (po_queue Reader) (fun _ => 0) (fun _ => false)]}.

Definition poll_steps : list (pick * side + po_pick * nat) :=
  [inr (PoGo, 7%nat); inr (PoGo, 7%nat); inr (PoSee (PoLoads 0 0 0 0), 7%nat); inr (PoGo, 7%nat);
   inl (Go, Writer); inl (See 0, Writer); inl (Go, Writer); inl (Go, Writer); inl (Go, Writer)].

Definition poll_end : po_sys simuser := default poll_start (po_schedule poll_steps poll_start).

Lemma poll_entered :
  po_sys_step (PoSys (sleeper_start (Io Writer false 100 3)) ∅) [] poll_start.
Proof.
  apply (pos_enter 7%nat); [intros p0 Hp0; by rewrite lookup_empty in Hp0 |].
  split_and!; [reflexivity | intros []; vm_compute; congruence | reflexivity].
Qed.

Lemma poll_ran : exists evs, po_run (PoSys (sleeper_start (Io Writer false 100 3)) ∅) evs poll_end.
Proof.
  destruct (po_schedule poll_steps poll_start) as [ω |] eqn:E; [| by vm_compute in E].
  unfold poll_end. rewrite E. destruct (po_schedule_run _ _ _ E) as [evs Hr].
  eexists. eapply po_run_cons; [exact poll_entered | exact Hr].
Qed.

Lemma spsc_poll_no_lost_wakeup_witness :
  dev_queue (q_dev (sp_sh (ps_sys poll_end))) = [[x61; x62; x63]] /\
  waking (sp_th (ps_sys poll_end) Writer) = true /\
  exists p, ps_pollers poll_end !! 7%nat = Some p /\ po_at p = po_asleep 260 /\
    ((exists m, po_at p = po_ret m) \/
     (exists m, po_at p = po_asleep m /\ Z.land m (po_events p) = 0 /\
        (m = kbuf_poll (q_dev (sp_sh (ps_sys poll_end))) \/ exists sd, waking (sp_th (ps_sys poll_end) sd) = true))).
Proof.
  split; [by vm_compute |]. split; [by vm_compute |].
  destruct (ps_pollers poll_end !! 7%nat) as [p |] eqn:Hp; [| by vm_compute in Hp].
  assert (Hat : (fun q => (po_at q, po_wq q Reader, po_wq q Writer)) <$> ps_pollers poll_end !! 7%nat
                = Some (po_asleep 260, true, true)) by by vm_compute.
  rewrite Hp in Hat. cbn in Hat. injection Hat as Hat Hr Hw.
  exists p. split; [reflexivity |]. split; [exact Hat |]. destruct poll_ran as [evs Hrun].
  apply (spsc_poll_no_lost_wakeup empty_spsc demo_user _ evs poll_end 7 p empty_spsc_ok eq_refl
           (fun sd => sleeper_calls (Io Writer false 100 3) sd (conj eq_refl (Z.lt_le_incl 0 3 eq_refl))) Hrun Hp).
  intros c Hc. unfold po_step. rewrite Hat, Hr, Hw.
  destruct c; [reflexivity | reflexivity | destruct (Hc eq_refl)].
Defined.
