(* ===== verification/FileProps.v ===== *)
(** * FileProps: one open file is one bounded FIFO

    The system calls of one process on one file, in any order and with the mode
    switched and the ring resized in between, against an abstract file: a
    capacity, a message size, a mode and a queue. *)

From S2P Require Import Prelude Kernel Uapi Device Alloc Mmap Ctl CtlFacts DmaBuf Ring RingFacts RingSpec.
From S2P Require Import Samples RingProps Ioctl Dispatch IoctlProps MmapProps DispatchProps Machine FileOps.
#[local] Open Scope Z_scope.

Record afile := AFile {
  af_cap : Z;
  af_bsize : Z;
  af_mode : Z;
  af_q : list (list byte)
}.

Definition afile_of (d : kbuf_dev) : afile := AFile (num_buffers d) (buffer_size d) (mode d) (dev_queue d).

(** What an ioctl may do to the file: nothing, or, when it answered 0 and the
    queue is empty, switch the mode or replace the geometry. *)
Definition af_ioctl `{IocEncoding} (cmd r : Z) (f f' : afile) : Prop :=
  f' = f \/
  (r = 0 /\ af_q f = [] /\ af_q f' = [] /\
   ((cmd = KBUF_IOCSMODE /\ af_cap f' = af_cap f /\ af_bsize f' = af_bsize f) \/
    (cmd = KBUF_IOCRESIZE /\ af_mode f' = af_mode f))).

Section spec.
Context {U : Type} {ua : UAccess U} {ie : IocEncoding}.

Inductive af_step : fcall -> Z -> U -> afile -> U -> afile -> Prop :=
  | AsRead a n r u u' f q' :
      spec_op (af_cap f) (af_bsize f) (RRead a n) u (af_q f) = (r, u', q') ->
      af_step (FRead a n) r u f u' (AFile (af_cap f) (af_bsize f) (af_mode f) q')
  | AsWrite a n r u u' f q' :
      spec_op (af_cap f) (af_bsize f) (RWrite a n) u (af_q f) = (r, u', q') ->
      af_step (FWrite a n) r u f u' (AFile (af_cap f) (af_bsize f) (af_mode f) q')
  | AsPoll u f :
      af_step FPoll (poll_mask (bool_decide (af_q f = [])) (Z.of_nat (length (af_q f)) =? af_cap f)) u f u f
  | AsIoctl cmd arg r u u' f f' :
      answer r -> af_ioctl cmd r f f' -> af_step (FIoctl cmd arg) r u f u' f'.

Inductive af_steps : list fcall -> list Z -> U -> afile -> U -> afile -> Prop :=
  | AsNil u f : af_steps [] [] u f u f
  | AsCons c cs r rs u f u1 f1 u2 f2 :
      af_step c r u f u1 f1 -> af_steps cs rs u1 f1 u2 f2 -> af_steps (c :: cs) (r :: rs) u f u2 f2.
End spec.

Definition fcall_ok (c : fcall) : Prop := match c with FRead _ n | FWrite _ n => 0 <= n | _ => True end.

(** ** Reads, writes and polls *)
Section rw.
Context {U : Type} {ua : UAccess U} {ual : UAccessLaws U}.
Implicit Types (d : kbuf_dev) (u : U).

(** Either path of [kbuf_read] and [kbuf_write] is the abstract call. *)
Lemma by_mode_refines o d u :
  dev_ok d -> rop_ok o ->
  let '(r, u', q') := spec_op (num_buffers d) (buffer_size d) o u (dev_queue d) in
  exists d' tr', (if mode d =? KBUF_MODE_SPSC then ring_op spsc_ring o else ring_op blocking_ring o) (RWorld d u [])
                 = Done (r, RWorld d' u' tr') /\
    dev_queue d' = q' /\ dev_ok d' /\ same_config d d' /\ ptrs_of d' = ptrs_of d.
Proof.
  intros Hok Ho. assert (Hm : mode d = KBUF_MODE_SPSC \/ mode d = KBUF_MODE_BLOCKING).
  { destruct Hok as (_ & Hr & _). unfold ring_ok in Hr.
    destruct (Z.eqb_spec (mode d) KBUF_MODE_SPSC); [by left | right; by destruct Hr]. }
  destruct Hm as [Hm | Hm]; rewrite Hm; cbn [Z.eqb KBUF_MODE_SPSC KBUF_MODE_BLOCKING Pos.eqb].
  - pose proof (ring_op_refines (R := spsc_ring) o d u [] Hok Hm Ho) as Hr.
    destruct (spec_op _ _ _ _ _) as [[r u'] q']. destruct Hr as (d' & tr' & Hrun & Hq & Hok' & Hsc & _).
    exists d', tr'. split_and!; try done.
    apply (rw_ptrs o spsc_ring spsc_produce_ptrs spsc_consume_ptrs _ _ _ Hrun).
  - pose proof (ring_op_refines (R := blocking_ring) o d u [] Hok Hm Ho) as Hr.
    destruct (spec_op _ _ _ _ _) as [[r u'] q']. destruct Hr as (d' & tr' & Hrun & Hq & Hok' & Hsc & _).
    exists d', tr'. split_and!; try done.
    apply (rw_ptrs o blocking_ring ring_produce_ptrs ring_consume_ptrs _ _ _ Hrun).
Qed.
Lemma poll_refines d :
  dev_ok d -> kbuf_poll d = poll_mask (bool_decide (dev_queue d = [])) (Z.of_nat (length (dev_queue d)) =? num_buffers d).
Proof.
  intros Hok. unfold kbuf_poll.
  assert (Hsame : forall e f, (e = true <-> dev_queue d = []) ->
            (f = true <-> Z.of_nat (length (dev_queue d)) = num_buffers d) ->
            poll_mask e f = poll_mask (bool_decide (dev_queue d = [])) (Z.of_nat (length (dev_queue d)) =? num_buffers d)).
  { intros e f He Hf. f_equal.
    - destruct e; symmetry; [by apply bool_decide_eq_true, He | apply bool_decide_eq_false].
      intros Hq. by apply He in Hq.
    - destruct f; symmetry; [by apply Z.eqb_eq, Hf | apply Z.eqb_neq]. intros Hq. by apply Hf in Hq. }
  destruct (Z.eqb_spec (mode d) KBUF_MODE_SPSC) as [Hm | Hm].
  - apply Hsame; [by apply (rl_empty (R := spsc_ring (U := U))) | by apply (rl_full (R := spsc_ring (U := U)))].
  - assert (Hb : mode d = KBUF_MODE_BLOCKING).
    { destruct Hok as (_ & Hr & _). unfold ring_ok in Hr. rewrite (proj2 (Z.eqb_neq _ _) Hm) in Hr. by destruct Hr. }
    apply Hsame; [by apply (rl_empty (R := blocking_ring (U := U))) | by apply (rl_full (R := blocking_ring (U := U)))].
Qed.
End rw.

(** ** Calls on a file *)
Section files.
Context {U K : Type} {ua : UAccess U} {ual : UAccessLaws U} {kk : Kernel K} {kl : KernelLaws K}.
Context `{IocLaws} `{PagingLaws}.
Implicit Types (w : fworld U K) (d : kbuf_dev).

(** The abstract file behind [p]. *)
Definition file_at (p : Z) w : option afile := afile_of <$> c_heap (f_c w) !! p.

Lemma same_config_areas d d' : same_config d d' -> same_areas d d'.
Proof. intros [_ _ _ _ [? ?] [= ? ? ? ? ? ?]]. by split_and!. Qed.

Lemma healthy_ptrs d d' u u' (k : K) n :
  healthy (IWorld d u k n : iworld U K) -> dev_ok d' -> ptrs_of d' = ptrs_of d -> dev_node d' = dev_node d ->
  healthy (IWorld d' u' k n : iworld U K).
Proof.
  intros (_ & (sa & Hs & Hb) & Hn) Hok Hp Hd. unfold healthy, owns, node_live in *. cbn [i_dev i_kern] in *.
  rewrite Hd. split; [done |]. split; [| done]. unfold ptrs_of in Hp. rewrite Hs in Hp. cbn in Hp.
  destruct (slots d') as [sa' |]; [| done]. injection Hp as Hp1 Hp2. exists sa'. split; [done |].
  unfold array_ptrs in *. by rewrite Hp1, Hp2.
Qed.

Lemma on_ring_ok {A} p (h : prog (rworld U) A) w d r rw :
  file_ok p w -> c_heap (f_c w) !! p = Some d -> h (RWorld d (f_user w) []) = Done (r, rw) ->
  dev_ok (w_dev rw) -> same_config d (w_dev rw) -> ptrs_of (w_dev rw) = ptrs_of d ->
  exists w', on_ring p h w = Done (r, w') /\ file_ok p w' /\ f_user w' = w_user rw /\
    c_heap (f_c w') !! p = Some (w_dev rw).
Proof.
  intros [(d0 & E0 & Hw & Hr) Hring Hbufs] E Hrun Hok Hsc Hp. rewrite E in E0. injection E0 as <-.
  unfold on_ring. rewrite E, Hrun. cbn [exec_bind]. eexists. split; [done |].
  pose proof (same_config_areas _ _ Hsc) as Hs. split; [| split; [done | apply lookup_insert_eq]].
  pose proof (fun q => ring_at_insert (f_c w) p q d (w_dev rw) (c_kern (f_c w)) E
                (fun ctl ring M => ex_intro _ ring (same_areas_mapped _ _ _ _ Hs M))) as Hkeep.
  assert (Hc : forall q, ring_at (f_c w) q -> ring_at ((f_c w) <| c_heap := <[p := w_dev rw]> (c_heap (f_c w)) |>) q)
    by (intros q Hq; apply (ring_at_heap _ _ q eq_refl), Hkeep, Hq).
  split; cbn [f_c f_fds]; [| by apply Hc | intros fd h' q Hq; apply Hc; by eapply Hbufs].
  exists (w_dev rw). split; [apply lookup_insert_eq |]. split.
  - unfold view. cbn. apply (healthy_ptrs d _ (f_user w)); [exact Hw | done | done |].
    destruct Hsc as [_ _ _ _ _ [= _ _ ? _ _ _]]. done.
  - destruct Hs as (_ & _ & -> & ->). exact Hr.
Qed.

(** An ioctl on the device at [p]. *)
Definition keeps_file (cmd : Z) (h : prog (iworld U K) Z) : Prop := forall iw r iw',
  healthy iw -> h iw = Done (r, iw') -> af_ioctl cmd r (afile_of (i_dev iw)) (afile_of (i_dev iw')).

Lemma getstats_file cmd arg : keeps_file cmd (kbuf_ioc_getstats arg).
Proof.
  intros iw r iw' _. unfold kbuf_ioc_getstats. destruct (copy_to_user _ _ _). intros [= _ <-]. by left.
Qed.

Lemma reset_file cmd : keeps_file cmd kbuf_ioc_reset.
Proof. intros iw r iw' _ [= _ <-]. by left. Qed.

Lemma smode_file arg : keeps_file KBUF_IOCSMODE (kbuf_ioc_smode arg).
Proof.
  intros iw r iw' (Hok & _). unfold kbuf_ioc_smode. destruct (get_user _ _) as [m |]; [| intros [= _ <-]; by left].
  destruct (_ && _) eqn:Hm; [intros [= _ <-]; by left |].
  pose proof (smode_locked_ok m (i_dev iw) Hok) as Hs. specialize (Hs ltac:(unfold KBUF_MODE_BLOCKING, KBUF_MODE_SPSC in *; lia)).
  destruct (smode_locked m (i_dev iw)) as [r' d'] eqn:E. intros [= <- <-]. cbn [i_dev].
  destruct Hs as (_ & Hq & Hr & _ & Hsame). destruct (Z.eq_dec r' 0) as [-> | Hne]; [right | left; by rewrite Hsame].
  destruct (proj1 Hr eq_refl) as [Hq0 _]. split_and!; [done | done | cbn; congruence |]. left.
  unfold smode_locked, EBUSY, EINVAL in E. destruct (negb (kbuf_occupancy _ =? 0)); [by simplify_eq |].
  destruct ((m =? KBUF_MODE_SPSC) && negb (is_power_of_2 _)); by simplify_eq.
Qed.

Lemma resize_file arg : keeps_file KBUF_IOCRESIZE (kbuf_ioc_resize arg).
Proof.
  intros iw r iw' Hw Hrun. destruct (kbuf_ioc_resize_exits iw arg Hw) as (r0 & iw0 & Hrun0 & He).
  rewrite Hrun in Hrun0. injection Hrun0 as <- <-. destruct He as [bs w' _ (Hq & Hq' & Hm & _) _ _ | r w' _ (Hd & _) _].
  - right. split_and!; [done | done | done |]. by right.
  - left. by rewrite Hd.
Qed.

Lemma on_dev_file p cmd h w r w' :
  keeps_file cmd h -> file_ok p w -> on_dev p h w = Done (r, w') ->
  exists f f', file_at p w = Some f /\ file_at p w' = Some f' /\ af_ioctl cmd r f f'.
Proof.
  intros Hh [(d & E & Hw & _) _ _]. unfold on_dev, file_at. rewrite E.
  destruct (h _) as [[r0 iw] |] eqn:Hrun; [| done]. intros [= <- <-]. cbn. rewrite lookup_insert_eq.
  eexists _, _. split; [done |]. split; [done |]. apply (Hh _ _ _ Hw Hrun).
Qed.

Lemma unchanged_file p cmd r w w' f :
  unchanged w w' -> file_at p w = Some f -> exists f', file_at p w' = Some f' /\ af_ioctl cmd r f f'.
Proof. intros (_ & _ & _ & Hh & _). unfold file_at. rewrite Hh. intros ->. exists f. split; [done | by left]. Qed.

Lemma export_file p cmd arg w r w' :
  file_ok p w -> kbuf_ioc_export p arg w = Done (r, w') ->
  exists f f', file_at p w = Some f /\ file_at p w' = Some f' /\ af_ioctl cmd r f f'.
Proof.
  intros [(d & E & (_ & _ & Hnode) & Hr) _ _] Hrun. destruct (ioc_export_run p arg w d E Hnode Hr) as (r0 & w0 & Hrun0 & _ & _ & Hres).
  rewrite Hrun in Hrun0. injection Hrun0 as <- <-.
  assert (Ef : file_at p w = Some (afile_of d)) by (unfold file_at; by rewrite E).
  exists (afile_of d). destruct Hres as [(_ & fd & h & _ & _ & _ & _ & _ & Hh & _) | [_ Hu]].
  - exists (afile_of d). split; [done |]. split; [| by left]. unfold file_at. rewrite Hh, lookup_insert_eq. cbn.
    f_equal. unfold pinned. by destruct (dynamic d).
  - destruct (unchanged_file p cmd r w w' _ Hu Ef) as (f' & ? & ?). by exists f'.
Qed.

Lemma import_file p cmd arg w r w' :
  file_ok p w -> kbuf_ioc_import arg w = Done (r, w') ->
  exists f f', file_at p w = Some f /\ file_at p w' = Some f' /\ af_ioctl cmd r f f'.
Proof.
  intros [(d & E & _ & _) _ Hbufs] Hrun. assert (Ef : file_at p w = Some (afile_of d)) by (unfold file_at; by rewrite E).
  exists (afile_of d).
  destruct (get_user (f_user w) arg) as [fd |] eqn:Hu; [destruct (f_fds w !! fd) as [[h q | |] |] eqn:Hf |].
  3-5: unfold kbuf_ioc_import in Hrun; rewrite Hu, ?Hf in Hrun; injection Hrun as _ <-;
    exists (afile_of d); split_and!; [done | done | by left].
  2: { destruct (ioc_import_foreign arg w fd Hu Hf) as (r0 & w0 & Hrun0 & _ & Hun & _). rewrite Hrun in Hrun0.
       injection Hrun0 as <- <-. destruct (unchanged_file p cmd r w w' _ Hun Ef) as (f' & ? & ?). by exists f'. }
  destruct (Hbufs _ _ _ Hf) as (dq & ctl & ring & Eq & M).
  destruct (ioc_import_run arg w fd h q dq ctl ring Hu Hf Eq M) as (r0 & w0 & Hrun0 & Hres).
  rewrite Hrun in Hrun0. injection Hrun0 as <- <-. destruct Hres as [(_ & _ & _ & _ & _ & Hh) | [_ Hun]].
  - exists (afile_of d). split; [done |]. split; [| by left]. unfold file_at. rewrite Hh.
    destruct (decide (q = p)) as [-> | Hne].
    + rewrite lookup_insert_eq. rewrite E in Eq. by injection Eq as <-.
    + rewrite lookup_insert_ne by done. by rewrite E.
  - destruct (unchanged_file p cmd r w w' _ Hun Ef) as (f' & ? & ?). by exists f'.
Qed.

Lemma ioctl_file p cmd arg w r w' :
  file_ok p w -> kbuf_ioctl p cmd arg w = Done (r, w') ->
  exists f f', file_at p w = Some f /\ file_at p w' = Some f' /\ af_ioctl cmd r f f'.
Proof.
  intros Hok. assert (Hno : p_ret (- ENOTTY) w = Done (r, w') ->
    exists f f', file_at p w = Some f /\ file_at p w' = Some f' /\ af_ioctl cmd r f f').
  { intros [= _ <-]. destruct (fo_dev _ _ Hok) as (d & E & _). exists (afile_of d), (afile_of d).
    unfold file_at. rewrite E. split_and!; [done | done | by left]. }
  unfold kbuf_ioctl. destruct (negb _); [done |]. destruct (_ || _); [done |].
  destruct (Z.eqb_spec cmd KBUF_IOCGSTATS) as [-> |]; [intros; eapply on_dev_file; eauto using getstats_file |].
  destruct (Z.eqb_spec cmd KBUF_IOCRESET) as [-> |]; [intros; eapply on_dev_file; eauto using reset_file |].
  destruct (Z.eqb_spec cmd KBUF_IOCRESIZE) as [-> |]; [intros; eapply on_dev_file; eauto using resize_file |].
  destruct (Z.eqb_spec cmd KBUF_IOCSMODE) as [-> |]; [intros; eapply on_dev_file; eauto using smode_file |].
  destruct (cmd =? KBUF_IOCEXPORT); [by apply export_file |].
  destruct (cmd =? KBUF_IOCIMPORT); [by apply import_file | done].
Qed.

Lemma rw_file p o w d :
  file_ok p w -> c_heap (f_c w) !! p = Some d -> rop_ok o ->
  let h := (if mode d =? KBUF_MODE_SPSC then ring_op spsc_ring o else ring_op blocking_ring o) in
  exists r w' q', on_ring p h w = Done (r, w') /\ file_ok p w' /\
    spec_op (num_buffers d) (buffer_size d) o (f_user w) (dev_queue d) = (r, f_user w', q') /\
    file_at p w' = Some (AFile (num_buffers d) (buffer_size d) (mode d) q').
Proof.
  intros Hok E Ho h. destruct (fo_dev _ _ Hok) as (d0 & E0 & Hw & _). rewrite E in E0. injection E0 as <-.
  pose proof (by_mode_refines o d (f_user w) (proj1 Hw) Ho) as Hr. fold h in Hr.
  destruct (spec_op _ _ _ _ _) as [[r u'] q']. destruct Hr as (d' & tr' & Hrun & Hq & Hok' & Hsc & Hp).
  destruct (on_ring_ok p h w d r _ Hok E Hrun Hok' Hsc Hp) as (w' & Hrun' & Hfile & Hu & Hd').
  exists r, w', q'. split; [done |]. split; [done |]. split; [by rewrite Hu |].
  unfold file_at. rewrite Hd'. cbn. unfold afile_of. by rewrite (sc_n _ _ Hsc), (sc_b _ _ Hsc), (sc_mode _ _ Hsc), Hq.
Qed.

Lemma file_call_refines p c w :
  file_ok p w -> fcall_ok c ->
  exists r w' f f', file_call p c w = Done (r, w') /\ file_ok p w' /\
    file_at p w = Some f /\ file_at p w' = Some f' /\ af_step c r (f_user w) f (f_user w') f'.
Proof.
  intros Hok Hc. destruct (fo_dev _ _ Hok) as (d & E & Hw & _).
  assert (Ef : file_at p w = Some (afile_of d)) by (unfold file_at; by rewrite E).
  assert (Hpick : forall o, on_ring p (fun rw => (if mode (w_dev rw) =? KBUF_MODE_SPSC
             then ring_op spsc_ring o else ring_op blocking_ring o) rw) w
           = on_ring p (if mode d =? KBUF_MODE_SPSC then ring_op spsc_ring o else ring_op blocking_ring o) w)
    by (intros o; unfold on_ring; by rewrite E).
  destruct c as [a n | a n | | cmd arg]; cbn [file_call fcall_ok] in *.
  - destruct (rw_file p (RRead a n) w d Hok E Hc) as (r & w' & q' & Hrun & Hok' & Hs & Hf).
    exists r, w'. eexists _, _. split; [by rewrite <- Hrun, <- Hpick |]. split_and!; [done | done | done |].
    by apply (AsRead a n r _ _ (afile_of d)).
  - destruct (rw_file p (RWrite a n) w d Hok E Hc) as (r & w' & q' & Hrun & Hok' & Hs & Hf).
    exists r, w'. eexists _, _. split; [by rewrite <- Hrun, <- Hpick |]. split_and!; [done | done | done |].
    by apply (AsWrite a n r _ _ (afile_of d)).
  - destruct (on_ring_ok p (fun rw => Done (kbuf_poll (w_dev rw), rw)) w d _ _ Hok E eq_refl)
      as (w' & Hrun & Hok' & Hu & Hd'); [apply Hw | by cbn | done |].
    exists (kbuf_poll d), w'. eexists _, _. split; [exact Hrun |]. split_and!; [done | done | |].
    + unfold file_at. by rewrite Hd'.
    + cbn in Hu. rewrite Hu, (poll_refines (U := U) d (proj1 Hw)). apply (AsPoll _ (afile_of d)).
  - destruct (kbuf_ioctl_ok p cmd arg w Hok) as (r & w' & Hrun & Ha & Hok').
    destruct (ioctl_file p cmd arg w r w' Hok Hrun) as (f & f' & Hf & Hf' & Hi).
    exists r, w', f, f'. split_and!; try done. by apply AsIoctl.
Qed.

(** C12: whatever one process does with one open file -- non-blocking reads and
    writes, polls, and any ioctls, so also with the mode switched and the ring
    resized on the way -- is what a single bounded FIFO does: every read and
    write has the abstract result on queue and memory, poll reports exactly
    whether the next read or write would have to wait, and an ioctl never
    touches a queued message: it changes mode or geometry only of an empty
    queue, and only if it says so. *)
Theorem file_refines p cs w :
  file_ok p w -> Forall fcall_ok cs ->
  exists rs w' f f', file_calls p cs w = Done (rs, w') /\ file_ok p w' /\
    file_at p w = Some f /\ file_at p w' = Some f' /\ af_steps cs rs (f_user w) f (f_user w') f'.
Proof.
  revert w. induction cs as [| c cs IH]; intros w Hok Hall; cbn [file_calls].
  { destruct (fo_dev _ _ Hok) as (d & E & _). exists [], w, (afile_of d), (afile_of d).
    unfold file_at. rewrite E. split_and!; try done. constructor. }
  apply Forall_cons in Hall as [Hc Hall].
  destruct (file_call_refines p c w Hok Hc) as (r & w1 & f & f1 & Hr & Hok1 & Hf & Hf1 & Hs).
  destruct (IH w1 Hok1 Hall) as (rs & w2 & f1' & f2 & Hrs & Hok2 & Hf1' & Hf2 & Hss).
  rewrite Hf1 in Hf1'. injection Hf1' as <-.
  exists (r :: rs), w2, f, f2. unfold p_bind. rewrite Hr. cbn [exec_bind]. rewrite Hrs.
  split_and!; try done. by econstructor.
Qed.
End files.

(** ** Where the mode switch falls short *)
Section stranded.
Context {U : Type} {ua : UAccess U}.

(** A reader that sleeps in the blocking path waits for [dev->count], which
    SPSC mode leaves at zero.  Once the mode was switched under it (the ring is
    empty, so the switch is allowed) it goes back to sleep after every wake-up,
    whatever the ring holds: only a signal gets it out. *)
Theorem mode_switch_strands t a n nb (s : shared U) :
  dev_ok (sh_dev s) -> mode (sh_dev s) = KBUF_MODE_SPSC -> t ∉ sh_rwq s ->
  exists s1 s2 s3,
    io_step Run t (Io Reader nb a n) io_asleep s = Some (Done (TIo (Io Reader nb a n) io_prepare, s1)) /\
    io_step Run t (Io Reader nb a n) io_prepare s1 = Some (Done (TIo (Io Reader nb a n) io_recheck, s2)) /\
    io_step Run t (Io Reader nb a n) io_recheck s2 = Some (Done (TIo (Io Reader nb a n) io_asleep, s3)) /\
    sh_dev s3 = sh_dev s /\ t ∈ sh_rwq s3 /\ io_step Run t (Io Reader nb a n) io_asleep s3 = None.
Proof.
  intros (_ & Hr & _) Hm Ht. apply ring_ok_spsc in Hr as (_ & _ & _ & Hc); [| done].
  assert (Hw : must_wait Reader (sh_dev s) = true) by (unfold must_wait, kbuf_ring_is_empty; by rewrite Hc).
  eexists s, _, _. split; [cbn; by rewrite bool_decide_eq_false_2 |].
  split; [done |]. cbn -[must_wait]. rewrite Hw. split; [done |]. split; [done |].
  assert (Hin : t ∈ {[t]} ∪ sh_rwq s) by set_solver. split; [exact Hin |]. by rewrite bool_decide_eq_true_2.
Qed.
End stranded.

(** ** Concrete runs *)
Definition file_session : list fcall :=
  [FWrite 0 3; FPoll; FIoctl KBUF_IOCSMODE 16; FRead 40 9; FIoctl KBUF_IOCSMODE 16; FWrite 0 8; FRead 40 2;
   FIoctl KBUF_IOCRESIZE 0; FPoll; FIoctl 21585 0].

Lemma file_session_ok : Forall fcall_ok file_session.
Proof. repeat first [apply List.Forall_nil | apply List.Forall_cons]; cbn; (done || lia). Qed.

Lemma file_refines_witness :
  exists rs w' f f', file_calls 5 file_session (file_world []) = Done (rs, w') /\ file_at 5 w' = Some f' /\
    af_steps file_session rs file_user f (f_user w') f' /\
    rs = [3; 325; - EBUSY; 3; 0; 4; 2; 0; 260; - ENOTTY].
Proof.
  destruct (file_refines 5 file_session (file_world []) (file_world_ok []) file_session_ok)
    as (rs & w' & f & f' & Hrun & _ & _ & Hf' & Hs).
  exists rs, w', f, f'. split; [exact Hrun |]. split; [exact Hf' |]. split; [exact Hs |].
  apply (ret_of_done _ rs w' _ Hrun). by vm_compute.
Defined.

(** A sleeping reader, the switch, and a message produced by [kbuf_write]. *)
Definition switched : kbuf_dev := (smode_locked KBUF_MODE_SPSC demo_dev).2.

(** A write of a whole message to a device with room. *)
Lemma write_message {U} `{UAccessLaws U} a n d (u : U) bs :
  dev_ok d -> 0 <= n <= buffer_size d -> dev_queue d = [] -> user_bytes u a n = Some bs ->
  exists rw, kbuf_write a n (RWorld d u []) = Done (n, rw) /\ dev_ok (w_dev rw) /\
    mode (w_dev rw) = mode d /\ dev_queue (w_dev rw) = [bs].
Proof.
  intros Hok Hn Hq Hu. pose proof (by_mode_refines (RWrite a n) d u Hok (proj1 Hn)) as Hr.
  pose proof (geo_n _ (proj1 Hok)). unfold spec_op, spec_produce in Hr. rewrite Hq in Hr. cbn [length Z.of_nat] in Hr.
  rewrite (proj2 (Z.eqb_neq 0 _)) in Hr by lia. rewrite Z.min_l, Hu in Hr by lia.
  destruct Hr as (d' & tr' & Hrun & Hq' & Hok' & Hsc & _). exists (RWorld d' u tr'). split; [exact Hrun |].
  split; [done |]. split; [by rewrite <- (sc_mode _ _ Hsc) | done].
Qed.

Lemma switched_ok : dev_ok switched /\ mode switched = KBUF_MODE_SPSC.
Proof.
  split; [| by vm_compute]. pose proof (smode_locked_ok KBUF_MODE_SPSC demo_dev demo_dev_ok (or_intror eq_refl)) as Hs.
  unfold switched. by destruct (smode_locked _ _), Hs.
Qed.

Lemma stranded_run :
  exists rw, kbuf_write 100 3 (RWorld switched demo_user []) = Done (3, rw) /\ dev_ok (w_dev rw) /\
    mode (w_dev rw) = KBUF_MODE_SPSC /\ dev_queue (w_dev rw) = [[x61; x62; x63]].
Proof.
  destruct switched_ok as [Hok <-]. by apply write_message; [exact Hok | vm_compute | vm_compute | vm_compute].
Qed.

Lemma mode_switch_strands_witness :
  exists rw s3, kbuf_write 100 3 (RWorld switched demo_user []) = Done (3, rw) /\
    dev_queue (sh_dev s3) = [[x61; x62; x63]] /\
    io_step Run 0%nat (Io Reader false 104 2) io_asleep s3 = None.
Proof.
  destruct stranded_run as (rw & E & Hok & Hm & Hq).
  destruct (mode_switch_strands 0%nat 104 2 false (Shared (w_dev rw) (w_user rw) (w_trace rw) None ∅ ∅)
              Hok Hm (not_elem_of_empty _)) as (s1 & s2 & s3 & _ & _ & _ & Hd & _ & Hn).
  exists rw, s3. split; [exact E |]. split; [exact (eq_trans (f_equal dev_queue Hd) Hq) | exact Hn].
Defined.
