(* ===== verification/Driver.v ===== *)
(** * Driver: the whole driver under its users

    Any number of processes that create and destroy devices through the control
    node, open them, duplicate and close descriptors, read, write, poll and
    ioctl, map the rings, fault pages in, store to the shared memory and export
    rings as dma-bufs, in any order; descriptors can be dma-bufs of other drivers.
    The code of the other files runs here as the kernel calls it: [kbuf_release]
    when the last descriptor and the last mapping of a file are gone,
    [kbuf_dmabuf_release] likewise for a dma-buf, [kbuf_vm_fault] for a page of a
    mapping.  A call runs without a competitor
    (MachineProps and SpscProps have the interleavings inside calls), except
    that a destroy can be split between its unlink and its teardown.  The files
    are those of dynamic devices: an open of a static node is made and its file,
    which holds no reference, not followed further. *)

From S2P Require Import Prelude Kernel Uapi Device Alloc Mmap Ctl DmaBuf.
From S2P Require Import Ioctl Dispatch FileOps.
#[local] Open Scope Z_scope.

(** An open file of the kernel: of a device node, of a dma-buf this driver
    exported, or of one of another driver. *)
Inductive fobj : Set := FoFile (i : Z) | FoBuf (h : Z) | FoForeign.

#[export] Instance fobj_eq_dec : EqDecision fobj.
Proof. solve_decision. Defined.

Inductive dop : Set :=
  | DCtl (cmd arg : Z)                     (** an ioctl of the control node *)
  | DUnlink (id : Z)                       (** first half of a destroy *)
  | DTeardown (p : Z)                      (** second half *)
  | DOpen (minor fd i : Z)                 (** file [i] at descriptor [fd] *)
  | DForeign (fd : Z)                      (** a dma-buf from another driver *)
  | DDup (fd fd' : Z)                      (** dup, fork, passing a descriptor *)
  | DClose (fd : Z)
  | DCall (fd : Z) (c : fcall)             (** read, write, poll, ioctl *)
  | DMmap (fd v : Z) (a : vm_area)
  | DCopyVma (v v' : Z)                    (** a mapping inherited by fork *)
  | DMunmap (v : Z)
  | DFault (v pgoff : Z)
  | DStore (v off : Z) (b : byte)          (** a user store to the ring *)
  | DPoke (v head tail capacity : Z).      (** user stores to the control page *)

Inductive dres : Set := RNone | RRet (r : Z) | RPage (pg : option page).

#[export] Instance fdfile_eq_dec : EqDecision fdfile.
Proof. solve_decision. Defined.

Section driver.
Context {U K : Type} `{UAccess U} `{Kernel K} `{IocEncoding} `{Paging}.
Context (base_devno ndevices : Z) (dev_index : Z -> Z).

Record dsys := DSys {
  s_c : cworld K;
  s_user : U;
  s_woken : Z;
  s_files : gmap Z Z;                  (** open files with their [private_data] *)
  s_bufs : gmap Z Z;                   (** dma-bufs with their [priv] *)
  s_fds : gmap Z fobj;
  s_vmas : gmap Z (fobj * vm_area);
  s_tearing : list Z                   (** unlinked, not yet torn down *)
}.

Definition eta_dsys (s : dsys) : dsys :=
  DSys (s_c s) (s_user s) (s_woken s) (s_files s) (s_bufs s) (s_fds s) (s_vmas s) (s_tearing s).

#[global] Instance set_s_c : Setter s_c := ltac:(make_setter s_c eta_dsys).
#[global] Instance set_s_user : Setter s_user := ltac:(make_setter s_user eta_dsys).
#[global] Instance set_s_woken : Setter s_woken := ltac:(make_setter s_woken eta_dsys).
#[global] Instance set_s_files : Setter s_files := ltac:(make_setter s_files eta_dsys).
#[global] Instance set_s_bufs : Setter s_bufs := ltac:(make_setter s_bufs eta_dsys).
#[global] Instance set_s_fds : Setter s_fds := ltac:(make_setter s_fds eta_dsys).
#[global] Instance set_s_vmas : Setter s_vmas := ltac:(make_setter s_vmas eta_dsys).
#[global] Instance set_s_tearing : Setter s_tearing := ltac:(make_setter s_tearing eta_dsys).

(** ** Files and their references *)

(** A descriptor or a mapping refers to the file. *)
Definition referenced (f : fobj) (s : dsys) : Prop :=
  map_Exists (fun _ x => x = f) (s_fds s) \/ map_Exists (fun _ x => x.1 = f) (s_vmas s).

#[global] Instance referenced_dec f s : Decision (referenced f s).
Proof. unfold referenced. apply _. Defined.

(** [fput] of a reference already taken out of the tables: the last one calls
    the file's release. *)
Definition fput (f : fobj) (s : dsys) : exec dsys :=
  if decide (referenced f s) then Done s else
  match f with
  | FoFile i =>
    match s_files s !! i with
    | None => Oops UseAfterFree
    | Some p => exec_bind (kbuf_release (DynDev p) (s_c s)) (fun '(_, c) =>
                Done (s <| s_c := c |> <| s_files := delete i (s_files s) |>))
    end
  | FoBuf h =>
    match s_bufs s !! h with
    | None => Oops UseAfterFree
    | Some p => exec_bind (dma_buf_put h p (s_c s)) (fun '(_, c) =>
                Done (s <| s_c := c |> <| s_bufs := delete h (s_bufs s) |>))
    end
  | FoForeign => Done s
  end.

(** The descriptors as [dma_buf_get] sees them. *)
Definition fd_view (s : dsys) : gmap Z fdfile :=
  (fun f => match f with
            | FoFile _ => FdOther
            | FoBuf h => match s_bufs s !! h with Some p => FdKbuf h p | None => FdOther end
            | FoForeign => FdForeign
            end) <$> s_fds s.

(** The buffer a call exported, if it did: the descriptor that was not there. *)
Definition new_fd (before after : gmap Z fdfile) : option (Z * fdfile) :=
  match map_to_list (filter (fun x : Z * fdfile => before !! x.1 = None) after) with
  | [x] => Some x
  | _ => None
  end.

Definition adopt (before after : gmap Z fdfile) (s : dsys) : dsys :=
  match new_fd before after with
  | Some (fd, FdKbuf h p) => s <| s_fds := <[fd := FoBuf h]> (s_fds s) |> <| s_bufs := <[h := p]> (s_bufs s) |>
  | _ => s
  end.

(** The caller's world as the file operations see it. *)
Definition file_world_of (s : dsys) : fworld U K := FWorld (s_c s) (s_user s) (fd_view s) (s_woken s).

(** [dev] of a mapping of the device node, which the fault handler and the
    pages it maps go through. *)
Definition vma_dev (v : Z) (s : dsys) : option Z :=
  match s_vmas s !! v with
  | Some (FoFile _, a) => Some (vm_private_data a)
  | _ => None
  end.

(** An access to the device behind a mapping. *)
Definition on_vma (v : Z) (s : dsys) (f : Z -> kbuf_dev -> exec (dres * dsys)) : exec (dres * dsys) :=
  match vma_dev v s with
  | None => Done (RNone, s)
  | Some p => match c_heap (s_c s) !! p with None => Oops UseAfterFree | Some d => f p d end
  end.

Definition set_dev (p : Z) (d : kbuf_dev) (s : dsys) : dsys :=
  s <| s_c := (s_c s) <| c_heap := <[p := d]> (c_heap (s_c s)) |> |>.

(** ** Mapping a file *)
Definition do_mmap (f : fobj) (v : Z) (a : vm_area) (s : dsys) : exec (dres * dsys) :=
  match f with
  | FoFile i =>
    match s_files s !! i with
    | None => Oops UseAfterFree
    | Some p =>
      let '(r, a') := kbuf_mmap p a in
      Done (RRet r, if r =? 0 then s <| s_vmas := <[v := (f, a')]> (s_vmas s) |> else s)
    end
  | FoBuf h =>
    match s_bufs s !! h with
    | None => Oops UseAfterFree
    | Some p =>
      match c_heap (s_c s) !! p with
      | None => Oops UseAfterFree
      | Some d => let r := (kbuf_dmabuf_mmap d a).1 in
                  Done (RRet r, if r =? 0 then s <| s_vmas := <[v := (f, a)]> (s_vmas s) |> else s)
      end
    end
  | FoForeign => Done (RNone, s)
  end.

Definition do_call (fd : Z) (c : fcall) (s : dsys) : exec (dres * dsys) :=
  match s_fds s !! fd with
  | Some (FoFile i) =>
    match s_files s !! i with
    | None => Oops UseAfterFree
    | Some p =>
      exec_bind (file_call p c (file_world_of s)) (fun '(r, w) =>
      Done (RRet r, adopt (fd_view s) (f_fds w)
                      (s <| s_c := f_c w |> <| s_user := f_user w |> <| s_woken := f_woken w |>)))
    end
  | _ => Done (RNone, s)
  end.

Definition drun (o : dop) (s : dsys) : exec (dres * dsys) :=
  match o with
  | DCtl cmd arg =>
    exec_bind (kbuf_ctl_ioctl base_devno ndevices dev_index cmd arg (s_user s) (s_c s)) (fun '((r, u), c) =>
    Done (RRet r, s <| s_c := c |> <| s_user := u |>))
  | DUnlink id =>
    exec_bind (dyn_unlink id (s_c s)) (fun '(found, c) =>
    Done (RNone, s <| s_c := c |>
                   <| s_tearing := match found with Some p => p :: s_tearing s | None => s_tearing s end |>))
  | DTeardown p =>
    if decide (p ∈ s_tearing s) then
      exec_bind (kbuf_dyn_teardown p (s_c s)) (fun '(_, c) =>
      Done (RNone, s <| s_c := c |> <| s_tearing := base.filter (fun q => q <> p) (s_tearing s) |>))
    else Done (RNone, s)
  | DOpen minor fd i =>
    match s_fds s !! fd, s_files s !! i with
    | None, None =>
      exec_bind (kbuf_open ndevices minor (s_c s)) (fun '(r, c) =>
      match r with
      | inl (DynDev p) => Done (RRet fd, s <| s_c := c |> <| s_files := <[i := p]> (s_files s) |>
                                           <| s_fds := <[fd := FoFile i]> (s_fds s) |>)
      | inl (StaticDev _) => Done (RNone, s <| s_c := c |>)
      | inr e => Done (RRet e, s <| s_c := c |>)
      end)
    | _, _ => Done (RNone, s)
    end
  | DForeign fd =>
    match s_fds s !! fd with
    | None => Done (RRet fd, s <| s_fds := <[fd := FoForeign]> (s_fds s) |>)
    | Some _ => Done (RNone, s)
    end
  | DDup fd fd' =>
    match s_fds s !! fd, s_fds s !! fd' with
    | Some f, None => Done (RRet fd', s <| s_fds := <[fd' := f]> (s_fds s) |>)
    | _, _ => Done (RNone, s)
    end
  | DClose fd =>
    match s_fds s !! fd with
    | Some f => exec_bind (fput f (s <| s_fds := delete fd (s_fds s) |>)) (fun s' => Done (RRet 0, s'))
    | None => Done (RRet (- EBADF), s)
    end
  | DCall fd c => do_call fd c s
  | DMmap fd v a =>
    match s_fds s !! fd, s_vmas s !! v with
    | Some f, None => do_mmap f v a s
    | _, _ => Done (RNone, s)
    end
  | DCopyVma v v' =>
    match s_vmas s !! v, s_vmas s !! v' with
    | Some m, None => Done (RNone, s <| s_vmas := <[v' := m]> (s_vmas s) |>)
    | _, _ => Done (RNone, s)
    end
  | DMunmap v =>
    match s_vmas s !! v with
    | Some (f, _) => exec_bind (fput f (s <| s_vmas := delete v (s_vmas s) |>)) (fun s' => Done (RRet 0, s'))
    | None => Done (RNone, s)
    end
  | DFault v pgoff => on_vma v s (fun _ d => Done (RPage (kbuf_vm_fault d pgoff), s))
  | DStore v off b =>
    on_vma v s (fun p d => match map_store d off b with
                           | Some d' => Done (RNone, set_dev p d' s)
                           | None => Done (RNone, s)
                           end)
  | DPoke v h t c =>
    on_vma v s (fun p d => match mmap_ctrl d with
                           | Some m => Done (RNone, set_dev p (d <| mmap_ctrl := Some (KbufMmapCtrl (ctrl_ptr m) h t c) |>) s)
                           | None => Oops NullDeref
                           end)
  end.

Fixpoint druns (os : list dop) (s : dsys) : exec (list dres * dsys) :=
  match os with
  | [] => Done ([], s)
  | o :: os' => exec_bind (drun o s) (fun '(r, s1) =>
                exec_bind (druns os' s1) (fun '(rs, s2) => Done (r :: rs, s2)))
  end.

(** ** What the kernel and the callers are assumed to do

    Counts are not negative, and a new descriptor is one that was not in use. *)
Definition count_ok (c : fcall) : bool :=
  match c with FRead _ n | FWrite _ n => 0 <=? n | _ => true end.

Definition fds_kept (before after : gmap Z fdfile) : bool :=
  bool_decide (map_Forall (fun x f => after !! x = Some f) before).

Definition dop_ok (o : dop) (s : dsys) : bool :=
  match o with
  | DCall fd c =>
    count_ok c &&
    match s_fds s !! fd with
    | Some (FoFile i) =>
      match s_files s !! i with
      | Some p => match file_call p c (file_world_of s) with
                  | Done (_, w) => fds_kept (fd_view s) (f_fds w)
                  | Oops _ => true
                  end
      | None => true
      end
    | _ => true
    end
  | _ => true
  end.

Fixpoint dops_ok (os : list dop) (s : dsys) : bool :=
  match os with
  | [] => true
  | o :: os' => dop_ok o s && match drun o s with Done (_, s') => dops_ok os' s' | Oops _ => true end
  end.

(** ** Devices by name

    The device whose name an operation prints: the last close and the last
    [munmap] of a file log it in [kbuf_release], a resize logs it, an export hands
    it to the dma-buf core. *)
Definition drops (f : fobj) (s : dsys) : option Z :=
  if decide (referenced f s) then None else
  match f with FoFile i => s_files s !! i | _ => None end.

Definition names (o : dop) (s : dsys) : option Z :=
  match o with
  | DClose fd => f ← s_fds s !! fd; drops f (s <| s_fds := delete fd (s_fds s) |>)
  | DMunmap v => x ← s_vmas s !! v; drops x.1 (s <| s_vmas := delete v (s_vmas s) |>)
  | DCall fd (FIoctl cmd _) =>
    if (cmd =? KBUF_IOCRESIZE) || (cmd =? KBUF_IOCEXPORT) then
      match s_fds s !! fd with Some (FoFile i) => s_files s !! i | _ => None end
    else None
  | _ => None
  end.

(** The device is destroyed: its node is gone. *)
Definition destroyed (p : Z) (s : dsys) : Prop := p ∉ c_list (s_c s) ++ s_tearing s.
End driver.
Arguments dsys U K : clear implicits.
Arguments DSys {U K}.
