(* ===== verification/DriverFacts.v ===== *)
(** * DriverFacts: the invariant of the whole driver

    The invariant of Lifetime.v survives what a file operation does to a device,
    a resize that exchanges its slots included, unless the call reads the name of
    a device destroyed while open. *)

From stdpp Require Import gmultiset.
From S2P Require Import Prelude Kernel Uapi Device Alloc Ring RingFacts RingSpec Mmap Ctl CtlFacts Lifetime LifetimeProps.
From S2P Require Import DmaBuf RingProps Ioctl Dispatch IoctlProps MmapProps DispatchProps FileOps FileProps Driver.
#[local] Open Scope Z_scope.

(** ** What a call leaves of a device *)

(** The device is still well-formed and still holds the same resources. *)
Record kept (d d' : kbuf_dev) : Prop := {
  kp_ok : dev_ok d';
  kp_ptrs : ptrs_of d' = ptrs_of d;
  kp_ring c buf : mapped d c buf -> exists c' buf', mapped d' c' buf' /\
                  ctrl_ptr c' = ctrl_ptr c /\ kb_ptr buf' = kb_ptr buf;
  kp_life : (cdevp d', dev_node d', dynamic d', minor_off d', ref d')
            = (cdevp d, dev_node d, dynamic d, minor_off d, ref d)
}.

Lemma kept_shape d d' : kept d d' -> dyn_shape d -> dyn_shape d'.
Proof.
  intros [Hok _ Hring [= _ _ Hdyn _ _]] [Hd _ (c & buf & M)]. split; [congruence | |].
  - destruct Hok as ([_ _ (sa & Hs & Hl & _)] & _ & _). by exists sa.
  - destruct (Hring c buf M) as (c' & buf' & M' & _). by exists c', buf'.
Qed.

Lemma slots_res_ptrs d d' : ptrs_of d' = ptrs_of d -> slots_res d' = slots_res d.
Proof.
  unfold ptrs_of, slots_res. intros E. destruct (slots d), (slots d'); try done.
  cbn in E. injection E as E1 E2. unfold array_ptrs. by rewrite E1, E2.
Qed.

Lemma kept_view p d d' : kept d d' -> dyn_shape d -> dev_view p d' = dev_view p d.
Proof.
  intros [_ Hp Hring [= Hc Hn _ Hm _]] [_ _ (c & buf & M)].
  destruct (Hring c buf M) as (c' & buf' & M' & E1 & E2). unfold dev_view, dev_res, node_res, ring_res.
  rewrite (slots_res_ptrs d d' Hp), Hc, Hn, Hm, (mp_ctrl _ _ _ M'), (mp_data _ _ _ M'), (mp_ctrl _ _ _ M), (mp_data _ _ _ M).
  unfold ring_ptrs. by rewrite E1, E2.
Qed.

Lemma kept_config d d' : dev_ok d' -> same_config d d' -> ptrs_of d' = ptrs_of d -> kept d d'.
Proof.
  intros Hok [_ _ _ _ [Hc Hd] [= H1 H2 H3 H4 H5 H6]] Hp. split; [done | done | | congruence].
  intros c buf []. exists c, buf. split; [| done]. split; congruence.
Qed.

Lemma kept_refl d : dev_ok d -> kept d d.
Proof. intros Hok. by apply kept_config. Qed.

Lemma kept_data d l buf c :
  dev_ok d -> mapped d c buf -> length l = length (kb_bytes buf) ->
  kept d (d <| mmap_data := Some (KBuffer (kb_ptr buf) l) |>).
Proof.
  intros Hok M Hl. split; [by apply (dev_ok_same d) | done | | done].
  intros c0 buf0 M0. assert (c0 = c /\ buf0 = buf) as [-> ->] by (destruct M, M0; split; congruence).
  eexists c, _. split; [by apply mapped_write | done].
Qed.

Lemma kept_ctrl d c buf h t n :
  dev_ok d -> mapped d c buf -> kept d (d <| mmap_ctrl := Some (KbufMmapCtrl (ctrl_ptr c) h t n) |>).
Proof.
  intros Hok M. split; [by apply (dev_ok_same d) | done | | done].
  intros c0 buf0 M0. assert (c0 = c /\ buf0 = buf) as [-> ->] by (destruct M, M0; split; congruence).
  exists (KbufMmapCtrl (ctrl_ptr c) h t n), buf. split; [| done]. destruct M. by split.
Qed.

(** ** The shared areas stay *)
Definition areas (d : kbuf_dev) : option Z * option Z := (ctrl_ptr <$> mmap_ctrl d, kb_ptr <$> mmap_data d).

(** Every device of the new heap was there before, with the same areas. *)
Definition narrows (h h' : gmap Z kbuf_dev) : Prop :=
  forall q e', h' !! q = Some e' -> exists e, h !! q = Some e /\ areas e' = areas e.

#[export] Instance narrows_refl : Reflexive narrows.
Proof. intros h q e E. by exists e. Qed.

#[export] Instance narrows_trans : Transitive narrows.
Proof.
  intros h1 h2 h3 N1 N2 q e3 E3. destruct (N2 q e3 E3) as (e2 & E2 & A2). destruct (N1 q e2 E2) as (e1 & E1 & A1).
  exists e1. split; [done | congruence].
Qed.

Lemma narrows_put h p d d' : h !! p = Some d -> areas d' = areas d -> narrows h (<[p := d']> h).
Proof. intros E Ha q e [[<- <-] | [_ Hq]]%lookup_insert_Some; [by exists d | by exists e]. Qed.

Lemma kept_areas d d' : kept d d' -> dyn_shape d -> areas d' = areas d.
Proof.
  intros [_ _ Hring _] [_ _ (c & buf & M)]. destruct (Hring c buf M) as (c' & buf' & M' & E1 & E2). unfold areas.
  rewrite (mp_ctrl _ _ _ M'), (mp_data _ _ _ M'), (mp_ctrl _ _ _ M), (mp_data _ _ _ M). cbn. by rewrite E1, E2.
Qed.

(** ** Lifetime.v's invariant under such a change *)
Lemma refs_put heap regs refs p d d' :
  refs_ok heap regs refs -> heap !! p = Some d -> dyn_shape d' -> dev_ok d' -> ref d' = ref d ->
  refs_ok (<[p := d']> heap) regs refs.
Proof.
  intros [Hd Hr Hp Hg Hok] E Hsh Hok' Href. destruct (Hd p d E) as (_ & Hrd & Hpos). split; [| | done | done |].
  - intros q e [[<- <-] | [_ He]]%lookup_insert_Some; [| by apply Hd]. split; [done |]. by rewrite Href.
  - intros q Hq. destruct (decide (q = p)) as [-> | Hne]; [by rewrite lookup_insert_eq |].
    rewrite lookup_insert_ne by done. by apply Hr.
  - intros q e [[_ <-] | [_ He]]%lookup_insert_Some; [done | by eapply Hok].
Qed.

Lemma ids_put heap ida p d d' :
  ids_ok heap ida -> heap !! p = Some d -> minor_off d' = minor_off d -> ids_ok (<[p := d']> heap) ida.
Proof.
  intros [Hu Hi] E Hm.
  assert (Hl : forall q e, <[p := d']> heap !! q = Some e -> exists e', heap !! q = Some e' /\ minor_off e' = minor_off e).
  { intros q e [[<- <-] | [_ He]]%lookup_insert_Some; [by exists d | by exists e]. }
  split.
  - intros i. rewrite Hu. split.
    + intros (q & e & Eq & Hq). destruct (decide (q = p)) as [-> | Hne].
      * exists p, d'. rewrite lookup_insert_eq. split; [done | congruence].
      * exists q, e. by rewrite lookup_insert_ne.
    + intros (q & e & (e' & Eq & Hq)%Hl & Hqi). exists q, e'. split; [done | congruence].
  - intros q1 q2 e1 e2 (f1 & F1 & G1)%Hl (f2 & F2 & G2)%Hl Hq. apply (Hi q1 q2 f1 f2); congruence.
Qed.

Lemma same_view_kept (heap : gmap Z kbuf_dev) p d d' :
  heap !! p = Some d -> dev_view p d' = dev_view p d -> same_view heap (<[p := d']> heap).
Proof.
  intros E Hv q. destruct (decide (q = p)) as [-> | Hne].
  - rewrite lookup_insert_eq, E. cbn. by rewrite Hv.
  - by rewrite lookup_insert_ne.
Qed.

(** A resize: the device gives up [hs] and takes [hs'], fresh. *)
Lemma owned_swap base own held held' heap regs bufs p d d' hs hs' :
  owned base own held heap regs bufs -> heap !! p = Some d ->
  (forall h, h ∈ (res_of regs p d').*1 <-> h ∈ hs' \/ (h ∈ (res_of regs p d).*1 /\ h ∉ hs)) ->
  (forall h, h ∈ hs -> h ∈ (res_of regs p d).*1) -> NoDup hs' -> (forall h, h ∈ hs' -> held !! h = None) ->
  holds (res_of regs p d') held' ->
  (forall h, held' !! h = if decide (h ∈ hs') then Some RkMem else if decide (h ∈ hs) then None else held !! h) ->
  owned base (claim p hs' (foldr delete own hs)) held' (<[p := d']> heap) regs bufs.
Proof.
  intros [Hr Ho Hb Hba Hd] E Hres Hhs Hnd Hnew Hhold Hheld. destruct (Hr p d E) as [_ Hop].
  assert (Hown : forall h, claim p hs' (foldr delete own hs) !! h
            = if decide (h ∈ hs') then Some (ODev p) else if decide (h ∈ hs) then None else own !! h)
    by (intros h; by rewrite lookup_claim, lookup_disown).
  assert (Hout : forall h o, own !! h = Some o -> h ∉ hs').
  { intros h o Eo Hin. destruct (proj2 (Hd h) ltac:(by rewrite Eo)) as [? Eh]. by rewrite (Hnew h Hin) in Eh. }
  assert (Hsep : forall h o, own !! h = Some o -> o <> ODev p -> h ∉ hs)
    by (intros h o Eo Hne Hin; apply Hhs, Hop in Hin; congruence).
  assert (Hrest : forall h o, own !! h = Some o -> o <> ODev p ->
            claim p hs' (foldr delete own hs) !! h = Some o /\ held' !! h = held !! h).
  { intros h o Eo Hne. pose proof (Hout h o Eo). pose proof (Hsep h o Eo Hne).
    rewrite Hown, Hheld. by rewrite !(decide_False (P := h ∈ hs')), !(decide_False (P := h ∈ hs)). }
  assert (Hback : forall h o, claim p hs' (foldr delete own hs) !! h = Some o -> o <> ODev p -> own !! h = Some o).
  { intros h o. rewrite Hown. repeat case_decide; congruence. }
  split.
  - intros q e [[<- <-] | [Hne Eq]]%lookup_insert_Some.
    + split; [done |]. intros h Hin. rewrite Hown. destruct (decide (h ∈ hs')); [done |].
      apply Hres in Hin as [? | [Hin Hn]]; [done |]. rewrite decide_False by done. by apply Hop.
    + destruct (Hr q e Eq) as [[Hnd' Hh] Hoq]. split.
      * split; [done |]. intros h rk Hin. destruct (Hrest h (ODev q)) as [_ ->]; [| congruence | by apply Hh].
        apply Hoq, list_elem_of_fmap. by exists (h, rk).
      * intros h Hin. apply Hrest; [by apply Hoq | congruence].
  - intros h q Eq. destruct (decide (q = p)) as [-> | Hne].
    + exists d'. rewrite lookup_insert_eq. split; [done |]. apply Hres. rewrite Hown in Eq.
      destruct (decide (h ∈ hs')); [by left |]. destruct (decide (h ∈ hs)); [done |].
      right. split; [| done]. destruct (Ho h p Eq) as (e & Ee & Hin). congruence.
    + apply Hback in Eq; [| congruence]. destruct (Ho h q Eq) as (e & Ee & Hin). exists e.
      by rewrite lookup_insert_ne.
  - intros h. destruct (Hb h) as [Hbi Hk]. split.
    + rewrite Hbi. split; [intros Eo; by apply Hrest | intros Eo; by apply Hback].
    + intros Hin. destruct (Hrest h OBuf) as [_ ->]; [by apply Hbi | done | by apply Hk].
  - intros h. destruct (Hba h) as [Hbi Hk]. split.
    + rewrite Hbi. split; [intros Eo; by apply Hrest | intros Eo; by apply Hback].
    + intros Hin. destruct (Hrest h OBase) as [_ ->]; [by apply Hbi | done | by apply Hk].
  - intros h. rewrite Hheld, Hown. by repeat case_decide.
Qed.

Section calls.
Context {U K : Type} {ua : UAccess U} {ual : UAccessLaws U} {kk : Kernel K} {kl : KernelLaws K}.
Context `{IocLaws} `{PagingLaws}.
Context (base : gmap Z rkind).
Implicit Types (w : cworld K) (d : kbuf_dev).

(** The system of LifetimeProps.v at a world. *)
Lemma linv_kept w w' F B T p d d' :
  linv base (LSys w F B T) -> c_heap w !! p = Some d -> kept d d' ->
  c_heap w' = <[p := d']> (c_heap w) -> c_list w' = c_list w ->
  k_held (c_kern w') = k_held (c_kern w) -> k_ida (c_kern w') = k_ida (c_kern w) ->
  linv base (LSys w' F B T).
Proof.
  intros (Hnd & own & [Lr Lo Li]) E Hk Hh Hl Hheld Hida. cbn [l_w l_bufs] in *.
  destruct (ro_dev _ _ _ Lr p d E) as (Hsh & _). pose proof (kept_view p d d' Hk Hsh) as Hv.
  apply (linv_intro base _ own (l_regs (LSys w F B T)) (dom B) (l_refs (LSys w F B T))).
  - split; cbn [l_w]; rewrite Hh, ?Hheld, ?Hida.
    + eapply refs_put; [done | done | by eapply kept_shape | apply Hk |]. by destruct Hk as [_ _ _ [= _ _ _ _ ?]].
    + eapply owned_view; [by eapply same_view_kept | done].
    + eapply ids_view; [by eapply same_view_kept | done].
  - cbn. by rewrite Hl.
  - unfold l_regs. cbn. by rewrite Hl.
  - done.
  - intros q. unfold l_refs, l_regs. cbn. by rewrite Hl.
Qed.

(** Nothing that the invariant reads changed. *)
Lemma linv_same w w' F B T :
  linv base (LSys w F B T) -> c_heap w' = c_heap w -> c_list w' = c_list w ->
  k_held (c_kern w') = k_held (c_kern w) -> k_ida (c_kern w') = k_ida (c_kern w) ->
  linv base (LSys w' F B T).
Proof.
  intros (Hnd & own & [Lr Lo Li]) Hh Hl Hheld Hida. split; [cbn in *; by rewrite Hl |]. exists own.
  assert (Hr : l_regs (LSys w' F B T) = l_regs (LSys w F B T)) by (unfold l_regs; cbn; by rewrite Hl).
  cbn [l_w l_bufs] in *. rewrite Hr. split; cbn [l_w]; rewrite Hh, ?Hheld, ?Hida; [| done | done].
  eapply refs_ok_ext; [| exact Lr]. intros q. unfold l_refs. by rewrite Hr.
Qed.

(** What the files and the buffers refer to is there. *)
Lemma linv_dev w F B T p :
  linv base (LSys w F B T) -> 0 < l_refs (LSys w F B T) p ->
  exists d, c_heap w !! p = Some d /\ dyn_shape d /\ dev_ok d /\ 1 <= ref d /\
    holds (dev_res false p d) (k_held (c_kern w)) /\
    (p ∈ c_list w ++ T -> k_held (c_kern w) !! dev_node d = Some RkNode).
Proof.
  intros (_ & own & [Lr Lo _]) Hr. cbn [l_w l_bufs] in *. destruct (ro_ref _ _ _ Lr p Hr) as [d Hd].
  destruct (ro_dev _ _ _ Lr p d Hd) as (Hsh & Hrd & _). destruct (ow_res _ _ _ _ _ _ Lo p d Hd) as [Hh _].
  exists d. split; [done |]. split; [done |]. split; [by eapply ro_ok |]. split; [lia |].
  unfold res_of, dev_res in *. split; [exact (proj2 (holds_app _ _ _ Hh)) |].
  intros Hin. rewrite bool_decide_eq_true_2 in Hh by (by apply l_regs_in).
  apply Hh. by left.
Qed.

(** ** The handlers of Ioctl.v *)

(** A handler that leaves the ledger alone. *)
Definition tame (h : prog (iworld U K) Z) : Prop := forall iw,
  dev_ok (i_dev iw) -> exists r iw', h iw = Done (r, iw') /\ i_kern iw' = i_kern iw /\ kept (i_dev iw) (i_dev iw').

Lemma getstats_tame arg : tame (kbuf_ioc_getstats arg).
Proof.
  intros iw Hok. unfold kbuf_ioc_getstats. destruct (copy_to_user _ _ _) as [u' missed].
  eexists _, _. split; [done |]. split; [done | by apply kept_refl].
Qed.

Lemma reset_tame : tame kbuf_ioc_reset.
Proof.
  intros iw Hok. eexists _, _. split; [done |]. split; [done |]. apply kept_config; [| by split | done].
  by apply reset_counters_ok.
Qed.

Lemma smode_tame arg : tame (kbuf_ioc_smode arg).
Proof.
  intros iw Hok. unfold kbuf_ioc_smode. destruct (get_user (i_user iw) arg) as [m |];
    [| eexists _, _; split; [done |]; split; [done | by apply kept_refl]].
  destruct (_ && _) eqn:Hm; [eexists _, _; split; [done |]; split; [done | by apply kept_refl] |].
  pose proof (smode_locked_ok m (i_dev iw) Hok ltac:(unfold KBUF_MODE_BLOCKING, KBUF_MODE_SPSC in *; lia)) as Hs.
  unfold smode_locked in *.
  destruct (negb (kbuf_occupancy _ =? 0)); [| destruct ((m =? KBUF_MODE_SPSC) && negb (is_power_of_2 _))];
    (eexists _, _; split; [done |]; split; [done |]; split; [apply Hs | done | | done]);
    intros c buf []; exists c, buf; by split.
Qed.

(** A resize touches neither the ids nor the rest of the device. *)
Lemma resize_rest arg (iw : iworld U K) r iw' :
  healthy iw -> kbuf_ioc_resize arg iw = Done (r, iw') ->
  k_ida (i_kern iw') = k_ida (i_kern iw) /\
  (mmap_ctrl (i_dev iw'), mmap_data (i_dev iw'), cdevp (i_dev iw'), dev_node (i_dev iw'), dynamic (i_dev iw'),
   minor_off (i_dev iw'), ref (i_dev iw'))
  = (mmap_ctrl (i_dev iw), mmap_data (i_dev iw), cdevp (i_dev iw), dev_node (i_dev iw), dynamic (i_dev iw),
     minor_off (i_dev iw), ref (i_dev iw)).
Proof.
  intros (Hok & (old & Hold & Hbatch) & _). unfold kbuf_ioc_resize. destruct (copy_from_user _ _ _) as [bs missed].
  destruct (negb _); [by intros [= _ <-] |]. destruct (resize_invalid _ _) eqn:Hinv; [by intros [= _ <-] |].
  set (rq := kbuf_resize_of_bytes bs) in *. pose proof (resize_invalid_false _ _ Hinv) as (Hrn & Hrb & _).
  pose proof (kbuf_alloc_slots_spec (rq_num_buffers rq) (rq_buffer_size rq) (i_kern iw) ltac:(lia) ltac:(lia)) as Ha.
  destruct (kbuf_alloc_slots _ _ (i_kern iw)) as [[new |] k1]; [| destruct Ha as [_ Hi]; by intros [= _ <-]].
  destruct Ha as (Hlen & _ & Hfr & Hh1 & Hi1). unfold resize_swap. destruct (negb _).
  - destruct (kbuf_free_slots_spec new (rq_num_buffers rq) k1) as (k2 & -> & _ & Hi2);
      [done | rewrite Hh1; apply held_batch_add, Hfr |].
    intros [= _ <-]. split; [cbn; congruence | done].
  - pose proof (geo_slots _ (proj1 Hok)) as (sa & Hsa & Hlo & _). rewrite Hold in *. injection Hsa as <-.
    destruct (kbuf_free_slots_spec old (num_buffers (i_dev iw)) k1) as (k2 & -> & _ & Hi2);
      [done | rewrite Hh1; by apply held_batch_disjoint |].
    cbn [exec_bind]. destruct (node_live _ _); [| done]. intros [= _ <-]. split; [cbn; congruence | done].
Qed.

Lemma resized_shape d d' :
  dyn_shape d -> dev_ok d' ->
  (mmap_ctrl d', mmap_data d', cdevp d', dev_node d', dynamic d', minor_off d', ref d')
  = (mmap_ctrl d, mmap_data d, cdevp d, dev_node d, dynamic d, minor_off d, ref d) -> dyn_shape d'.
Proof.
  intros [Hd _ (c & buf & M)] Hok [= E1 E2 _ _ E3 _ _]. split; [congruence | |].
  - destruct Hok as ([_ _ (sa & Hs & Hl & _)] & _ & _). by exists sa.
  - exists c, buf. destruct M. by split; congruence.
Qed.

(** The resources of a device whose slots were exchanged. *)
Lemma resized_res regs p d d' old new :
  slots d = Some old -> slots d' = Some new ->
  (mmap_ctrl d', mmap_data d', cdevp d', dev_node d', dynamic d', minor_off d', ref d')
  = (mmap_ctrl d, mmap_data d, cdevp d, dev_node d, dynamic d, minor_off d, ref d) ->
  exists r1 r2, res_of regs p d = r1 ++ ((fun h => (h, RkMem)) <$> array_ptrs old) ++ r2 /\
                res_of regs p d' = r1 ++ ((fun h => (h, RkMem)) <$> array_ptrs new) ++ r2.
Proof.
  intros Es Es' [= E1 E2 E3 E4 _ _ _].
  exists (node_res (bool_decide (p ∈ regs)) d ++ ring_res d), [(p, RkMem)]. rewrite <- !app_assoc.
  unfold res_of, dev_res, node_res, ring_res, slots_res. by rewrite Es, Es', E1, E2, E3, E4.
Qed.

(** The resources around the slots are apart from the old and the new ones. *)
Lemma around_slots (r1 r2 : list (Z * rkind)) old new (held : gmap Z rkind) :
  holds (r1 ++ ((fun h => (h, RkMem)) <$> array_ptrs old) ++ r2) held ->
  (forall h, h ∈ array_ptrs new -> held !! h = None) -> forall h rk, (h, rk) ∈ r1 ++ r2 ->
  (h ∉ array_ptrs old) /\ (h ∉ array_ptrs new) /\ held !! h = Some rk.
Proof.
  intros [Hnd Hh] Hnew h rk Hin.
  assert (Hk : held !! h = Some rk) by (apply Hh; rewrite !elem_of_app in *; tauto).
  split_and!; [| intros Hi; by rewrite (Hnew h Hi) in Hk | done].
  rewrite !fmap_app, fst_res in Hnd. apply NoDup_app in Hnd as (_ & Ha & Hnd). apply NoDup_app in Hnd as (_ & Hb & _).
  intros Hi. apply elem_of_app in Hin as [Hin | Hin]; apply (list_elem_of_fmap_2' fst) with (y := h) in Hin; try done.
  - apply (Ha h Hin), elem_of_app. by left.
  - by apply (Hb h Hi).
Qed.

Lemma holds_swapped (r1 r2 : list (Z * rkind)) old new (held held' : gmap Z rkind) :
  holds (r1 ++ ((fun h => (h, RkMem)) <$> array_ptrs old) ++ r2) held -> fresh_batch (array_ptrs new) held ->
  (forall h, held' !! h = if decide (h ∈ array_ptrs new) then Some RkMem
                          else if decide (h ∈ array_ptrs old) then None else held !! h) ->
  holds (r1 ++ ((fun h => (h, RkMem)) <$> array_ptrs new) ++ r2) held'.
Proof.
  intros Hh [Hnd Hnew] Hview. pose proof (around_slots r1 r2 old new held Hh Hnew) as Hin. destruct Hh as [Hn _].
  assert (Hap : forall h, h ∈ r1.*1 \/ h ∈ r2.*1 -> h ∉ array_ptrs new).
  { intros h. rewrite <- elem_of_app, <- fmap_app. intros ([h' rk] & -> & Hi)%list_elem_of_fmap. by apply (Hin _ rk). }
  split.
  - rewrite !fmap_app, fst_res in *. apply NoDup_app in Hn as (N1 & N2 & N3). apply NoDup_app in N3 as (_ & _ & N3).
    apply NoDup_app. split_and!; [done | |].
    + intros h Hi [Hn | Hr]%elem_of_app; [by apply (Hap h); [left |] |]. apply (N2 h Hi), elem_of_app. by right.
    + apply NoDup_app. split_and!; [done | | done]. intros h Hi Hr. by apply (Hap h); [right |].
  - intros h rk Hi. rewrite Hview.
    assert (Hor : (h, rk) ∈ r1 ++ r2 \/ (h ∈ array_ptrs new /\ rk = RkMem)).
    { rewrite !elem_of_app, list_elem_of_fmap in *. destruct Hi as [? | [(x & [= <- <-] & ?) | ?]]; tauto. }
    destruct Hor as [Hr | [Hr ->]]; [| by rewrite decide_True].
    destruct (Hin h rk Hr) as (? & ? & ?). by rewrite !decide_False.
Qed.

Lemma linv_resized w w' F B T p d d' old new :
  linv base (LSys w F B T) -> c_heap w !! p = Some d -> slots d = Some old -> slots d' = Some new -> dev_ok d' ->
  (mmap_ctrl d', mmap_data d', cdevp d', dev_node d', dynamic d', minor_off d', ref d')
  = (mmap_ctrl d, mmap_data d, cdevp d, dev_node d, dynamic d, minor_off d, ref d) ->
  fresh_batch (array_ptrs new) (k_held (c_kern w)) ->
  k_held (c_kern w') = ledger_del (array_ptrs old) (ledger_add RkMem (array_ptrs new) (k_held (c_kern w))) ->
  c_heap w' = <[p := d']> (c_heap w) -> c_list w' = c_list w -> k_ida (c_kern w') = k_ida (c_kern w) ->
  linv base (LSys w' F B T).
Proof.
  intros (Hnd & own & [Lr Lo Li]) E Es Es' Hok Hrest [Hndn Hnew] Hheld Hh Hl Hida. cbn [l_w l_bufs] in *.
  set (s := LSys w F B T) in *. destruct (ro_dev _ _ _ Lr p d E) as (Hsh & Href & Hpos).
  destruct (ow_res _ _ _ _ _ _ Lo p d E) as [Hhold Hop].
  destruct (resized_res (l_regs s) p d d' old new Es Es' Hrest) as (r1 & r2 & R & R').
  assert (Hin : forall h rk, (h, rk) ∈ r1 ++ r2 ->
            (h ∉ array_ptrs old) /\ (h ∉ array_ptrs new) /\ k_held (c_kern w) !! h = Some rk)
    by (by apply (around_slots r1 r2 old); [rewrite <- R |]).
  assert (Hview : forall h, k_held (c_kern w') !! h = if decide (h ∈ array_ptrs new) then Some RkMem
            else if decide (h ∈ array_ptrs old) then None else k_held (c_kern w) !! h).
  { intros h. rewrite Hheld, ledger_del_lookup, ledger_add_lookup. repeat case_decide; try done.
    assert (Hi : (h, RkMem) ∈ res_of (l_regs s) p d).
    { rewrite R, !elem_of_app. right. left. apply list_elem_of_fmap. by exists h. }
    apply Hhold in Hi. by rewrite (Hnew h) in Hi. }
  assert (Hfst : forall h, h ∈ (res_of (l_regs s) p d').*1 <->
            h ∈ array_ptrs new \/ (h ∈ (res_of (l_regs s) p d).*1 /\ h ∉ array_ptrs old)).
  { intros h. rewrite R, R', !fmap_app, !fst_res, !elem_of_app.
    assert (Hap : h ∈ r1.*1 \/ h ∈ r2.*1 -> h ∉ array_ptrs old).
    { rewrite <- elem_of_app, <- fmap_app. intros ([h' rk] & -> & Hi)%list_elem_of_fmap. by apply (Hin _ rk). }
    tauto. }
  apply (linv_intro base _ (claim p (array_ptrs new) (foldr delete own (array_ptrs old)))
           (l_regs s) (dom B) (l_refs s)).
  - split; cbn [l_w]; rewrite Hh, ?Hida.
    + eapply refs_put; [done | done | by eapply resized_shape | done |]. by injection Hrest as _ _ _ _ _ _ ->.
    + eapply owned_swap; try done.
      * intros h Hi. rewrite R, !fmap_app, fst_res, !elem_of_app. tauto.
      * rewrite R'. eapply holds_swapped; [by rewrite <- R | done | done].
    + eapply ids_put; [done | done |]. by injection Hrest as _ _ _ _ _ -> _.
  - cbn. by rewrite Hl.
  - unfold l_regs. cbn. by rewrite Hl.
  - done.
  - intros q. unfold l_refs, l_regs. cbn. by rewrite Hl.
Qed.

(** ** File operations *)
Implicit Types (fw : fworld U K).

(** The file's device is referred to, and so are the devices behind the caller's
    dma-bufs. *)
Record callable p fw F B T : Prop := {
  cl_live : linv base (LSys (f_c fw) F B T);
  cl_ref : 0 < l_refs (LSys (f_c fw) F B T) p;
  cl_fds fd h q : f_fds fw !! fd = Some (FdKbuf h q) -> B !! h = Some q
}.

Definition still_live fw fw' F B T : Prop :=
  linv base (LSys (f_c fw') F B T) /\ narrows (c_heap (f_c fw)) (c_heap (f_c fw')).

Lemma still_kept fw fw' F B T p d d' :
  linv base (LSys (f_c fw) F B T) -> c_heap (f_c fw) !! p = Some d -> kept d d' ->
  c_heap (f_c fw') = <[p := d']> (c_heap (f_c fw)) -> c_list (f_c fw') = c_list (f_c fw) ->
  k_held (c_kern (f_c fw')) = k_held (c_kern (f_c fw)) -> k_ida (c_kern (f_c fw')) = k_ida (c_kern (f_c fw)) ->
  still_live fw fw' F B T.
Proof.
  intros Hl E Hk Hh Hcl Hheld Hida. split; [by eapply (linv_kept (f_c fw)) |]. rewrite Hh. eapply narrows_put; [done |].
  apply (kept_areas d); [done |]. destruct Hl as (_ & own & [Lr _ _]). by destruct (ro_dev _ _ _ Lr p d E).
Qed.

Lemma on_ring_live p (h : prog (rworld U) Z) fw F B T d r rw :
  callable p fw F B T -> c_heap (f_c fw) !! p = Some d -> h (RWorld d (f_user fw) []) = Done (r, rw) ->
  kept d (w_dev rw) ->
  exists fw', on_ring p h fw = Done (r, fw') /\ still_live fw fw' F B T /\ f_fds fw' = f_fds fw.
Proof.
  intros [Hl _ _] E Hrun Hk. unfold on_ring. rewrite E, Hrun. cbn [exec_bind]. eexists. split; [done |].
  split; [| done]. by eapply (still_kept fw).
Qed.

Lemma rw_live p o fw F B T :
  callable p fw F B T -> rop_ok o ->
  exists r fw', on_ring p (fun rw => (if mode (w_dev rw) =? KBUF_MODE_SPSC
                                      then ring_op spsc_ring o else ring_op blocking_ring o) rw) fw = Done (r, fw') /\
    still_live fw fw' F B T /\ f_fds fw' = f_fds fw.
Proof.
  intros Hc Ho. destruct (linv_dev _ _ _ _ p (cl_live _ _ _ _ _ Hc) (cl_ref _ _ _ _ _ Hc)) as (d & E & _ & Hok & _).
  pose proof (by_mode_refines o d (f_user fw) Hok Ho) as Hr.
  destruct (spec_op _ _ _ _ _) as [[r u'] q']. destruct Hr as (d' & tr' & Hrun & _ & Hok' & Hsc & Hp).
  destruct (on_ring_live p (fun rw => (if mode (w_dev rw) =? KBUF_MODE_SPSC then ring_op spsc_ring o
              else ring_op blocking_ring o) rw) fw F B T d r (RWorld d' u' tr') Hc E Hrun) as (fw' & ? & ?);
    [by apply kept_config | by exists r, fw'].
Qed.

Lemma on_dev_live p h fw F B T :
  tame h -> callable p fw F B T ->
  exists r fw', on_dev p h fw = Done (r, fw') /\ still_live fw fw' F B T /\ f_fds fw' = f_fds fw.
Proof.
  intros Hh [Hl Hr _]. destruct (linv_dev _ _ _ _ p Hl Hr) as (d & E & _ & Hok & _). unfold on_dev. rewrite E.
  destruct (Hh (IWorld d (f_user fw) (c_kern (f_c fw)) (f_woken fw)) Hok) as (r & iw & -> & Hk & Hkept).
  cbn [exec_bind]. eexists _, _. split; [done |]. split; [| done].
  eapply (still_kept fw); try done; cbn; by rewrite Hk.
Qed.

(** A resize of a device without its node fails as ever, or takes effect and then
    reads the name. *)
Lemma resize_dead arg (iw : iworld U K) :
  dev_ok (i_dev iw) -> owns (i_kern iw) (i_dev iw) -> node_live (i_kern iw) (i_dev iw) = false ->
  kbuf_ioc_resize arg iw = Oops UseAfterFree \/
  exists r iw', kbuf_ioc_resize arg iw = Done (r, iw') /\ i_dev iw' = i_dev iw /\
    k_held (i_kern iw') = k_held (i_kern iw) /\ k_ida (i_kern iw') = k_ida (i_kern iw).
Proof.
  intros Hok (old & Hold & Hbatch) Hnode. unfold kbuf_ioc_resize. destruct (copy_from_user _ _ _) as [bs missed].
  destruct (negb _); [right; by eexists _, _ |]. destruct (resize_invalid _ _) eqn:Hinv; [right; by eexists _, _ |].
  set (rq := kbuf_resize_of_bytes bs) in *. pose proof (resize_invalid_false _ _ Hinv) as (Hrn & Hrb & _).
  pose proof (kbuf_alloc_slots_spec (rq_num_buffers rq) (rq_buffer_size rq) (i_kern iw) ltac:(lia) ltac:(lia)) as Ha.
  destruct (kbuf_alloc_slots _ _ (i_kern iw)) as [[new |] k1]; [| destruct Ha; right; by eexists _, _].
  destruct Ha as (Hlen & _ & Hfr & Hh1 & Hi1). unfold resize_swap. destruct (negb _).
  - destruct (kbuf_free_slots_spec new (rq_num_buffers rq) k1) as (k2 & -> & Hh2 & Hi2);
      [done | rewrite Hh1; apply held_batch_add, Hfr |].
    right. eexists _, _. split; [done |]. cbn. split; [done |]. split; [| congruence].
    by rewrite Hh2, Hh1, ledger_del_add.
  - pose proof (geo_slots _ (proj1 Hok)) as (sa & Hsa & Hlo & _). rewrite Hold in *. injection Hsa as <-.
    destruct (kbuf_free_slots_spec old (num_buffers (i_dev iw)) k1) as (k2 & -> & Hh2 & _);
      [done | rewrite Hh1; by apply held_batch_disjoint |].
    left. cbn [exec_bind]. match goal with |- context [node_live k2 ?d'] => destruct (node_live k2 d') eqn:Hn2 end; [| done].
    exfalso. apply bool_decide_eq_true in Hn2. apply bool_decide_eq_false in Hnode. cbn in Hn2.
    rewrite Hh2, Hh1, ledger_del_lookup, ledger_add_lookup in Hn2. by repeat case_decide.
Qed.

(** What a call comes to: nothing new, one more buffer, or a name read from a node
    that is gone. *)
Definition call_leaves p fw fw' F B T : Prop :=
  (still_live fw fw' F B T /\ f_fds fw' = f_fds fw) \/
  exists fd h, f_fds fw' = <[fd := FdKbuf h p]> (f_fds fw) /\ B !! h = None /\ still_live fw fw' F (<[h := p]> B) T.

Definition call_ends p (m : prog (fworld U K) Z) fw F B T : Prop :=
  (exists r fw', m fw = Done (r, fw') /\ call_leaves p fw fw' F B T) \/
  (m fw = Oops UseAfterFree /\ p ∉ c_list (f_c fw) ++ T).

(** The slots are in the ledger. *)
Lemma dev_owns p d (k : K) : dyn_shape d -> holds (dev_res false p d) (k_held k) -> owns k d.
Proof.
  intros Hsh Hh. destruct (ds_slots d Hsh) as (sa & Es & _). exists sa. split; [done |]. apply holds_batch.
  unfold dev_res in Hh. cbn [node_res app] in Hh. apply holds_app in Hh as [_ Hh]. apply holds_app in Hh as [Hh _].
  unfold slots_res in Hh. by rewrite Es in Hh.
Qed.

Lemma resize_live p arg fw F B T : callable p fw F B T -> call_ends p (on_dev p (kbuf_ioc_resize arg)) fw F B T.
Proof.
  intros [Hl Hr _]. destruct (linv_dev _ _ _ _ p Hl Hr) as (d & E & Hsh & Hok & _ & Hh & Hn).
  unfold call_ends, on_dev. rewrite E. set (iw := IWorld d _ _ _). pose proof (dev_owns p d _ Hsh Hh) as Ho.
  destruct (node_live (i_kern iw) d) eqn:Hnode.
  2: { destruct (resize_dead arg iw Hok Ho Hnode) as [-> | (r & iw' & -> & Hd & Hk & Hi)]; cbn [exec_bind].
       - right. split; [done |]. intros Hin. apply bool_decide_eq_false in Hnode. by apply Hnode, Hn.
       - left. eexists _, _. split; [done |]. left. split; [| done].
         eapply (still_kept fw _ _ _ _ p d d); try done; [by apply kept_refl |]. cbn. by rewrite Hd. }
  left. assert (Hw : healthy iw) by (by split_and!).
  destruct (kbuf_ioc_resize_exits iw arg Hw) as (r & iw' & Hrun & He). rewrite Hrun. cbn [exec_bind].
  destruct (resize_rest arg iw r iw' Hw Hrun) as [Hi Hrest]. eexists _, _. split; [done |]. left. split; [| done].
  destruct He as [bs iw' _ (_ & _ & _ & _ & _ & _ & old & new & Es & Es' & Hf & Hk) _ [Hok' _] | r iw' _ (Hd & _ & Hk) _].
  - split; [by eapply (linv_resized (f_c fw) _ _ _ _ p d (i_dev iw') old new) |]. cbn. eapply narrows_put; [done |].
    unfold areas. by injection Hrest as -> -> _ _ _ _ _.
  - eapply (still_kept fw _ _ _ _ p d d); try done; [by apply kept_refl |]. cbn. by rewrite Hd.
Qed.

(** The export: a fresh buffer that refers to the device, or nothing. *)
Lemma ioc_export_live p arg fw F B T : callable p fw F B T -> call_ends p (kbuf_ioc_export p arg) fw F B T.
Proof.
  intros [Hl Hr _]. destruct (linv_dev _ _ _ _ p Hl Hr) as (d & E & [Hdyn _ _] & _ & Href & _ & Hnode).
  destruct (node_live (c_kern (f_c fw)) d) eqn:Hlive.
  2: { right. unfold kbuf_ioc_export. rewrite (export_dead p d _ E Hlive). split; [done |]. intros Hin.
       apply bool_decide_eq_false in Hlive. by apply Hlive, Hnode. }
  destruct (ioc_export_run p arg fw d E Hlive (fun _ => Href)) as (r & fw' & Hrun & Hcl & Hi & Hres).
  left. exists r, fw'. split; [done |]. destruct Hres as [(_ & fd & h & _ & _ & Hf & Hn & Hk & Hh & _) | (_ & _ & Hf & _ & Hh & Hk)].
  2: { left. split; [| done]. split; [by eapply linv_same | by rewrite Hh]. }
  right. exists fd, h. split; [done |]. destruct Hl as (Hnd & own & [Lr Lo Li]). cbn [l_w l_bufs] in *.
  assert (Hb : B !! h = None).
  { apply not_elem_of_dom. intros Hin. destruct (ow_buf _ _ _ _ _ _ Lo h) as [_ Hk']. rewrite (Hk' Hin) in Hn. done. }
  split; [done |]. split; [| rewrite Hh; eapply narrows_put; [done | unfold pinned; by rewrite Hdyn]].
  set (s := LSys (f_c fw) F B T) in *. destruct (ro_dev _ _ _ Lr p d E) as (_ & Hrd & _).
  assert (Hpin : pinned d = d <| ref := l_refs s p + 1 |>) by (unfold pinned; by rewrite Hdyn, Hrd).
  eapply (linv_refs base s _ (<[h := OBuf]> own) (set_refs (l_refs s) p (l_refs s p + 1)));
    cbn [l_w l_bufs l_files l_tearing]; try done.
  - rewrite dom_insert_L. split; rewrite Hh, ?Hpin, ?Hi, ?Hk.
    + by apply refs_set; [| | lia].
    + by apply owned_buf_add; [eapply owned_view; [apply same_view_ref |] |].
    + by eapply ids_view; [apply same_view_ref |].
  - intros q. cbn [s l_files l_bufs]. rewrite buf_refs_insert by done.
    destruct (decide (q = p)) as [-> | Hne]; [rewrite set_refs_eq | rewrite set_refs_ne by done]; lia.
Qed.

Lemma buf_refs_live w F B T h q : B !! h = Some q -> 0 < l_refs (LSys w F B T : lsys K) q.
Proof. intros Hb. pose proof (buf_refs_pos _ _ _ Hb). unfold l_refs, reg_ref. cbn. case_decide; lia. Qed.

Lemma ioc_import_live p arg fw F B T :
  callable p fw F B T ->
  exists r fw', kbuf_ioc_import arg fw = Done (r, fw') /\ still_live fw fw' F B T /\ f_fds fw' = f_fds fw.
Proof.
  intros [Hl _ Hfds]. unfold kbuf_ioc_import. destruct (get_user (f_user fw) arg) as [fd |]; [| by eexists _, _].
  destruct (f_fds fw !! fd) as [[h q | |] |] eqn:Hf; [| | by eexists _, _ ..].
  2: { destruct (import_run _ tt _ foreign_exporter (c_kern (f_c fw))) as (r & [] & k' & -> & Hk & Hi & _).
       cbn [exec_bind]. eexists _, _. split; [done |]. split; [| done]. split; [by eapply linv_same | done]. }
  destruct (linv_dev _ _ _ _ q Hl (buf_refs_live _ _ _ _ _ _ (Hfds _ _ _ Hf))) as (d & E & [_ _ (c & ring & M)] & Hok & _).
  rewrite E. destruct (import_run _ d _ (kbuf_exporter d c ring M) (c_kern (f_c fw))) as (r & d' & k' & -> & Hk & Hi & Hr).
  cbn [exec_bind].
  eexists _, _. split; [done |]. split; [| done].
  eapply (still_kept fw _ _ _ _ q d d'); try done.
  destruct Hr as [[_ ->] | [_ ->]]; [| by apply kept_refl]. apply (kept_data d _ ring c); [done | done |].
  apply length_echo. pose proof (mp_len _ _ _ M). unfold KBUF_MMAP_CAPACITY in *. lia.
Qed.

(** A call that always returns with nothing new. *)
Lemma call_same p (m : prog (fworld U K) Z) fw F B T :
  (exists r fw', m fw = Done (r, fw') /\ still_live fw fw' F B T /\ f_fds fw' = f_fds fw) -> call_ends p m fw F B T.
Proof. intros (r & fw' & Hrun & Hs). left. exists r, fw'. split; [done | by left]. Qed.

(** Only a resize and an export read the name. *)
Lemma ioctl_live p cmd arg fw F B T :
  callable p fw F B T -> call_ends p (kbuf_ioctl p cmd arg) fw F B T /\
    ((cmd =? KBUF_IOCRESIZE) || (cmd =? KBUF_IOCEXPORT) = false -> exists x, kbuf_ioctl p cmd arg fw = Done x).
Proof.
  intros Hc. unfold kbuf_ioctl.
  assert (Hs : forall m : prog (fworld U K) Z, (exists r fw', m fw = Done (r, fw') /\ still_live fw fw' F B T /\ f_fds fw' = f_fds fw) ->
             call_ends p m fw F B T /\ ((cmd =? KBUF_IOCRESIZE) || (cmd =? KBUF_IOCEXPORT) = false -> exists x, m fw = Done x))
    by (intros m Hm; split; [by apply call_same |]; destruct Hm as (r & fw' & -> & _); by eexists).
  assert (Hno : exists r fw', p_ret (- ENOTTY) fw = Done (r, fw') /\ still_live fw fw' F B T /\ f_fds fw' = f_fds fw)
    by (eexists _, _; split; [done |]; split; [split; [apply Hc | done] | done]).
  destruct (negb _); [by apply Hs |]. destruct ((IOC_NR cmd =? 0) || _); [by apply Hs |].
  destruct (cmd =? KBUF_IOCGSTATS); [by apply Hs, on_dev_live, Hc; apply getstats_tame |].
  destruct (cmd =? KBUF_IOCRESET); [by apply Hs, on_dev_live, Hc; apply reset_tame |].
  destruct (cmd =? KBUF_IOCRESIZE); [split; [by apply resize_live | done] |].
  destruct (cmd =? KBUF_IOCSMODE); [by apply Hs, on_dev_live, Hc; apply smode_tame |].
  destruct (cmd =? KBUF_IOCEXPORT); [split; [by apply ioc_export_live | done] |].
  destruct (cmd =? KBUF_IOCIMPORT); [by eapply Hs, ioc_import_live, Hc | by apply Hs].
Qed.

Lemma file_call_live p c fw F B T :
  callable p fw F B T -> fcall_ok c -> call_ends p (file_call p c) fw F B T.
Proof.
  intros Hc Hok. destruct c as [a n | a n | | cmd arg]; cbn [file_call fcall_ok] in *.
  - by apply call_same, rw_live.
  - by apply call_same, rw_live.
  - destruct (linv_dev _ _ _ _ p (cl_live _ _ _ _ _ Hc) (cl_ref _ _ _ _ _ Hc)) as (d & E & _ & Hd & _).
    destruct (on_ring_live p (fun rw => Done (kbuf_poll (w_dev rw), rw)) fw F B T d _ _ Hc E eq_refl) as (fw' & ? & ?);
      [by apply kept_refl |]. left. eexists _, fw'. split; [done | by left].
  - by apply ioctl_live.
Qed.

(** The calls that read it. *)
Lemma file_call_named p c fw F B T :
  callable p fw F B T -> fcall_ok c -> file_call p c fw = Oops UseAfterFree ->
  exists cmd arg, c = FIoctl cmd arg /\ (cmd =? KBUF_IOCRESIZE) || (cmd =? KBUF_IOCEXPORT) = true.
Proof.
  intros Hc Hok. destruct c as [a n | a n | | cmd arg]; cbn [file_call fcall_ok] in *.
  - intros Hx. destruct (rw_live p (RRead a n) fw F B T Hc Hok) as (r & fw' & Hr & _). by pose proof (eq_trans (eq_sym Hx) Hr).
  - intros Hx. destruct (rw_live p (RWrite a n) fw F B T Hc Hok) as (r & fw' & Hr & _). by pose proof (eq_trans (eq_sym Hx) Hr).
  - destruct (linv_dev _ _ _ _ p (cl_live _ _ _ _ _ Hc) (cl_ref _ _ _ _ _ Hc)) as (d & E & _ & Hd & _).
    destruct (on_ring_live p (fun rw => Done (kbuf_poll (w_dev rw), rw)) fw F B T d _ _ Hc E eq_refl) as (fw' & -> & _);
      [by apply kept_refl | done].
  - intros Hrun. exists cmd, arg. split; [done |]. destruct (ioctl_live p cmd arg fw F B T Hc) as [_ Hn].
    destruct (_ || _); [done |]. destruct (Hn eq_refl) as [x Hx]. by rewrite Hrun in Hx.
Qed.
End calls.

(** ** The operations of Ctl.v leave the areas of the other devices *)
Section narrowing.
Context {K : Type} {kk : Kernel K}.

(** [x]: the device being taken apart. *)
Definition narrowing {A} (x : option Z) (m : prog (cworld K) A) : Prop := forall w a w',
  m w = Done (a, w') -> forall q e', x <> Some q -> c_heap w' !! q = Some e' ->
  exists e, c_heap w !! q = Some e /\ areas e' = areas e.

Lemma narrowing_narrows {A} (m : prog (cworld K) A) w a w' :
  narrowing None m -> m w = Done (a, w') -> narrows (c_heap w) (c_heap w').
Proof. intros Hm Hrun q e' E. by apply (Hm w a w' Hrun). Qed.

Lemma narrowing_bind {A B} x (m : prog (cworld K) A) (k : A -> prog (cworld K) B) :
  narrowing x m -> (forall a, narrowing x (k a)) -> narrowing x (p_bind m k).
Proof.
  intros Hm Hk w b w' Hrun q e' Hx E. apply exec_bind_inv in Hrun as ([a w1] & H1 & H2).
  destruct (Hk a _ _ _ H2 q e' Hx E) as (e1 & E1 & A1). destruct (Hm _ _ _ H1 q e1 Hx E1) as (e & ? & ?).
  exists e. split; [done | congruence].
Qed.

(** Steps that do not touch the heap. *)
Lemma narrowing_same {A} x (m : prog (cworld K) A) :
  (forall w a w', m w = Done (a, w') -> c_heap w' = c_heap w) -> narrowing x m.
Proof. intros Hm w a w' Hrun q e' _ E. exists e'. by rewrite <- (Hm w a w' Hrun). Qed.

Lemma narrowing_ret {A} x (a : A) : narrowing x (p_ret a : prog (cworld K) A).
Proof. apply narrowing_same. by intros w a' w' [= _ <-]. Qed.

Lemma narrowing_get x : narrowing x (p_get : prog (cworld K) (cworld K)).
Proof. apply narrowing_same. by intros w a w' [= _ <-]. Qed.

Lemma narrowing_get_dev x p : narrowing x (get_dev p : prog (cworld K) kbuf_dev).
Proof.
  apply narrowing_same. intros w a w'. unfold get_dev, p_bind, p_get. cbn [exec_bind].
  destruct (c_heap w !! p); [by intros [= _ <-] | done].
Qed.

Lemma narrowing_kern {A} x (f : K -> A * K) : narrowing x (kern f).
Proof. apply narrowing_same. intros w a w'. unfold kern. destruct (f _). by intros [= _ <-]. Qed.

Lemma narrowing_release x rk p : narrowing x (release rk p : prog (cworld K) unit).
Proof. apply narrowing_same. by intros w a w' [= _ <-]. Qed.

Lemma narrowing_ida x off : narrowing x (ida_release off : prog (cworld K) unit).
Proof. apply narrowing_same. by intros w a w' [= _ <-]. Qed.

Lemma narrowing_list x (f : cworld K -> list Z) : narrowing x (p_modify (fun w => w <| c_list := f w |>)).
Proof. apply narrowing_same. by intros w a w' [= _ <-]. Qed.

Lemma narrowing_free_slots x d : narrowing x (free_slots_of d : prog (cworld K) unit).
Proof.
  apply narrowing_same. intros w a w'. unfold free_slots_of, p_bind, p_get. cbn [exec_bind].
  destruct (kbuf_free_slots _ _ _); [by intros [= _ <-] | done].
Qed.

Lemma narrowing_names x (f : cworld K -> gmap Z Z) : narrowing x (p_modify (fun w => w <| c_names := f w |>)).
Proof. apply narrowing_same. by intros w a w' [= _ <-]. Qed.

Lemma narrowing_name x p : narrowing x (dev_name p : prog (cworld K) Z).
Proof.
  unfold dev_name. apply narrowing_bind; [apply narrowing_get_dev |]. intros d.
  apply narrowing_bind; [apply narrowing_get |]. intros w0. apply narrowing_same.
  intros w a w'. by destruct (node_live _ _); [intros [= _ <-] |].
Qed.

(** A device written back with its areas, or the one being taken apart. *)
Lemma narrowing_upd x p f : (forall d, areas (f d) = areas d) -> narrowing x (upd_dev p f : prog (cworld K) unit).
Proof.
  intros Hf w a w' Hrun q e' _ E. unfold upd_dev, get_dev, put_dev, p_bind, p_get, p_modify in Hrun. cbn [exec_bind] in Hrun.
  destruct (c_heap w !! p) as [d |] eqn:Ed; [| done]. injection Hrun as _ <-. cbn in E.
  apply lookup_insert_Some in E as [[<- <-] | [_ E]]; [by exists d | by exists e'].
Qed.

Lemma narrowing_put p d : narrowing (Some p) (put_dev p d : prog (cworld K) unit).
Proof.
  intros w a w' [= _ <-] q e' Hx E. cbn in E. apply lookup_insert_Some in E as [[<- _] | [_ E]]; [done | by exists e'].
Qed.

Lemma narrowing_kfree x p : narrowing x (kfree_dev p : prog (cworld K) unit).
Proof.
  intros w a w' [= _ <-] q e' _ E. cbn in E. apply lookup_delete_Some in E as [_ E]. by exists e'.
Qed.

#[local] Create HintDb narrowing.
#[local] Hint Resolve narrowing_ret narrowing_get narrowing_get_dev narrowing_kern narrowing_release narrowing_ida
  narrowing_list narrowing_names narrowing_free_slots narrowing_name narrowing_put narrowing_kfree : narrowing.

Ltac narrow := repeat first [ solve [eauto with narrowing] | apply narrowing_bind; [| intros ?] ].

(** The last reference: everything but the device itself stays, and it goes. *)
Lemma narrowing_dev_release p : narrowing None (kbuf_dev_release p : prog (cworld K) unit).
Proof.
  assert (Hbut : narrowing (Some p) (kbuf_dev_release p : prog (cworld K) unit))
    by (unfold kbuf_dev_release, mmap_free_of; narrow).
  intros w a w' Hrun q e' _ E. apply (Hbut w a w' Hrun); [| done]. intros [= <-].
  unfold kbuf_dev_release in Hrun. do 4 apply exec_bind_inv in Hrun as ([? ?] & _ & Hrun).
  injection Hrun as _ <-. cbn in E. by rewrite lookup_delete_eq in E.
Qed.

Lemma narrowing_kref_get p : narrowing None (kref_get p : prog (cworld K) unit).
Proof. by apply narrowing_upd. Qed.

Lemma narrowing_kref_put p : narrowing None (kref_put p : prog (cworld K) unit).
Proof.
  unfold kref_put. apply narrowing_bind; [by apply narrowing_upd | intros _]. apply narrowing_bind; [narrow |].
  intros d. destruct (ref d =? 0); [apply narrowing_dev_release | narrow].
Qed.

Lemma narrowing_find ps off : narrowing None (dyn_find ps off : prog (cworld K) (option Z)).
Proof.
  induction ps as [| p ps IH]; cbn [dyn_find]; [narrow |]. apply narrowing_bind; [narrow |]. intros d.
  destruct (_ =? _); [narrow | done].
Qed.

#[local] Hint Resolve narrowing_kref_get narrowing_kref_put narrowing_find : narrowing.

Lemma narrowing_unlink id : narrowing None (dyn_unlink id : prog (cworld K) (option Z)).
Proof. unfold dyn_unlink. narrow. destruct a0 as [p |]; narrow. Qed.

Lemma narrowing_teardown p : narrowing None (kbuf_dyn_teardown p : prog (cworld K) unit).
Proof. unfold kbuf_dyn_teardown. narrow. Qed.

#[local] Hint Resolve narrowing_unlink narrowing_teardown : narrowing.

Lemma narrowing_destroy id : narrowing None (kbuf_dyn_destroy id : prog (cworld K) Z).
Proof. unfold kbuf_dyn_destroy. narrow. destruct a as [p |]; narrow. Qed.

Lemma narrowing_open n minor : narrowing None (kbuf_open n minor : prog (cworld K) (filp + Z)).
Proof.
  unfold kbuf_open, kbuf_dyn_get. destruct (minor <? n); narrow; destruct a as [p |] || destruct a0 as [p |]; narrow.
Qed.

Lemma narrowing_close f : narrowing None (kbuf_release f : prog (cworld K) Z).
Proof. destruct f as [i | p]; cbn [kbuf_release]; narrow. destruct (dynamic _); narrow. Qed.

Lemma narrowing_buf_put h p : narrowing None (dma_buf_put h p : prog (cworld K) unit).
Proof. unfold dma_buf_put, kbuf_dmabuf_release. narrow. destruct (dynamic _); narrow. Qed.
End narrowing.
