(* ===== verification/DriverInv.v ===== *)
(** * DriverInv: every operation of the driver keeps its invariant

    The tables of files, dma-bufs, descriptors and mappings agree with the
    references the devices count, operation by operation; and a device keeps the
    areas it shares with user space as long as it exists. *)

From stdpp Require Import gmultiset.
From S2P Require Import Prelude Kernel Uapi Device Alloc Ring RingFacts RingSpec Mmap Ctl CtlFacts Lifetime LifetimeProps.
From S2P Require Import DmaBuf RingProps Ioctl Dispatch IoctlProps MmapProps DispatchProps FileOps FileProps Driver DriverFacts.
#[local] Open Scope Z_scope.

Lemma filter_absent (p : Z) (l : list Z) : p ∉ l -> base.filter (fun q => q <> p) l = l.
Proof.
  induction l as [| q l IH]; intros Hn; [done |]. apply not_elem_of_cons in Hn as [Hne Hn].
  rewrite filter_cons_True by done. by rewrite IH.
Qed.

(** ** The open files by device *)
Definition files_of (m : gmap Z Z) : gmultiset Z := list_to_set_disj (map_to_list m).*2.

Lemma files_of_insert m i p : m !! i = None -> files_of (<[i := p]> m) = {[+ p +]} ⊎ files_of m.
Proof. intros E. unfold files_of. by rewrite (map_to_list_insert m i p E). Qed.

Lemma files_of_delete m i p : m !! i = Some p -> files_of m = {[+ p +]} ⊎ files_of (delete i m).
Proof.
  intros E. rewrite <- (files_of_insert (delete i m) i p) by apply lookup_delete_eq. by rewrite insert_delete_id.
Qed.

Lemma files_of_in m i p : m !! i = Some p -> p ∈ files_of m.
Proof. intros E. rewrite (files_of_delete m i p E). multiset_solver. Qed.

Section driver.
Context {U K : Type} {ua : UAccess U} {ual : UAccessLaws U} {kk : Kernel K} {kl : KernelLaws K}.
Context {ie : IocEncoding} {il : IocLaws} {ps : Paging} {pl : PagingLaws}.
Context (base_devno ndevices : Z) (dev_index : Z -> Z) (base : gmap Z rkind).
Implicit Types (s : dsys U K).

Abbreviation lrun := (lrun base_devno ndevices dev_index).
Abbreviation drun := (drun base_devno ndevices dev_index).
Abbreviation druns := (druns base_devno ndevices dev_index).

(** The state as LifetimeProps.v sees it. *)
Definition lsys_of s : lsys K := LSys (s_c s) (files_of (s_files s)) (s_bufs s) (s_tearing s).

(** The file exists; one of another driver does as long as it is referred to. *)
Definition held_obj (f : fobj) s : Prop :=
  match f with
  | FoFile i => is_Some (s_files s !! i)
  | FoBuf h => is_Some (s_bufs s !! h)
  | FoForeign => referenced FoForeign s
  end.

(** [x]: a file whose last reference may just have been taken away. *)
Record dinv_but (x : option fobj) s : Prop := {
  di_live : linv base (lsys_of s);
  di_fd fd f : s_fds s !! fd = Some f -> held_obj f s;
  di_vma v f a : s_vmas s !! v = Some (f, a) -> held_obj f s;
  di_priv v i a : s_vmas s !! v = Some (FoFile i, a) -> s_files s !! i = Some (vm_private_data a);
  di_ref f : held_obj f s -> x <> Some f -> referenced f s
}.

Abbreviation dinv := (dinv_but None).

Lemma dinv_file x s i p : dinv_but x s -> s_files s !! i = Some p -> 0 < l_refs (lsys_of s) p.
Proof.
  intros Hs Hf. destruct (refs_file base (lsys_of s) p (di_live _ _ Hs)) as [_ ?]; [| done].
  by eapply files_of_in.
Qed.

(** ** Dropping a reference *)
Lemma release_linv s i p :
  linv base (lsys_of s) -> s_files s !! i = Some p ->
  (exists r c, kbuf_release (DynDev p) (s_c s) = Done (r, c) /\
    linv base (LSys c (files_of (delete i (s_files s))) (s_bufs s) (s_tearing s))) \/
  (kbuf_release (DynDev p) (s_c s) = Oops UseAfterFree /\ destroyed p s).
Proof.
  intros Hl Hf. destruct (lclose_inv base_devno ndevices dev_index base (lsys_of s) p Hl) as [(s1 & Hrun & Hl1) | [Hrun Hn]];
    cbn [LifetimeProps.lrun lsys_of l_files l_w] in Hrun; rewrite decide_True in Hrun by (by eapply files_of_in).
  2: { right. split; [by destruct (kbuf_release _ _) as [[] |]; simplify_eq/= |]. intros Hin. by apply Hn, l_regs_in. }
  left. apply exec_bind_inv in Hrun as ([r c] & Hrun & [= <-]). exists r, c. split; [done |].
  cbn [l_bufs l_tearing] in Hl1. rewrite (files_of_delete _ i p Hf) in Hl1.
  by replace (({[+ p +]} ⊎ files_of (delete i (s_files s))) ∖ {[+ p +]})
    with (files_of (delete i (s_files s))) in Hl1 by multiset_solver.
Qed.

Lemma buf_put_linv s h p :
  linv base (lsys_of s) -> s_bufs s !! h = Some p ->
  exists r c, dma_buf_put h p (s_c s) = Done (r, c) /\
    linv base (LSys c (files_of (s_files s)) (delete h (s_bufs s)) (s_tearing s)).
Proof.
  intros Hl Hb. destruct (lput_inv base_devno ndevices dev_index base (lsys_of s) h Hl) as (s1 & Hrun & Hl1).
  cbn [LifetimeProps.lrun lsys_of l_bufs l_w] in Hrun. rewrite Hb in Hrun.
  apply exec_bind_inv in Hrun as ([r c] & Hrun & [= <-]). by exists r, c.
Qed.

Lemma unreferenced f s :
  ~ referenced f s -> (forall fd, s_fds s !! fd <> Some f) /\ (forall v a, s_vmas s !! v <> Some (f, a)).
Proof.
  intros Hn. split.
  - intros fd E. apply Hn. left. by exists fd, f.
  - intros v a E. apply Hn. right. by exists v, (f, a).
Qed.

(** A file nobody refers to leaves the tables. *)
Lemma dinv_forget f s s' :
  dinv_but (Some f) s -> ~ referenced f s -> s_fds s' = s_fds s -> s_vmas s' = s_vmas s -> linv base (lsys_of s') ->
  (forall g, held_obj g s' <-> held_obj g s /\ g <> f) ->
  (forall i, FoFile i <> f -> s_files s' !! i = s_files s !! i) -> dinv s'.
Proof.
  intros [Hl Hfd Hvma Hpriv Href] [Hnfd Hnvma]%unreferenced Efd Evma Hl' Hob Hfiles. split.
  - exact Hl'.
  - intros fd g. rewrite Efd. intros E. apply Hob. split; [by eapply Hfd |]. intros ->. by apply (Hnfd fd).
  - intros v g a. rewrite Evma. intros E. apply Hob. split; [by eapply Hvma |]. intros ->. by apply (Hnvma v a).
  - intros v i a. rewrite Evma. intros E. rewrite Hfiles; [by apply (Hpriv v) |]. intros <-. by apply (Hnvma v a).
  - intros g [Hg Hne]%Hob _. unfold referenced. rewrite Efd, Evma. apply Href; [done | congruence].
Qed.

(** The reference is dropped, or it was the last to a file whose device is
    destroyed. *)
Lemma fput_inv f s :
  dinv_but (Some f) s -> f = FoForeign \/ held_obj f s ->
  (exists s', fput f s = Done s' /\ dinv s') \/
  (fput f s = Oops UseAfterFree /\ exists p, drops f s = Some p /\ destroyed p s).
Proof.
  intros Hs Hf. unfold fput, drops. destruct (decide (referenced f s)) as [Hr | Hn].
  { left. exists s. split; [done |]. destruct Hs as [Hl Hfd Hvma Hpriv Href]. split; try done.
    intros g Hg _. destruct (decide (g = f)) as [-> |]; [done |]. apply Href; [done | congruence]. }
  pose proof (di_live _ _ Hs) as Hl. destruct f as [i | h |].
  - destruct Hf as [? | [p Hp]]; [done |]. rewrite Hp.
    destruct (release_linv s i p Hl Hp) as [(r & c & -> & Hl') | [-> Hd]]; [left | right; eauto].
    eexists. split; [done |]. apply (dinv_forget (FoFile i) s); try done.
    + intros [j | h |]; cbn; [| naive_solver ..]. destruct (decide (j = i)) as [-> | Hne].
      * rewrite lookup_delete_eq. split; [by intros [] | naive_solver].
      * rewrite lookup_delete_ne by done. naive_solver.
    + intros j Hne. cbn. by rewrite lookup_delete_ne by congruence.
  - left. destruct Hf as [? | [p Hp]]; [done |]. rewrite Hp.
    destruct (buf_put_linv s h p Hl Hp) as (r & c & -> & Hl'). eexists. split; [done |].
    apply (dinv_forget (FoBuf h) s); try done.
    intros [j | g |]; cbn; [naive_solver | | naive_solver]. destruct (decide (g = h)) as [-> | Hne].
    + rewrite lookup_delete_eq. split; [by intros [] | naive_solver].
    + rewrite lookup_delete_ne by done. naive_solver.
  - left. exists s. split; [done |]. destruct Hs as [_ Hfd Hvma Hpriv Href]. split; try done.
    intros g Hg _. destruct (decide (g = FoForeign)) as [-> |]; [done |]. apply Href; [done | congruence].
Qed.

(** ** The operations, one by one *)

(** Only the devices moved. *)
Lemma dinv_world s s' :
  dinv s -> s_files s' = s_files s -> s_bufs s' = s_bufs s -> s_fds s' = s_fds s -> s_vmas s' = s_vmas s ->
  linv base (lsys_of s') -> dinv s'.
Proof.
  intros [_ Hfd Hvma Hpriv Href] E1 E2 E3 E4 Hl.
  assert (Hob : forall f, held_obj f s' <-> held_obj f s)
    by (intros []; cbn; unfold referenced; by rewrite ?E1, ?E2, ?E3, ?E4).
  split; [done | | | |].
  - intros fd f. rewrite E3, Hob. apply Hfd.
  - intros v f a. rewrite E4, Hob. apply Hvma.
  - intros v i a. rewrite E4, E1. apply Hpriv.
  - intros f. rewrite Hob. unfold referenced. rewrite E3, E4. apply Href.
Qed.

Lemma destroy_linv id c F B T :
  linv base (LSys c F B T) ->
  exists r c', kbuf_dyn_destroy id c = Done (r, c') /\ linv base (LSys c' F B T).
Proof.
  intros Hl. destruct (lunlink_inv base_devno ndevices dev_index base _ id Hl) as (s1 & Hu & Hl1).
  cbn [LifetimeProps.lrun l_w l_files l_bufs l_tearing] in Hu. apply exec_bind_inv in Hu as ([found c1] & Hu & [= <-]).
  unfold kbuf_dyn_destroy. rewrite (run_bind _ _ _ _ _ Hu). destruct found as [p |]; [| by eexists _, _].
  destruct (lteardown_inv base_devno ndevices dev_index base _ p Hl1) as (s2 & Ht & Hl2).
  cbn [LifetimeProps.lrun l_w l_files l_bufs l_tearing] in Ht. rewrite decide_True in Ht by (by left).
  apply exec_bind_inv in Ht as ([[] c2] & Ht & [= <-]). rewrite (run_bind _ _ _ _ _ Ht). eexists _, _. split; [done |].
  destruct Hl1 as (Hnd & _). cbn [l_w l_tearing] in Hnd. apply NoDup_app in Hnd as (_ & _ & Hnd).
  apply NoDup_cons in Hnd as [Hp _]. rewrite filter_cons_False in Hl2 by naive_solver.
  by rewrite filter_absent in Hl2.
Qed.

Lemma ctl_linv cmd arg u c F B T :
  linv base (LSys c F B T) ->
  exists r u' c', kbuf_ctl_ioctl base_devno ndevices dev_index cmd arg u c = Done ((r, u'), c') /\ linv base (LSys c' F B T).
Proof.
  intros Hl. unfold kbuf_ctl_ioctl. destruct (cmd =? KBUF_CTL_CREATE); [| destruct (cmd =? KBUF_CTL_DESTROY)].
  - destruct (lcreate_inv base_devno ndevices dev_index base _ Hl) as (s1 & Hc & Hl1).
    cbn [LifetimeProps.lrun l_w l_files l_bufs l_tearing] in Hc. apply exec_bind_inv in Hc as ([r c1] & Hc & [= <-]).
    rewrite (run_bind _ _ _ _ _ Hc). destruct (negb _); [by eexists _, _, _ |].
    destruct (put_user u arg r.2) as [u' |]; [by eexists _, _, _ |].
    destruct (destroy_linv r.2 c1 F B T Hl1) as (r2 & c2 & Hd & Hl2). rewrite (run_bind _ _ _ _ _ Hd). by eexists _, _, _.
  - destruct (get_user u arg) as [id |]; [| by eexists _, _, _].
    destruct (destroy_linv id c F B T Hl) as (r & c' & Hd & Hl'). rewrite (run_bind _ _ _ _ _ Hd). by eexists _, _, _.
  - by eexists _, _, _.
Qed.

Definition goes_on (o : dop) s : Prop := exists r s', drun o s = Done (r, s') /\ dinv s'.

(** The operation reads the name of a device that is destroyed. *)
Definition stops (o : dop) s : Prop :=
  exists p, names o s = Some p /\ destroyed p s /\ drun o s = Oops UseAfterFree.

Lemma dctl_inv cmd arg s : dinv s -> goes_on (DCtl cmd arg) s.
Proof.
  intros Hs. unfold goes_on. cbn [Driver.drun]. destruct (ctl_linv cmd arg (s_user s) (s_c s) _ _ _ (di_live _ _ Hs)) as (r & u' & c' & -> & Hl).
  eexists _, _. split; [done |]. by eapply (dinv_world s).
Qed.

Lemma dunlink_inv id s : dinv s -> goes_on (DUnlink id) s.
Proof.
  intros Hs. destruct (lunlink_inv base_devno ndevices dev_index base _ id (di_live _ _ Hs)) as (s1 & Hu & Hl1).
  unfold goes_on. cbn [LifetimeProps.lrun Driver.drun l_w lsys_of] in *. apply exec_bind_inv in Hu as ([found c1] & -> & [= <-]).
  eexists _, _. split; [done |]. by eapply (dinv_world s).
Qed.

Lemma dteardown_inv p s : dinv s -> goes_on (DTeardown p) s.
Proof.
  intros Hs. destruct (lteardown_inv base_devno ndevices dev_index base _ p (di_live _ _ Hs)) as (s1 & Hu & Hl1).
  unfold goes_on. cbn [LifetimeProps.lrun Driver.drun l_w lsys_of l_tearing] in *.
  destruct (decide (p ∈ s_tearing s)); [| by eexists _, _].
  apply exec_bind_inv in Hu as ([u c1] & -> & [= <-]). eexists _, _. split; [done |]. by eapply (dinv_world s).
Qed.

(** The tables grew. *)
Lemma dinv_grow s s' :
  dinv s -> linv base (lsys_of s') ->
  s_files s ⊆ s_files s' -> s_bufs s ⊆ s_bufs s' -> s_fds s ⊆ s_fds s' -> s_vmas s ⊆ s_vmas s' ->
  (forall fd f, s_fds s' !! fd = Some f -> s_fds s !! fd = None -> held_obj f s') ->
  (forall v f a, s_vmas s' !! v = Some (f, a) -> s_vmas s !! v = None ->
     held_obj f s' /\ forall i, f = FoFile i -> s_files s' !! i = Some (vm_private_data a)) ->
  (forall f, held_obj f s' -> held_obj f s \/ referenced f s') -> dinv s'.
Proof.
  intros [_ Hfd Hvma Hpriv Href] Hl E1 E2 E3 E4 Nfd Nvma Nref.
  assert (Hrf : forall f, referenced f s -> referenced f s').
  { intros f [(x & g & E & Hg) | (x & g & E & Hg)]; [left | right]; exists x, g; (split; [by eapply lookup_weaken | done]). }
  assert (Hob : forall f, held_obj f s -> held_obj f s').
  { intros [i | h |]; [intros [p Hp]; exists p; by eapply lookup_weaken .. | apply Hrf]. }
  split; [done | | | |].
  - intros fd f E. destruct (s_fds s !! fd) as [g |] eqn:Eg; [| by eapply Nfd].
    pose proof (lookup_weaken _ _ _ _ Eg E3) as E'. simplify_eq. by eapply Hob, Hfd.
  - intros v f a E. destruct (s_vmas s !! v) as [g |] eqn:Eg; [| by eapply Nvma].
    pose proof (lookup_weaken _ _ _ _ Eg E4) as E'. simplify_eq. by eapply Hob, Hvma.
  - intros v i a E. destruct (s_vmas s !! v) as [g |] eqn:Eg; [| by eapply Nvma].
    pose proof (lookup_weaken _ _ _ _ Eg E4) as E'. simplify_eq. by eapply lookup_weaken; [eapply Hpriv |].
  - intros f Hf _. destruct (Nref f Hf) as [Hf' |]; [| done]. apply Hrf. by apply Href.
Qed.

Lemma dopen_inv minor fd i s : dinv s -> goes_on (DOpen minor fd i) s.
Proof.
  intros Hs. destruct (lopen_inv base_devno ndevices dev_index base _ minor (di_live _ _ Hs)) as (s1 & Hu & Hl1).
  unfold goes_on. cbn [LifetimeProps.lrun Driver.drun l_w lsys_of l_files l_bufs l_tearing] in *.
  destruct (s_fds s !! fd) eqn:Efd; [by eexists _, _ |]. destruct (s_files s !! i) eqn:Ei; [by eexists _, _ |].
  apply exec_bind_inv in Hu as ([[[j | p] | e] c] & -> & [= <-]); cbn [exec_bind]; (eexists _, _; split; [done |]).
  1, 3: by eapply (dinv_world s).
  apply (dinv_grow s); cbn; [done | | by apply insert_subseteq | done | by apply insert_subseteq | done | | naive_solver |].
  - unfold lsys_of. cbn. by rewrite files_of_insert.
  - intros x f [[<- <-] | [_ ?]]%lookup_insert_Some; [| naive_solver]. cbn. by rewrite lookup_insert_eq.
  - intros [j | h |]; cbn; [| by left | by right]. intros [q [[<- _] | [_ Hj]]%lookup_insert_Some]; [right | by left].
    left. exists fd, (FoFile i). cbn. by rewrite lookup_insert_eq.
Qed.

(** One more descriptor of a file that is there. *)
Lemma dinv_fd s fd f :
  dinv s -> s_fds s !! fd = None -> f = FoForeign \/ held_obj f s -> dinv (s <| s_fds := <[fd := f]> (s_fds s) |>).
Proof.
  intros Hs Ef Hf. assert (Hr : referenced f (s <| s_fds := <[fd := f]> (s_fds s) |>))
    by (left; exists fd, f; cbn; by rewrite lookup_insert_eq).
  apply (dinv_grow s); cbn; [done | apply Hs | done | done | by apply insert_subseteq | done | | naive_solver |].
  - intros x g [[<- <-] | [_ ?]]%lookup_insert_Some; [intros _ | naive_solver].
    destruct Hf as [-> | Hf]; [exact Hr |]. destruct f; [exact Hf | exact Hf | exact Hr].
  - intros [j | h |]; [by left | by left | by right].
Qed.

Lemma dforeign_inv fd s : dinv s -> goes_on (DForeign fd) s.
Proof.
  intros Hs. unfold goes_on. cbn [Driver.drun]. destruct (s_fds s !! fd) eqn:Ef; [by eexists _, _ |].
  eexists _, _. split; [done |]. apply dinv_fd; [done | done | by left].
Qed.

Lemma ddup_inv fd fd' s : dinv s -> goes_on (DDup fd fd') s.
Proof.
  intros Hs. unfold goes_on. cbn [Driver.drun]. destruct (s_fds s !! fd) as [f |] eqn:Ef; [| by eexists _, _].
  destruct (s_fds s !! fd') eqn:Ef'; [by eexists _, _ |]. eexists _, _. split; [done |].
  apply dinv_fd; [done | done |]. right. exact (di_fd _ _ Hs fd f Ef).
Qed.

(** One more mapping of a file that is there. *)
Lemma dinv_vma s v f a :
  dinv s -> s_vmas s !! v = None -> held_obj f s ->
  (forall i, f = FoFile i -> s_files s !! i = Some (vm_private_data a)) ->
  dinv (s <| s_vmas := <[v := (f, a)]> (s_vmas s) |>).
Proof.
  intros Hs Ev Hf Ha. assert (Hr : referenced f (s <| s_vmas := <[v := (f, a)]> (s_vmas s) |>))
    by (right; exists v, (f, a); cbn; by rewrite lookup_insert_eq).
  apply (dinv_grow s); cbn; [done | apply Hs | done | done | done | by apply insert_subseteq | naive_solver | |].
  - intros x g b [[<- [= <- <-]] | [_ ?]]%lookup_insert_Some; [intros _ | naive_solver].
    split; [| done]. destruct f; [exact Hf | exact Hf | exact Hr].
  - intros [j | h |]; [by left | by left | by right].
Qed.

Lemma dmmap_inv fd v a s : dinv s -> goes_on (DMmap fd v a) s.
Proof.
  intros Hs. unfold goes_on. cbn [Driver.drun]. destruct (s_fds s !! fd) as [f |] eqn:Ef; [| by eexists _, _].
  destruct (s_vmas s !! v) eqn:Ev; [by eexists _, _ |]. pose proof (di_fd _ _ Hs fd f Ef) as Hf.
  pose proof (fun a' => dinv_vma s v f a' Hs Ev Hf) as Hadd.
  unfold do_mmap. destruct f as [i | h |]; [destruct Hf as [p Hp]; rewrite Hp .. | by eexists _, _].
  - destruct (kbuf_mmap p a) as [r a'] eqn:Em. eexists _, _. split; [done |].
    destruct (Z.eqb_spec r 0) as [-> |]; [| done]. apply Hadd. intros j [= <-]. rewrite Hp.
    unfold kbuf_mmap in Em. repeat case_match; by simplify_eq.
  - destruct (linv_dev _ _ _ _ _ p (di_live _ _ Hs) (buf_refs_live _ _ _ _ _ _ Hp)) as (d & -> & _).
    eexists _, _. split; [done |]. destruct (_ =? 0); [| done]. by apply Hadd.
Qed.

Lemma dcopy_inv v v' s : dinv s -> goes_on (DCopyVma v v') s.
Proof.
  intros Hs. unfold goes_on. cbn [Driver.drun]. destruct (s_vmas s !! v) as [[f a] |] eqn:Ef; [| by eexists _, _].
  destruct (s_vmas s !! v') eqn:Ef'; [by eexists _, _ |]. eexists _, _. split; [done |].
  apply dinv_vma; [done | done | exact (di_vma _ _ Hs v f a Ef) |]. intros i ->. exact (di_priv _ _ Hs v i a Ef).
Qed.

(** A reference taken out of the tables, before [fput]. *)
Lemma dinv_unref f s s' :
  dinv s -> s_c s' = s_c s -> s_files s' = s_files s -> s_bufs s' = s_bufs s -> s_tearing s' = s_tearing s ->
  s_fds s' ⊆ s_fds s -> s_vmas s' ⊆ s_vmas s ->
  (forall fd g, s_fds s !! fd = Some g -> g <> f -> s_fds s' !! fd = Some g) ->
  (forall v g a, s_vmas s !! v = Some (g, a) -> g <> f -> s_vmas s' !! v = Some (g, a)) ->
  dinv_but (Some f) s'.
Proof.
  intros [Hl Hfd Hvma Hpriv Href] E1 E2 E3 E4 Sfd Svma Kfd Kvma.
  assert (Hob : forall g, held_obj g s -> referenced g s' -> held_obj g s')
    by (intros []; cbn; rewrite ?E2, ?E3; done).
  split.
  - unfold lsys_of in *. by rewrite E1, E2, E3, E4.
  - intros fd g E. apply Hob; [eapply Hfd; by eapply lookup_weaken | left; by exists fd, g].
  - intros v g a E. apply Hob; [eapply Hvma; by eapply lookup_weaken | right; by exists v, (g, a)].
  - intros v i a E. rewrite E2. eapply Hpriv. by eapply lookup_weaken.
  - intros g Hg Hne. destruct (decide (g = FoForeign)) as [-> | Hgf]; [exact Hg |].
    assert (Hg' : held_obj g s) by (destruct g; cbn in *; rewrite ?E2, ?E3 in Hg; done).
    destruct (Href g Hg' ltac:(done)) as [(x & g' & E & Hx) | (x & [g' b] & E & Hx)]; cbn in Hx; subst g'.
    + left. exists x, g. split; [apply Kfd; [done | congruence] | done].
    + right. exists x, (g, b). split; [apply Kvma; [done | congruence] | done].
Qed.

Lemma dclose_inv fd s : dinv s -> goes_on (DClose fd) s \/ stops (DClose fd) s.
Proof.
  intros Hs. unfold goes_on, stops. cbn [Driver.drun names]. destruct (s_fds s !! fd) as [f |] eqn:Ef; [| left; by eexists _, _].
  cbn [mbind option_bind].
  destruct (fput_inv f (s <| s_fds := delete fd (s_fds s) |>)) as [(s' & -> & Hs') | [-> (p & Hp & Hd)]].
  - apply (dinv_unref f s); try done; cbn; [apply delete_subseteq |].
    intros x g E Hne. rewrite lookup_delete_ne; [done | congruence].
  - pose proof (di_fd _ _ Hs fd f Ef). destruct f; eauto.
  - left. by eexists _, _.
  - right. exists p. by split_and!.
Qed.

Lemma dmunmap_inv v s : dinv s -> goes_on (DMunmap v) s \/ stops (DMunmap v) s.
Proof.
  intros Hs. unfold goes_on, stops. cbn [Driver.drun names]. destruct (s_vmas s !! v) as [[f a] |] eqn:Ef; [| left; by eexists _, _].
  cbn [mbind option_bind fst].
  destruct (fput_inv f (s <| s_vmas := delete v (s_vmas s) |>)) as [(s' & -> & Hs') | [-> (p & Hp & Hd)]].
  - apply (dinv_unref f s); try done; cbn; [apply delete_subseteq |].
    intros x g b E Hne. rewrite lookup_delete_ne; [done | congruence].
  - pose proof (di_vma _ _ Hs v f a Ef). destruct f; eauto.
  - left. by eexists _, _.
  - right. exists p. by split_and!.
Qed.

(** The device behind a mapping. *)
Lemma vma_dev_live v p s :
  dinv s -> vma_dev v s = Some p ->
  exists d, c_heap (s_c s) !! p = Some d /\ dyn_shape d /\ dev_ok d.
Proof.
  intros Hs. unfold vma_dev. destruct (s_vmas s !! v) as [[[i | h |] a] |] eqn:Ev; try done. intros [= <-].
  pose proof (dinv_file _ _ _ _ Hs (di_priv _ _ Hs v i a Ev)) as Hr.
  destruct (linv_dev _ _ _ _ _ _ (di_live _ _ Hs) Hr) as (d & E & Hsh & Hok & _). by exists d.
Qed.

Lemma on_vma_inv v s f :
  dinv s -> (forall p d, c_heap (s_c s) !! p = Some d -> dyn_shape d -> dev_ok d ->
    exists r d', f p d = Done (r, set_dev p d' s) /\ kept d d' \/ f p d = Done (r, s)) ->
  exists r s', on_vma v s f = Done (r, s') /\ dinv s'.
Proof.
  intros Hs Hf. unfold on_vma. destruct (vma_dev v s) as [p |] eqn:Ev; [| by eexists _, _].
  destruct (vma_dev_live v p s Hs Ev) as (d & E & Hsh & Hok). rewrite E.
  destruct (Hf p d E Hsh Hok) as (r & d' & [[-> Hk] | ->]); [| by eexists _, _].
  eexists _, _. split; [done |]. apply (dinv_world s); try done. by apply (linv_kept base (s_c s) _ _ _ _ p d d'); [apply Hs | ..].
Qed.

Lemma map_store_kept d d' off b :
  dyn_shape d -> dev_ok d -> map_store d off b = Some d' -> kept d d'.
Proof.
  intros [_ _ (c & buf & M)] Hok. unfold map_store. rewrite (mp_data _ _ _ M).
  intros (pi & _ & (i & _ & [= <-])%bind_Some)%bind_Some. apply (kept_data d _ buf c Hok M). apply length_insert.
Qed.

Lemma dvma_inv o s :
  match o with DFault _ _ | DStore _ _ _ | DPoke _ _ _ _ => True | _ => False end -> dinv s -> goes_on o s.
Proof.
  intros Ho Hs. unfold goes_on. destruct o as [| | | | | | | | | | | v pg | v off b | v h t n]; try done;
    cbn [Driver.drun]; apply on_vma_inv; try done; intros p d E Hsh Hok.
  - exists (RPage (kbuf_vm_fault d pg)), d. by right.
  - destruct (map_store d off b) as [d' |] eqn:Em; [| exists RNone, d; by right].
    exists RNone, d'. left. split; [done | by eapply map_store_kept].
  - destruct (ds_ring d Hsh) as (c & buf & M). rewrite (mp_ctrl _ _ _ M). eexists RNone, _. left. split; [done |].
    by eapply kept_ctrl.
Qed.

(** ** Calls *)
Lemma new_fd_same (m : gmap Z fdfile) : new_fd m m = None.
Proof.
  unfold new_fd. replace (filter _ m) with (∅ : gmap Z fdfile); [by rewrite map_to_list_empty |].
  symmetry. apply map_empty. intros i. apply map_lookup_filter_None. right. intros x E. cbn. by rewrite E.
Qed.

Lemma new_fd_insert (m : gmap Z fdfile) fd x : m !! fd = None -> new_fd m (<[fd := x]> m) = Some (fd, x).
Proof.
  intros E. unfold new_fd. replace (filter _ (<[fd := x]> m)) with ({[fd := x]} : gmap Z fdfile);
    [by rewrite map_to_list_singleton |]. symmetry. rewrite map_filter_insert_True by done.
  replace (filter _ m) with (∅ : gmap Z fdfile); [done |].
  symmetry. apply map_empty. intros i. apply map_lookup_filter_None. right. intros y Ey. cbn. by rewrite Ey.
Qed.

Lemma fd_view_buf s fd h p : fd_view s !! fd = Some (FdKbuf h p) -> s_fds s !! fd = Some (FoBuf h) /\ s_bufs s !! h = Some p.
Proof.
  unfold fd_view. intros ([i | g |] & E & Ef)%lookup_fmap_Some; [done | | done].
  destruct (s_bufs s !! g) eqn:Eg; by simplify_eq.
Qed.

Lemma callable_file s i p :
  dinv s -> s_files s !! i = Some p ->
  callable base p (file_world_of s) (files_of (s_files s)) (s_bufs s) (s_tearing s).
Proof.
  intros Hs Hi. split; [apply Hs | by eapply dinv_file |]. intros fd h q [_ Hb]%fd_view_buf. done.
Qed.

(** What is assumed of a call. *)
Lemma dcall_ok fd c s i p :
  dop_ok (DCall fd c) s = true -> s_fds s !! fd = Some (FoFile i) -> s_files s !! i = Some p ->
  fcall_ok c /\
  (forall r w x y, file_call p c (file_world_of s) = Done (r, w) -> fd_view s !! x = Some y -> f_fds w !! x = Some y).
Proof.
  cbn [dop_ok]. intros [Hn Hok]%andb_true_iff Hfd Hi. rewrite Hfd, Hi in Hok.
  split; [destruct c; cbn in *; lia |].
  intros r w x y Hrun Ex. rewrite Hrun in Hok. apply bool_decide_eq_true in Hok. by apply (Hok x y).
Qed.

Lemma dcall_inv fd c s :
  dinv s -> dop_ok (DCall fd c) s = true -> goes_on (DCall fd c) s \/ stops (DCall fd c) s.
Proof.
  intros Hs Hok. unfold goes_on, stops. cbn [Driver.drun]. unfold do_call.
  destruct (s_fds s !! fd) as [[i | h |] |] eqn:Efd; [| left; by eexists _, _ ..].
  destruct (di_fd _ _ Hs fd _ Efd) as [p Hp]. rewrite Hp. destruct (dcall_ok fd c s i p Hok Efd Hp) as (Hn & Hfresh).
  pose proof (callable_file s i p Hs Hp) as Hc.
  destruct (file_call_live base p c _ _ _ _ Hc Hn) as [(r & fw & Hrun & Hleft) | [Hrun Hd]].
  2: { right. exists p. destruct (file_call_named base p c _ _ _ _ Hc Hn Hrun) as (cmd & arg & -> & Hcmd).
       cbn [names]. rewrite Hcmd, Efd, Hrun. by split_and!. }
  left. rewrite Hrun. cbn [exec_bind]. eexists _, _. split; [done |]. destruct Hleft as [[[Hl _] Hf] | (x & h & Hf & Hb & Hl & _)].
  - rewrite Hf. unfold adopt. cbn. rewrite new_fd_same. by apply (dinv_world s).
  - assert (Ex : fd_view s !! x = None).
    { destruct (fd_view s !! x) as [y |] eqn:Ex; [exfalso | done]. specialize (Hfresh _ _ x y Hrun Ex).
      cbn [f_fds file_world_of] in Hf. rewrite Hf, lookup_insert_eq in Hfresh. injection Hfresh as <-.
      apply fd_view_buf in Ex as [_ Ex]. congruence. }
    cbn [f_fds file_world_of] in Hf. rewrite Hf. unfold adopt. rewrite new_fd_insert by done.
    unfold fd_view in Ex. rewrite lookup_fmap in Ex. apply fmap_None in Ex.
    apply (dinv_grow s); cbn; [done | exact Hl | done | by apply insert_subseteq | by apply insert_subseteq | done | | naive_solver |].
    + intros y g [[<- <-] | [_ ?]]%lookup_insert_Some; [intros _; cbn; by rewrite lookup_insert_eq | naive_solver].
    + intros [j | g |]; cbn; [by left | | by right]. intros [q [[<- _] | [_ Hj]]%lookup_insert_Some]; [right | by left].
      left. exists x, (FoBuf h). cbn. by rewrite lookup_insert_eq.
Qed.

Lemma drun_inv o s : dinv s -> dop_ok o s = true -> goes_on o s \/ stops o s.
Proof.
  intros Hs Ho. destruct o; auto using dclose_inv, dmunmap_inv, dcall_inv; left;
    auto using dctl_inv, dunlink_inv, dteardown_inv, dopen_inv, dforeign_inv, ddup_inv, dmmap_inv, dcopy_inv;
    by apply dvma_inv.
Qed.

Lemma druns_inv os s rs s' :
  dinv s -> dops_ok base_devno ndevices dev_index os s = true -> druns os s = Done (rs, s') -> dinv s'.
Proof.
  revert s rs. induction os as [| o os IH]; intros s rs Hs Ho; cbn [Driver.druns]; [by intros [= _ <-] |].
  cbn [dops_ok] in Ho. apply andb_true_iff in Ho as [Ho Hrest].
  intros ([r s1] & Hr & ([rs2 s2] & Hrs & [= _ <-])%exec_bind_inv)%exec_bind_inv.
  destruct (drun_inv o s Hs Ho) as [(r0 & s0 & Hr0 & Hs0) | (p & _ & _ & Hr0)]; rewrite Hr in Hr0; [| done].
  injection Hr0 as <- <-. rewrite Hr in Hrest. by apply (IH s1 rs2 Hs0).
Qed.

(** A sequence goes through, or it goes up to an operation that reads the name of a
    destroyed device. *)
Definition halts (os : list dop) s : Prop :=
  exists os1 o os2 rs s1, os = os1 ++ o :: os2 /\ druns os1 s = Done (rs, s1) /\ dinv s1 /\ stops o s1.

Lemma halts_cons o os s r s1 : drun o s = Done (r, s1) -> halts os s1 -> halts (o :: os) s.
Proof.
  intros Hr (os1 & o1 & os2 & rs & s2 & -> & Hrs & Hs2 & Hst). exists (o :: os1), o1, os2, (r :: rs), s2.
  split; [done |]. split; [| done]. cbn [Driver.druns]. rewrite Hr. cbn [exec_bind]. by rewrite Hrs.
Qed.

Lemma druns_ends os s :
  dinv s -> dops_ok base_devno ndevices dev_index os s = true ->
  (exists rs s', druns os s = Done (rs, s') /\ dinv s') \/ halts os s.
Proof.
  revert s. induction os as [| o os IH]; intros s Hs Ho; cbn [Driver.druns]; [left; by eexists _, _ |].
  cbn [dops_ok] in Ho. apply andb_true_iff in Ho as [Ho Hrest].
  destruct (drun_inv o s Hs Ho) as [(r & s1 & Hr & Hs1) | Hst]; [| right; by exists [], o, os, [], s].
  rewrite Hr in Hrest. destruct (IH s1 Hs1 Hrest) as [(rs & s2 & Hrs & Hs2) | Hh]; [left | right; by eapply halts_cons].
  rewrite Hr. cbn [exec_bind]. rewrite Hrs. by eexists _, _.
Qed.

(** ** Devices keep their areas *)
Definition steady (h h' : gmap Z kbuf_dev) : Prop :=
  forall q e e', h !! q = Some e -> h' !! q = Some e' -> areas e' = areas e.

Lemma narrows_steady h h' : narrows h h' -> steady h h'.
Proof. intros Hn q e e' E E'. destruct (Hn q e' E') as (e0 & E0 & ->). congruence. Qed.

Lemma steady_narrows h h1 h' : steady h h1 -> narrows h1 h' -> steady h h'.
Proof. intros Hs Hn q e e' E E'. destruct (Hn q e' E') as (e1 & E1 & ->). by apply (Hs q). Qed.

Lemma steady_refl h : steady h h.
Proof. apply narrows_steady. done. Qed.

Lemma create_steady c r c' F B T :
  linv base (LSys c F B T) -> kbuf_dyn_create base_devno ndevices dev_index c = Done (r, c') ->
  steady (c_heap c) (c_heap c').
Proof.
  intros (_ & own & L) Hrun. destruct (live_create base own c _ _ _ base_devno ndevices dev_index L)
    as (r0 & c0 & Hrun0 & [(_ & (Hh & _) & _) | (p & d & own' & _ & Hc & _)]);
    rewrite Hrun in Hrun0; injection Hrun0 as <- <-.
  - rewrite Hh. apply steady_refl.
  - rewrite (cr_heap _ _ _ _ _ Hc). intros q e e' E [[<- <-] | [_ E']]%lookup_insert_Some; [| congruence].
    pose proof (cr_new _ _ _ _ _ Hc). congruence.
Qed.

Lemma ctl_steady cmd arg u c r c' F B T :
  linv base (LSys c F B T) -> kbuf_ctl_ioctl base_devno ndevices dev_index cmd arg u c = Done (r, c') ->
  steady (c_heap c) (c_heap c').
Proof.
  intros Hl. unfold kbuf_ctl_ioctl.
  assert (Hret : forall (x : Z * U) (c1 c2 : cworld K), p_ret x c1 = Done (r, c2) -> c2 = c1) by (by intros x c1 c2 [= _ <-]).
  destruct (cmd =? KBUF_CTL_CREATE); [| destruct (cmd =? KBUF_CTL_DESTROY)].
  - intros ([rc c1] & Hc & Hrest)%exec_bind_inv. pose proof (create_steady c rc c1 F B T Hl Hc) as Hst.
    destruct (negb _); [by apply Hret in Hrest as -> |]. destruct (put_user u arg rc.2); [by apply Hret in Hrest as -> |].
    apply exec_bind_inv in Hrest as ([rd c2] & Hd & ->%Hret).
    eapply steady_narrows; [done | by eapply narrowing_narrows; [apply narrowing_destroy |]].
  - destruct (get_user u arg) as [id |]; [| intros ->%Hret; apply steady_refl].
    intros ([rd c2] & Hd & ->%Hret)%exec_bind_inv. apply narrows_steady.
    by eapply narrowing_narrows; [apply narrowing_destroy |].
  - intros ->%Hret. apply steady_refl.
Qed.

Lemma fput_narrows f s s' : fput f s = Done s' -> narrows (c_heap (s_c s)) (c_heap (s_c s')).
Proof.
  unfold fput. destruct (decide _); [by intros [= <-] |]. destruct f as [i | h |]; [| | by intros [= <-]].
  - destruct (s_files s !! i); [| done]. intros ([r c] & Hr & [= <-])%exec_bind_inv.
    by eapply narrowing_narrows; [apply narrowing_close |].
  - destruct (s_bufs s !! h); [| done]. intros ([r c] & Hr & [= <-])%exec_bind_inv.
    by eapply narrowing_narrows; [apply narrowing_buf_put |].
Qed.

Lemma adopt_world m m' s : s_c (adopt m m' s) = s_c s.
Proof. unfold adopt. destruct (new_fd m m') as [[? []] |]; done. Qed.

Lemma call_steady fd c s r s' :
  dinv s -> dop_ok (DCall fd c) s = true -> do_call fd c s = Done (r, s') -> narrows (c_heap (s_c s)) (c_heap (s_c s')).
Proof.
  intros Hs Hok. unfold do_call. destruct (s_fds s !! fd) as [[i | h |] |] eqn:Efd; [| by intros [= _ <-] ..].
  destruct (s_files s !! i) as [p |] eqn:Hp; [| done]. intros ([r0 fw] & Hrun & [= _ <-])%exec_bind_inv.
  destruct (dcall_ok fd c s i p Hok Efd Hp) as (Hn & _).
  destruct (file_call_live base p c _ _ _ _ (callable_file s i p Hs Hp) Hn) as [(r1 & fw1 & Hrun1 & Hleft) | [Hrun1 _]];
    rewrite Hrun in Hrun1; [| done]. injection Hrun1 as <- <-. rewrite adopt_world. cbn.
  destruct Hleft as [[[_ Hw] _] | (x & h & _ & _ & _ & Hw)]; exact Hw.
Qed.

Lemma on_vma_steady v s f r s' :
  dinv s -> (forall p d s1, c_heap (s_c s) !! p = Some d -> dyn_shape d -> dev_ok d -> f p d = Done (r, s1) ->
    s1 = s \/ exists d', s1 = set_dev p d' s /\ areas d' = areas d) ->
  on_vma v s f = Done (r, s') -> steady (c_heap (s_c s)) (c_heap (s_c s')).
Proof.
  intros Hs Hf. unfold on_vma. destruct (vma_dev v s) as [p |] eqn:Ev; [| intros [= _ <-]; apply steady_refl].
  destruct (vma_dev_live v p s Hs Ev) as (d & E & Hsh & Hok). rewrite E. intros Hr.
  destruct (Hf p d s' E Hsh Hok Hr) as [-> | (d' & -> & Ha)]; [apply steady_refl |].
  apply narrows_steady. by eapply narrows_put.
Qed.

Lemma drun_steady o s r s' :
  dinv s -> dop_ok o s = true -> drun o s = Done (r, s') -> steady (c_heap (s_c s)) (c_heap (s_c s')).
Proof.
  intros Hs Ho. destruct o as [cmd arg | id | p | minor fd i | fd | fd fd' | fd | fd c | fd v a | v v' | v | v pg | v off b | v h t n];
    cbn [Driver.drun].
  - intros ([[r0 u] c] & Hc & [= _ <-])%exec_bind_inv. by eapply ctl_steady; [apply Hs |].
  - intros ([f c] & Hc & [= _ <-])%exec_bind_inv. apply narrows_steady.
    by eapply narrowing_narrows; [apply narrowing_unlink |].
  - destruct (decide _); [| intros [= _ <-]; apply steady_refl]. intros ([f c] & Hc & [= _ <-])%exec_bind_inv.
    apply narrows_steady. by eapply narrowing_narrows; [apply narrowing_teardown |].
  - destruct (s_fds s !! fd), (s_files s !! i); try (intros [= _ <-]; apply steady_refl).
    intros ([f c] & Hc & Hr)%exec_bind_inv. apply narrows_steady.
    eapply narrowing_narrows in Hc; [| apply narrowing_open]. repeat case_match; by injection Hr as _ <-.
  - destruct (s_fds s !! fd); intros [= _ <-]; apply steady_refl.
  - destruct (s_fds s !! fd), (s_fds s !! fd'); intros [= _ <-]; apply steady_refl.
  - destruct (s_fds s !! fd); [| intros [= _ <-]; apply steady_refl]. intros (s1 & Hf & [= _ <-])%exec_bind_inv.
    by apply narrows_steady, (fput_narrows _ _ _ Hf).
  - intros Hc. by eapply narrows_steady, call_steady.
  - destruct (s_fds s !! fd) as [f |], (s_vmas s !! v); try (intros [= _ <-]; apply steady_refl).
    unfold do_mmap. intros Hm. repeat case_match; simplify_eq; apply steady_refl.
  - destruct (s_vmas s !! v), (s_vmas s !! v'); intros [= _ <-]; apply steady_refl.
  - destruct (s_vmas s !! v) as [[f a] |]; [| intros [= _ <-]; apply steady_refl].
    intros (s1 & Hf & [= _ <-])%exec_bind_inv. by apply narrows_steady, (fput_narrows _ _ _ Hf).
  - unfold on_vma. intros Hr. repeat case_match; simplify_eq; apply steady_refl.
  - apply on_vma_steady; [done |]. intros p d s1 E Hsh Hok Hr. destruct (map_store d off b) as [d' |] eqn:Em; simplify_eq.
    + right. exists d'. split; [done |]. by eapply kept_areas; [eapply map_store_kept |].
    + by left.
  - apply on_vma_steady; [done |]. intros p d s1 E Hsh Hok Hr. destruct (mmap_ctrl d) as [m |] eqn:Em; [| done].
    simplify_eq. right. eexists. split; [done |]. unfold areas. cbn. by rewrite Em.
Qed.
End driver.
