(* ===== verification/DriverProps.v ===== *)
(** * DriverProps: the driver is safe under all its users

    What the invariant of DriverInv.v gives along any sequence of the operations
    of Driver.v: nothing goes wrong but reading the name of a device that was
    destroyed while open, nothing leaks, and a mapping keeps showing the same
    pages whatever happens to the device's node, to its descriptors and to its
    slots. *)

From stdpp Require Import gmultiset.
From S2P Require Import Prelude Kernel Uapi Device Alloc Ring RingFacts RingSpec Mmap Ctl CtlFacts Lifetime LifetimeProps.
From S2P Require Import DmaBuf RingProps Ioctl Dispatch IoctlProps MmapProps DispatchProps FileOps FileProps.
From S2P Require Import Samples Driver DriverFacts DriverInv.
#[local] Open Scope Z_scope.

Section props.
Context {U K : Type} {ua : UAccess U} {ual : UAccessLaws U} {kk : Kernel K} {kl : KernelLaws K}.
Context {ie : IocEncoding} {il : IocLaws} {ps : Paging} {pl : PagingLaws}.
Context (base_devno ndevices : Z) (dev_index : Z -> Z).
Implicit Types (s : dsys U K).

Abbreviation drun := (drun base_devno ndevices dev_index).
Abbreviation druns := (druns base_devno ndevices dev_index).
Abbreviation dops_ok := (dops_ok base_devno ndevices dev_index).

(** The driver just loaded, with no dynamic device. *)
Definition fresh_driver (k : K) (u : U) : dsys U K := DSys (CWorld ∅ [] k ∅) u 0 ∅ ∅ ∅ ∅ [].

Lemma fresh_dinv k u : k_ida k = ∅ -> dinv_but (k_held k) None (fresh_driver k u).
Proof.
  intros Hi. split; cbn; try done.
  - exact (fresh_linv k Hi).
  - by intros [i | h |]; [intros [] .. |].
Qed.

(** ** Mappings *)
Lemma fault_areas d d' pgoff : areas d' = areas d -> kbuf_vm_fault d' pgoff = kbuf_vm_fault d pgoff.
Proof. unfold areas, kbuf_vm_fault. by intros [= -> ->]. Qed.

(** No offset of a mapped ring is a bus error, and the page is in one of the two
    areas. *)
Lemma fault_page d c buf pgoff :
  mapped d c buf -> exists pg, kbuf_vm_fault d pgoff = Some pg /\ (pg_area pg = ctrl_ptr c \/ pg_area pg = kb_ptr buf).
Proof.
  intros M. pose proof page_pos as Hp. destruct page_divides as [m Hm].
  assert (Hmp : 0 < m) by (unfold KBUF_MMAP_CAPACITY in Hm; nia).
  unfold kbuf_vm_fault, vmalloc_to_page. rewrite (mp_ctrl _ _ _ M), (mp_data _ _ _ M). cbn.
  destruct (pgoff =? 0).
  - rewrite (proj2 (Z.ltb_lt _ _)) by done. cbn. eexists. split; [done | by left].
  - assert (Hdp : KBUF_MMAP_CAPACITY / PAGE_SIZE = m) by (rewrite Hm; apply Z.div_mul; lia).
    rewrite Hdp. pose proof (Z.mod_pos_bound (pgoff - 1) m Hmp) as Hi.
    rewrite (proj2 (Z.leb_le 0 _)), (proj2 (Z.ltb_lt _ KBUF_MMAP_CAPACITY)) by nia. cbn. eexists. split; [done | by right].
Qed.

Lemma fput_vmas f s s' : fput f s = Done s' -> s_vmas s' = s_vmas s.
Proof.
  unfold fput. destruct (decide _); [by intros [= <-] |]. destruct f as [i | h |]; [| | by intros [= <-]].
  - destruct (s_files s !! i); [| done]. by intros ([r c] & _ & [= <-])%exec_bind_inv.
  - destruct (s_bufs s !! h); [| done]. by intros ([r c] & _ & [= <-])%exec_bind_inv.
Qed.

Lemma adopt_vmas m m' s : s_vmas (adopt m m' s) = s_vmas s.
Proof. unfold adopt. destruct (new_fd m m') as [[? []] |]; done. Qed.

(** Only [munmap] takes a mapping away. *)
Lemma vma_stays o s r s' v x :
  drun o s = Done (r, s') -> o <> DMunmap v -> s_vmas s !! v = Some x -> s_vmas s' !! v = Some x.
Proof.
  assert (Hins : forall v' y, s_vmas s !! v' = None -> s_vmas s !! v = Some x -> <[v' := y]> (s_vmas s) !! v = Some x).
  { intros v' y E1 E2. rewrite lookup_insert_ne; [done | congruence]. }
  destruct o as [cmd arg | id | p | minor fd i | fd | fd fd' | fd | fd c | fd v1 a | v1 v2 | v1 | v1 pg | v1 off b | v1 h t n];
    cbn [Driver.drun]; intros Hr Hne Hv.
  - by apply exec_bind_inv in Hr as ([[] ] & _ & [= _ <-]).
  - by apply exec_bind_inv in Hr as ([] & _ & [= _ <-]).
  - destruct (decide _); [by apply exec_bind_inv in Hr as ([] & _ & [= _ <-]) | by injection Hr as _ <-].
  - destruct (s_fds s !! fd), (s_files s !! i); try by injection Hr as _ <-.
    apply exec_bind_inv in Hr as ([] & _ & Hr). repeat case_match; by injection Hr as _ <-.
  - destruct (s_fds s !! fd); by injection Hr as _ <-.
  - destruct (s_fds s !! fd), (s_fds s !! fd'); by injection Hr as _ <-.
  - destruct (s_fds s !! fd); [| by injection Hr as _ <-]. apply exec_bind_inv in Hr as (s1 & Hf & [= _ <-]).
    by rewrite (fput_vmas _ _ _ Hf).
  - unfold do_call in Hr. destruct (s_fds s !! fd) as [[i | h |] |]; [| by injection Hr as _ <- ..].
    destruct (s_files s !! i); [| done]. apply exec_bind_inv in Hr as ([] & _ & [= _ <-]). by rewrite adopt_vmas.
  - destruct (s_fds s !! fd) as [f |], (s_vmas s !! v1) eqn:E1; try by injection Hr as _ <-.
    unfold do_mmap in Hr. repeat case_match; simplify_eq; try done; by apply Hins.
  - destruct (s_vmas s !! v1), (s_vmas s !! v2) eqn:E2; injection Hr as _ <-; try done. by apply Hins.
  - destruct (s_vmas s !! v1) as [[f a] |]; [| by injection Hr as _ <-].
    apply exec_bind_inv in Hr as (s1 & Hf & [= _ <-]). rewrite (fput_vmas _ _ _ Hf). cbn.
    rewrite lookup_delete_ne; [done | congruence].
  - unfold on_vma in Hr. repeat case_match; by simplify_eq.
  - unfold on_vma in Hr. repeat case_match; by simplify_eq.
  - unfold on_vma in Hr. repeat case_match; by simplify_eq.
Qed.

(** The fault at any offset of a mapping, along any calls of anybody. *)
Lemma fault_stays base os s rs s' v i a :
  dinv_but base None s -> dops_ok os s = true -> DMunmap v ∉ os -> s_vmas s !! v = Some (FoFile i, a) ->
  druns os s = Done (rs, s') ->
  dinv_but base None s' /\ s_vmas s' !! v = Some (FoFile i, a) /\
    forall d d', c_heap (s_c s) !! vm_private_data a = Some d -> c_heap (s_c s') !! vm_private_data a = Some d' ->
      areas d' = areas d.
Proof.
  revert s rs. induction os as [| o os IH]; intros s rs Hs Ho Hn Hv; cbn [Driver.druns].
  { intros [= _ <-]. split; [done |]. split; [done |]. intros d d' E E'. congruence. }
  cbn [Driver.dops_ok] in Ho. apply andb_true_iff in Ho as [Ho Hrest]. apply not_elem_of_cons in Hn as [Hne Hn].
  intros ([r s1] & Hr & ([rs2 s2] & Hrs & [= _ <-])%exec_bind_inv)%exec_bind_inv.
  destruct (drun_inv base_devno ndevices dev_index base o s Hs Ho) as [(r0 & s0 & Hr0 & Hs1) | (p & _ & _ & Hr0)];
    rewrite Hr in Hr0; [| done]. injection Hr0 as <- <-. rewrite Hr in Hrest.
  pose proof (vma_stays o s r s1 v _ Hr (not_eq_sym Hne) Hv) as Hv1.
  destruct (IH s1 rs2 Hs1 Hrest Hn Hv1 Hrs) as (Hs2 & Hv2 & Ha). split; [done |]. split; [done |].
  intros d d' E E'. destruct (vma_dev_live base v (vm_private_data a) s1 Hs1) as (d1 & E1 & _);
    [unfold vma_dev; by rewrite Hv1 |].
  rewrite (Ha d1 d' E1 E'). by apply (drun_steady base_devno ndevices dev_index base o s r s1 Hs Ho Hr _ _ _ E E1).
Qed.

Lemma dops_ok_app os1 os2 s : dops_ok (os1 ++ os2) s = true -> dops_ok os1 s = true.
Proof.
  revert s. induction os1 as [| o os1 IH]; intros s; [done |]. cbn [app Driver.dops_ok].
  intros [-> Hr]%andb_true_iff. cbn [andb]. destruct (drun o s) as [[r s1] |]; [by apply IH | done].
Qed.

(** A sequence that stops does not go through. *)
Lemma stopped_oops os1 o os2 s rs s1 :
  druns os1 s = Done (rs, s1) -> drun o s1 = Oops UseAfterFree -> druns (os1 ++ o :: os2) s = Oops UseAfterFree.
Proof.
  revert s rs. induction os1 as [| o1 os1 IH]; intros s rs; cbn [app Driver.druns].
  { intros [= _ <-] ->. done. }
  intros ([r s2] & -> & ([rs2 s3] & Hrs & [= _ <-])%exec_bind_inv)%exec_bind_inv Ho. cbn [exec_bind].
  by rewrite (IH s2 rs2 Hrs Ho).
Qed.

Lemma vma_fault base s v i a pgoff :
  dinv_but base None s -> s_vmas s !! v = Some (FoFile i, a) ->
  exists d pg, c_heap (s_c s) !! vm_private_data a = Some d /\ kbuf_vm_fault d pgoff = Some pg /\
    drun (DFault v pgoff) s = Done (RPage (Some pg), s) /\ k_held (c_kern (s_c s)) !! pg_area pg = Some RkVmem.
Proof.
  intros Hs Hv. assert (Ev : vma_dev v s = Some (vm_private_data a)) by (unfold vma_dev; by rewrite Hv).
  pose proof (dinv_file _ _ _ _ _ Hs (di_priv _ _ _ Hs v i a Hv)) as Hr.
  destruct (linv_dev _ _ _ _ _ _ (di_live _ _ _ Hs) Hr) as (d & E & [_ _ (c & buf & M)] & _ & _ & Hh & _).
  destruct (fault_page d c buf pgoff M) as (pg & Hf & Hpg). exists d, pg. split; [done |]. split; [done |].
  split; [cbn [Driver.drun]; unfold on_vma; by rewrite Ev, E, Hf |].
  unfold dev_res in Hh. cbn [node_res app] in Hh. apply holds_app in Hh as [[_ Hh] _]. apply Hh.
  unfold ring_res. rewrite (mp_ctrl _ _ _ M), (mp_data _ _ _ M). unfold ring_ptrs. cbn.
  destruct Hpg as [-> | ->]; [right; by left | by left].
Qed.

(** Without descriptors and mappings no file is left. *)
Lemma nobody_left base s :
  dinv_but base None s -> s_fds s = ∅ -> s_vmas s = ∅ -> s_files s = ∅ /\ s_bufs s = ∅.
Proof.
  intros Hs Hfd Hvma. assert (Hno : forall f, ~ held_obj f s).
  { intros f Hf. apply (di_ref _ _ _ Hs) in Hf as [(x & y & E & _) | (x & y & E & _)]; [.. | done].
    - by rewrite Hfd in E.
    - by rewrite Hvma in E. }
  split; apply map_empty; intros x; apply eq_None_not_Some; [apply (Hno (FoFile x)) | apply (Hno (FoBuf x))].
Qed.

(** A device exists exactly when its registration, an open file or a buffer refers
    to it, its reference count is their number and it is well-formed, and every
    descriptor and mapping is of a file that exists. *)
Definition consistent s : Prop :=
  (forall p, is_Some (c_heap (s_c s) !! p) <-> 0 < l_refs (lsys_of s) p) /\
  (forall p d, c_heap (s_c s) !! p = Some d -> ref d = l_refs (lsys_of s) p /\ dev_ok d) /\
  (forall fd f, s_fds s !! fd = Some f -> held_obj f s) /\
  (forall v f a, s_vmas s !! v = Some (f, a) -> held_obj f s).

Lemma dinv_consistent base s : dinv_but base None s -> consistent s.
Proof.
  intros Hs. pose proof (di_live _ _ _ Hs) as (_ & own & [[Hd Hr _ _ Hok] _ _]). split_and!.
  - intros p. split; [| apply Hr]. intros [d E]. by destruct (Hd p d E) as (_ & _ & ?).
  - intros p d E. split; [by destruct (Hd p d E) as (_ & ? & _) | by eapply Hok].
  - apply Hs.
  - apply Hs.
Qed.

(** C18: the driver is safe: from a freshly loaded module, whatever dynamic devices
    are created and destroyed, files opened, duplicated and closed, calls made,
    rings mapped, pages faulted in, shared memory scribbled on, and buffers
    exported, imported and dropped, there is one thing that can go wrong: the last
    close or [munmap] of a file, a resize or an export whose device was destroyed
    while the file was open reads the device's name from freed memory.  Up to such
    an operation, and to the end if there is none, a device exists exactly when
    its registration, an open file or a buffer refers to it, its reference count
    is their number and it is well-formed, and every descriptor and mapping is of
    a file that exists. *)
Theorem driver_safe os k u :
  k_ida k = ∅ -> dops_ok os (fresh_driver k u) = true ->
  (exists rs s', druns os (fresh_driver k u) = Done (rs, s') /\ consistent s') \/
  (exists os1 o os2 rs s1 p, os = os1 ++ o :: os2 /\ druns os1 (fresh_driver k u) = Done (rs, s1) /\ consistent s1 /\
     names o s1 = Some p /\ destroyed p s1 /\ drun o s1 = Oops UseAfterFree).
Proof.
  intros Hi Ho. destruct (druns_ends base_devno ndevices dev_index _ os _ (fresh_dinv k u Hi) Ho)
    as [(rs & s' & Hrun & Hs) | (os1 & o & os2 & rs & s1 & -> & Hrun & Hs & p & Hp & Hd & Hoops)].
  - left. exists rs, s'. split; [done | by eapply dinv_consistent].
  - right. exists os1, o, os2, rs, s1, p. split_and!; try done; by eapply dinv_consistent.
Qed.

(** C19: nothing leaks: when the last descriptor is closed, the last mapping gone
    and the last device destroyed, in whatever order that came about, no device
    is left, every id is free and the kernel holds exactly what it held when the
    module was loaded. *)
Theorem driver_no_leak os k u rs s' :
  k_ida k = ∅ -> dops_ok os (fresh_driver k u) = true -> druns os (fresh_driver k u) = Done (rs, s') ->
  s_fds s' = ∅ -> s_vmas s' = ∅ -> c_list (s_c s') = [] -> s_tearing s' = [] ->
  c_heap (s_c s') = ∅ /\ k_ida (c_kern (s_c s')) = ∅ /\ k_held (c_kern (s_c s')) = k_held k.
Proof.
  intros Hi Ho Hrun Hfd Hvma Hl Ht.
  pose proof (druns_inv base_devno ndevices dev_index _ os _ rs s' (fresh_dinv k u Hi) Ho Hrun) as Hs.
  destruct (nobody_left _ s' Hs Hfd Hvma) as [Hf Hb].
  apply (linv_empty _ (lsys_of s')); [apply Hs | done | done | | done]. cbn. by rewrite Hf.
Qed.

(** The page a fault at any offset of the mapping is answered with, at [s] and
    still at [s'], is one of an area the driver holds. *)
Definition same_faults (v : Z) s s' : Prop := forall pgoff, exists pg,
  drun (DFault v pgoff) s = Done (RPage (Some pg), s) /\ drun (DFault v pgoff) s' = Done (RPage (Some pg), s') /\
  k_held (c_kern (s_c s')) !! pg_area pg = Some RkVmem.

Lemma faults_stay base os s rs s' v i a :
  dinv_but base None s -> dops_ok os s = true -> DMunmap v ∉ os -> s_vmas s !! v = Some (FoFile i, a) ->
  druns os s = Done (rs, s') -> same_faults v s s'.
Proof.
  intros Hs Ho Hn Hv Hrun pgoff. destruct (fault_stays base os s rs s' v i a Hs Ho Hn Hv Hrun) as (Hs' & Hv' & Ha).
  destruct (vma_fault _ s v i a pgoff Hs Hv) as (d & pg & E & Hf & Hd & _).
  destruct (vma_fault _ s' v i a pgoff Hs' Hv') as (d' & pg' & E' & Hf' & Hd' & Hk).
  rewrite (fault_areas _ _ _ (Ha d d' E E')), Hf in Hf'. injection Hf' as <-. by exists pg.
Qed.

(** C20: a mapping is stable: as long as it is not unmapped, whatever else is
    called by whomever, the close of every descriptor and the destruction of the
    device included, a page fault at any offset is answered with the same page
    as before, a page of an area the driver still holds; to the end of the calls,
    or up to one that reads the name of a device destroyed while open. *)
Theorem mapping_stable os0 k u rs0 s os v i a :
  k_ida k = ∅ -> dops_ok os0 (fresh_driver k u) = true -> druns os0 (fresh_driver k u) = Done (rs0, s) ->
  s_vmas s !! v = Some (FoFile i, a) -> dops_ok os s = true -> DMunmap v ∉ os ->
  (exists rs s', druns os s = Done (rs, s') /\ same_faults v s s') \/
  (exists os1 o os2 rs s1 p, os = os1 ++ o :: os2 /\ druns os1 s = Done (rs, s1) /\ same_faults v s s1 /\
     names o s1 = Some p /\ destroyed p s1 /\ drun o s1 = Oops UseAfterFree).
Proof.
  intros Hi Ho0 Hrun0 Hv Ho Hn.
  pose proof (druns_inv base_devno ndevices dev_index _ os0 _ rs0 s (fresh_dinv k u Hi) Ho0 Hrun0) as Hs.
  destruct (druns_ends base_devno ndevices dev_index _ os s Hs Ho)
    as [(rs & s' & Hrun & _) | (os1 & o & os2 & rs & s1 & -> & Hrun & _ & p & Hp & Hd & Hoops)].
  - left. exists rs, s'. split; [done | by eapply faults_stay].
  - right. exists os1, o, os2, rs, s1, p. split_and!; try done.
    apply (faults_stay _ os1 s rs s1 v i a Hs); [by eapply dops_ok_app | | done | done].
    intros Hin. apply Hn, elem_of_app. by left.
Qed.
End props.

(** ** A story

    A device is created, opened and mapped; a message is written, the ring
    exported, the descriptor duplicated, the control page overwritten; then the
    device is destroyed and its descriptors closed, while the mapping lives on.
    Or everything is closed first, and the dma-buf outlives the device. *)
Definition scratch : simuser := sim_put ∅ 0 (replicate 256 x61).
Definition ring_area : vm_area := VmArea 0 kbuf_mmap_len 0 0 false false false.

Definition story : list dop :=
  [DCtl KBUF_CTL_CREATE 0; DOpen 4 3 1; DMmap 3 10 ring_area; DFault 10 1; DCall 3 (FWrite 16 4);
   DCall 3 (FIoctl KBUF_IOCEXPORT 8); DDup 3 4; DForeign 5; DPoke 10 1 2 3].

Definition story_goes_on : list dop :=
  [DUnlink 0; DTeardown 8; DClose 3; DCall 4 (FRead 32 4); DClose 4; DStore 10 4100 x62; DCopyVma 10 11].

(** The last mapping is the last reference to the file. *)
Definition story_stops : list dop := [DMunmap 10; DMunmap 11; DClose 0].

Definition story_ends : list dop :=
  [DMunmap 10; DClose 3; DClose 5; DClose 4; DUnlink 0; DTeardown 8; DClose 0].

Abbreviation drun4 := (druns 100 4 (fun p => p)).
Abbreviation dops4 := (dops_ok 100 4 (fun p => p)).

Definition told (os : list dop) (s : dsys simuser simkernel) : list dres * dsys simuser simkernel :=
  match drun4 os s with Done x => x | Oops _ => ([], s) end.

(** Whether a story goes through. *)
Definition tells (os : list dop) (s : dsys simuser simkernel) : bool :=
  match drun4 os s with Done _ => true | Oops _ => false end.

Lemma told_run os s : tells os s = true -> drun4 os s = Done ((told os s).1, (told os s).2).
Proof. unfold tells, told. by destruct (drun4 os s) as [[] |]. Qed.

Lemma tells_not_stopped os1 o os2 s rs s1 :
  drun4 os1 s = Done (rs, s1) -> drun 100 4 (fun p => p) o s1 = Oops UseAfterFree -> tells (os1 ++ o :: os2) s = false.
Proof. intros H1 H2. unfold tells. by rewrite (stopped_oops 100 4 (fun p => p) os1 o os2 s rs s1 H1 H2). Qed.

Abbreviation loaded := (fresh_driver unloaded scratch).

(** The story goes through; continued to the last mapping, it stops. *)
Lemma driver_safe_witness :
  (exists rs s', drun4 (story ++ story_goes_on) loaded = Done (rs, s') /\
     rs !! 12%nat = Some (RRet 4) /\ consistent s') /\
  (exists os1 o os2 rs s1 p, story ++ story_goes_on ++ story_stops = os1 ++ o :: os2 /\
     drun4 os1 loaded = Done (rs, s1) /\ consistent s1 /\ names o s1 = Some p /\ destroyed p s1).
Proof.
  split.
  - destruct (driver_safe 100 4 (fun p => p) (story ++ story_goes_on) unloaded scratch)
      as [(rs & s' & Hrun & Hp) | (os1 & o & os2 & rs & s1 & p & Ho & Hrun & _ & _ & _ & Hoops)]; [reflexivity | by vm_compute | |].
    + exists rs, s'. split; [exact Hrun |]. split; [| exact Hp].
      assert (E : (told (story ++ story_goes_on) loaded).1 !! 12%nat = Some (RRet 4)) by (by vm_compute).
      unfold told in E. rewrite Hrun in E. exact E.
    + exfalso. assert (E : tells (story ++ story_goes_on) loaded = true) by (by vm_compute).
      rewrite Ho, (tells_not_stopped _ _ _ _ _ _ Hrun Hoops) in E. discriminate E.
  - destruct (driver_safe 100 4 (fun p => p) (story ++ story_goes_on ++ story_stops) unloaded scratch)
      as [(rs & s' & Hrun & _) | (os1 & o & os2 & rs & s1 & p & Ho & Hrun & Hc & Hn & Hd & _)]; [reflexivity | by vm_compute | |].
    + exfalso. assert (E : tells (story ++ story_goes_on ++ story_stops) loaded = false) by (by vm_compute).
      unfold tells in E. rewrite Hrun in E. discriminate E.
    + exists os1, o, os2, rs, s1, p. split_and!; [exact Ho | exact Hrun | exact Hc .. | exact Hn | exact Hd].
Defined.

Lemma driver_no_leak_witness :
  c_heap (s_c (told (story ++ take 6 story_ends) loaded).2) <> ∅ /\
  k_held (c_kern (s_c (told (story ++ story_ends) loaded).2)) = {[7 := RkMisc]}.
Proof.
  split.
  - intros E. apply (f_equal size) in E. vm_compute in E. discriminate.
  - destruct (driver_no_leak 100 4 (fun p => p) (story ++ story_ends) unloaded scratch
                (told (story ++ story_ends) loaded).1 (told (story ++ story_ends) loaded).2)
      as (_ & _ & Hk); [reflexivity | by vm_compute | apply told_run; by vm_compute | by vm_compute ..|].
    exact Hk.
Defined.

Lemma mapping_stable_witness :
  exists rs s', drun4 story_goes_on (told story loaded).2 = Done (rs, s') /\
    exists pg, drun 100 4 (fun p => p) (DFault 10 17) (told story loaded).2 = Done (RPage (Some pg), (told story loaded).2) /\
      drun 100 4 (fun p => p) (DFault 10 17) s' = Done (RPage (Some pg), s').
Proof.
  assert (Hv : exists a, s_vmas (told story loaded).2 !! 10 = Some (FoFile 1, a)) by (eexists; by vm_compute).
  destruct Hv as [a Hv].
  destruct (mapping_stable 100 4 (fun p => p) story unloaded scratch (told story loaded).1 (told story loaded).2
              story_goes_on 10 1 a)
    as [(rs & s' & Hrun & Hpg) | (os1 & o & os2 & rs & s1 & p & Ho & Hrun & _ & _ & _ & Hoops)];
    [reflexivity | by vm_compute | apply told_run; by vm_compute | exact Hv | by vm_compute
     | intros Hin; repeat (apply elem_of_cons in Hin as [? | Hin]; [discriminate |]); by apply elem_of_nil in Hin | |].
  - exists rs, s'. split; [exact Hrun |]. destruct (Hpg 17) as (pg & H1 & H2 & _). exists pg. split; [exact H1 | exact H2].
  - exfalso. assert (E : tells story_goes_on (told story loaded).2 = true) by (by vm_compute).
    rewrite Ho, (tells_not_stopped _ _ _ _ _ _ Hrun Hoops) in E. discriminate E.
Defined.

(** ** Where the code falls short *)

(** A resize of a device that was destroyed while open prints the name of a node
    that is gone. *)
Definition four_slots : simuser := sim_put ∅ 0 (replicate 16 x00 ++ le_encode 4 4 ++ le_encode 4 64).

Theorem resize_destroyed :
  drun4 [DCtl KBUF_CTL_CREATE 0; DOpen 4 3 1; DUnlink 0; DTeardown 8; DCall 3 (FIoctl KBUF_IOCRESIZE 16)]
        (fresh_driver unloaded four_slots) = Oops UseAfterFree /\
  match drun4 [DCtl KBUF_CTL_CREATE 0; DOpen 4 3 1; DCall 3 (FIoctl KBUF_IOCRESIZE 16)]
              (fresh_driver unloaded four_slots) with
  | Done (rs, _) => rs = [RRet 0; RRet 3; RRet 0]
  | Oops _ => False
  end.
Proof. split; by vm_compute. Qed.
