(* ===== verification/ModuleLife.v ===== *)
(** * ModuleLife: the module from [insmod] to [rmmod]

    [kbuf_init] of Init.v, then any use of the dynamic devices by any users as
    Driver.v runs it, then [kbuf_exit]. *)

From stdpp Require Import gmultiset.
From S2P Require Import Prelude Kernel Uapi Device Alloc Ring RingFacts RingSpec Mmap Ctl CtlFacts Init InitFacts.
From S2P Require Import Lifetime LifetimeProps InitProps DmaBuf RingProps Ioctl Dispatch IoctlProps MmapProps DispatchProps.
From S2P Require Import FileOps FileProps Samples Driver DriverFacts DriverInv DriverProps.
#[local] Open Scope Z_scope.

Section life.
Context {U K : Type} {ua : UAccess U} {ual : UAccessLaws U} {kk : Kernel K} {kl : KernelLaws K}.
Context {ie : IocEncoding} {il : IocLaws} {ps : Paging} {pl : PagingLaws}.

(** C21: a whole life of the module leaks nothing: load it, let any users create,
    open, read, write, poll, resize, switch, map, export, import, destroy, close
    and release dynamic devices in any order, and once no descriptor and no
    mapping is left and no destroy is under way, [kbuf_exit] runs to its end,
    frees the devices left behind, and the kernel holds what it held before the
    load. *)
Theorem module_life ndevices base_devno dev_index (k : K) md k1 (u : U) os rs s :
  k_ida k = ∅ ->
  kbuf_init ndevices base_devno k = Done (0, Some md, k1) ->
  dops_ok base_devno ndevices dev_index os (fresh_driver k1 u) = true ->
  druns base_devno ndevices dev_index os (fresh_driver k1 u) = Done (rs, s) ->
  s_fds s = ∅ -> s_vmas s = ∅ -> s_tearing s = [] ->
  exists w, kbuf_exit md (s_c s) = Done (true, w) /\
    c_heap w = ∅ /\ c_list w = [] /\ k_ida (c_kern w) = ∅ /\ k_held (c_kern w) = k_held k.
Proof.
  intros Hida Hinit Hok Hrun Hfd Hvma Ht.
  destruct (kbuf_init_run ndevices base_devno k) as (r & om & k' & Hrun' & Hex).
  rewrite Hrun' in Hinit. injection Hinit as -> -> ->. destruct Hex as (Hi & _ & Ha & Hsh & _).
  destruct (mod_res_misc _ _ _ Ha) as [Hm As]. rewrite Hida in Hi.
  pose proof (druns_inv base_devno ndevices dev_index _ os _ rs s (fresh_dinv k1 u Hi) Hok Hrun) as Hs.
  destruct (nobody_left _ s Hs Hfd Hvma) as [Hf Hb].
  pose proof (di_live _ _ _ Hs) as Hl. unfold lsys_of in Hl. rewrite Hf, Hb, Ht in Hl.
  destruct (unregister_run (k_held k1) (s_c s) (md_misc md) Hl Hm) as (w & Hu & Hh & Hcl & Hid & Hk).
  rewrite <- Hk in As. destruct (exit_static_run md _ _ Hsh As) as (k2 & Hx & Hk2 & Hi2).
  unfold kbuf_exit, p_bind. rewrite Hu. cbn [exec_bind]. rewrite Hx. eexists. split; [done |].
  cbn. split_and!; congruence.
Qed.
End life.

(** ** A life

    One static device.  Two devices are created; the first is opened, resized,
    written, read back, mapped, exported and imported, and all of it given up; the
    second is destroyed; the first is left to [kbuf_exit]. *)
Definition life_user : simuser :=
  sim_put ∅ 0 (replicate 16 x00 ++ le_encode 4 4 ++ le_encode 4 64 ++ le_encode 4 1 ++ replicate 64 x62).

Definition life_ops : list dop :=
  [DCtl KBUF_CTL_CREATE 0; DCtl KBUF_CTL_CREATE 4; DOpen 1 3 1; DCall 3 (FIoctl KBUF_IOCRESIZE 16);
   DCall 3 (FWrite 32 8); DCall 3 (FRead 48 8); DMmap 3 10 ring_area; DStore 10 4096 x63;
   DCall 3 (FIoctl KBUF_IOCEXPORT 8); DCall 3 (FIoctl KBUF_IOCIMPORT 8); DDup 3 4; DClose 3;
   DUnlink 1; DTeardown 34; DMunmap 10; DClose 4; DClose 0].

Definition alive : dsys simuser simkernel := fresh_driver (kernel_after 1 100 idle_kernel) life_user.

Definition lived : list dres * dsys simuser simkernel :=
  match druns 100 1 (fun p => p) life_ops alive with Done x => x | Oops _ => ([], alive) end.

Lemma lived_run : druns 100 1 (fun p => p) life_ops alive = Done (lived.1, lived.2).
Proof.
  assert (E : match druns 100 1 (fun p => p) life_ops alive with Done _ => true | Oops _ => false end = true) by (by vm_compute).
  unfold lived. by destruct (druns 100 1 (fun p => p) life_ops alive) as [[] |].
Qed.

Lemma module_life_witness :
  lived.1 = [RRet 0; RRet 0; RRet 3; RRet 0; RRet 8; RRet 8; RRet 0; RNone; RRet 0; RRet 0; RRet 4; RRet 0;
             RNone; RNone; RRet 0; RRet 0; RRet 0] /\
  c_list (s_c lived.2) = [20] /\
  exists w, kbuf_exit (globals 1 100 idle_kernel) (s_c lived.2) = Done (true, w) /\ k_held (c_kern w) = ∅.
Proof.
  split; [by vm_compute |]. split; [by vm_compute |].
  destruct (module_life (kk := sim_kernel) 1 100 (fun p => p) idle_kernel
              (globals 1 100 idle_kernel) (kernel_after 1 100 idle_kernel) life_user life_ops lived.1 lived.2
              ltac:(reflexivity)
              (loaded_run 1 100 idle_kernel ltac:(vm_compute; reflexivity))
              ltac:(vm_compute; reflexivity) lived_run
              ltac:(vm_compute; reflexivity) ltac:(vm_compute; reflexivity) ltac:(vm_compute; reflexivity))
    as (w & H1 & _ & _ & _ & H2).
  exists w. split; [exact H1 | exact H2].
Defined.
