(* ===== verification/LibSpsc.v ===== *)
(** * LibSpsc: one producer and one consumer on the mmap ring, in two processes
    (include/libkbuf.h)

    [kbuf_map_write] and [kbuf_map_read] as two threads that share the mapped
    pages and nothing else.  A step is the acquire load of the peer's counter,
    one byte of the [memcpy] (through the mapping of Mmap.v; the order of the
    bytes is [memcpy]'s own business), or the release store.

    The memory is that of Spsc.v.  [h_pub sd] is the number of bytes [sd] has
    published so far, unbounded, of which the 64-bit counter in the control page
    is the residue; [h_hist sd] lists the values it has stored.  The peer's load
    may return any of them not older than the last one it saw ([mt_acq]), and
    orders the loading thread after everything that preceded that store.  A byte
    access is a [DataRace] unless it is ordered after the other side's last
    access to that byte ([h_stamp]: the store that follows that access). *)

From S2P Require Import Prelude Kernel Uapi Device Alloc Mmap LibKbuf Machine Spsc.
#[local] Open Scope Z_scope.

Inductive ml_pc : Set :=
  | ml_load                 (** about to load the two counters *)
  | ml_copy (n i : Z)       (** [memcpy] of [n] bytes, [i] done *)
  | ml_publish (n : Z)
  | ml_ret (n : Z).

Record mthread := MThread {
  mt_buf : list byte;       (** writer: the caller's bytes; reader: those copied *)
  mt_len : Z;               (** [n] *)
  mt_pc : ml_pc;
  mt_acq : Z
}.

Record mshared := MShared {
  h_dev : kbuf_dev;
  h_pub : side -> Z;
  h_hist : side -> list Z;
  h_stamp : side -> Z -> Z
}.

Section lib.
Context `{Paging}.

(** The number of bytes to move: clamped to the space, or to what is there,
    when the peer's counter loads as [v]. *)
Definition ml_amount (m : kbuf_map) (sd : side) (len v : Z) (c : kbuf_mmap_ctrl) : Z :=
  let room := match sd with
              | Writer => u64 (m_cap m - u64 (head c - u64 v))
              | Reader => u64 (u64 v - tail c)
              end in
  if len >? room then room else len.

Definition own_count (sd : side) (c : kbuf_mmap_ctrl) : Z :=
  match sd with Writer => head c | Reader => tail c end.

(** Byte [i] of the copy, through the mapping. *)
Definition ml_byte (m : kbuf_map) (sd : side) (i : Z) (c : kbuf_mmap_ctrl) (buf : list byte) (d : kbuf_dev)
  : option (nat * list byte * kbuf_dev) :=
  let addr := m_data m + Z.land (own_count sd c) (m_cap m - 1) + i in
  pi ← resolve d addr; j ← data_offset d pi;
  match sd with
  | Writer => b ← buf !! Z.to_nat i; d' ← map_store d addr b; Some (j, buf, d')
  | Reader => b ← map_load d addr; Some (j, buf ++ [b], d)
  end.

Definition ml_store (sd : side) (n : Z) (c : kbuf_mmap_ctrl) (d : kbuf_dev) : kbuf_dev :=
  match sd with
  | Writer => set_head (u64 (head c + n)) d
  | Reader => set_tail (u64 (tail c + n)) d
  end.

Definition ml_step (m : kbuf_map) (sd : side) (ch : pick) (th : mthread) (s : mshared)
  : option (exec (mthread * mshared)) :=
  match mmap_ctrl (h_dev s) with
  | None => Some (Oops NullDeref)
  | Some c =>
    match mt_pc th, ch with
    | ml_load, See v =>
      if (mt_acq th <=? v) && bool_decide (v ∈ h_hist s (other sd)) then
        let n := ml_amount m sd (mt_len th) v c in
        Some (Done (MThread (mt_buf th) (mt_len th) (if n =? 0 then ml_ret 0 else ml_copy n 0) v, s))
      else None
    | ml_copy n i, Go =>
      match ml_byte m sd i c (mt_buf th) (h_dev s) with
      | None => Some (Oops OutOfBounds)
      | Some (j, buf', d') =>
        if h_stamp s (other sd) (Z.of_nat j) >? mt_acq th then Some (Oops DataRace) else
        Some (Done (MThread buf' (mt_len th) (if i + 1 =? n then ml_publish n else ml_copy n (i + 1)) (mt_acq th),
                    MShared d' (h_pub s) (h_hist s)
                      (on_side sd (fun x => if x =? Z.of_nat j then h_pub s sd + n else h_stamp s sd x)
                               (h_stamp s))))
      end
    | ml_publish n, Go =>
      Some (Done (MThread (mt_buf th) (mt_len th) (ml_ret n) (mt_acq th),
                  MShared (ml_store sd n c (h_dev s)) (on_side sd (h_pub s sd + n) (h_pub s))
                    (on_side sd ((h_pub s sd + n) :: h_hist s sd) (h_hist s)) (h_stamp s)))
    | _, _ => None
    end
  end.

Record msys := MSys { ms_th : side -> mthread; ms_sh : mshared }.

Definition ml_next (m : kbuf_map) (ch : pick) (sd : side) (σ : msys) : option (exec msys) :=
  (fun e => exec_bind e (fun '(th', s') => Done (MSys (on_side sd th' (ms_th σ)) s')))
    <$> ml_step m sd ch (ms_th σ sd) (ms_sh σ).

(** A new call: [kbuf_map_write(m, bs, len)] or [kbuf_map_read(m, buf, n)]. *)
Definition ml_enter (sd : side) (bs : list byte) (n acq : Z) : mthread :=
  match sd with
  | Writer => MThread bs (Z.of_nat (length bs)) ml_load acq
  | Reader => MThread [] n ml_load acq
  end.

(** The bytes a step puts into or takes out of the stream. *)
Definition ml_moved (th : mthread) : list byte :=
  match mt_pc th with ml_publish n => take (Z.to_nat n) (mt_buf th) | _ => [] end.

(** A thread moves, or one that has returned calls again.  [i] and [o] are the
    bytes published and taken. *)
Inductive ml_sys_step (m : kbuf_map) : msys -> list byte -> list byte -> msys -> Prop :=
  | mls_write ch σ σ' :
      ml_next m ch Writer σ = Some (Done σ') -> ml_sys_step m σ (ml_moved (ms_th σ Writer)) [] σ'
  | mls_read ch σ σ' :
      ml_next m ch Reader σ = Some (Done σ') -> ml_sys_step m σ [] (ml_moved (ms_th σ Reader)) σ'
  | mls_call σ sd r bs n :
      mt_pc (ms_th σ sd) = ml_ret r -> 0 <= n ->
      ml_sys_step m σ [] [] (MSys (on_side sd (ml_enter sd bs n (mt_acq (ms_th σ sd))) (ms_th σ)) (ms_sh σ)).

Inductive ml_run (m : kbuf_map) : msys -> list byte -> list byte -> msys -> Prop :=
  | mlr_nil σ : ml_run m σ [] [] σ
  | mlr_snoc σ i o σ1 i' o' σ2 :
      ml_run m σ i o σ1 -> ml_sys_step m σ1 i' o' σ2 -> ml_run m σ (i ++ i') (o ++ o') σ2.

(** Two callers about to begin on the ring of [d], with nothing in flight. *)
Definition ml_start (d : kbuf_dev) (bs : list byte) (n : Z) : msys :=
  let t0 := match mmap_ctrl d with Some c => tail c | None => 0 end in
  let pub sd := match sd with
                | Reader => t0
                | Writer => t0 + Z.of_nat (length (map_stream d))
                end in
  MSys (fun sd => ml_enter sd bs n (pub (other sd)))
       (MShared d pub (fun sd => [pub sd]) (fun _ _ => t0 - KBUF_MMAP_CAPACITY)).
End lib.

(** ** The invariant *)
Abbreviation CAP := KBUF_MMAP_CAPACITY.

(** How far a side may run ahead of the peer's counter. *)
Definition lead (sd : side) : Z := match sd with Reader => 0 | Writer => CAP end.

(** Bytes of the transfer in progress: those done, and all of them. *)
Definition ml_done (th : mthread) : Z :=
  match mt_pc th with ml_copy _ i => i | ml_publish n => n | _ => 0 end.

Definition ml_pending (th : mthread) : Z :=
  match mt_pc th with ml_copy n _ | ml_publish n => n | _ => 0 end.

(** What has been copied so far is in the ring, or came out of it. *)
Definition copied (sd : side) (th : mthread) (ring : list byte) (pub i : Z) : Prop :=
  match sd with
  | Writer => window CAP ring pub (Z.to_nat i) = take (Z.to_nat i) (mt_buf th) /\
              ml_pending th <= Z.of_nat (length (mt_buf th))
  | Reader => window CAP ring pub (Z.to_nat i) = mt_buf th
  end.

Record mth_ok (sd : side) (th : mthread) (s : mshared) (ring : list byte) : Prop := {
  mk_acq : mt_acq th ∈ h_hist s (other sd);
  mk_lead : h_pub s sd + ml_pending th <= mt_acq th + lead sd;
  mk_done : 0 <= ml_done th <= ml_pending th;
  mk_len : 0 <= mt_len th;
  mk_pc : match mt_pc th with
          | ml_load => match sd with
                       | Writer => mt_len th = Z.of_nat (length (mt_buf th))
                       | Reader => mt_buf th = []
                       end
          | ml_copy n i => i < n /\ copied sd th ring (h_pub s sd) i
          | ml_publish n => 0 < n /\ copied sd th ring (h_pub s sd) n
          | ml_ret _ => True
          end
}.

Record ml_inv (σ : msys) (c : kbuf_mmap_ctrl) (buf : kbuffer) : Prop := {
  li_map : mapped (h_dev (ms_sh σ)) c buf;
  li_cnt sd : own_count sd c = u64 (h_pub (ms_sh σ) sd);
  li_hist sd b : b ∈ h_hist (ms_sh σ) sd -> b <= h_pub (ms_sh σ) sd;
  li_pub sd : h_pub (ms_sh σ) sd ∈ h_hist (ms_sh σ) sd;
  li_th sd : mth_ok sd (ms_th σ sd) (ms_sh σ) (kb_bytes buf);
  li_stamp sd j : h_stamp (ms_sh σ) sd j <= h_pub (ms_sh σ) sd + ml_pending (ms_th σ sd);
  li_order sd g b : b ∈ h_hist (ms_sh σ) sd ->
    h_pub (ms_sh σ) sd + ml_done (ms_th σ sd) - CAP <= g < b -> h_stamp (ms_sh σ) sd (g mod CAP) <= b
}.
