(* ===== verification/LibSpscFacts.v ===== *)
(** * LibSpscFacts: the invariant of the two mapped processes

    Every step of LibSpsc.v keeps [ml_inv] and moves the bytes it says it moves. *)

From S2P Require Import Prelude Kernel Uapi Device Alloc Mmap LibKbuf Machine Spsc SpscFacts LibSpsc.
#[local] Open Scope Z_scope.

(** A write at or past the end of a window leaves it alone. *)
Lemma window_insert_ge {A} n (l : list A) start k i x :
  0 < n -> Z.of_nat k <= i < n ->
  window n (<[ring_idx n start i := x]> l) start k = window n l start k.
Proof.
  intros Hn Hi. unfold window. apply list_omap_ext, Forall_Forall2_diag, Forall_forall.
  intros j Hj%elem_of_seq. rewrite list_lookup_insert_ne; [done |].
  intros Heq. apply (ring_idx_inj n Hn start) in Heq; lia.
Qed.

Lemma cap_pos : 0 < CAP.
Proof. done. Qed.

Lemma u64_count_diff a b : 0 <= a - b <= CAP -> u64 (u64 a - u64 b) = a - b.
Proof.
  intros Hd. unfold u64. rewrite Zminus_mod_idemp_l, Zminus_mod_idemp_r.
  apply Z.mod_small. unfold KBUF_MMAP_CAPACITY in *. lia.
Qed.

Section facts.
Context `{PagingLaws}.
Implicit Types (σ : msys) (th : mthread) (s : mshared).

(** Neither side overtakes the other, transfers in progress included. *)
Lemma ml_pubs σ c buf sd :
  ml_inv σ c buf ->
  h_pub (ms_sh σ) sd + ml_pending (ms_th σ sd) <= h_pub (ms_sh σ) (other sd) + lead sd.
Proof.
  intros Hi. pose proof (li_th σ c buf Hi sd) as [Ha Hl _ _ _].
  apply (li_hist σ c buf Hi) in Ha. lia.
Qed.

Lemma ml_pending_pos sd th s ring : mth_ok sd th s ring -> 0 <= ml_pending th.
Proof. intros [_ _ Hd _ _]. lia. Qed.

Lemma ml_range σ c buf :
  ml_inv σ c buf ->
  h_pub (ms_sh σ) Reader + ml_pending (ms_th σ Reader) <= h_pub (ms_sh σ) Writer /\
  h_pub (ms_sh σ) Writer + ml_pending (ms_th σ Writer) <= h_pub (ms_sh σ) Reader + CAP /\
  0 <= ml_pending (ms_th σ Reader) /\ 0 <= ml_pending (ms_th σ Writer).
Proof.
  intros Hi. pose proof (ml_pubs σ c buf Reader Hi). pose proof (ml_pubs σ c buf Writer Hi).
  pose proof (ml_pending_pos _ _ _ _ (li_th σ c buf Hi Reader)).
  pose proof (ml_pending_pos _ _ _ _ (li_th σ c buf Hi Writer)). cbn [other lead] in *. lia.
Qed.

(** No transfer is longer than the ring. *)
Lemma ml_pending_cap σ c buf sd : ml_inv σ c buf -> ml_pending (ms_th σ sd) <= CAP.
Proof. intros Hi. pose proof (ml_range σ c buf Hi). destruct sd; lia. Qed.

Lemma ml_stream_window σ c buf :
  ml_inv σ c buf ->
  map_stream (h_dev (ms_sh σ))
  = window CAP (kb_bytes buf) (h_pub (ms_sh σ) Reader)
      (Z.to_nat (h_pub (ms_sh σ) Writer - h_pub (ms_sh σ) Reader)).
Proof.
  intros Hi. pose proof (ml_range σ c buf Hi) as (H1 & H2 & H3 & H4).
  rewrite (stream_window _ _ _ (li_map σ c buf Hi)).
  rewrite (li_cnt σ c buf Hi Writer : head c = _), (li_cnt σ c buf Hi Reader : tail c = _).
  rewrite u64_count_diff by lia. apply window_congr; [done | apply u64_ring].
Qed.

(** The amount computed from any value the peer's counter may load as. *)
Lemma ml_amount_ok σ c buf sd base v :
  ml_inv σ c buf -> mt_pc (ms_th σ sd) = ml_load ->
  mt_acq (ms_th σ sd) <= v -> v ∈ h_hist (ms_sh σ) (other sd) ->
  let n := ml_amount (user_map base) sd (mt_len (ms_th σ sd)) v c in
  0 <= n <= mt_len (ms_th σ sd) /\ h_pub (ms_sh σ) sd + n <= v + lead sd.
Proof.
  intros Hi Hpc Hv Hh. pose proof (li_hist σ c buf Hi _ _ Hh) as Hle.
  pose proof (ml_range σ c buf Hi) as (H1 & H2 & H3 & H4).
  pose proof (li_th σ c buf Hi sd) as [Ha Hl Hd Hn _]. unfold ml_pending in Hl. rewrite Hpc in Hl.
  unfold ml_amount. cbn [m_cap user_map]. rewrite clamp_min.
  destruct sd; cbn [other lead] in *.
  - rewrite (li_cnt σ c buf Hi Reader : tail c = _), u64_count_diff by lia. lia.
  - rewrite (li_cnt σ c buf Hi Writer : head c = _), u64_count_diff by lia.
    rewrite u64_small by (unfold in_u64, KBUF_MMAP_CAPACITY in *; lia). lia.
Qed.

(** The physical byte a copy touches. *)
Lemma ml_addr c buf d sd pub i base :
  mapped d c buf -> own_count sd c = u64 pub -> 0 <= i < CAP ->
  let x := pub mod CAP + i in
  m_data (user_map base) + Z.land (own_count sd c) (m_cap (user_map base) - 1) + i = PAGE_SIZE + x /\
  0 <= x < 2 * CAP /\ Z.to_nat (x mod CAP) = ring_idx CAP pub i /\
  (resolve d (PAGE_SIZE + x) ≫= data_offset d) = Some (ring_idx CAP pub i).
Proof.
  intros M Hc Hi x. pose proof (Z.mod_pos_bound pub CAP cap_pos) as Hp.
  assert (Hx : 0 <= x < 2 * CAP) by lia.
  assert (Hm : x mod CAP = (pub + i) mod CAP) by (unfold x; apply Z.add_mod_idemp_l; done).
  cbn [m_data m_cap user_map]. rewrite Hc, land_ring, u64_ring. split; [unfold x; lia |].
  split; [done |]. split; [unfold ring_idx; by rewrite Hm |].
  destruct (resolve_data d c buf x M Hx) as (p & -> & Hp'). cbn [mbind option_bind].
  unfold data_offset. rewrite (mp_data _ _ _ M). cbn. rewrite decide_True by done.
  cbn. unfold ring_idx. by rewrite Hp', Hm.
Qed.

Definition store_byte (buf : kbuffer) (j : nat) (b : byte) : kbuffer := KBuffer (kb_ptr buf) (<[j := b]> (kb_bytes buf)).

(** What one byte of the copy does. *)
Lemma ml_byte_run c buf d sd pub i base bs :
  mapped d c buf -> own_count sd c = u64 pub -> 0 <= i < CAP ->
  (sd = Writer -> i < Z.of_nat (length bs)) ->
  exists b, match sd with Writer => bs !! Z.to_nat i | Reader => kb_bytes buf !! ring_idx CAP pub i end = Some b /\
    ml_byte (user_map base) sd i c bs d
    = Some (ring_idx CAP pub i,
            match sd with Writer => bs | Reader => bs ++ [b] end,
            match sd with
            | Writer => d <| mmap_data := Some (store_byte buf (ring_idx CAP pub i) b) |>
            | Reader => d
            end).
Proof.
  intros M Hc Hi Hw. destruct (ml_addr c buf d sd pub i base M Hc Hi) as (Ha & Hx & Hj & Hr).
  unfold ml_byte. rewrite Ha. destruct (resolve d _) as [pi |]; [| done]. cbn [mbind option_bind] in *.
  rewrite Hr. destruct sd.
  - destruct (lookup_lt_is_Some_2 (kb_bytes buf) (ring_idx CAP pub i)) as [b Hb].
    { pose proof (ring_idx_lt CAP cap_pos pub i). pose proof (mp_len _ _ _ M). lia. }
    exists b. split; [done |]. rewrite (map_load_data d c buf _ M Hx), Hj, Hb. done.
  - destruct (lookup_lt_is_Some_2 bs (Z.to_nat i)) as [b Hb]; [specialize (Hw eq_refl); lia |].
    exists b. split; [done |]. rewrite Hb. cbn. rewrite (map_store_data d c buf _ b M Hx), Hj. done.
Qed.

Lemma store_byte_mapped d c buf j b :
  mapped d c buf -> mapped (d <| mmap_data := Some (store_byte buf j b) |>) c (store_byte buf j b).
Proof. intros M. apply mapped_write; [done | apply length_insert]. Qed.

(** ** Steps *)

(** A good step of [sd]: it finishes, in the invariant, and the stream gained or
    lost exactly the bytes it moved. *)
Definition ml_good σ sd (e : exec (mthread * mshared)) : Prop :=
  exists th' s' c' buf', e = Done (th', s') /\
    ml_inv (MSys (on_side sd th' (ms_th σ)) s') c' buf' /\
    match sd with
    | Writer => map_stream (h_dev s') = map_stream (h_dev (ms_sh σ)) ++ ml_moved (ms_th σ sd)
    | Reader => map_stream (h_dev (ms_sh σ)) = ml_moved (ms_th σ sd) ++ map_stream (h_dev s')
    end.

Lemma side_cases (x sd : side) : x = sd \/ x = other sd.
Proof. destruct x, sd; tauto. Qed.

Ltac by_side x sd :=
  destruct (side_cases x sd) as [-> | ->]; rewrite ?on_side_eq, ?on_side_other, ?other_other.

Lemma load_good σ sd base c buf v e :
  ml_inv σ c buf -> mt_pc (ms_th σ sd) = ml_load ->
  ml_step (user_map base) sd (See v) (ms_th σ sd) (ms_sh σ) = Some e -> ml_good σ sd e.
Proof.
  intros Hi Hpc. unfold ml_step. rewrite (mp_ctrl _ _ _ (li_map σ c buf Hi)), Hpc.
  destruct (Z.leb_spec (mt_acq (ms_th σ sd)) v) as [Hv |]; [| done]. cbn [andb].
  case_bool_decide as Hh; [| done]. intros [= <-].
  destruct (ml_amount_ok σ c buf sd base v Hi Hpc Hv Hh) as [Hn Hl].
  set (n := ml_amount _ _ _ _ _) in *. eexists _, _, c, buf. split; [done |].
  assert (Hmv : ml_moved (ms_th σ sd) = []) by (unfold ml_moved; by rewrite Hpc).
  split; [| rewrite Hmv; destruct sd; by rewrite ?app_nil_r].
  set (th' := MThread _ _ _ _).
  assert (Hd : ml_done th' = 0 /\ ml_done (ms_th σ sd) = 0)
    by (unfold ml_done, th'; cbn; rewrite Hpc; by destruct (n =? 0)).
  assert (Hp : ml_pending th' = n /\ ml_pending (ms_th σ sd) = 0).
  { unfold ml_pending, th'. cbn. rewrite Hpc. split; [| done]. destruct (Z.eqb_spec n 0); lia. }
  destruct Hd as [Hd Hd0], Hp as [Hp Hp0].
  pose proof Hi as [Hm Hc Hhi Hpu Ht Hst Hor]. split; cbn [ms_sh ms_th]; try done.
  - intros x. by_side x sd; [| apply Ht]. destruct (Ht sd) as [_ _ _ Hlen Hk]. rewrite Hpc in Hk.
    split; cbn [mt_acq mt_len th']; rewrite ?Hd, ?Hp; try (done || lia).
    cbn [mt_pc th']. destruct (Z.eqb_spec n 0); [done |]. split; [lia |].
    destruct sd; cbn [copied]; [unfold th'; cbn; by rewrite Hk |].
    split; [done |]. rewrite Hp. unfold th'. cbn [mt_buf]. lia.
  - intros x j. by_side x sd; [rewrite Hp; specialize (Hst sd j); lia | apply Hst].
  - intros x g b Hb. by_side x sd; [rewrite Hd | apply Hor, Hb]. intros Hg. apply Hor; [done | lia].
Qed.

(** The accesses of the other side are behind us. *)
Lemma copy_ordered σ sd c buf n i :
  ml_inv σ c buf -> mt_pc (ms_th σ sd) = ml_copy n i ->
  h_stamp (ms_sh σ) (other sd) (Z.of_nat (ring_idx CAP (h_pub (ms_sh σ) sd) i)) <= mt_acq (ms_th σ sd).
Proof.
  intros Hi Hpc. pose proof (li_th σ c buf Hi sd) as [Ha Hl Hd _ Hk]. unfold ml_pending, ml_done in Hl, Hd.
  rewrite Hpc in Hl, Hd, Hk. pose proof (ml_pubs σ c buf (other sd) Hi) as Hpeer. rewrite other_other in Hpeer.
  pose proof (mk_done _ _ _ _ (li_th σ c buf Hi (other sd))) as Hdo.
  unfold ring_idx. rewrite Z2Nat.id by (apply Z.mod_pos_bound; done).
  set (p := h_pub (ms_sh σ) sd + i).
  assert (Hmod : p mod CAP = (p - lead sd) mod CAP).
  { destruct sd; cbn [lead]; [by rewrite Z.sub_0_r |].
    replace (p - CAP) with (p + (-1) * CAP) by lia. by rewrite Z.mod_add. }
  rewrite Hmod. apply (li_order σ c buf Hi); [done |].
  assert (lead sd + lead (other sd) = CAP) by (by destruct sd). lia.
Qed.

(** The ring after the byte. *)
Definition ml_ring (sd : side) (buf : kbuffer) (j : nat) (b : byte) : kbuffer :=
  match sd with Writer => store_byte buf j b | Reader => buf end.

(** The writer's byte is outside what the reader may look at. *)
Lemma ml_ring_kept sd buf w r i b k :
  0 <= i -> r <= w -> w + i < r + CAP -> Z.of_nat k <= w - r ->
  window CAP (kb_bytes (ml_ring sd buf (ring_idx CAP w i) b)) r k = window CAP (kb_bytes buf) r k.
Proof.
  intros Hi Hrw Hc Hk. destruct sd; [done |]. cbn [ml_ring store_byte kb_bytes].
  replace w with (r + (w - r)) at 1 by lia. rewrite ring_idx_shift. apply window_insert_ge; [done | lia].
Qed.

(** One more byte of the transfer is done. *)
Lemma copied_next sd th th' buf pub i b :
  0 <= i < CAP -> Z.of_nat (length (kb_bytes buf)) = CAP -> copied sd th (kb_bytes buf) pub i ->
  match sd with Writer => mt_buf th !! Z.to_nat i | Reader => kb_bytes buf !! ring_idx CAP pub i end = Some b ->
  mt_buf th' = match sd with Writer => mt_buf th | Reader => mt_buf th ++ [b] end ->
  ml_pending th' = ml_pending th ->
  copied sd th' (kb_bytes (ml_ring sd buf (ring_idx CAP pub i) b)) pub (i + 1).
Proof.
  intros Hi Hlen Hcp Hb Hbuf Hp. unfold copied in *. rewrite Hbuf, ?Hp.
  replace (Z.to_nat (i + 1)) with (S (Z.to_nat i)) by lia. destruct sd; cbn [ml_ring store_byte kb_bytes].
  - rewrite (window_snoc CAP _ pub _ b), Hcp; [done |]. by rewrite Z2Nat.id by lia.
  - destruct Hcp as [Hw Hn]. split; [| done].
    replace (ring_idx CAP pub i) with (ring_idx CAP pub (Z.of_nat (Z.to_nat i))) by (by rewrite Z2Nat.id by lia).
    rewrite window_push by (done || lia). by rewrite Hw, (take_S_r _ _ _ Hb).
Qed.

(** Two positions less than a lap apart never share a byte. *)
Lemma lap_apart g pub i : - CAP < g - (pub + i) < 0 -> g mod CAP <> Z.of_nat (ring_idx CAP pub i).
Proof.
  intros Hg. unfold ring_idx. rewrite Z2Nat.id by (apply Z.mod_pos_bound; done). intros E.
  pose proof (Z.div_mod g CAP ltac:(done)) as Dg. pose proof (Z.div_mod (pub + i) CAP ltac:(done)) as Dp.
  rewrite E in *. clear -Hg Dg Dp. unfold KBUF_MMAP_CAPACITY in *. lia.
Qed.

Lemma ml_copy_good σ sd base c buf n i e :
  ml_inv σ c buf -> mt_pc (ms_th σ sd) = ml_copy n i ->
  ml_step (user_map base) sd Go (ms_th σ sd) (ms_sh σ) = Some e -> ml_good σ sd e.
Proof.
  intros Hi Hpc. pose proof (ml_pending_cap σ c buf sd Hi) as Hcap.
  pose proof (copy_ordered σ sd c buf n i Hi Hpc) as Hord. pose proof (ml_range σ c buf Hi) as (R1 & R2 & R3 & R4).
  pose proof Hi as [Hm Hc Hhi Hpu Ht Hst Hor]. pose proof (Ht sd) as [Ha Hl Hd Hlen Hk].
  assert (Hpn : ml_pending (ms_th σ sd) = n) by (unfold ml_pending; by rewrite Hpc).
  assert (Hdn : ml_done (ms_th σ sd) = i) by (unfold ml_done; by rewrite Hpc).
  rewrite Hpc in Hk. destruct Hk as [Hin Hcp]. rewrite Hpn in Hcap, Hl, Hd. rewrite Hdn in Hd.
  destruct (ml_byte_run c buf (h_dev (ms_sh σ)) sd (h_pub (ms_sh σ) sd) i base (mt_buf (ms_th σ sd)) Hm (Hc sd) ltac:(lia))
    as (b & Hb & Hrun).
  { intros ->. cbn [copied] in Hcp. rewrite Hpn in Hcp. lia. }
  unfold ml_step. rewrite (mp_ctrl _ _ _ Hm), Hpc, Hrun. set (j := ring_idx _ _ _) in *.
  destruct (Z.gtb_spec (h_stamp (ms_sh σ) (other sd) (Z.of_nat j)) (mt_acq (ms_th σ sd))); [lia |]. intros [= <-].
  set (th' := MThread _ _ _ _). set (s' := MShared _ _ _ _).
  assert (Hp' : ml_pending th' = n) by (unfold ml_pending, th'; cbn; by destruct (i + 1 =? n)).
  assert (Hd' : ml_done th' = i + 1)
    by (unfold ml_done, th'; cbn; destruct (Z.eqb_spec (i + 1) n); lia).
  pose proof (copied_next sd (ms_th σ sd) th' buf _ i b ltac:(lia) (mp_len _ _ _ Hm) Hcp Hb eq_refl
                ltac:(congruence)) as Hcp'. fold j in Hcp'.
  assert (Hkeep : forall k, Z.of_nat k <= h_pub (ms_sh σ) Writer - h_pub (ms_sh σ) Reader ->
            window CAP (kb_bytes (ml_ring sd buf j b)) (h_pub (ms_sh σ) Reader) k
            = window CAP (kb_bytes buf) (h_pub (ms_sh σ) Reader) k).
  { intros k Hk. unfold j. destruct sd; [done |]. rewrite Hpn in R2. apply ml_ring_kept; lia. }
  assert (Hinv : ml_inv (MSys (on_side sd th' (ms_th σ)) s') c (ml_ring sd buf j b)).
  { split; cbn [ms_sh ms_th].
    1: unfold s'; cbn [h_dev]; destruct sd; [done | by apply store_byte_mapped].
    1: exact Hc. 1: exact Hhi. 1: exact Hpu.
    - intros x. by_side x sd.
      + split; cbn [mt_acq mt_len th' s' h_hist h_pub]; rewrite ?Hp', ?Hd'; try (done || lia).
        cbn [mt_pc]. destruct (Z.eqb_spec (i + 1) n) as [<- | Hne]; (split; [lia | exact Hcp']).
      + pose proof (Ht (other sd)) as [Ha2 Hl2 Hd2 Hlen2 Hk2]. split; [done | done | done | done |].
        cbn [s' h_pub]. destruct sd; cbn [other ml_ring] in *; [exact Hk2 |].
        unfold copied, ml_pending in *. destruct (mt_pc (ms_th σ Reader)); try done; rewrite Hkeep by lia; exact Hk2.
    - intros x y. cbn [s' h_stamp h_pub]. by_side x sd; [| apply Hst]. rewrite Hp'.
      specialize (Hst sd y). rewrite Hpn in Hst. destruct (y =? Z.of_nat j); lia.
    - intros x g b0 Hb0. cbn [s' h_stamp h_pub h_hist] in *. by_side x sd; [| by apply Hor].
      rewrite Hd'. intros Hg. destruct (Z.eqb_spec (g mod CAP) (Z.of_nat j)) as [E |].
      + exfalso. apply Hhi in Hb0. by apply (lap_apart g (h_pub (ms_sh σ) sd) i); [lia |].
      + apply Hor; [done |]. rewrite Hdn. lia. }
  eexists th', s', c, _. split; [done |]. split; [exact Hinv |].
  assert (Hmv : ml_moved (ms_th σ sd) = []) by (unfold ml_moved; by rewrite Hpc).
  pose proof (ml_stream_window _ _ _ Hinv) as Hs. cbn [ms_sh s' h_pub] in Hs.
  rewrite Hmv, Hs, (ml_stream_window _ _ _ Hi), Hkeep by lia. destruct sd; by rewrite ?app_nil_r.
Qed.

(** The counter in the control page follows the published bytes. *)
Lemma store_counts d c buf sd n pub :
  mapped d c buf -> own_count sd c = u64 pub ->
  exists c', mapped (ml_store sd n c d) c' buf /\ own_count sd c' = u64 (pub + n) /\
    own_count (other sd) c' = own_count (other sd) c.
Proof.
  intros [Hc Hd Hl Ha] Hp. unfold ml_store, set_head, set_tail. destruct sd; rewrite Hc; eexists;
    (split; [split; [reflexivity | exact Hd | exact Hl | exact Ha] |]); cbn in *; rewrite Hp; split; try done;
    unfold u64; apply Zplus_mod_idemp_l.
Qed.

Lemma ml_publish_good σ sd base c buf n e :
  ml_inv σ c buf -> mt_pc (ms_th σ sd) = ml_publish n ->
  ml_step (user_map base) sd Go (ms_th σ sd) (ms_sh σ) = Some e -> ml_good σ sd e.
Proof.
  intros Hi Hpc. pose proof (ml_range σ c buf Hi) as (R1 & R2 & R3 & R4).
  pose proof Hi as [Hm Hc Hhi Hpu Ht Hst Hor]. pose proof (Ht sd) as [Ha Hl Hd Hlen Hk].
  assert (Hpn : ml_pending (ms_th σ sd) = n) by (unfold ml_pending; by rewrite Hpc).
  assert (Hdn : ml_done (ms_th σ sd) = n) by (unfold ml_done; by rewrite Hpc).
  rewrite Hpc in Hk. destruct Hk as [Hn Hcp]. rewrite Hpn in Hl.
  destruct (store_counts _ c buf sd n _ Hm (Hc sd)) as (c' & Hm' & Hc1 & Hc2).
  unfold ml_step. rewrite (mp_ctrl _ _ _ Hm), Hpc. intros [= <-].
  set (th' := MThread _ _ _ _). set (s' := MShared _ _ _ _).
  assert (Hinv : ml_inv (MSys (on_side sd th' (ms_th σ)) s') c' buf).
  { split; cbn [ms_sh ms_th s' h_dev h_pub h_hist h_stamp].
    - exact Hm'.
    - intros x. by_side x sd; [exact Hc1 | by rewrite Hc2, Hc].
    - intros x b. by_side x sd; [| apply Hhi]. intros [-> | Hb%Hhi]%elem_of_cons; lia.
    - intros x. by_side x sd; [by left | apply Hpu].
    - intros x. by_side x sd.
      + split; unfold ml_done, ml_pending; cbn [th' s' mt_acq mt_len mt_pc h_hist h_pub]; rewrite ?on_side_eq, ?on_side_other; try (done || lia).
      + destruct (Ht (other sd)) as [Ha2 Hl2 Hd2 Hlen2 Hk2]. rewrite other_other in Ha2.
        split; cbn [s' h_hist h_pub]; rewrite ?other_other, ?on_side_eq, ?on_side_other; try done. by right.
    - intros x y. by_side x sd; [| apply Hst]. specialize (Hst sd y). cbn. lia.
    - intros x g b. by_side x sd; [| apply Hor]. intros Hb Hg. specialize (Hst sd (g mod CAP)).
      cbn [th' ml_done mt_pc] in Hg. apply elem_of_cons in Hb as [-> | Hb]; [lia |].
      apply Hor; [done |]. lia. }
  eexists th', s', c', buf. split; [done |]. split; [exact Hinv |].
  pose proof (ml_stream_window _ _ _ Hinv) as Hs. cbn [ms_sh s' h_pub h_dev] in Hs.
  pose proof (ml_stream_window _ _ _ Hi) as Hs0. unfold ml_moved. rewrite Hpc.
  destruct sd; cbn [copied other] in *; rewrite on_side_eq in Hs;
    rewrite (on_side_ne _ _ _ (h_pub (ms_sh σ)) : _ -> _ = _) in Hs by done; cbn [s' h_dev]; rewrite Hs, Hs0.
  - rewrite <- Hcp, take_ge by (rewrite length_window; (done || apply Hm)).
    rewrite <- (Z2Nat.id n) at 2 by lia. rewrite <- window_split. f_equal. lia.
  - destruct Hcp as [Hw _]. rewrite <- Hw.
    replace (h_pub (ms_sh σ) Writer) with (h_pub (ms_sh σ) Reader
      + Z.of_nat (Z.to_nat (h_pub (ms_sh σ) Writer - h_pub (ms_sh σ) Reader))) at 3 by lia.
    rewrite <- window_split. f_equal. lia.
Qed.

(** ** Runs *)
Lemma ml_step_good σ sd base c buf ch e :
  ml_inv σ c buf -> ml_step (user_map base) sd ch (ms_th σ sd) (ms_sh σ) = Some e -> ml_good σ sd e.
Proof.
  intros Hi Hst. pose proof (mp_ctrl _ _ _ (li_map σ c buf Hi)) as Hc.
  destruct (mt_pc (ms_th σ sd)) eqn:E; destruct ch; try (unfold ml_step in Hst; by rewrite Hc, E in Hst).
  - by eapply load_good.
  - by eapply ml_copy_good.
  - by eapply ml_publish_good.
Qed.

Lemma ml_next_good σ sd base c buf ch e :
  ml_inv σ c buf -> ml_next (user_map base) ch sd σ = Some e ->
  exists σ' c' buf', e = Done σ' /\ ml_inv σ' c' buf' /\
    match sd with
    | Writer => map_stream (h_dev (ms_sh σ')) = map_stream (h_dev (ms_sh σ)) ++ ml_moved (ms_th σ sd)
    | Reader => map_stream (h_dev (ms_sh σ)) = ml_moved (ms_th σ sd) ++ map_stream (h_dev (ms_sh σ'))
    end.
Proof.
  intros Hi Hn. unfold ml_next in Hn.
  destruct (ml_step (user_map base) sd ch (ms_th σ sd) (ms_sh σ)) as [e0 |] eqn:Hst; [| done].
  destruct (ml_step_good σ sd base c buf ch e0 Hi Hst) as (th' & s' & c' & buf' & -> & Hinv & Hs).
  cbn in Hn. injection Hn as <-. eexists _, c', buf'. split; [done |]. split; [exact Hinv | exact Hs].
Qed.

(** A new call by a side that has returned. *)
Lemma ml_call_inv σ c buf sd r bs n :
  ml_inv σ c buf -> mt_pc (ms_th σ sd) = ml_ret r -> 0 <= n ->
  ml_inv (MSys (on_side sd (ml_enter sd bs n (mt_acq (ms_th σ sd))) (ms_th σ)) (ms_sh σ)) c buf.
Proof.
  intros Hi Hpc Hn. pose proof Hi as [Hm Hc Hhi Hpu Ht Hst Hor].
  assert (Hz : forall th, (exists r, mt_pc th = ml_ret r) \/ mt_pc th = ml_load -> ml_done th = 0 /\ ml_pending th = 0).
  { intros th [[r' E] | E]; unfold ml_done, ml_pending; by rewrite E. }
  destruct (Hz (ms_th σ sd)) as [Hd0 Hp0]; [left; by exists r |].
  set (th' := ml_enter sd bs n (mt_acq (ms_th σ sd))).
  destruct (Hz th') as [Hd1 Hp1]; [right; by destruct sd |].
  split; cbn [ms_sh ms_th]; try done.
  - intros x. by_side x sd; [| apply Ht]. destruct (Ht sd) as [Ha Hl Hd Hlen _].
    split; rewrite ?Hd1, ?Hp1; try (done || lia).
    + by destruct sd.
    + rewrite Hp0 in Hl. by destruct sd.
    + destruct sd; cbn; lia.
    + by destruct sd.
  - intros x j. by_side x sd; [| apply Hst]. rewrite Hp1. specialize (Hst sd j). lia.
  - intros x g b Hb. by_side x sd; [| by apply Hor]. rewrite Hd1. intros Hg. apply Hor; [done | lia].
Qed.

Lemma ml_sys_step_inv σ base c buf i o σ' :
  ml_inv σ c buf -> ml_sys_step (user_map base) σ i o σ' ->
  exists c' buf', ml_inv σ' c' buf' /\
    map_stream (h_dev (ms_sh σ)) ++ i = o ++ map_stream (h_dev (ms_sh σ')).
Proof.
  intros Hi Hst. destruct Hst as [ch σ σ' Hn | ch σ σ' Hn | σ sd r bs n Hpc Hn].
  - destruct (ml_next_good _ _ _ _ _ _ _ Hi Hn) as (σ'' & c' & buf' & [= <-] & Hi' & Hs).
    exists c', buf'. split; [done |]. by rewrite Hs.
  - destruct (ml_next_good _ _ _ _ _ _ _ Hi Hn) as (σ'' & c' & buf' & [= <-] & Hi' & Hs).
    exists c', buf'. split; [done |]. by rewrite Hs, app_nil_r.
  - exists c, buf. split; [by eapply ml_call_inv | by rewrite app_nil_r].
Qed.

Lemma ml_run_inv σ base c buf i o σ' :
  ml_inv σ c buf -> ml_run (user_map base) σ i o σ' ->
  exists c' buf', ml_inv σ' c' buf' /\
    map_stream (h_dev (ms_sh σ)) ++ i = o ++ map_stream (h_dev (ms_sh σ')).
Proof.
  intros Hi Hrun. induction Hrun as [σ | σ i o σ1 i' o' σ2 Hrun IH Hst].
  { exists c, buf. split; [done |]. by rewrite app_nil_r. }
  destruct (IH Hi) as (c1 & buf1 & Hi1 & Hq1).
  destruct (ml_sys_step_inv _ _ _ _ _ _ _ Hi1 Hst) as (c2 & buf2 & Hi2 & Hq2).
  exists c2, buf2. split; [done |]. by rewrite app_assoc, Hq1, <- !app_assoc, Hq2.
Qed.

Lemma ml_start_inv d c buf bs n :
  map_ok d c buf -> 0 <= n -> ml_inv (ml_start d bs n) c buf.
Proof.
  intros Hok Hn. pose proof Hok as [Hm Hh Ht Ho]. pose proof (length_stream d c buf Hok) as Hl.
  pose proof (u64_range (head c - tail c)) as [Hr _].
  unfold ml_start. rewrite (mp_ctrl _ _ _ Hm), Hl.
  split; cbn [ms_sh ms_th h_dev h_pub h_hist h_stamp].
  - done.
  - intros []; cbn [own_count]; [by rewrite u64_small |].
    unfold u64. rewrite Zplus_mod_idemp_r, Z.mod_small; unfold in_u64 in *; lia.
  - intros sd b Hb. by apply list_elem_of_singleton in Hb as ->.
  - intros sd. by left.
  - intros sd. split; cbn [h_hist h_pub]; destruct sd; cbn; try (done || lia); by left.
  - intros sd j. destruct sd; cbn; unfold KBUF_MMAP_CAPACITY; lia.
  - intros sd g b Hb Hg. apply list_elem_of_singleton in Hb as ->. destruct sd; cbn in *; lia.
Qed.

(** ** Progress *)

(** How many steps of its own a call has left at most. *)
Definition ml_left th : Z :=
  match mt_pc th with
  | ml_load => CAP + 2
  | ml_copy n i => n - i + 1
  | ml_publish _ => 1
  | ml_ret _ => 0
  end.

Lemma ml_enabled σ sd base c buf :
  ml_inv σ c buf -> (forall r, mt_pc (ms_th σ sd) <> ml_ret r) ->
  exists ch σ', ml_next (user_map base) ch sd σ = Some (Done σ').
Proof.
  intros Hi Hpc. pose proof (mp_ctrl _ _ _ (li_map σ c buf Hi)) as Hc.
  assert (exists ch e, ml_next (user_map base) ch sd σ = Some e) as (ch & e & Hn).
  { unfold ml_next, ml_step. rewrite Hc. destruct (mt_pc (ms_th σ sd)) eqn:E.
    - exists (See (mt_acq (ms_th σ sd))). rewrite Z.leb_refl.
      rewrite bool_decide_eq_true_2 by apply (li_th σ c buf Hi sd). by eexists.
    - exists Go. destruct (ml_byte _ _ _ _ _ _) as [[[j b'] d'] |]; [destruct (_ >? _) |]; by eexists.
    - exists Go. by eexists.
    - by destruct (Hpc n). }
  destruct (ml_next_good _ _ _ _ _ _ _ Hi Hn) as (σ' & _ & _ & -> & _). by exists ch, σ'.
Qed.

Lemma ml_left_dec σ sd base c buf ch σ' :
  ml_inv σ c buf -> ml_next (user_map base) ch sd σ = Some (Done σ') ->
  0 <= ml_left (ms_th σ' sd) < ml_left (ms_th σ sd) /\ ml_left (ms_th σ sd) <= CAP + 2 /\
  ms_th σ' (other sd) = ms_th σ (other sd).
Proof.
  intros Hi Hn. pose proof (ml_pending_cap σ c buf sd Hi) as Hcap. unfold ml_next in Hn.
  destruct (ml_step _ _ _ _ _) as [e |] eqn:Hst; [| done].
  destruct (ml_step_good _ _ _ _ _ _ _ Hi Hst) as (th' & s' & c' & buf' & -> & Hi' & _).
  cbn in Hn. injection Hn as <-. cbn [ms_th]. rewrite on_side_eq, on_side_other. apply and_assoc. split; [| done].
  pose proof (mk_done _ _ _ _ (li_th σ c buf Hi sd)) as Hd.
  pose proof (ml_pending_cap _ _ _ sd Hi') as Hcap'. pose proof (mk_done _ _ _ _ (li_th _ _ _ Hi' sd)) as Hd'.
  pose proof (mk_pc _ _ _ _ (li_th σ c buf Hi sd)) as Hk.
  cbn [ms_th ms_sh] in Hcap', Hd'. rewrite on_side_eq in Hcap', Hd'.
  unfold ml_step in Hst. rewrite (mp_ctrl _ _ _ (li_map σ c buf Hi)) in Hst.
  unfold ml_left, ml_pending, ml_done in *. destruct (mt_pc (ms_th σ sd)) eqn:E; destruct ch; try done.
  - destruct (_ && _); [| done]. injection Hst as <- <-. cbn [mt_pc] in *. destruct (_ =? 0); lia.
  - destruct (ml_byte _ _ _ _ _ _) as [[[j b'] d'] |]; [| done]. destruct (_ >? _); [done |].
    injection Hst as <- <-. cbn [mt_pc] in *. destruct Hk as [Hk _]. destruct (Z.eqb_spec (i + 1) n); lia.
  - injection Hst as <- <-. cbn [mt_pc]. unfold KBUF_MMAP_CAPACITY. lia.
Qed.
End facts.
