(* ===== verification/LibSpscProps.v ===== *)
(** * LibSpscProps: the zero-copy ring between two processes

    What include/libkbuf.h promises of one producer and one consumer. *)

From S2P Require Import Prelude Kernel Uapi Device Alloc Mmap LibKbuf Machine Spsc LibSpsc LibSpscFacts.
From S2P Require Import Samples IoctlProps MmapProps.
#[local] Open Scope Z_scope.

Section props.
Context `{PagingLaws}.

(** C31: one producer and one consumer in different processes, making any number
    of calls, each byte of their copies interleaved with the other side and each
    load of the other's counter possibly old: the bytes taken, followed by those
    in the ring, are the bytes that were there followed by those published, in
    order. *)
Theorem map_spsc_stream base d c buf bs n i o σ :
  map_ok d c buf -> 0 <= n -> ml_run (user_map base) (ml_start d bs n) i o σ ->
  map_stream d ++ i = o ++ map_stream (h_dev (ms_sh σ)).
Proof.
  intros Hok Hn Hrun.
  by destruct (ml_run_inv _ _ _ _ _ _ _ (ml_start_inv d c buf bs n Hok Hn) Hrun) as (c' & buf' & _ & Hq).
Qed.

(** C32: no step of either process faults or races: every byte copied lies in the
    double mapping, and is ordered by the acquire/release pairs after the other
    side's last access to it. *)
Theorem map_spsc_race_free base d c buf bs n i o σ ch sd why :
  map_ok d c buf -> 0 <= n -> ml_run (user_map base) (ml_start d bs n) i o σ ->
  ml_next (user_map base) ch sd σ <> Some (Oops why).
Proof.
  intros Hok Hn Hrun Hs.
  destruct (ml_run_inv _ _ _ _ _ _ _ (ml_start_inv d c buf bs n Hok Hn) Hrun) as (c' & buf' & Hi & _).
  destruct (ml_next_good _ _ _ _ _ _ _ Hi Hs) as (σ' & _ & _ & He & _). discriminate He.
Qed.

(** C33: both calls are wait-free: a call that has not returned can always take a
    step, every step of its own brings it closer to the return, which is at most
    [KBUF_MMAP_CAPACITY + 2] steps away, and the other process cannot delay it. *)
Theorem map_spsc_wait_free base d c buf bs n i o σ sd :
  map_ok d c buf -> 0 <= n -> ml_run (user_map base) (ml_start d bs n) i o σ ->
  ml_left (ms_th σ sd) <= KBUF_MMAP_CAPACITY + 2 /\
  ((exists r, mt_pc (ms_th σ sd) = ml_ret r) \/
   (exists ch σ', ml_next (user_map base) ch sd σ = Some (Done σ'))) /\
  forall ch sd' σ', ml_next (user_map base) ch sd' σ = Some (Done σ') ->
    if decide (sd' = sd) then 0 <= ml_left (ms_th σ' sd) < ml_left (ms_th σ sd)
    else ms_th σ' sd = ms_th σ sd.
Proof.
  intros Hok Hn Hrun.
  destruct (ml_run_inv _ _ _ _ _ _ _ (ml_start_inv d c buf bs n Hok Hn) Hrun) as (c' & buf' & Hi & _).
  assert (Hret : (exists r, mt_pc (ms_th σ sd) = ml_ret r) \/ forall r, mt_pc (ms_th σ sd) <> ml_ret r)
    by (destruct (mt_pc (ms_th σ sd)); [by right | by right | by right | left; by eexists]).
  split; [| split].
  - destruct Hret as [[r E] | Hno].
    + unfold ml_left. rewrite E. by unfold KBUF_MMAP_CAPACITY.
    + destruct (ml_enabled σ sd base c' buf' Hi Hno) as (ch & σ' & Hs).
      apply (ml_left_dec _ _ _ _ _ _ _ Hi Hs).
  - destruct Hret as [? | Hno]; [by left | right]. by eapply ml_enabled.
  - intros ch sd' σ' Hs. destruct (ml_left_dec _ _ _ _ _ _ _ Hi Hs) as (Hl & _ & Ho).
    case_decide as E; [by subst |]. by replace sd with (other sd') by (by destruct sd, sd').
Qed.
End props.

(** ** Concrete runs *)
Section schedule.
Context `{Paging}.

Fixpoint ml_schedule (m : kbuf_map) (sch : list (pick * side)) (σ : msys)
  : option (exec (list byte * list byte * msys)) :=
  match sch with
  | [] => Some (Done ([], [], σ))
  | (ch, sd) :: sch' =>
    e ← ml_next m ch sd σ;
    match e with
    | Oops why => Some (Oops why)
    | Done σ1 =>
      (fun e' => exec_bind e' (fun '(i, o, σ2) =>
         Done (match sd with Writer => ml_moved (ms_th σ sd) ++ i | Reader => i end,
               match sd with Reader => ml_moved (ms_th σ sd) ++ o | Writer => o end, σ2)))
        <$> ml_schedule m sch' σ1
    end
  end.

Lemma ml_run_cons m σ i o σ1 i' o' σ2 :
  ml_sys_step m σ i o σ1 -> ml_run m σ1 i' o' σ2 -> ml_run m σ (i ++ i') (o ++ o') σ2.
Proof.
  intros Hst Hrun. revert Hst. induction Hrun as [σ1 | σ1 i' o' σ2 i'' o'' σ3 Hrun IH Hst']; intros Hst.
  - rewrite !app_nil_r. apply (mlr_snoc m σ [] [] σ); [constructor | done].
  - rewrite !app_assoc. eapply mlr_snoc; [by apply IH | done].
Qed.

Lemma ml_schedule_run m sch σ i o σ' : ml_schedule m sch σ = Some (Done (i, o, σ')) -> ml_run m σ i o σ'.
Proof.
  revert σ i o. induction sch as [| [ch sd] sch IH]; intros σ i o; cbn.
  { intros [= <- <- <-]. constructor. }
  destruct (ml_next m ch sd σ) as [[σ1 | w] |] eqn:Hn; cbn; [| done | done].
  destruct (ml_schedule m sch σ1) as [[[[i1 o1] σ2] | w] |] eqn:Hs; cbn; [| done | done].
  intros [= <- <- <-]. destruct sd.
  - change i1 with ([] ++ i1). eapply ml_run_cons; [by econstructor | by apply IH].
  - change o1 with ([] ++ o1). eapply ml_run_cons; [by econstructor | by apply IH].
Qed.

Definition ml_outcome (m : kbuf_map) (sch : list (pick * side)) (σ : msys) : list byte * list byte * msys :=
  match ml_schedule m sch σ with Some (Done r) => r | _ => ([], [], σ) end.

Lemma ml_outcome_run m sch σ :
  match ml_schedule m sch σ with Some (Done _) => true | _ => false end = true ->
  ml_run m σ (ml_outcome m sch σ).1.1 (ml_outcome m sch σ).1.2 (ml_outcome m sch σ).2.
Proof.
  unfold ml_outcome. destruct (ml_schedule m sch σ) as [[[[i o] σ'] | ] |] eqn:E; try done.
  intros _. by apply (ml_schedule_run m sch).
Qed.
End schedule.

(** A ring with two bytes whose counters are about to wrap at 2^64: the reader
    takes them while the writer, which has not seen that, stores three bytes
    across the wrap. *)
Definition wrap_start : msys := ml_start wrap_dev [x61; x62; x63] 2.

Definition wrap_schedule : list (pick * side) :=
  [(See 18446744073709551614, Reader); (See 18446744073709551612, Writer); (Go, Writer); (Go, Reader);
   (Go, Writer); (Go, Writer); (Go, Writer); (Go, Reader); (Go, Reader)].

Definition wrap_after (k : nat) : list byte * list byte * msys :=
  ml_outcome (user_map 0) (take k wrap_schedule) wrap_start.

Lemma wrap_run k :
  match ml_schedule (user_map 0) (take k wrap_schedule) wrap_start with Some (Done _) => true | _ => false end
  = true ->
  ml_run (user_map 0) wrap_start (wrap_after k).1.1 (wrap_after k).1.2 (wrap_after k).2.
Proof. apply ml_outcome_run. Qed.

Lemma map_spsc_stream_witness :
  (wrap_after 9).1 = ([x61; x62; x63], [x00; x00]) /\
  map_stream wrap_dev ++ (wrap_after 9).1.1
  = (wrap_after 9).1.2 ++ map_stream (h_dev (ms_sh (wrap_after 9).2)).
Proof.
  split; [by vm_compute |].
  refine (map_spsc_stream 0 wrap_dev wrap_ctrl (zero_ring 51) [x61; x62; x63] 2 _ _ (wrap_after 9).2 wrap_ok _ _).
  - by apply Z.leb_le.
  - apply wrap_run. by vm_compute.
Defined.

Lemma map_spsc_race_free_witness :
  mt_pc (ms_th (wrap_after 4).2 Writer) = ml_copy 3 1 /\ mt_pc (ms_th (wrap_after 4).2 Reader) = ml_copy 2 1 /\
  ml_next (user_map 0) Go Writer (wrap_after 4).2 <> Some (Oops DataRace).
Proof.
  split; [by vm_compute |]. split; [by vm_compute |].
  refine (map_spsc_race_free 0 wrap_dev wrap_ctrl (zero_ring 51) [x61; x62; x63] 2 _ _ (wrap_after 4).2
            Go Writer DataRace wrap_ok _ (wrap_run 4 _)).
  - by apply Z.leb_le.
  - by vm_compute.
Defined.

Lemma map_spsc_wait_free_witness :
  ml_left (ms_th (wrap_after 4).2 Writer) = 3 /\
  ((exists r, mt_pc (ms_th (wrap_after 4).2 Writer) = ml_ret r) \/
   (exists ch σ', ml_next (user_map 0) ch Writer (wrap_after 4).2 = Some (Done σ'))).
Proof.
  split; [by vm_compute |].
  refine (proj1 (proj2 (map_spsc_wait_free 0 wrap_dev wrap_ctrl (zero_ring 51) [x61; x62; x63] 2 _ _ (wrap_after 4).2
            Writer wrap_ok _ (wrap_run 4 _)))).
  - by apply Z.leb_le.
  - by vm_compute.
Defined.
