(* ===== verification/Bench.v ===== *)
(** * Bench: the benchmark's transfers over the mmap ring (bench/kbuf_bench.c)

    The producer and consumer loops of [run_once] (transport T_MMAP) and of
    [latency], two processes on one ring.  A step is one call of the library;
    LibSpsc.v has what happens inside a call.  Forking, pinning, clocks and
    printing are left out; [sched_yield] does nothing here. *)

From S2P Require Import Prelude Kernel Uapi Device Alloc Mmap LibKbuf Machine.
#[local] Open Scope Z_scope.

Section bench.
Context `{Paging}.

(** [run_once]: the two [done] counters and whether the consumer, which resets
    the ring after the fork, has done so. *)
Record bench := Bench {
  b_dev : kbuf_dev;
  b_sent : Z;
  b_rcvd : Z;
  b_reset : bool
}.

Definition producer_step (m : kbuf_map) (msgsize total : Z) (b : bench) : option (exec bench) :=
  if b_sent b <? total
  then Some (exec_bind (kbuf_map_write m (replicate (Z.to_nat msgsize) xa5) (b_dev b)) (fun '(w, d') =>
             Done (Bench d' (b_sent b + w) (b_rcvd b) (b_reset b))))
  else None.

Definition consumer_step (m : kbuf_map) (msgsize total : Z) (b : bench) : option (exec bench) :=
  if negb (b_reset b) then Some (Done (Bench (kbuf_map_reset (b_dev b)) (b_sent b) (b_rcvd b) true)) else
  if b_rcvd b <? total
  then Some (exec_bind (kbuf_map_read m msgsize (b_dev b)) (fun '(r, _, d') =>
             Done (Bench d' (b_sent b) (b_rcvd b + r) (b_reset b))))
  else None.

(** After the fork either process may be the next to move. *)
Definition run_once_step (m : kbuf_map) (msgsize total : Z) (sd : side) (b : bench) : option (exec bench) :=
  match sd with Writer => producer_step m msgsize total b | Reader => consumer_step m msgsize total b end.

Inductive bench_reach (m : kbuf_map) (msgsize total : Z) : bench -> bench -> Prop :=
  | br_refl b : bench_reach m msgsize total b b
  | br_step b1 b2 sd b3 :
      bench_reach m msgsize total b1 b2 -> run_once_step m msgsize total sd b2 = Some (Done b3) ->
      bench_reach m msgsize total b1 b3.

(** [latency]: the timestamps still to be taken by the producer, in the order
    the clock will give them, and those the consumer has read.  [junk] is what
    the consumer's [ts] happens to hold before the read. *)
Record lat := Lat {
  l_dev : kbuf_dev;
  l_todo : list Z;
  l_got : list Z
}.

Definition latency_step (m : kbuf_map) (samples : nat) (junk : list byte) (sd : side) (l : lat) : option (exec lat) :=
  match sd with
  | Writer =>
    match l_todo l with
    | [] => None
    | ts :: rest =>
      Some (exec_bind (kbuf_map_write m (le_encode 8 ts) (l_dev l)) (fun '(w, d') =>
            Done (Lat d' (if w =? 0 then l_todo l else rest) (l_got l))))
    end
  | Reader =>
    if (length (l_got l) <? samples)%nat
    then Some (exec_bind (kbuf_map_read m 8 (l_dev l)) (fun '(r, bs, d') =>
               Done (Lat d' (l_todo l)
                      (if r =? 0 then l_got l else l_got l ++ [le_decode (bs ++ drop (length bs) junk)]))))
    else None
  end.

Inductive lat_reach (m : kbuf_map) (samples : nat) (junk : list byte) : lat -> lat -> Prop :=
  | lr_refl l : lat_reach m samples junk l l
  | lr_step l1 l2 sd l3 :
      lat_reach m samples junk l1 l2 -> latency_step m samples junk sd l2 = Some (Done l3) -> lat_reach m samples junk l1 l3.
End bench.

(** ** Facts *)
Section facts.
Context `{PagingLaws}.

(** The ring of a device that is ready for the library. *)
Definition ready (d : kbuf_dev) : Prop := exists c buf, map_ok d c buf.

Lemma reset_ready d : ready d -> ready (kbuf_map_reset d) /\ map_stream (kbuf_map_reset d) = [].
Proof.
  intros (c & buf & [[Hc Hd Hl Ha] _ _ _]). unfold kbuf_map_reset, set_head. rewrite Hc. unfold set_tail.
  cbn [mmap_ctrl set_field set_mmap_ctrl]. set (c' := KbufMmapCtrl _ _ _ _). set (d' := _ <| mmap_ctrl := _ |>).
  assert (Hm : mapped d' c' buf) by (split; [reflexivity | exact Hd | exact Hl | exact Ha]).
  destruct (alloc_stream d' c' buf Hm eq_refl eq_refl) as [Hok Hs]. split; [by exists c', buf | done].
Qed.

Lemma write_ready base bs d :
  ready d ->
  let n := Z.min (Z.of_nat (length bs)) (KBUF_MMAP_CAPACITY - Z.of_nat (length (map_stream d))) in
  exists d', kbuf_map_write (user_map base) bs d = Done (n, d') /\ ready d' /\
    map_stream d' = map_stream d ++ take (Z.to_nat n) bs /\ 0 <= n.
Proof.
  intros (c & buf & Hok) n. destruct (kbuf_map_write_spec base bs d c buf Hok) as (d' & c' & buf' & Hr & Hok' & Hs & _).
  exists d'. split; [done |]. split; [by exists c', buf' |]. split; [done |].
  pose proof (length_stream d c buf Hok) as Hl. destruct Hok as [_ _ _ Ho]. lia.
Qed.

Lemma read_ready base n0 d :
  ready d -> 0 <= n0 ->
  let n := Z.min n0 (Z.of_nat (length (map_stream d))) in
  exists d', kbuf_map_read (user_map base) n0 d = Done (n, take (Z.to_nat n) (map_stream d), d') /\ ready d' /\
    map_stream d' = drop (Z.to_nat n) (map_stream d).
Proof.
  intros (c & buf & Hok) Hn n. destruct (kbuf_map_read_spec base n0 d c buf Hok Hn) as (d' & c' & Hr & Hok' & Hs & _).
  exists d'. split; [done |]. split; [by exists c', buf | done].
Qed.

(** What a step of [run_once] does to the counters and the bytes in flight. *)
Lemma run_once_effect base msgsize total sd b e :
  ready (b_dev b) -> 0 <= msgsize -> run_once_step (user_map base) msgsize total sd b = Some e ->
  exists b', e = Done b' /\ ready (b_dev b') /\
    let n := Z.of_nat (length (map_stream (b_dev b))) in
    let n' := Z.of_nat (length (map_stream (b_dev b'))) in
    match sd with
    | Writer => b_sent b < total /\ b_rcvd b' = b_rcvd b /\ b_reset b' = b_reset b /\
                b_sent b' = b_sent b + Z.min msgsize (KBUF_MMAP_CAPACITY - n) /\
                n' = n + (b_sent b' - b_sent b) /\ b_sent b <= b_sent b'
    | Reader => b_sent b' = b_sent b /\ b_reset b' = true /\
                (if b_reset b then b_rcvd b < total /\ b_rcvd b' = b_rcvd b + Z.min msgsize n /\
                                   n' = n - Z.min msgsize n
                 else b_rcvd b' = b_rcvd b /\ n' = 0)
    end.
Proof.
  intros Hr Hms. unfold run_once_step, producer_step, consumer_step. destruct sd.
  - destruct (b_reset b) eqn:Eb; cbn [negb].
    + destruct (Z.ltb_spec (b_rcvd b) total) as [Hlt |]; [| done].
      destruct (read_ready base msgsize (b_dev b) Hr Hms) as (d' & Hrun & Hr' & Hs). rewrite Hrun. cbn [exec_bind].
      intros [= <-]. eexists. split; [done |]. cbn. split; [done |]. rewrite Hs, length_drop.
      split_and!; try done. lia.
    + intros [= <-]. destruct (reset_ready _ Hr) as [Hr' Hs]. eexists. split; [done |]. cbn. split; [done |]. by rewrite Hs.
  - destruct (Z.ltb_spec (b_sent b) total) as [Hlt |]; [| done].
    destruct (write_ready base (replicate (Z.to_nat msgsize) xa5) (b_dev b) Hr) as (d' & Hrun & Hr' & Hs & Hn).
    rewrite Hrun. cbn [exec_bind]. intros [= <-]. eexists. split; [done |]. cbn. split; [done |].
    rewrite length_replicate, Z2Nat.id in * by lia. rewrite Hs, length_app, length_take, length_replicate.
    split_and!; try done; lia.
Qed.
End facts.
