(* ===== verification/BenchProps.v ===== *)
(** * BenchProps: what the benchmark measures

    The transfer of [run_once] completes when the consumer's reset comes first
    and hangs when it does not; the timestamps of [latency] arrive whole and in
    order. *)

From S2P Require Import Prelude Kernel Uapi Device Alloc Mmap LibKbuf Machine Samples IoctlProps MmapProps Bench.
#[local] Open Scope Z_scope.

Section props.
Context `{PagingLaws}.

Lemma bench_inv base msgsize total (I : bench -> Prop) b0 :
  0 <= msgsize -> ready (b_dev b0) -> I b0 ->
  (forall b sd b', ready (b_dev b) -> I b -> run_once_step (user_map base) msgsize total sd b = Some (Done b') -> I b') ->
  forall b, bench_reach (user_map base) msgsize total b0 b -> ready (b_dev b) /\ I b.
Proof.
  intros Hms Hr0 HI0 Hstep b Hreach. induction Hreach as [b | b1 b2 sd b3 Hreach IH Hst]; [done |].
  destruct (IH Hr0 HI0) as [Hr HI].
  destruct (run_once_effect base msgsize total sd b2 _ Hr Hms Hst) as (b' & [= <-] & Hr' & _).
  split; [done | exact (Hstep b2 sd b3 Hr HI Hst)].
Qed.

(** When the consumer's [kbuf_map_reset] precedes the producer's first
    write, no byte is lost (what was sent is received or in the ring) and the
    transfer never stalls: as long as the consumer has not received everything,
    one of the two sides can take a step, and that step moves at least a byte. *)
Theorem run_once_progress base msgsize total d b :
  ready d -> 0 < msgsize -> map_stream d = [] ->
  bench_reach (user_map base) msgsize total (Bench d 0 0 true) b ->
  b_sent b = b_rcvd b + Z.of_nat (length (map_stream (b_dev b))) /\
  (b_rcvd b < total -> exists sd b', run_once_step (user_map base) msgsize total sd b = Some (Done b') /\
     b_sent b + b_rcvd b < b_sent b' + b_rcvd b').
Proof.
  intros Hd Hms Hs Hreach.
  destruct (bench_inv base msgsize total
              (fun b => b_reset b = true /\ b_sent b = b_rcvd b + Z.of_nat (length (map_stream (b_dev b))))
              (Bench d 0 0 true) ltac:(lia) Hd) with (b := b) as (Hr & Hre & Heq); [cbn; by rewrite Hs | | done |].
  { intros b1 sd b2 Hr [Hre Heq] Hst.
    destruct (run_once_effect base msgsize total sd b1 _ Hr ltac:(lia) Hst) as (b' & [= <-] & _ & He). cbv zeta in He.
    destruct sd; [rewrite Hre in He |]; destruct_and?; split; (congruence || lia). }
  split; [done |]. intros Hlt.
  destruct (Z.eq_dec (Z.of_nat (length (map_stream (b_dev b)))) 0) as [E | E].
  - exists Writer. destruct (run_once_step (user_map base) msgsize total Writer b) as [e |] eqn:Hst.
    + destruct (run_once_effect base msgsize total Writer b e Hr ltac:(lia) Hst) as (b' & -> & _ & He). cbv zeta in He.
      exists b'. split; [done |]. rewrite E in He. unfold KBUF_MMAP_CAPACITY in He. destruct_and?. lia.
    + unfold run_once_step, producer_step, consumer_step in Hst. destruct (Z.ltb_spec (b_sent b) total); [done | lia].
  - exists Reader. destruct (run_once_step (user_map base) msgsize total Reader b) as [e |] eqn:Hst.
    + destruct (run_once_effect base msgsize total Reader b e Hr ltac:(lia) Hst) as (b' & -> & _ & He). cbv zeta in He.
      exists b'. split; [done |]. rewrite Hre in He. destruct_and?. lia.
    + unfold run_once_step, producer_step, consumer_step in Hst. rewrite Hre in Hst. cbn [negb] in Hst.
      destruct (Z.ltb_spec (b_rcvd b) total); [done | lia].
Qed.

(** The reset is made by the consumer after the fork, so the producer may
    come first; if one of its messages is in the ring by then, the reset drops
    it and the consumer's loop never ends: in every state the two processes can
    reach from there, it has received less than [total]. *)
Theorem run_once_hangs base msgsize total d b1 b :
  ready d -> 0 < msgsize <= KBUF_MMAP_CAPACITY -> 0 < total -> map_stream d = [] ->
  run_once_step (user_map base) msgsize total Writer (Bench d 0 0 false) = Some (Done b1) ->
  bench_reach (user_map base) msgsize total b1 b -> b_rcvd b < total.
Proof.
  intros Hd Hms Ht Hs Hst1 Hreach.
  destruct (run_once_effect base msgsize total Writer (Bench d 0 0 false) _ Hd ltac:(lia) Hst1) as (b1' & [= <-] & Hr1 & He1).
  cbn in He1. rewrite Hs in He1. cbn in He1.
  destruct (bench_inv base msgsize total
              (fun b => b_sent b < total + msgsize /\ msgsize <= b_sent b /\
                if b_reset b then b_rcvd b + Z.of_nat (length (map_stream (b_dev b))) + msgsize <= b_sent b
                else b_rcvd b = 0 /\ Z.of_nat (length (map_stream (b_dev b))) = b_sent b) b1 ltac:(lia) Hr1)
    with (b := b) as (_ & H1' & H2' & Hc); [| | done |].
  - destruct_and?. replace (b_reset b1) with false by done. lia.
  - intros b2 sd b3 Hr (I1 & I2 & I3) Hst.
    destruct (run_once_effect base msgsize total sd b2 _ Hr ltac:(lia) Hst) as (b' & [= <-] & _ & He). cbv zeta in He.
    destruct sd.
    + destruct He as (Hse & Hre & He). rewrite Hre, Hse. destruct (b_reset b2); destruct_and?; lia.
    + destruct He as (Hlt & Hrc & Hre & Hse & Hn & Hmono). rewrite Hre. destruct (b_reset b2); destruct_and?; lia.
  - destruct (b_reset b); lia.
Qed.

(** Timestamps in the ring, laid end to end. *)
Definition stamps_bytes (ts : list Z) : list byte := concat (le_encode 8 <$> ts).

Lemma length_stamps ts : length (stamps_bytes ts) = (8 * length ts)%nat.
Proof.
  induction ts as [| t ts IH]; [done |]. unfold stamps_bytes in *. cbn [fmap list_fmap concat].
  rewrite length_app, length_le_encode, IH. cbn. lia.
Qed.

Lemma latency_effect base junk stamps sd l e :
  ready (l_dev l) -> length junk = 8%nat -> Forall in_u64 stamps ->
  (exists mid, map_stream (l_dev l) = stamps_bytes mid /\ l_got l ++ mid ++ l_todo l = stamps) ->
  latency_step (user_map base) (length stamps) junk sd l = Some e ->
  exists l', e = Done l' /\ ready (l_dev l') /\
    exists mid, map_stream (l_dev l') = stamps_bytes mid /\ l_got l' ++ mid ++ l_todo l' = stamps.
Proof.
  intros Hr Hjunk H64 (mid & Hs & Hall). unfold latency_step.
  pose proof (length_stamps mid) as Hlen. rewrite <- Hs in Hlen. destruct sd.
  - destruct (length (l_got l) <? length stamps)%nat; [| done].
    destruct (read_ready base 8 (l_dev l) Hr ltac:(lia)) as (d' & Hrun & Hr' & Hs'). rewrite Hrun. cbn [exec_bind].
    intros [= <-]. eexists. split; [done |]. split; [done |]. cbn [l_dev l_got l_todo]. rewrite Hs'.
    destruct mid as [| t mid].
    + exists []. rewrite Hs. cbn. split; [done |]. cbn in Hall. done.
    + cbn [length] in Hlen. rewrite Z.min_l by lia. cbn [Z.eqb]. exists mid. rewrite Hs.
      change (stamps_bytes (t :: mid)) with (le_encode 8 t ++ stamps_bytes mid).
      change (Z.to_nat 8) with 8%nat. rewrite drop_app_length', take_app_length' by (by rewrite length_le_encode).
      split; [done |]. rewrite <- Hall, <- (app_assoc (l_got l)). cbn [app]. do 2 f_equal.
      rewrite length_le_encode, drop_ge, app_nil_r, le_decode_encode by lia. apply u64_small.
      rewrite <- Hall in H64. apply Forall_app in H64 as [_ H64]. by apply Forall_cons in H64 as [? _].
  - destruct (l_todo l) as [| t rest] eqn:Et; [done |].
    destruct (write_ready base (le_encode 8 t) (l_dev l) Hr) as (d' & Hrun & Hr' & Hs' & Hn). rewrite Hrun.
    cbn [exec_bind]. intros [= <-]. eexists. split; [done |]. split; [done |]. cbn [l_dev l_got l_todo].
    rewrite length_le_encode in *. rewrite Hs', Hlen, Hs.
    destruct (Z.eq_dec (KBUF_MMAP_CAPACITY - Z.of_nat (8 * length mid)) 0) as [E | E].
    + rewrite E, Z.min_r by lia. exists mid. cbn. by rewrite app_nil_r.
    + assert (Hm : Z.min (Z.of_nat 8) (KBUF_MMAP_CAPACITY - Z.of_nat (8 * length mid)) = 8)
        by (rewrite Hlen in Hn; unfold KBUF_MMAP_CAPACITY in *; lia).
      rewrite Hm. cbn [Z.eqb]. exists (mid ++ [t]). split.
      * change (Z.to_nat 8) with 8%nat. rewrite take_ge by (by rewrite length_le_encode).
        unfold stamps_bytes. rewrite fmap_app, concat_app. cbn [fmap list_fmap concat]. by rewrite app_nil_r.
      * rewrite <- Hall, <- !app_assoc. done.
Qed.

(** The latency experiment reads back whole timestamps: whatever the two
    loops do in which order, retries on a full and on an empty ring included,
    no read or write is ever partial, and the values the consumer has read,
    those in the ring and those still to be written are the producer's
    timestamps, in order. *)
Theorem latency_exact base junk d stamps l :
  ready d -> map_stream d = [] -> length junk = 8%nat -> Forall in_u64 stamps ->
  lat_reach (user_map base) (length stamps) junk (Lat d stamps []) l ->
  (exists mid, map_stream (l_dev l) = stamps_bytes mid /\ l_got l ++ mid ++ l_todo l = stamps) /\
  forall sd why, latency_step (user_map base) (length stamps) junk sd l <> Some (Oops why).
Proof.
  intros Hr Hs Hj H64 Hreach.
  assert (Hinv : ready (l_dev l) /\ exists mid, map_stream (l_dev l) = stamps_bytes mid /\
                   l_got l ++ mid ++ l_todo l = stamps).
  { remember (Lat d stamps []) as l0. induction Hreach as [l | l1 l2 sd l3 Hreach IH Hst]; subst.
    - split; [done |]. by exists [].
    - destruct (IH eq_refl) as [Hr2 Hm].
      by destruct (latency_effect base junk stamps sd l2 _ Hr2 Hj H64 Hm Hst) as (l' & [= <-] & ? & ?). }
  destruct Hinv as [Hr' Hm]. split; [done |]. intros sd why Hst.
  destruct (latency_effect base junk stamps sd l _ Hr' Hj H64 Hm Hst) as (l' & He & _). discriminate He.
Qed.
End props.

(** ** Concrete runs *)
Definition idle_dev : kbuf_dev :=
  zero_dev <| mmap_ctrl := Some (KbufMmapCtrl 50 0 0 KBUF_MMAP_CAPACITY) |> <| mmap_data := Some (zero_ring 51) |>.

Lemma idle_ready : ready idle_dev /\ map_stream idle_dev = [].
Proof.
  assert (Hm : mapped idle_dev (KbufMmapCtrl 50 0 0 KBUF_MMAP_CAPACITY) (zero_ring 51)).
  { split; [reflexivity | reflexivity | | done]. cbn [kb_bytes zero_ring]. by rewrite length_replicate, Z2Nat.id. }
  destruct (alloc_stream idle_dev _ _ Hm eq_refl eq_refl) as [Hok Hs]. split; [eexists _, _; exact Hok | exact Hs].
Qed.

(** The outcome of a list of steps of [run_once]. *)
Fixpoint bench_run (msgsize total : Z) (sch : list side) (b : bench) : option bench :=
  match sch with
  | [] => Some b
  | sd :: sch' =>
    match run_once_step (user_map 0) msgsize total sd b with
    | Some (Done b') => bench_run msgsize total sch' b'
    | _ => None
    end
  end.

Lemma bench_reach_cons m ms total b1 sd b2 b3 :
  run_once_step m ms total sd b1 = Some (Done b2) -> bench_reach m ms total b2 b3 -> bench_reach m ms total b1 b3.
Proof.
  intros Hst Hreach. induction Hreach as [b | b b' sd' b'' Hreach IH Hst'].
  - by eapply br_step; [apply br_refl |].
  - by eapply br_step; [apply IH |].
Qed.

Lemma bench_run_reach ms total sch b b' :
  bench_run ms total sch b = Some b' -> bench_reach (user_map 0) ms total b b'.
Proof.
  revert b. induction sch as [| sd sch IH]; intros b; cbn; [intros [= <-]; apply br_refl |].
  destruct (run_once_step _ _ _ _ _) as [[b1 |] |] eqn:E; [| done | done]. intros Hr.
  by eapply bench_reach_cons; [| apply IH].
Qed.

Lemma bench_run_some ms total sch b :
  bool_decide (is_Some (b_sent <$> bench_run ms total sch b)) = true ->
  exists b', bench_run ms total sch b = Some b'.
Proof. intros Hs%bool_decide_eq_true. destruct (bench_run ms total sch b) as [b' |]; [by exists b' | by destruct Hs]. Qed.

Lemma bench_run_first ms total sd sch b b' :
  bench_run ms total (sd :: sch) b = Some b' ->
  exists b1, run_once_step (user_map 0) ms total sd b = Some (Done b1) /\ bench_run ms total sch b1 = Some b'.
Proof. cbn. destruct (run_once_step _ _ _ _ _) as [[b1 |] |]; [| done | done]. intros Hr. by exists b1. Qed.

(** Reset first, then two messages of four bytes sent and one received. *)
Lemma run_once_progress_witness :
  exists b, bench_run 4 8 [Writer; Writer; Reader] (Bench idle_dev 0 0 true) = Some b /\
    b_sent b = b_rcvd b + Z.of_nat (length (map_stream (b_dev b))) /\
    (b_rcvd b < 8 -> exists sd b', run_once_step (user_map 0) 4 8 sd b = Some (Done b') /\
       b_sent b + b_rcvd b < b_sent b' + b_rcvd b').
Proof.
  destruct (bench_run_some 4 8 [Writer; Writer; Reader] (Bench idle_dev 0 0 true) ltac:(by vm_compute)) as [b Hb].
  exists b. split; [exact Hb |].
  apply (run_once_progress 0 4 8 idle_dev b (proj1 idle_ready) ltac:(lia) (proj2 idle_ready)).
  exact (bench_run_reach _ _ _ _ _ Hb).
Defined.

(** The first message is in the ring when the consumer resets it; the producer
    sends the second and last, the consumer gets it, and waits for the first. *)
Definition late_reset : list side := [Reader; Writer; Reader; Reader].

Lemma run_once_hangs_witness :
  exists b1 b, run_once_step (user_map 0) 4 8 Writer (Bench idle_dev 0 0 false) = Some (Done b1) /\
    bench_run 4 8 late_reset b1 = Some b /\ b_rcvd b < 8.
Proof.
  destruct (bench_run_some 4 8 (Writer :: late_reset) (Bench idle_dev 0 0 false) ltac:(by vm_compute)) as [b Hb].
  destruct (bench_run_first _ _ _ _ _ _ Hb) as (b1 & E & Hb1).
  exists b1, b. split; [exact E |]. split; [exact Hb1 |].
  refine (run_once_hangs 0 4 8 idle_dev b1 b (proj1 idle_ready) _ _ (proj2 idle_ready) E (bench_run_reach _ _ _ _ _ Hb1)).
  - clear. unfold KBUF_MMAP_CAPACITY. lia.
  - clear. lia.
Defined.

Lemma two_stamps : Forall in_u64 [7; 9].
Proof. repeat first [apply List.Forall_nil | apply List.Forall_cons]; by unfold in_u64. Qed.

Lemma latency_exact_witness :
  exists l, latency_step (user_map 0) 2 (replicate 8 xff) Writer (Lat idle_dev [7; 9] []) = Some (Done l) /\
    exists mid, map_stream (l_dev l) = stamps_bytes mid /\ l_got l ++ mid ++ l_todo l = [7; 9].
Proof.
  destruct (latency_step (user_map 0) 2 (replicate 8 xff) Writer (Lat idle_dev [7; 9] [])) as [[l | why] |] eqn:E.
  - exists l. split; [reflexivity |].
    exact (proj1 (latency_exact 0 (replicate 8 xff) idle_dev [7; 9] l (proj1 idle_ready) (proj2 idle_ready) eq_refl two_stamps
              (lr_step _ _ _ _ _ _ _ (lr_refl _ _ _ _) E))).
  - exfalso. exact (proj2 (latency_exact 0 (replicate 8 xff) idle_dev [7; 9] (Lat idle_dev [7; 9] [])
              (proj1 idle_ready) (proj2 idle_ready) eq_refl two_stamps (lr_refl _ _ _ _)) Writer why E).
  - discriminate E.
Defined.
