(* ===== verification/Proc.v ===== *)
(** * Proc: the text of /proc/kbuf_status (src/kbuf_proc.c)

    [kbuf_proc_show_dev] as the string its [seq_printf] calls build, and
    [kbuf_proc_show] over all static devices.  The reader of the other side is
    here too: a scanner of the same format. *)

From Stdlib Require Import NArith Strings.String Strings.Ascii DecimalString DecimalN.
From S2P Require Import Prelude Kernel Uapi Device Ring.
#[local] Open Scope Z_scope.

Definition NL : string := String (ascii_of_nat 10) EmptyString.

(** [%u] and [%llu]. *)
Definition show_u (v : Z) : string := NilZero.string_of_uint (N.to_uint (Z.to_N v)).

(** The values a section prints, in its order. *)
Record proc_dev := ProcDev {
  pv_idx : Z;
  pv_total : Z;
  pv_size : Z;
  pv_full : Z;
  pv_free : Z;
  pv_peak : Z;
  pv_rd : Z;
  pv_wr : Z;
  pv_mode : string;
  pv_msgs_in : Z;
  pv_msgs_out : Z;
  pv_bytes_in : Z;
  pv_bytes_out : Z;
  pv_rsleeps : Z;
  pv_wsleeps : Z
}.

(** [mode_name[dev->mode]], or a question mark past the end of the table ([mode]
    is never negative: [dev_ok]). *)
Definition mode_name (m : Z) : string :=
  if m <? 2 then (if m =? 0 then "blocking" else "spsc") else "?".

(** What is read under the lock. *)
Definition proc_values (d : kbuf_dev) (idx : Z) : proc_dev :=
  let occ := kbuf_occupancy d in
  let spsc := mode d =? KBUF_MODE_SPSC in
  let mask := u32 (num_buffers d - 1) in
  {| pv_idx := idx;
     pv_total := num_buffers d; pv_size := buffer_size d;
     pv_full := occ; pv_free := u32 (num_buffers d - occ); pv_peak := peak_count d;
     pv_rd := if spsc then Z.land (cons_idx d) mask else u32 (read_pos d);
     pv_wr := if spsc then Z.land (prod_idx d) mask else u32 (write_pos d);
     pv_mode := mode_name (mode d);
     pv_msgs_in := msgs_produced d; pv_msgs_out := msgs_consumed d;
     pv_bytes_in := bytes_produced d; pv_bytes_out := bytes_consumed d;
     pv_rsleeps := read_sleeps d; pv_wsleeps := write_sleeps d |}.

(** One [seq_printf]: text, a conversion, text up to the end of the line. *)
Definition line (before value after : string) : string := (before ++ value ++ after ++ NL)%string.

Definition proc_text (v : proc_dev) : string :=
  (line "=== kbuf" (show_u (pv_idx v)) " ===" ++
   line "Total slots    : " (show_u (pv_total v)) "" ++
   line "Slot size      : " (show_u (pv_size v)) " bytes" ++
   line "Full slots     : " (show_u (pv_full v)) "" ++
   line "Free slots     : " (show_u (pv_free v)) "" ++
   line "Peak full slots: " (show_u (pv_peak v)) "" ++
   line "Read  position : " (show_u (pv_rd v)) "" ++
   line "Write position : " (show_u (pv_wr v)) "" ++
   line "Mode           : " (pv_mode v) "" ++
   line "Msgs  produced : " (show_u (pv_msgs_in v)) "" ++
   line "Msgs  consumed : " (show_u (pv_msgs_out v)) "" ++
   line "Bytes produced : " (show_u (pv_bytes_in v)) "" ++
   line "Bytes consumed : " (show_u (pv_bytes_out v)) "" ++
   line "Reader sleeps  : " (show_u (pv_rsleeps v)) "" ++
   line "Writer sleeps  : " (show_u (pv_wsleeps v)) "")%string.

Definition kbuf_proc_show_dev (d : kbuf_dev) (idx : Z) : string := proc_text (proc_values d idx).

(** The loop over the devices, from index [i] on. *)
Fixpoint kbuf_proc_show_from (i : Z) (ds : list kbuf_dev) : string :=
  match ds with
  | [] => ""%string
  | d :: ds' => (kbuf_proc_show_dev d i ++ kbuf_proc_show_from (i + 1) ds')%string
  end.

Definition kbuf_proc_show (ds : list kbuf_dev) : string := kbuf_proc_show_from 0 ds.

(** ** Reading it back *)
Fixpoint strip (pre s : string) : option string :=
  match pre, s with
  | EmptyString, _ => Some s
  | String a pre', String b s' => if Ascii.eqb a b then strip pre' s' else None
  | _, _ => None
  end.

Definition is_digit (a : ascii) : bool := (48 <=? nat_of_ascii a)%nat && (nat_of_ascii a <=? 57)%nat.

Fixpoint span (p : ascii -> bool) (s : string) : string * string :=
  match s with
  | EmptyString => (EmptyString, EmptyString)
  | String a s' => if p a then let '(x, y) := span p s' in (String a x, y) else (EmptyString, s)
  end.

Definition scan_u (before after s : string) : option (Z * string) :=
  s1 ← strip before s;
  let '(ds, s2) := span is_digit s1 in
  u ← NilZero.uint_of_string ds;
  s3 ← strip after s2; s4 ← strip NL s3;
  Some (Z.of_N (N.of_uint u), s4).

Definition not_nl (a : ascii) : bool := negb (Ascii.eqb a (ascii_of_nat 10)).

Definition scan_w (before s : string) : option (string * string) :=
  s1 ← strip before s;
  let '(w, s2) := span not_nl s1 in
  s3 ← strip NL s2; Some (w, s3).

Definition scan_dev (s : string) : option (proc_dev * string) :=
  '(idx, s) ← scan_u "=== kbuf" " ===" s;
  '(total, s) ← scan_u "Total slots    : " "" s;
  '(size, s) ← scan_u "Slot size      : " " bytes" s;
  '(full, s) ← scan_u "Full slots     : " "" s;
  '(free, s) ← scan_u "Free slots     : " "" s;
  '(peak, s) ← scan_u "Peak full slots: " "" s;
  '(rd, s) ← scan_u "Read  position : " "" s;
  '(wr, s) ← scan_u "Write position : " "" s;
  '(mode, s) ← scan_w "Mode           : " s;
  '(mi, s) ← scan_u "Msgs  produced : " "" s;
  '(mo, s) ← scan_u "Msgs  consumed : " "" s;
  '(bi, s) ← scan_u "Bytes produced : " "" s;
  '(bo, s) ← scan_u "Bytes consumed : " "" s;
  '(rs, s) ← scan_u "Reader sleeps  : " "" s;
  '(ws, s) ← scan_u "Writer sleeps  : " "" s;
  Some (ProcDev idx total size full free peak rd wr mode mi mo bi bo rs ws, s).

Fixpoint scan_devs (n : nat) (s : string) : option (list proc_dev) :=
  match n with
  | O => Some []
  | S n' => '(v, s') ← scan_dev s; vs ← scan_devs n' s'; Some (v :: vs)
  end.

(** ** The debugfs files of a device (src/kbuf_debugfs.c)

    The directory, and for each file its name, the size of the field in bits and
    where the file reads, without the lock. *)
Definition scnprintf_16 (s : string) : string := substring 0 15 s.

Definition kbuf_debugfs_add (d : kbuf_dev) (id : Z) : string * list (string * Z * Z) :=
  (scnprintf_16 ("kbuf" ++ show_u id),
  [("num_buffers"%string, 32, num_buffers d);
   ("buffer_size"%string, 32, buffer_size d);
   ("peak_count"%string, 32, peak_count d);
   ("prod_idx"%string, 32, prod_idx d);
   ("cons_idx"%string, 32, cons_idx d);
   ("msgs_produced"%string, 64, msgs_produced d);
   ("msgs_consumed"%string, 64, msgs_consumed d);
   ("bytes_produced"%string, 64, bytes_produced d);
   ("bytes_consumed"%string, 64, bytes_consumed d);
   ("read_sleeps"%string, 64, read_sleeps d);
   ("write_sleeps"%string, 64, write_sleeps d)]).
