(* ===== verification/ProcProps.v ===== *)
(** * ProcProps: /proc/kbuf_status tells the truth

    The text can be read back, and the numbers in it agree with the queue. *)

From Stdlib Require Import NArith Strings.String Strings.Ascii DecimalString DecimalN.
From S2P Require Import Prelude Kernel Uapi Device Ring RingFacts RingSpec Samples Ioctl Proc.
#[local] Open Scope Z_scope.

(** ** Scanning what was printed *)
Lemma app_assoc_s (a b c : string) : ((a ++ b) ++ c)%string = (a ++ b ++ c)%string.
Proof.
  induction a as [| x a IH]; [done |].
  change (String x ((a ++ b) ++ c) = String x (a ++ b ++ c))%string. by rewrite IH.
Qed.

Lemma strip_app pre s : strip pre (pre ++ s)%string = Some s.
Proof.
  induction pre as [| a pre IH]; [by destruct s |].
  change (strip (String a pre) (String a (pre ++ s)) = Some s)%string. cbn [strip]. by rewrite Ascii.eqb_refl.
Qed.

(** A run of characters that satisfy [p], up to one that does not. *)
Fixpoint all_chars (p : ascii -> bool) (s : string) : bool :=
  match s with EmptyString => true | String a s' => p a && all_chars p s' end.

Definition stops (p : ascii -> bool) (s : string) : bool :=
  match s with EmptyString => true | String a _ => negb (p a) end.

Lemma span_app p x s : all_chars p x = true -> stops p s = true -> span p (x ++ s)%string = (x, s).
Proof.
  intros Hx Hs. induction x as [| a x IH].
  - change (span p s = (EmptyString, s)). destruct s as [| b s]; [done |]. cbn in *. by destruct (p b).
  - change (span p (String a (x ++ s)) = (String a x, s))%string. cbn [span all_chars] in *.
    apply andb_true_iff in Hx as [-> Hx]. by rewrite (IH Hx).
Qed.

Lemma digits_uint u : all_chars is_digit (NilZero.string_of_uint u) = true.
Proof.
  assert (He : forall v, all_chars is_digit (NilEmpty.string_of_uint v) = true) by (induction v; cbn; auto).
  unfold NilZero.string_of_uint. destruct u; [done | apply (He (Decimal.D0 u)) | apply (He (Decimal.D1 u)) |
    apply (He (Decimal.D2 u)) | apply (He (Decimal.D3 u)) | apply (He (Decimal.D4 u)) | apply (He (Decimal.D5 u)) |
    apply (He (Decimal.D6 u)) | apply (He (Decimal.D7 u)) | apply (He (Decimal.D8 u)) | apply (He (Decimal.D9 u))].
Qed.

Lemma uint_value u :
  exists u', NilZero.uint_of_string (NilZero.string_of_uint u) = Some u' /\ N.of_uint u' = N.of_uint u.
Proof.
  destruct u; [by eexists | ..]; eexists; (split; [by apply NilZero.usu | done]).
Qed.

Lemma scan_show before after v s :
  0 <= v -> stops is_digit (after ++ NL)%string = true ->
  scan_u before after (line before (show_u v) after ++ s)%string = Some (v, s).
Proof.
  intros Hv Ha. unfold scan_u, line, show_u. rewrite !app_assoc_s, strip_app. cbn [mbind option_bind].
  rewrite span_app; [| apply digits_uint |].
  2: { destruct after; [done | exact Ha]. }
  destruct (uint_value (N.to_uint (Z.to_N v))) as (u & -> & Hu). cbn [mbind option_bind].
  rewrite strip_app. cbn [mbind option_bind]. rewrite strip_app. cbn [mbind option_bind].
  rewrite Hu, DecimalN.Unsigned.of_to, Z2N.id by done. done.
Qed.

Lemma scan_word before w s :
  all_chars not_nl w = true -> scan_w before (line before w "" ++ s)%string = Some (w, s).
Proof.
  intros Hw. unfold scan_w, line. rewrite !app_assoc_s, strip_app. cbn [mbind option_bind].
  rewrite span_app by done. by rewrite (strip_app NL s : strip NL ("" ++ NL ++ s)%string = _).
Qed.

(** The values of a section that can be printed. *)
Record printable (v : proc_dev) : Prop := {
  pr_nums : Forall (fun x => 0 <= x)
    [pv_idx v; pv_total v; pv_size v; pv_full v; pv_free v; pv_peak v; pv_rd v; pv_wr v;
     pv_msgs_in v; pv_msgs_out v; pv_bytes_in v; pv_bytes_out v; pv_rsleeps v; pv_wsleeps v];
  pr_mode : all_chars not_nl (pv_mode v) = true
}.

Lemma scan_text v s : printable v -> scan_dev (proc_text v ++ s)%string = Some (v, s).
Proof.
  intros [Hn Hm]. decompose_Forall_hyps. unfold scan_dev, proc_text. rewrite !app_assoc_s.
  repeat (rewrite scan_show by done; cbn [mbind option_bind]).
  rewrite scan_word by done. cbn [mbind option_bind].
  repeat (rewrite scan_show by done; cbn [mbind option_bind]). by destruct v.
Qed.

(** ** What the numbers say *)
Lemma proc_printable d i : dev_ok d -> 0 <= i -> printable (proc_values d i).
Proof.
  intros ([Hn Hb _] & Hr & [Hp H64]) Hi. decompose_Forall_hyps. unfold in_u64 in *. split; cbn.
  - assert (Hu : forall x, 0 <= u32 x) by (intros x; apply u32_range).
    repeat first [apply List.Forall_nil | apply List.Forall_cons]; try lia.
    + unfold kbuf_occupancy. destruct (mode d =? KBUF_MODE_SPSC); apply Hu.
    + apply Hu.
    + destruct (mode d =? KBUF_MODE_SPSC); [| apply Hu]. apply Z.land_nonneg. right. apply Hu.
    + destruct (mode d =? KBUF_MODE_SPSC); [| apply Hu]. apply Z.land_nonneg. right. apply Hu.
  - unfold mode_name. by repeat case_match.
Qed.

Lemma show_from_printable i ds :
  Forall dev_ok ds -> 0 <= i ->
  scan_devs (length ds) (kbuf_proc_show_from i ds) = Some (imap (fun k d => proc_values d (i + Z.of_nat k)) ds).
Proof.
  revert i. induction ds as [| d ds IH]; intros i Hall Hi; [done |]. apply Forall_cons in Hall as [Hd Hall].
  cbn [length scan_devs kbuf_proc_show_from imap]. unfold kbuf_proc_show_dev.
  rewrite scan_text by (by apply proc_printable). cbn [mbind option_bind].
  rewrite IH by (done || lia). cbn [mbind option_bind]. rewrite Z.add_0_r. do 2 f_equal.
  apply imap_ext. intros k x _. cbn. f_equal. lia.
Qed.

(** ** What the section of a device says, in the terms of the queue *)
Lemma proc_occupancy d : dev_ok d -> 0 <= kbuf_occupancy d <= num_buffers d.
Proof.
  intros (Hg & Hr & _). pose proof (geo_n d Hg) as Hn. unfold KBUF_MAX_NUM_BUFFERS in Hn.
  unfold kbuf_occupancy, ring_ok in *. destruct (mode d =? KBUF_MODE_SPSC).
  - destruct Hr as ([_ _ _ Hle] & _). pose proof (u32_range (prod_idx d - cons_idx d)) as [? _]. lia.
  - destruct Hr as (_ & [_ Hc _ _] & _). rewrite u32_small; unfold in_u32; lia.
Qed.

(** Where the ring is read and written, by mode. *)
Lemma proc_positions d i :
  dev_ok d ->
  pv_rd (proc_values d i) = (if mode d =? KBUF_MODE_SPSC then cons_idx d mod num_buffers d else read_pos d) /\
  pv_wr (proc_values d i) = (if mode d =? KBUF_MODE_SPSC then prod_idx d mod num_buffers d else write_pos d) /\
  pv_mode (proc_values d i) = (if mode d =? KBUF_MODE_SPSC then "spsc"%string else "blocking"%string).
Proof.
  intros (Hg & Hr & _). pose proof (geo_n d Hg) as Hn. unfold KBUF_MAX_NUM_BUFFERS in Hn. cbn. unfold ring_ok in Hr.
  destruct (Z.eqb_spec (mode d) KBUF_MODE_SPSC) as [Hm | Hm].
  - destruct Hr as ([Hp2 Hp Hc Hle'] & _). rewrite !(spsc_slot_index d) by done. by rewrite Hm.
  - destruct Hr as (Hmb & [Hrp Hc Hwp _] & _). rewrite Hmb.
    pose proof (Z.mod_pos_bound (read_pos d + count d) (num_buffers d) ltac:(lia)) as Hwb. rewrite <- Hwp in Hwb.
    rewrite !u32_small by (unfold in_u32; lia). done.
Qed.

(** C35: /proc/kbuf_status can be read back: scanning the text that
    [kbuf_proc_show] prints for any number of well-formed devices gives, device
    by device and in order, each value under its own label: the index, the
    geometry, the messages queued and the slots left, the peak, the position of
    the next read and write, the mode by name, and the six counters. *)
Theorem proc_roundtrip ds :
  Forall dev_ok ds ->
  scan_devs (length ds) (kbuf_proc_show ds) = Some (imap (fun k d =>
    {| pv_idx := Z.of_nat k; pv_total := num_buffers d; pv_size := buffer_size d;
       pv_full := Z.of_nat (length (dev_queue d));
       pv_free := num_buffers d - Z.of_nat (length (dev_queue d));
       pv_peak := peak_count d;
       pv_rd := if mode d =? KBUF_MODE_SPSC then cons_idx d mod num_buffers d else read_pos d;
       pv_wr := if mode d =? KBUF_MODE_SPSC then prod_idx d mod num_buffers d else write_pos d;
       pv_mode := if mode d =? KBUF_MODE_SPSC then "spsc"%string else "blocking"%string;
       pv_msgs_in := msgs_produced d; pv_msgs_out := msgs_consumed d;
       pv_bytes_in := bytes_produced d; pv_bytes_out := bytes_consumed d;
       pv_rsleeps := read_sleeps d; pv_wsleeps := write_sleeps d |}) ds).
Proof.
  intros Hall. unfold kbuf_proc_show. rewrite show_from_printable by done. f_equal.
  apply imap_ext. intros k d Hd. cbn beta. rewrite Z.add_0_l.
  pose proof (Forall_lookup_1 _ _ _ _ Hall Hd) as Hok.
  destruct (proc_positions d (Z.of_nat k) Hok) as (Hrd & Hwr & Hm).
  pose proof (proc_occupancy d Hok) as Hle. pose proof (occupancy_queue d Hok) as Ho.
  pose proof (geo_n d (proj1 Hok)) as Hn. unfold KBUF_MAX_NUM_BUFFERS in Hn.
  rewrite <- Hrd, <- Hwr, <- Hm, <- Ho. unfold proc_values at 1. cbn.
  by rewrite (u32_small (num_buffers d - _)) by (unfold in_u32; lia).
Qed.

(** The section of a device is consistent, in either mode: the full slots
    are the messages queued, full and free slots add up, and the write position
    is the read position advanced by the full slots around the ring. *)
Theorem proc_consistent d i :
  dev_ok d ->
  let v := proc_values d i in
  pv_full v = Z.of_nat (length (dev_queue d)) /\ pv_full v + pv_free v = pv_total v /\
  0 <= pv_rd v < pv_total v /\ pv_wr v = (pv_rd v + pv_full v) mod pv_total v.
Proof.
  intros Hok v. destruct (proc_positions d i Hok) as (Hrd & Hwr & _). fold v in Hrd, Hwr.
  pose proof (occupancy_queue d Hok) as Ho. pose proof (proc_occupancy d Hok) as Hle. pose proof Hok as (Hg & Hr & _).
  pose proof (geo_n d Hg) as Hn. unfold KBUF_MAX_NUM_BUFFERS in Hn. rewrite Hrd, Hwr, <- Ho. cbn [v proc_values pv_full pv_free pv_total].
  rewrite (u32_small (num_buffers d - _)) by (unfold in_u32; lia).
  split; [done |]. split; [lia |]. unfold kbuf_occupancy, ring_ok in *.
  destruct (Z.eqb_spec (mode d) KBUF_MODE_SPSC) as [Hm | Hm].
  - destruct Hr as ([Hp2 Hp Hc Hle'] & _). split; [apply Z.mod_pos_bound; lia |].
    rewrite Z.add_mod_idemp_l by lia. apply spsc_prod_slot; (done || (unfold KBUF_MAX_NUM_BUFFERS; lia)).
  - destruct Hr as (_ & [Hrp Hc Hwp _] & _). rewrite u32_small by (unfold in_u32; lia). split; [lia | exact Hwp].
Qed.

(** The debugfs files have different names, every value fits its field, and the
    directories of the most devices there can be are told apart. *)
Theorem debugfs_fits d i :
  dev_ok d ->
  NoDup ((fun f => f.1.1) <$> (kbuf_debugfs_add d i).2) /\
  Forall (fun f => 0 <= f.2 < 2 ^ f.1.2) (kbuf_debugfs_add d i).2 /\
  NoDup ((fun k => (kbuf_debugfs_add d k).1) <$> seqZ 0 KBUF_MAX_NDEVICES).
Proof.
  intros ([Hn Hb _] & Hr & [Hp H64]). decompose_Forall_hyps. unfold in_u64, KBUF_MAX_NUM_BUFFERS, KBUF_MAX_BUFFER_SIZE in *.
  assert (Hidx : in_u32 (prod_idx d) /\ in_u32 (cons_idx d)).
  { unfold ring_ok in Hr. destruct (mode d =? KBUF_MODE_SPSC); [by destruct Hr as ([] & _) |].
    destruct Hr as (_ & _ & -> & ->). by unfold in_u32. }
  destruct Hidx as [Hpi Hci]. unfold in_u32 in *. split; [| split].
  - cbn. apply (bool_decide_unpack _). by vm_compute.
  - cbn [snd kbuf_debugfs_add].
    repeat first [apply List.Forall_nil | apply List.Forall_cons]; cbn [fst snd]; (done || lia).
  - cbn [fst kbuf_debugfs_add]. apply (bool_decide_unpack _). by vm_compute.
Qed.

(** ** Concrete runs *)
Lemma proc_roundtrip_witness :
  exists v0 v1, scan_devs 2 (kbuf_proc_show [full_dev; spsc_dev]) = Some [v0; v1] /\
    pv_full v0 = Z.of_nat (length (dev_queue full_dev)) /\ pv_mode v1 = "spsc"%string /\
    pv_msgs_in v1 = msgs_produced spsc_dev.
Proof.
  eexists _, _. split; [refine (proc_roundtrip [full_dev; spsc_dev] _) |].
  - repeat first [apply List.Forall_nil | apply List.Forall_cons]; [exact full_dev_ok | exact spsc_dev_ok].
  - split; [reflexivity |]. split; reflexivity.
Defined.

Lemma proc_consistent_witness :
  pv_wr (proc_values spsc_dev 1) = (pv_rd (proc_values spsc_dev 1) + pv_full (proc_values spsc_dev 1)) mod 2.
Proof. exact (proj2 (proj2 (proj2 (proc_consistent spsc_dev 1 spsc_dev_ok)))). Defined.
