(* ===== verification/Kbufpp.v ===== *)
(** * Kbufpp: ownership in the C++ wrapper (include/kbufpp.hpp)

    [unique_fd] is a move-only owner of a kernel handle, and [Device] has one as
    its only member.  The state has the live objects with the value each holds,
    the handles the process has open, and those of them that no object owns yet
    or any more ([o_raw]: returned by a system call, or by [release]).  Closing a
    handle that is not open is an error.  The other methods of [Device] are in
    Client.v, [MappedRing] is in MappedRing.v. *)

From S2P Require Import Prelude Kernel.
#[local] Open Scope Z_scope.

Record ostate := OState {
  o_obj : gmap nat Z;
  o_open : gset Z;
  o_raw : gset Z
}.

(** What the empty owner holds, and when there is something to give back. *)
Class Handle := { h_null : Z; h_valid : Z -> bool }.

Definition fd_handle : Handle := {| h_null := -1; h_valid fd := fd >=? 0 |}.
Definition map_handle : Handle := {| h_null := 0; h_valid base := negb (base =? 0) |}.

Definition obj_get (x : nat) : prog ostate Z :=
  s <-- p_get ;; p_some UseAfterFree (o_obj s !! x).

Definition obj_set (x : nat) (v : Z) : prog ostate unit :=
  p_modify (fun s => OState (<[x := v]> (o_obj s)) (o_open s) (o_raw s)).

Definition obj_end (x : nat) : prog ostate unit :=
  p_modify (fun s => OState (delete x (o_obj s)) (o_open s) (o_raw s)).

(** [close] and [munmap] *)
Definition sys_close (v : Z) : prog ostate unit := fun s =>
  if bool_decide (v ∈ o_open s) then Done (tt, OState (o_obj s) (o_open s ∖ {[v]}) (o_raw s ∖ {[v]}))
  else Oops UseAfterFree.

(** The value leaves or enters the hands of the caller. *)
Definition give (v : Z) : prog ostate unit := p_modify (fun s => OState (o_obj s) (o_open s) ({[v]} ∪ o_raw s)).
Definition take_raw (v : Z) : prog ostate unit := p_modify (fun s => OState (o_obj s) (o_open s) (o_raw s ∖ {[v]})).

Section owner.
Context `{Handle}.

Definition own_reset (x : nat) (v : Z) : prog ostate unit :=
  old <-- obj_get x ;;
  (if h_valid old then sys_close old else p_ret tt) ;;;
  take_raw v ;;; obj_set x v.

Definition own_ctor (x : nat) (v : Z) : prog ostate unit := take_raw v ;;; obj_set x v.

(** [std::exchange(o.fd_, -1)] *)
Definition exchange (x : nat) : prog ostate Z :=
  v <-- obj_get x ;; obj_set x h_null ;;; p_ret v.

Definition own_move (x y : nat) : prog ostate unit := v <-- exchange y ;; obj_set x v.

Definition own_assign (x y : nat) : prog ostate unit :=
  if bool_decide (x <> y) then own_reset x h_null ;;; v <-- exchange y ;; obj_set x v
  else p_ret tt.

Definition own_release (x : nat) : prog ostate Z :=
  v <-- exchange x ;; (if h_valid v then give v else p_ret tt) ;;; p_ret v.

Definition own_dtor (x : nat) : prog ostate unit := own_reset x h_null ;;; obj_end x.

(** [Device::Device], from the answer of [open]: [inr] is the exception, and the
    member [fd_] is destroyed on the way out. *)
Definition Device_ctor (x : nat) (opened : Z) : prog ostate (unit + unit) :=
  own_ctor x opened ;;;
  fd <-- obj_get x ;;
  if negb (h_valid fd) then own_dtor x ;;; p_ret (inr tt) else p_ret (inl tt).
End owner.

(** ** Programs

    A system call returns a new handle; an owner is made from a handle in hand
    (or from the empty value), moved, assigned, reset, released, destroyed; the
    caller closes a handle of its own.  A [Device] is made from the answer of
    [open], and moves as its descriptor does. *)
Inductive oop : Set :=
  | OOpen (v : Z)
  | OCtor (x : nat) (v : Z)
  | OMove (x y : nat)
  | OAssign (x y : nat)
  | OReset (x : nat) (v : Z)
  | ORelease (x : nat)
  | ODtor (x : nat)
  | OClose (v : Z)
  | ODevice (x : nat) (v : Z).

Section programs.
Context `{Handle}.

Definition own_op (o : oop) : prog ostate unit :=
  match o with
  | OOpen v => p_modify (fun s => OState (o_obj s) ({[v]} ∪ o_open s) ({[v]} ∪ o_raw s))
  | OCtor x v => own_ctor x v
  | OMove x y => own_move x y
  | OAssign x y => own_assign x y
  | OReset x v => own_reset x v
  | ORelease x => own_release x ;;; p_ret tt
  | ODtor x => own_dtor x
  | OClose v => sys_close v
  | ODevice x v => Device_ctor x v ;;; p_ret tt
  end.

(** What C++ and the caller's own discipline ask of a call: objects are used
    while they live, and only a handle one has is passed on. *)
Definition oop_ok (o : oop) (s : ostate) : Prop :=
  match o with
  | OOpen v => h_valid v = true /\ v ∉ o_open s
  | OCtor x v => o_obj s !! x = None /\ (v ∈ o_raw s \/ v = h_null)
  | OMove x y => o_obj s !! x = None /\ is_Some (o_obj s !! y)
  | OAssign x y => is_Some (o_obj s !! x) /\ is_Some (o_obj s !! y)
  | OReset x v => is_Some (o_obj s !! x) /\ (v ∈ o_raw s \/ v = h_null)
  | ORelease x => is_Some (o_obj s !! x)
  | ODtor x => is_Some (o_obj s !! x)
  | OClose v => v ∈ o_raw s
  | ODevice x v => o_obj s !! x = None /\ (v ∈ o_raw s \/ v = h_null)
  end.

Inductive own_run : ostate -> list oop -> ostate -> Prop :=
  | or_nil s : own_run s [] s
  | or_snoc s os s1 o s2 :
      own_run s os s1 -> oop_ok o s1 -> own_op o s1 = Done (tt, s2) -> own_run s (os ++ [o]) s2.
End programs.
