(* ===== verification/KbufppProps.v ===== *)
(** * KbufppProps: every handle is closed exactly once *)

From S2P Require Import Prelude Kernel Kbufpp.
#[local] Open Scope Z_scope.

Class HandleLaws `{Handle} : Prop := null_invalid : h_valid h_null = false.

#[export] Instance fd_laws : HandleLaws (H := fd_handle).
Proof. done. Qed.

#[export] Instance map_laws : HandleLaws (H := map_handle).
Proof. done. Qed.

Section owner.
Context `{HandleLaws}.
Implicit Types (s : ostate).

(** Every open handle is in exactly one place: with one object, or with the
    caller. *)
Record own_ok s : Prop := {
  ow_obj x v : o_obj s !! x = Some v -> v = h_null \/ (h_valid v = true /\ v ∈ o_open s /\ v ∉ o_raw s);
  ow_inj x y v : o_obj s !! x = Some v -> o_obj s !! y = Some v -> h_valid v = true -> x = y;
  ow_raw : o_raw s ⊆ o_open s;
  ow_all v : v ∈ o_open s -> h_valid v = true /\ (v ∈ o_raw s \/ exists x, o_obj s !! x = Some v)
}.

(** An object that holds nothing, or is about to be made. *)
Definition vacant s (x : nat) : Prop := o_obj s !! x = None \/ o_obj s !! x = Some h_null.

Lemma raw_valid s v : own_ok s -> v ∈ o_raw s -> h_valid v = true.
Proof. intros [_ _ Hr Ha] Hv. apply Ha. set_solver. Qed.

Lemma not_null v : h_valid v = true -> v <> h_null.
Proof. intros Hv ->. by rewrite null_invalid in Hv. Qed.

(** The object's handle is closed and the object emptied. *)
Lemma close_ok s x v :
  own_ok s -> o_obj s !! x = Some v -> h_valid v = true ->
  own_ok (OState (<[x := h_null]> (o_obj s)) (o_open s ∖ {[v]}) (o_raw s ∖ {[v]})).
Proof.
  intros [Ho Hi Hr Ha] Hx Hv. split; cbn.
  - intros y w [[-> <-] | [Hne Hy]]%lookup_insert_Some; [by left |].
    destruct (Ho y w Hy) as [? | (Hw & ? & ?)]; [by left | right].
    assert (w <> v) by (intros ->; by destruct Hne; apply (Hi x y v)). set_solver.
  - intros y z w [[-> <-] | [? Hy]]%lookup_insert_Some [[-> Hw] | [? Hz]]%lookup_insert_Some Hw';
      try (done || by rewrite null_invalid in Hw'); [| by apply (Hi y z w)].
    by rewrite <- Hw, null_invalid in Hw'.
  - set_solver.
  - intros w [Hw Hne]%elem_of_difference. destruct (Ha w Hw) as [? [? | [y Hy]]]; (split; [done |]); [left; set_solver |].
    right. exists y. rewrite lookup_insert_ne; [done |]. intros ->. set_solver.
Qed.

(** A handle in the caller's hands goes to a vacant object. *)
Lemma fill_ok s x v :
  own_ok s -> vacant s x -> v ∈ o_raw s \/ v = h_null ->
  own_ok (OState (<[x := v]> (o_obj s)) (o_open s) (o_raw s ∖ {[v]})).
Proof.
  intros Hok Hx Hv. assert (Hfree : forall y, o_obj s !! y = Some v -> h_valid v = true -> False).
  { intros y Hy Hval. destruct Hv as [Hv | ->]; [| by rewrite null_invalid in Hval].
    destruct (ow_obj s Hok y v Hy) as [-> | (_ & _ & ?)]; [by rewrite null_invalid in Hval | done]. }
  assert (Hval : v ∈ o_raw s -> h_valid v = true) by (by apply raw_valid).
  destruct Hok as [Ho Hi Hr Ha]. split; cbn.
  - intros y w [[-> <-] | [Hne Hy]]%lookup_insert_Some.
    + destruct Hv as [Hv | ->]; [right | by left]. split; [by apply Hval | set_solver].
    + destruct (Ho y w Hy) as [? | (? & ? & ?)]; [by left | right]. set_solver.
  - intros y z w [[-> <-] | [? Hy]]%lookup_insert_Some [[-> Hw] | [? Hz]]%lookup_insert_Some Hw'; [done | | |].
    + by destruct (Hfree z).
    + subst w. by destruct (Hfree y).
    + by apply (Hi y z w).
  - set_solver.
  - intros w Hw. destruct (Ha w Hw) as [Hwv Hpl]. split; [done |]. destruct (decide (w = v)) as [-> | Hne].
    + right. exists x. by rewrite lookup_insert_eq.
    + destruct Hpl as [? | [y Hy]]; [left; set_solver | right]. exists y. rewrite lookup_insert_ne; [done |].
      intros ->. destruct Hx as [Hx | Hx]; rewrite Hx in Hy; [done |]. injection Hy as <-.
      by apply not_null in Hwv.
Qed.

(** A handle passes from one object to a vacant one. *)
Lemma transfer_ok s x y v :
  own_ok s -> x <> y -> vacant s x -> o_obj s !! y = Some v ->
  own_ok (OState (<[x := v]> (<[y := h_null]> (o_obj s))) (o_open s) (o_raw s)).
Proof.
  intros [Ho Hi Hr Ha] Hne Hx Hy.
  assert (Hcase : forall z w, <[x := v]> (<[y := h_null]> (o_obj s)) !! z = Some w ->
            (z = x /\ w = v) \/ (z = y /\ w = h_null) \/ (z <> x /\ z <> y /\ o_obj s !! z = Some w)).
  { intros z w [[-> <-] | [? [[-> <-] | [? ?]]%lookup_insert_Some]]%lookup_insert_Some; naive_solver. }
  split; cbn [o_obj o_open o_raw].
  - intros z w [[-> ->] | [[-> ->] | (_ & _ & Hz)]]%Hcase; [by apply (Ho y) | by left | by apply (Ho z)].
  - intros z z' w [[-> ->] | [[-> ->] | (_ & Nz & Hz)]]%Hcase [[-> Hw] | [[-> Hw] | (_ & Nz' & Hz')]]%Hcase Hval;
      try (done || by rewrite null_invalid in Hval); try (by rewrite Hw, null_invalid in Hval).
    + destruct Nz'. by apply (Hi z' y v).
    + subst w. destruct Nz. by apply (Hi z y v).
    + by apply (Hi z z' w).
  - done.
  - intros w Hw. destruct (Ha w Hw) as [Hwv [? | [z Hz]]]; (split; [done |]); [by left | right].
    destruct (decide (z = y)) as [-> | ?]; [exists x; rewrite lookup_insert_eq; congruence |].
    exists z. rewrite !lookup_insert_ne; [done | done |]. intros <-. apply not_null in Hwv.
    destruct Hx as [Hx | Hx]; rewrite Hx in Hz; congruence.
Qed.

(** An empty object ends; a handle leaves an object; a handle is opened, or
    closed by the caller. *)
Lemma end_ok s x : own_ok s -> o_obj s !! x = Some h_null -> own_ok (OState (delete x (o_obj s)) (o_open s) (o_raw s)).
Proof.
  intros [Ho Hi Hr Ha] Hx. split; cbn [o_obj o_open o_raw].
  - intros y w [_ Hy]%lookup_delete_Some. by apply (Ho y).
  - intros y z w [_ Hy]%lookup_delete_Some [_ Hz]%lookup_delete_Some. by apply Hi.
  - done.
  - intros w Hw. destruct (Ha w Hw) as [Hwv [? | [y Hy]]]; (split; [done |]); [by left | right]. exists y.
    apply lookup_delete_Some. split; [| done]. intros <-. apply not_null in Hwv. congruence.
Qed.

Lemma give_ok s x v :
  own_ok s -> o_obj s !! x = Some v -> h_valid v = true ->
  own_ok (OState (<[x := h_null]> (o_obj s)) (o_open s) ({[v]} ∪ o_raw s)).
Proof.
  intros [Ho Hi Hr Ha] Hx Hv. destruct (Ho x v Hx) as [-> | (_ & Hop & _)]; [by rewrite null_invalid in Hv |].
  split; cbn [o_obj o_open o_raw].
  - intros y w [[-> <-] | [Hne Hy]]%lookup_insert_Some; [by left |].
    destruct (Ho y w Hy) as [? | (? & ? & ?)]; [by left | right].
    assert (w <> v) by (intros ->; by destruct Hne; apply (Hi x y v)). set_solver.
  - intros y z w [[-> <-] | [? Hy]]%lookup_insert_Some [[-> Hw] | [? Hz]]%lookup_insert_Some Hw';
      try (done || by rewrite null_invalid in Hw'); [| by apply (Hi y z w)].
    by rewrite <- Hw, null_invalid in Hw'.
  - set_solver.
  - intros w Hw. destruct (Ha w Hw) as [Hwv Hpl]. split; [done |].
    destruct (decide (w = v)) as [-> | Hne]; [left; set_solver |].
    destruct Hpl as [? | [y Hy]]; [left; set_solver | right]. exists y. rewrite lookup_insert_ne; [done | congruence].
Qed.

Lemma open_ok s v :
  own_ok s -> h_valid v = true -> v ∉ o_open s -> own_ok (OState (o_obj s) ({[v]} ∪ o_open s) ({[v]} ∪ o_raw s)).
Proof.
  intros [Ho Hi Hr Ha] Hv Hf. split; cbn [o_obj o_open o_raw]; [| done | set_solver |].
  - intros y w Hy. destruct (Ho y w Hy) as [? | (? & ? & ?)]; [by left | right]. set_solver.
  - intros w [->%elem_of_singleton | Hw]%elem_of_union; [split; [done | left; set_solver] |].
    destruct (Ha w Hw) as [? [? | ?]]; (split; [done |]); [left; set_solver | by right].
Qed.

Lemma close_raw_ok s v :
  own_ok s -> v ∈ o_raw s -> own_ok (OState (o_obj s) (o_open s ∖ {[v]}) (o_raw s ∖ {[v]})).
Proof.
  intros [Ho Hi Hr Ha] Hv. split; cbn [o_obj o_open o_raw]; [| done | set_solver |].
  - intros y w Hy. destruct (Ho y w Hy) as [? | (? & ? & ?)]; [by left | right]. set_solver.
  - intros w [Hw Hne]%elem_of_difference. destruct (Ha w Hw) as [? [? | ?]]; (split; [done |]); [left; set_solver | by right].
Qed.

(** ** The operations *)
Lemma close_run s v : v ∈ o_open s -> sys_close v s = Done (tt, OState (o_obj s) (o_open s ∖ {[v]}) (o_raw s ∖ {[v]})).
Proof. intros Hv. unfold sys_close. by rewrite bool_decide_eq_true_2. Qed.

Lemma reset_run s x old v :
  own_ok s -> o_obj s !! x = Some old -> v ∈ o_raw s \/ v = h_null ->
  exists s', own_reset x v s = Done (tt, s') /\ own_ok s' /\ o_obj s' = <[x := v]> (o_obj s).
Proof.
  intros Hok Hx Hv. unfold own_reset, obj_get, obj_set, take_raw, p_bind, p_get, p_modify. cbn [exec_bind].
  rewrite Hx. cbn [p_some p_ret exec_bind]. destruct (h_valid old) eqn:Hval.
  - destruct (ow_obj s Hok x old Hx) as [-> | (_ & Hop & Hnr)]; [by rewrite null_invalid in Hval |].
    rewrite (close_run s old Hop). cbn [exec_bind o_obj o_open o_raw]. eexists. split; [done |]. split; [| done].
    pose proof (fill_ok _ x v (close_ok s x old Hok Hx Hval)) as Hf. cbn [o_obj o_open o_raw] in Hf.
    rewrite insert_insert_eq in Hf. apply Hf; [right; apply lookup_insert_eq |].
    destruct Hv as [Hv | ->]; [left | by right]. assert (v <> old) by (by intros ->). set_solver.
  - unfold p_ret. cbn [exec_bind]. eexists. split; [done |]. split; [| done].
    cbn [o_obj o_open o_raw]. apply fill_ok; [done | | done].
    destruct (ow_obj s Hok x old Hx) as [-> | (? & _)]; [by right | congruence].
Qed.

Lemma move_run s x y v :
  own_ok s -> x <> y -> vacant s x -> o_obj s !! y = Some v ->
  exists s', own_move x y s = Done (tt, s') /\ own_ok s' /\ o_obj s' = <[x := v]> (<[y := h_null]> (o_obj s)).
Proof.
  intros Hok Hne Hx Hy. unfold own_move, exchange, obj_get, obj_set, p_bind, p_get, p_modify. cbn [exec_bind].
  rewrite Hy. cbn. eexists. split; [done |]. split; [by apply transfer_ok | done].
Qed.

Lemma dtor_run s x u :
  own_ok s -> o_obj s !! x = Some u -> exists s', own_dtor x s = Done (tt, s') /\ own_ok s'.
Proof.
  intros Hok Hx. unfold own_dtor.
  destruct (reset_run s x u h_null Hok Hx (or_intror eq_refl)) as (s1 & Hr & Hok1 & Ho1).
  unfold p_bind. rewrite Hr. cbn. eexists. split; [done |]. apply end_ok; [done |]. by rewrite Ho1, lookup_insert_eq.
Qed.

(** Every operation used as it should be does what it says. *)
Lemma own_op_ok o s :
  own_ok s -> oop_ok o s -> exists s', own_op o s = Done (tt, s') /\ own_ok s'.
Proof.
  intros Hok Ho. destruct o as [v | x v | x y | x y | x v | x | x | v | x v]; cbn [own_op oop_ok] in *.
  - destruct Ho. eexists. split; [done | by apply open_ok].
  - destruct Ho as [Hx Hv]. eexists. split; [done |]. cbn [o_obj o_open o_raw]. apply fill_ok; [done | by left | done].
  - destruct Ho as [Hx [v Hy]]. destruct (move_run s x y v Hok) as (s' & ? & ? & _); [congruence | by left | done |].
    by exists s'.
  - destruct Ho as [[u Hx] [v Hy]]. unfold own_assign. case_bool_decide as Hne; [| by exists s].
    destruct (reset_run s x u h_null Hok Hx (or_intror eq_refl)) as (s1 & Hr & Hok1 & Ho1).
    unfold p_bind at 1. rewrite Hr. cbn [exec_bind].
    destruct (move_run s1 x y v Hok1 Hne) as (s2 & Hm & Hok2 & _); [right; by rewrite Ho1, lookup_insert_eq | |].
    { by rewrite Ho1, lookup_insert_ne. }
    exists s2. split; [exact Hm | done].
  - destruct Ho as [[u Hx] Hv]. destruct (reset_run s x u v Hok Hx Hv) as (s' & ? & ? & _). by exists s'.
  - destruct Ho as [v Hx]. unfold own_release, exchange, obj_get, obj_set, give, p_bind, p_get, p_modify.
    cbn [exec_bind]. rewrite Hx. cbn [p_some p_ret exec_bind]. destruct (h_valid v) eqn:Hv; cbn.
    + eexists. split; [done |]. by apply give_ok.
    + eexists. split; [done |]. destruct (ow_obj s Hok x v Hx) as [-> | (? & _)]; [| congruence].
      rewrite insert_id by done. by destruct s.
  - destruct Ho as [u Hx]. by apply (dtor_run s x u).
  - rewrite close_run by (apply (ow_raw s Hok), Ho). eexists. split; [done |]. by apply close_raw_ok.
  - destruct Ho as [Hx Hv]. unfold Device_ctor, own_ctor, take_raw, obj_set, p_modify, p_bind at 1 2 3. cbn [exec_bind].
    cbn [o_obj o_open o_raw]. set (s1 := OState _ _ _).
    assert (Hok1 : own_ok s1) by (apply (fill_ok s x v); [done | by left | done]).
    assert (Hx1 : o_obj s1 !! x = Some v) by apply lookup_insert_eq.
    unfold obj_get, p_bind at 1 2, p_get. cbn [exec_bind]. rewrite Hx1. cbn [p_some p_ret exec_bind].
    destruct (h_valid v); cbn [negb]; [by exists s1 |].
    destruct (dtor_run s1 x v Hok1 Hx1) as (s2 & Hd & Hok2). rewrite !(run_bind _ _ _ _ _ Hd). by exists s2.
Qed.

Lemma own_run_ok s os s' : own_ok s -> own_run s os s' -> own_ok s'.
Proof.
  intros Hok Hrun. induction Hrun as [s | s os s1 o s2 Hrun IH Ho Hop]; [done |].
  destruct (own_op_ok o s1 (IH Hok) Ho) as (s2' & Hop' & Hok2). congruence.
Qed.

Lemma own_ok_empty : own_ok (OState ∅ ∅ ∅).
Proof. by split. Qed.

(** C39: move-only ownership: in any program that uses live objects and passes on
    only handles it has, no descriptor (or mapping) is ever closed twice or by
    two owners, self-assignment included; an open handle is with exactly one
    object or with the caller; and when all objects are gone and the caller holds
    nothing, nothing is open. *)
Theorem owners_sound os s :
  own_run (OState ∅ ∅ ∅) os s ->
  (forall o, oop_ok o s -> exists s', own_op o s = Done (tt, s')) /\
  (forall x y v, o_obj s !! x = Some v -> o_obj s !! y = Some v -> h_valid v = true ->
                 x = y /\ v ∈ o_open s /\ v ∉ o_raw s) /\
  (o_obj s = ∅ -> o_raw s = ∅ -> o_open s = ∅).
Proof.
  intros Hrun. pose proof (own_run_ok _ _ _ own_ok_empty Hrun) as Hok. split; [| split].
  - intros o Ho. destruct (own_op_ok o s Hok Ho) as (s' & ? & _). by exists s'.
  - intros x y v Hx Hy Hv. split; [by apply (ow_inj s Hok x y v) |].
    destruct (ow_obj s Hok x v Hx) as [-> | (_ & ? & ?)]; [by apply not_null in Hv | done].
  - intros Ho Hr. apply set_eq. intros v. split; [| set_solver]. intros Hv.
    destruct (ow_all s Hok v Hv) as [_ [? | [x Hx]]]; [set_solver |]. by rewrite Ho in Hx.
Qed.
End owner.

(** ** Concrete runs *)
Section exec.
Context `{Handle}.

#[global] Instance oop_ok_dec o s : Decision (oop_ok o s).
Proof. destruct o; cbn [oop_ok]; apply _. Defined.

Fixpoint own_exec (os : list oop) (s : ostate) : option ostate :=
  match os with
  | [] => Some s
  | o :: os' =>
    if decide (oop_ok o s)
    then match own_op o s with Done (_, s') => own_exec os' s' | Oops _ => None end
    else None
  end.

Lemma own_run_cons s o s1 os s2 :
  oop_ok o s -> own_op o s = Done (tt, s1) -> own_run s1 os s2 -> own_run s (o :: os) s2.
Proof.
  intros Ho Hop Hrun. induction Hrun as [s1 | s1 os s2 o' s3 Hrun IH Ho' Hop'].
  - by apply (or_snoc s [] s o s1 (or_nil s)).
  - apply (or_snoc s (o :: os) s2 o' s3); [by apply IH | done | done].
Qed.

Lemma own_exec_run os s s' : own_exec os s = Some s' -> own_run s os s'.
Proof.
  revert s. induction os as [| o os IH]; intros s; cbn; [intros [= <-]; constructor |].
  case_decide as Ho; [| done]. destruct (own_op o s) as [[[] s1] |] eqn:Hop; [| done].
  intros Hr. by eapply own_run_cons; [| | apply IH].
Qed.
End exec.

(** Two descriptors: one moved and self-assigned, one replaced by it and closed,
    then everything destroyed. *)
Definition fd_program : list oop :=
  [OOpen 3; OOpen 4; OCtor 0 3; OCtor 1 4; OAssign 0 0; OAssign 1 0; OMove 2 1; ODtor 0; ODtor 1].

Definition fd_state : ostate := default (OState ∅ ∅ ∅) (own_exec (H := fd_handle) fd_program (OState ∅ ∅ ∅)).

Lemma fd_program_run : own_run (H := fd_handle) (OState ∅ ∅ ∅) fd_program fd_state.
Proof.
  apply own_exec_run. unfold fd_state.
  assert (Hs : bool_decide (is_Some (o_raw <$> own_exec (H := fd_handle) fd_program (OState ∅ ∅ ∅))) = true) by by vm_compute.
  apply bool_decide_eq_true in Hs. destruct (own_exec fd_program _) as [s |]; [done | by destruct Hs].
Qed.

Lemma owners_sound_witness :
  o_obj fd_state !! 2%nat = Some 3 /\ 3 ∈ o_open fd_state /\ 3 ∉ o_raw fd_state /\
  exists s', own_op (H := fd_handle) (ODtor 2) fd_state = Done (tt, s').
Proof.
  destruct (owners_sound (H := fd_handle) fd_program fd_state fd_program_run) as (H1 & H2 & _).
  split; [by vm_compute |].
  destruct (H2 2%nat 2%nat 3) as (_ & Ho & Hr); [by vm_compute | by vm_compute | done |].
  split; [exact Ho |]. split; [exact Hr |]. apply H1. apply (bool_decide_unpack _). by vm_compute.
Defined.
