(* ===== verification/MappedRing.v ===== *)
(** * MappedRing: the C++ view of the mmap ring (include/kbufpp.hpp)

    A process with any number of [MappedRing] objects: the struct each holds, the
    areas it has mapped (by their address, with the device and the length), its
    descriptors and the devices behind them.  A method works through the pointers
    of its object, so it fails when the area they point into is gone.  A moved-from
    ring loses its [base] and keeps the other pointers, as in the source.

    Below the operations, what they do to byte streams: the abstract process has
    for each ring the area it owns and for each device the bytes in its ring. *)

From S2P Require Import Prelude Kernel Uapi Device Alloc Mmap LibKbuf Kbufpp KbufppProps.
From S2P Require Import Samples Dispatch MmapProps.
#[local] Open Scope Z_scope.

Record rproc := RProc {
  rp_ring : gmap nat kbuf_map;
  rp_vma : gmap Z (Z * Z);
  rp_fd : gmap Z Z;
  rp_dev : gmap Z kbuf_dev
}.

Section ring.
Context `{Paging}.

Definition ring_get (x : nat) : prog rproc kbuf_map := s <-- p_get ;; p_some UseAfterFree (rp_ring s !! x).

Definition ring_set (x : nat) (m : kbuf_map) : prog rproc unit :=
  p_modify (fun s => RProc (<[x := m]> (rp_ring s)) (rp_vma s) (rp_fd s) (rp_dev s)).

Definition ring_end (x : nat) : prog rproc unit :=
  p_modify (fun s => RProc (delete x (rp_ring s)) (rp_vma s) (rp_fd s) (rp_dev s)).

(** Unmapping what is not mapped, or a part of it, is an error here. *)
Definition munmap (base len : Z) : prog rproc unit := fun s =>
  match rp_vma s !! base with
  | Some (_, len') =>
    if len =? len' then Done (tt, RProc (rp_ring s) (delete base (rp_vma s)) (rp_fd s) (rp_dev s))
    else Oops OutOfBounds
  | None => Oops UseAfterFree
  end.

Definition no_base (m : kbuf_map) : kbuf_map := KbufMap 0 (m_ctrl m) (m_data m) (m_cap m) (m_maplen m).

Definition kbuf_map_close (x : nat) : prog rproc unit :=
  m <-- ring_get x ;;
  (if negb (m_base m =? 0) then munmap (m_base m) (m_maplen m) else p_ret tt) ;;;
  ring_set x (no_base m).

(** [fd] is open on a device or not at all, and the kernel finds an address or
    fails with an errno of its own before it asks the driver. *)
Definition MappedRing_ctor (x : nat) (fd : Z) (found : Z + Z) : prog rproc (unit + Z) :=
  s <-- p_get ;;
  match rp_fd s !! fd, found with
  | None, _ => p_ret (inr EBADF)
  | Some _, inr e => p_ret (inr e)
  | Some dev, inl base =>
    match kbuf_map_open dev base with
    | None => p_ret (inr (- (sys_mmap dev base kbuf_mmap_len 0).1))
    | Some m =>
      p_modify (fun s => RProc (<[x := m]> (rp_ring s)) (<[base := (dev, m_maplen m)]> (rp_vma s)) (rp_fd s) (rp_dev s)) ;;;
      p_ret (inl tt)
    end
  end.

Definition ring_dtor (x : nat) : prog rproc unit := kbuf_map_close x ;;; ring_end x.

Definition ring_move (x y : nat) : prog rproc unit :=
  m <-- ring_get y ;; ring_set x m ;;; ring_set y (no_base m).

Definition ring_assign (x y : nat) : prog rproc unit :=
  if bool_decide (x <> y) then
    kbuf_map_close x ;;; m <-- ring_get y ;; ring_set x m ;;; ring_set y (no_base m)
  else p_ret tt.

(** The device behind the pointers of a ring. *)
Definition through {A} (x : nat) (f : kbuf_map -> kbuf_dev -> exec (A * kbuf_dev)) : prog rproc A :=
  m <-- ring_get x ;;
  fun s =>
    match rp_vma s !! m_ctrl m with
    | None => Oops OutOfBounds
    | Some (dev, _) =>
      match rp_dev s !! dev with
      | None => Oops UseAfterFree
      | Some d => exec_bind (f m d) (fun '(a, d') => Done (a, RProc (rp_ring s) (rp_vma s) (rp_fd s) (<[dev := d']> (rp_dev s))))
      end
    end.

Definition MappedRing_reset (x : nat) : prog rproc unit := through x (fun _ d => Done (tt, kbuf_map_reset d)).

Definition MappedRing_capacity (x : nat) : prog rproc Z := m <-- ring_get x ;; p_ret (m_cap m).

(** The span: its address and its length. *)
Definition MappedRing_data (x : nat) : prog rproc (Z * Z) := m <-- ring_get x ;; p_ret (m_ctrl m + m_data m, m_cap m).

(** A load and a store through the span, by index. *)
Definition span_load (x : nat) (i : Z) : prog rproc byte :=
  through x (fun m d => match map_load d (m_data m + i) with Some b => Done (b, d) | None => Oops OutOfBounds end).

Definition MappedRing_write (x : nat) (bs : list byte) : prog rproc Z := through x (fun m d => kbuf_map_write m bs d).

Definition MappedRing_read (x : nat) (n : Z) : prog rproc (Z * list byte) :=
  through x (fun m d => kbuf_map_read m n d).

(** [Device::map()], with the descriptor the device object holds. *)
Definition Device_map (x : nat) (fd : Z) (found : Z + Z) : prog rproc (unit + Z) := MappedRing_ctor x fd found.
End ring.
