(* ===== verification/MappedRingProps.v ===== *)
(** * MappedRingProps: the rings of a process as byte streams

    The abstract process: for each [MappedRing] object the area it owns (none once
    it was moved from), for each device the bytes in its ring.  Every program that
    obeys the rules of C++ computes the same results on both. *)

From S2P Require Import Prelude Kernel Uapi Device Alloc Mmap LibKbuf Kbufpp KbufppProps.
From S2P Require Import Samples Dispatch MmapProps MappedRing.
#[local] Open Scope Z_scope.

Inductive mrop : Set :=
  | MrMap (x : nat) (fd : Z) (found : Z + Z)    (** [Device::map], or the constructor *)
  | MrMove (x y : nat)
  | MrAssign (x y : nat)
  | MrDtor (x : nat)
  | MrReset (x : nat)
  | MrCapacity (x : nat)
  | MrData (x : nat)
  | MrWrite (x : nat) (bs : list byte)
  | MrRead (x : nat) (n : Z)
  | MrCloseFd (fd : Z).

Inductive mres : Set := VNone | VThrow (e : Z) | VNum (n : Z) | VSpan (a n : Z) | VBytes (n : Z) (bs : list byte).

Section ops.
Context `{Paging}.

Definition mr_op (o : mrop) : prog rproc mres :=
  match o with
  | MrMap x fd found => r <-- Device_map x fd found ;; p_ret (match r with inl _ => VNone | inr e => VThrow e end)
  | MrMove x y => ring_move x y ;;; p_ret VNone
  | MrAssign x y => ring_assign x y ;;; p_ret VNone
  | MrDtor x => ring_dtor x ;;; p_ret VNone
  | MrReset x => MappedRing_reset x ;;; p_ret VNone
  | MrCapacity x => n <-- MappedRing_capacity x ;; p_ret (VNum n)
  | MrData x => an <-- MappedRing_data x ;; p_ret (VSpan an.1 an.2)
  | MrWrite x bs => n <-- MappedRing_write x bs ;; p_ret (VNum n)
  | MrRead x n => r <-- MappedRing_read x n ;; p_ret (VBytes r.1 r.2)
  | MrCloseFd fd => p_modify (fun s => RProc (rp_ring s) (rp_vma s) (delete fd (rp_fd s)) (rp_dev s)) ;;; p_ret VNone
  end.

Fixpoint mr_ops (os : list mrop) : prog rproc (list mres) :=
  match os with
  | [] => p_ret []
  | o :: os' => r <-- mr_op o ;; rs <-- mr_ops os' ;; p_ret (r :: rs)
  end.

(** ** The abstract process *)
Record aproc := AProc {
  ap_ring : gmap nat (option (Z * Z));    (** the address and the device *)
  ap_fd : gmap Z Z;
  ap_bytes : gmap Z (list byte)
}.

Definition ap_stream (a : aproc) (x : nat) (f : list byte -> mres * list byte) : mres * aproc :=
  match ap_ring a !! x with
  | Some (Some (_, dev)) =>
    let '(r, q) := f (default [] (ap_bytes a !! dev)) in
    (r, AProc (ap_ring a) (ap_fd a) (<[dev := q]> (ap_bytes a)))
  | _ => (VNone, a)
  end.

Definition spec_mrop (o : mrop) (a : aproc) : mres * aproc :=
  let rings f := AProc (f (ap_ring a)) (ap_fd a) (ap_bytes a) in
  let owned x := default None (ap_ring a !! x) in
  match o with
  | MrMap x fd found =>
    match ap_fd a !! fd, found with
    | None, _ => (VThrow EBADF, a)
    | Some _, inr e => (VThrow e, a)
    | Some dev, inl base => (VNone, rings (insert x (Some (base, dev))))
    end
  | MrMove x y => (VNone, rings (fun m => <[y := None]> (<[x := owned y]> m)))
  | MrAssign x y => (VNone, if decide (x = y) then a else rings (fun m => <[y := None]> (<[x := owned y]> m)))
  | MrDtor x => (VNone, rings (delete x))
  | MrReset x => ap_stream a x (fun _ => (VNone, []))
  | MrCapacity x => (VNum KBUF_MMAP_CAPACITY, a)
  | MrData x => (match owned x with Some (base, _) => VSpan (base + PAGE_SIZE) KBUF_MMAP_CAPACITY | None => VNone end, a)
  | MrWrite x bs =>
    ap_stream a x (fun q =>
      let n := Z.min (Z.of_nat (length bs)) (KBUF_MMAP_CAPACITY - Z.of_nat (length q)) in
      (VNum n, q ++ take (Z.to_nat n) bs))
  | MrRead x n =>
    ap_stream a x (fun q =>
      let n := Z.min n (Z.of_nat (length q)) in (VBytes n (take (Z.to_nat n) q), drop (Z.to_nat n) q))
  | MrCloseFd fd => (VNone, AProc (ap_ring a) (delete fd (ap_fd a)) (ap_bytes a))
  end.

Fixpoint spec_mrops (os : list mrop) (a : aproc) : list mres * aproc :=
  match os with
  | [] => ([], a)
  | o :: os' =>
    let '(r, a1) := spec_mrop o a in let '(rs, a2) := spec_mrops os' a1 in (r :: rs, a2)
  end.

(** What C++ asks: objects are used while they live, and a moved-from ring is only
    assigned to or destroyed.  What the kernel promises: a new area is nowhere and
    not at the null address. *)
Definition mrop_ok (o : mrop) (a : aproc) : Prop :=
  match o with
  | MrMap x fd found =>
    ap_ring a !! x = None /\
    match found with
    | inl base => base <> 0 /\ map_Forall (fun _ o => fst <$> o <> Some base) (ap_ring a)
    | inr e => 0 < e
    end
  | MrMove x y => ap_ring a !! x = None /\ is_Some (ap_ring a !! y)
  | MrAssign x y => is_Some (ap_ring a !! x) /\ is_Some (ap_ring a !! y)
  | MrDtor x => is_Some (ap_ring a !! x)
  | MrReset x | MrCapacity x | MrData x | MrWrite x _ => is_Some (mjoin (ap_ring a !! x))
  | MrRead x n => is_Some (mjoin (ap_ring a !! x)) /\ 0 <= n
  | MrCloseFd fd => True
  end.

Fixpoint mrops_ok (os : list mrop) (a : aproc) : Prop :=
  match os with
  | [] => True
  | o :: os' => mrop_ok o a /\ mrops_ok os' (spec_mrop o a).2
  end.
End ops.

(** ** The representation *)
Section facts.
Context `{PagingLaws}.
Implicit Types (s : rproc) (a : aproc).

(** An owning ring is what [kbuf_map_open] made of its area; an empty one has no
    base. *)
Definition owns_at (vma : gmap Z (Z * Z)) (m : option kbuf_map) (o : option (option (Z * Z))) : Prop :=
  match m, o with
  | None, None => True
  | Some m, Some None => m_base m = 0
  | Some m, Some (Some (b, p)) => m = user_map b /\ b <> 0 /\ vma !! b = Some (p, kbuf_mmap_len)
  | _, _ => False
  end.

Definition dev_at (d : option kbuf_dev) (q : option (list byte)) : Prop :=
  match d, q with
  | None, None => True
  | Some d, Some q => exists c buf, map_ok d c buf /\ map_stream d = q
  | _, _ => False
  end.

Record proc_at s a : Prop := {
  pa_ring x : owns_at (rp_vma s) (rp_ring s !! x) (ap_ring a !! x);
  pa_vma b v : rp_vma s !! b = Some v -> exists x, ap_ring a !! x = Some (Some (b, v.1));
  pa_inj x y b u v : ap_ring a !! x = Some (Some (b, u)) -> ap_ring a !! y = Some (Some (b, v)) -> x = y;
  pa_fd : rp_fd s = ap_fd a;
  pa_fdev fd p : ap_fd a !! fd = Some p -> is_Some (ap_bytes a !! p);
  pa_rdev x b p : ap_ring a !! x = Some (Some (b, p)) -> is_Some (ap_bytes a !! p);
  pa_dev p : dev_at (rp_dev s !! p) (ap_bytes a !! p)
}.

Lemma ring_get_run s a x o :
  proc_at s a -> ap_ring a !! x = Some o ->
  exists m, ring_get x s = Done (m, s) /\ rp_ring s !! x = Some m /\ owns_at (rp_vma s) (Some m) (Some o).
Proof.
  intros Hs Hx. pose proof (pa_ring s a Hs x) as Hr. rewrite Hx in Hr.
  destruct (rp_ring s !! x) as [m |] eqn:E; [| done]. exists m. split; [| done].
  unfold ring_get, p_bind, p_get. cbn. by rewrite E.
Qed.

Lemma owns_at_vma vma vma' m o :
  owns_at vma m o -> (forall b p, o = Some (Some (b, p)) -> vma' !! b = vma !! b) -> owns_at vma' m o.
Proof. destruct m, o as [[[b p] |] |]; cbn; try done. intros (? & ? & Hv) Hf. by rewrite (Hf b p). Qed.

(** [kbuf_map_close]: the area goes, the ring is empty. *)
Lemma close_at s a x o :
  proc_at s a -> ap_ring a !! x = Some o ->
  exists s', kbuf_map_close x s = Done (tt, s') /\
    proc_at s' (AProc (<[x := None]> (ap_ring a)) (ap_fd a) (ap_bytes a)).
Proof.
  intros Hs Hx. destruct (ring_get_run s a x o Hs Hx) as (m & Hg & Hm & Hat).
  unfold kbuf_map_close. rewrite (run_bind _ _ _ _ _ Hg). destruct Hs as [Hr Hv Hi Hf Hfd Hrd Hd].
  assert (Hring : forall vma y, (forall b p, y <> x -> ap_ring a !! y = Some (Some (b, p)) -> vma !! b = rp_vma s !! b) ->
            owns_at vma (<[x := no_base m]> (rp_ring s) !! y) (<[x := None]> (ap_ring a) !! y)).
  { intros vma y Hvma. destruct (decide (y = x)) as [-> | Hne]; [by rewrite !lookup_insert_eq |].
    rewrite !lookup_insert_ne by done. eapply owns_at_vma; [apply Hr |]. intros b p Hy. by apply (Hvma b p). }
  destruct o as [[b p] |]; cbn in Hat.
  - destruct Hat as (-> & Hb & Hvb). cbn [m_base m_maplen user_map]. rewrite (proj2 (Z.eqb_neq b 0) Hb). cbn [negb].
    unfold p_bind, munmap. fold kbuf_mmap_len. rewrite Hvb, Z.eqb_refl. cbn [exec_bind]. eexists. split; [done |].
    split; cbn [rp_ring rp_vma rp_fd rp_dev ap_ring ap_fd ap_bytes]; try done.
    + intros y. apply Hring. intros b' p' Hne Hy. apply lookup_delete_ne. intros <-. by destruct Hne; apply (Hi y x b p' p).
    + intros b' v [Hne Hb']%lookup_delete_Some. destruct (Hv b' v Hb') as [y Hy]. exists y.
      rewrite lookup_insert_ne; [done |]. intros <-. rewrite Hx in Hy. congruence.
    + intros y z b' u v [[_ ?] | [_ Hy]]%lookup_insert_Some [[_ ?] | [_ Hz]]%lookup_insert_Some; try done. by apply (Hi y z b' u v).
    + intros y b' p' [[_ ?] | [_ Hy]]%lookup_insert_Some; [done |]. by apply (Hrd y b').
  - rewrite Hat. cbn [Z.eqb negb]. unfold p_ret, p_bind. cbn [exec_bind]. eexists. split; [done |].
    split; cbn [rp_ring rp_vma rp_fd rp_dev ap_ring ap_fd ap_bytes]; try done.
    + intros y. by apply Hring.
    + intros b v Hb. destruct (Hv b v Hb) as [y Hy]. exists y. rewrite lookup_insert_ne; [done |]. intros <-. congruence.
    + intros y z b' u v [[_ ?] | [_ Hy]]%lookup_insert_Some [[_ ?] | [_ Hz]]%lookup_insert_Some; try done. by apply (Hi y z b' u v).
    + intros y b' p' [[_ ?] | [_ Hy]]%lookup_insert_Some; [done |]. by apply (Hrd y b').
Qed.

(** A ring's struct goes to an object that is new or empty. *)
Lemma move_at s a x y o :
  proc_at s a -> x <> y -> ap_ring a !! x = None \/ ap_ring a !! x = Some None -> ap_ring a !! y = Some o ->
  exists s', ring_move x y s = Done (tt, s') /\
    proc_at s' (AProc (<[y := None]> (<[x := o]> (ap_ring a))) (ap_fd a) (ap_bytes a)).
Proof.
  intros Hs Hne Hx Hy. destruct (ring_get_run s a y o Hs Hy) as (m & Hg & Hm & Hat).
  unfold ring_move. rewrite (run_bind _ _ _ _ _ Hg). eexists. split; [done |]. destruct Hs as [Hr Hv Hi Hf Hfd Hrd Hd].
  set (R := <[y := None]> (<[x := o]> (ap_ring a))).
  assert (Hown : forall z w, R !! z = Some (Some w) -> (z = x /\ ap_ring a !! y = Some (Some w)) \/ (z <> y /\ z <> x /\ ap_ring a !! z = Some (Some w))).
  { intros z w [[_ ?] | [Nz [[<- ->] | [Nz' Hz]]%lookup_insert_Some]]%lookup_insert_Some; [done | by left | right; by split_and!]. }
  split; cbn [rp_ring rp_vma rp_fd rp_dev ap_ring ap_fd ap_bytes]; fold R; try done.
  - intros z. unfold R. destruct (decide (z = y)) as [-> | Nz]; [by rewrite !lookup_insert_eq |].
    rewrite !(lookup_insert_ne _ y z) by done. destruct (decide (z = x)) as [-> | Nz']; [by rewrite !lookup_insert_eq |].
    rewrite !lookup_insert_ne by done. apply Hr.
  - intros b v Hb. destruct (Hv b v Hb) as [z Hz]. destruct (decide (z = y)) as [-> | Nz].
    + exists x. unfold R. rewrite lookup_insert_ne, lookup_insert_eq by done. congruence.
    + exists z. unfold R. rewrite !lookup_insert_ne; [done | | done]. intros <-. destruct Hx; congruence.
  - intros z z' b u v [[-> Hz] | (Ny & Nx & Hz)]%Hown [[-> Hz'] | (Ny' & Nx' & Hz')]%Hown; try done.
    + by destruct Ny'; apply (Hi z' y b v u).
    + by destruct Ny; apply (Hi z y b u v).
    + by apply (Hi z z' b u v).
  - intros z b p [[-> Hz] | (_ & _ & Hz)]%Hown; by apply (Hrd _ b p Hz).
Qed.

Lemma end_at s a x :
  proc_at s a -> ap_ring a !! x = Some None ->
  exists s', ring_end x s = Done (tt, s') /\ proc_at s' (AProc (delete x (ap_ring a)) (ap_fd a) (ap_bytes a)).
Proof.
  intros [Hr Hv Hi Hf Hfd Hrd Hd] Hx. eexists. split; [done |].
  split; cbn [rp_ring rp_vma rp_fd rp_dev ap_ring ap_fd ap_bytes]; try done.
  - intros y. destruct (decide (y = x)) as [-> | Hne]; [by rewrite !lookup_delete_eq |].
    by rewrite !lookup_delete_ne.
  - intros b v Hb. destruct (Hv b v Hb) as [y Hy]. exists y. rewrite lookup_delete_ne; [done | congruence].
  - intros y z b u v [_ Hy]%lookup_delete_Some [_ Hz]%lookup_delete_Some. by apply (Hi y z b u v).
  - intros y b p [_ Hy]%lookup_delete_Some. by apply (Hrd y b).
Qed.

(** [MappedRing_ctor] on a descriptor that is open, at the address found. *)
Lemma map_at s a x fd dev base :
  proc_at s a -> ap_fd a !! fd = Some dev -> ap_ring a !! x = None -> base <> 0 ->
  map_Forall (fun _ o => fst <$> o <> Some base) (ap_ring a) ->
  exists s', MappedRing_ctor x fd (inl base) s = Done (inl tt, s') /\
    proc_at s' (AProc (<[x := Some (base, dev)]> (ap_ring a)) (ap_fd a) (ap_bytes a)).
Proof.
  intros Hs Hfd Hx Hb Hnew. destruct Hs as [Hr Hv Hi Hf Hfdev Hrd Hd].
  assert (Hne : forall y b p, ap_ring a !! y = Some (Some (b, p)) -> b <> base).
  { intros y b p Hy ->. by apply (Hnew y _ Hy). }
  unfold MappedRing_ctor, p_bind at 1, p_get. cbn [exec_bind]. rewrite Hf, Hfd.
  rewrite (proj2 (proj2 (mmap_accepts dev (VmArea 0 0 0 0 false false false) base))).
  eexists. split; [done |]. split; cbn [rp_ring rp_vma rp_fd rp_dev ap_ring ap_fd ap_bytes]; try done.
  - intros y. destruct (decide (y = x)) as [-> | Ny].
    + rewrite !lookup_insert_eq. cbn. split; [done |]. split; [done | apply lookup_insert_eq].
    + rewrite !(lookup_insert_ne _ x y) by done. eapply owns_at_vma; [apply Hr |]. intros b p Hy.
      apply lookup_insert_ne. intros <-. by apply (Hne y base p).
  - intros b v [[<- <-] | [Nb Hb']]%lookup_insert_Some; [exists x; apply lookup_insert_eq |].
    destruct (Hv b v Hb') as [y Hy]. exists y. rewrite lookup_insert_ne; [done | congruence].
  - intros y z b u v [[<- Ey] | [Ny Hy]]%lookup_insert_Some [[<- Ez] | [Nz Hz]]%lookup_insert_Some; try done.
    + simplify_eq. by destruct (Hne z b v Hz).
    + simplify_eq. by destruct (Hne y b u Hy).
    + by apply (Hi y z b u v).
  - intros y b p [[<- Ey] | [Ny Hy]]%lookup_insert_Some; [simplify_eq; by apply (Hfdev fd) | by apply (Hrd y b)].
Qed.

(** A transfer through an owning ring is one on the stream of its device. *)
Lemma through_at {A} s a x b p (f : kbuf_map -> kbuf_dev -> exec (A * kbuf_dev)) (res : list byte -> A * list byte) :
  proc_at s a -> ap_ring a !! x = Some (Some (b, p)) ->
  (forall d c buf, map_ok d c buf -> exists d' c' buf', f (user_map b) d = Done ((res (map_stream d)).1, d') /\
     map_ok d' c' buf' /\ map_stream d' = (res (map_stream d)).2) ->
  exists q s', ap_bytes a !! p = Some q /\ through x f s = Done ((res q).1, s') /\
    proc_at s' (AProc (ap_ring a) (ap_fd a) (<[p := (res q).2]> (ap_bytes a))).
Proof.
  intros Hs Hx Hf. destruct (ring_get_run s a x _ Hs Hx) as (m & Hg & _ & -> & Hb & Hvb).
  destruct Hs as [Hr Hv Hi Hfe Hfd Hrd Hd]. pose proof (Hd p) as Hp. destruct (Hrd x b p Hx) as [q Hq]. rewrite Hq in Hp.
  destruct (rp_dev s !! p) as [d |] eqn:Ed; [| done]. destruct Hp as (c & buf & Hok & <-).
  destruct (Hf d c buf Hok) as (d' & c' & buf' & E & Hok' & Hst). eexists _, _. split; [exact Hq |].
  split; [unfold through; rewrite (run_bind _ _ _ _ _ Hg); cbn [m_ctrl user_map]; by rewrite Hvb, Ed, E |].
  split; cbn [rp_ring rp_vma rp_fd rp_dev ap_ring ap_fd ap_bytes]; try done.
  - intros fd p' Hfd'. destruct (decide (p' = p)) as [-> | Np]; [rewrite lookup_insert_eq; by eexists |].
    rewrite lookup_insert_ne by done. by apply (Hfd fd).
  - intros y b' p' Hy. destruct (decide (p' = p)) as [-> | Np]; [rewrite lookup_insert_eq; by eexists |].
    rewrite lookup_insert_ne by done. by apply (Hrd y b').
  - intros p'. destruct (decide (p' = p)) as [-> | Np]; [rewrite !lookup_insert_eq; cbn; by eauto |].
    by rewrite !lookup_insert_ne.
Qed.

Lemma map_reset_at d c buf :
  map_ok d c buf -> exists c', map_ok (kbuf_map_reset d) c' buf /\ map_stream (kbuf_map_reset d) = [].
Proof.
  intros [[Hc Hd Hl Ha] _ _ _]. unfold kbuf_map_reset, set_head, set_tail. rewrite Hc.
  eexists. by apply alloc_stream; [split | |].
Qed.

Lemma stream_at {A} s a x b p (f : kbuf_map -> kbuf_dev -> exec (A * kbuf_dev)) (res : list byte -> A * list byte) (g : A -> mres) :
  proc_at s a -> ap_ring a !! x = Some (Some (b, p)) ->
  (forall d c buf, map_ok d c buf -> exists d' c' buf', f (user_map b) d = Done ((res (map_stream d)).1, d') /\
     map_ok d' c' buf' /\ map_stream d' = (res (map_stream d)).2) ->
  let sp := ap_stream a x (fun q => (g (res q).1, (res q).2)) in
  exists s', (v <-- through x f ;; p_ret (g v)) s = Done (sp.1, s') /\ proc_at s' sp.2.
Proof.
  intros Hs Hx Hf sp. destruct (through_at s a x b p f res Hs Hx Hf) as (q & s' & Hq & Hrun & Hs').
  exists s'. rewrite (run_bind _ _ _ _ _ Hrun). unfold sp, ap_stream. rewrite Hx, Hq. by split.
Qed.

Lemma owning a x : is_Some (mjoin (ap_ring a !! x)) -> exists b p, ap_ring a !! x = Some (Some (b, p)).
Proof. destruct (ap_ring a !! x) as [[[b p] |] |]; cbn; intros [w Hw]; try done. by exists b, p. Qed.

(** Every operation does what the abstract one does. *)
Lemma assign_at s a x y ox o :
  proc_at s a -> ap_ring a !! x = Some ox -> ap_ring a !! y = Some o ->
  exists s', mr_op (MrAssign x y) s = Done ((spec_mrop (MrAssign x y) a).1, s') /\ proc_at s' (spec_mrop (MrAssign x y) a).2.
Proof.
  intros Hs Hx Hy. cbn [mr_op spec_mrop]. rewrite Hy. cbn [default]. unfold ring_assign. case_decide as E.
  { rewrite bool_decide_eq_false_2 by (by intros ?). by exists s. }
  rewrite bool_decide_eq_true_2 by done. destruct (close_at s a x ox Hs Hx) as (s1 & Hc & Hs1).
  destruct (move_at s1 _ x y o Hs1 E) as (s' & Hrun & Hs'); cbn [ap_ring ap_fd ap_bytes] in *.
  { right. apply lookup_insert_eq. } { by rewrite lookup_insert_ne. }
  rewrite insert_insert_eq in Hs'. exists s'. split; [| done].
  assert (Hseq : (kbuf_map_close x ;;; ring_move x y) s = Done (tt, s')) by (by rewrite (run_bind _ _ _ _ _ Hc)).
  by rewrite (run_bind _ _ _ _ _ Hseq).
Qed.

Lemma mr_op_at s a o :
  proc_at s a -> mrop_ok o a ->
  exists s', mr_op o s = Done ((spec_mrop o a).1, s') /\ proc_at s' (spec_mrop o a).2.
Proof.
  intros Hs Ho. destruct o as [x fd found | x y | x y | x | x | x | x | x bs | x n | fd]; cbn [mr_op spec_mrop mrop_ok] in *.
  - destruct Ho as [Hx Hfound]. unfold Device_map. destruct (ap_fd a !! fd) as [dev |] eqn:Hfd.
    + destruct found as [base | e].
      * destruct Hfound as [Hb Hnew]. destruct (map_at s a x fd dev base Hs Hfd Hx Hb Hnew) as (s' & Hrun & Hs').
        rewrite (run_bind _ _ _ _ _ Hrun). by exists s'.
      * exists s. split; [| done]. unfold MappedRing_ctor, p_bind, p_get. cbn. by rewrite (pa_fd s a Hs), Hfd.
    + exists s. split; [| done]. unfold MappedRing_ctor, p_bind, p_get. cbn. by rewrite (pa_fd s a Hs), Hfd.
  - destruct Ho as [Hx [o Hy]]. rewrite Hy. cbn [default].
    destruct (move_at s a x y o Hs) as (s' & Hrun & Hs'); [congruence | by left | done |].
    rewrite (run_bind _ _ _ _ _ Hrun). by exists s'.
  - destruct Ho as [[ox Hx] [o Hy]]. by eapply assign_at.
  - destruct Ho as [o Hx]. destruct (close_at s a x o Hs Hx) as (s1 & Hc & Hs1).
    destruct (end_at s1 _ x Hs1) as (s2 & He & Hs2); cbn [ap_ring ap_fd ap_bytes] in *; [apply lookup_insert_eq |].
    rewrite delete_insert_eq in Hs2. exists s2. split; [| done].
    unfold ring_dtor. unfold p_bind. rewrite Hc. cbn [exec_bind]. by rewrite He.
  - destruct (owning a x Ho) as (b & p & Hx). unfold MappedRing_reset.
    apply (stream_at s a x b p _ (fun _ => (tt, [])) (fun _ => VNone) Hs Hx). intros d c buf Hok.
    destruct (map_reset_at d c buf Hok) as (c' & Hok' & Hst). by exists (kbuf_map_reset d), c', buf.
  - destruct (owning a x Ho) as (b & p & Hx). destruct (ring_get_run s a x _ Hs Hx) as (m & Hg & _ & -> & _).
    unfold MappedRing_capacity. exists s. split; [| done]. unfold p_bind. by rewrite Hg.
  - destruct (owning a x Ho) as (b & p & Hx). destruct (ring_get_run s a x _ Hs Hx) as (m & Hg & _ & -> & _).
    unfold MappedRing_data. exists s. split; [| done]. unfold p_bind. rewrite Hg, Hx. done.
  - destruct (owning a x Ho) as (b & p & Hx).
    set (n q := Z.min (Z.of_nat (length bs)) (KBUF_MMAP_CAPACITY - Z.of_nat (length (q : list byte)))).
    apply (stream_at s a x b p _ (fun q => (n q, q ++ take (Z.to_nat (n q)) bs)) VNum Hs Hx). intros d c buf Hok.
    destruct (kbuf_map_write_spec b bs d c buf Hok) as (d' & c' & buf' & E & Hok' & Hst & _). by exists d', c', buf'.
  - destruct Ho as [(b & p & Hx)%owning Hn]. set (k q := Z.min n (Z.of_nat (length (q : list byte)))).
    apply (stream_at s a x b p _ (fun q => ((k q, take (Z.to_nat (k q)) q), drop (Z.to_nat (k q)) q))
             (fun r => VBytes r.1 r.2) Hs Hx). intros d c buf Hok.
    destruct (kbuf_map_read_spec b n d c buf Hok Hn) as (d' & c' & E & Hok' & Hst & _). by exists d', c', buf.
  - eexists. split; [done |]. destruct Hs as [Hr Hv Hi Hf Hfd Hrd Hd].
    split; cbn [rp_ring rp_vma rp_fd rp_dev ap_ring ap_fd ap_bytes snd]; try done; [by rewrite Hf |].
    intros fd' p [_ Hp]%lookup_delete_Some. by apply (Hfd fd').
Qed.

Lemma mr_ops_at s a os :
  proc_at s a -> mrops_ok os a ->
  exists s', mr_ops os s = Done ((spec_mrops os a).1, s') /\ proc_at s' (spec_mrops os a).2.
Proof.
  revert s a. induction os as [| o os IH]; intros s a Hs; cbn [mr_ops mrops_ok spec_mrops]; [by exists s |].
  intros [Ho Hos]. destruct (mr_op_at s a o Hs Ho) as (s1 & Hrun & Hs1). rewrite (run_bind _ _ _ _ _ Hrun).
  destruct (IH s1 _ Hs1 Hos) as (s2 & Hrun2 & Hs2). rewrite (run_bind _ _ _ _ _ Hrun2).
  destruct (spec_mrop o a) as [r a1]. cbn [fst snd] in *. destruct (spec_mrops os a1) as [rs a2]. by exists s2.
Qed.

Lemma no_rings_no_areas s a : proc_at s a -> ap_ring a = ∅ -> rp_vma s = ∅.
Proof.
  intros Hs Ha. apply map_eq. intros b. rewrite lookup_empty. destruct (rp_vma s !! b) as [v |] eqn:E; [| done].
  destruct (pa_vma s a Hs b v E) as [x Hx]. by rewrite Ha, lookup_empty in Hx.
Qed.

(** C38: the [MappedRing] objects of a process refine byte streams: any program
    that uses live objects, and a moved-from ring only to assign or destroy it,
    computes exactly what the abstract process does: rings of one device share one
    stream, across moves, self-assignment and the closing of the descriptor; no
    access leaves a mapping and no area is unmapped twice; and once every ring is
    gone no area is left. *)
Theorem mapped_rings_refine s a os :
  proc_at s a -> mrops_ok os a ->
  exists s', mr_ops os s = Done ((spec_mrops os a).1, s') /\ proc_at s' (spec_mrops os a).2 /\
    (ap_ring (spec_mrops os a).2 = ∅ -> rp_vma s' = ∅).
Proof.
  intros Hs Hos. destruct (mr_ops_at s a os Hs Hos) as (s' & Hrun & Hs'). exists s'.
  split; [exact Hrun |]. split; [exact Hs' |]. by apply no_rings_no_areas.
Qed.

(** The span of [data] is the device's own data area, in order. *)
Theorem span_is_ring s a x b p i :
  proc_at s a -> ap_ring a !! x = Some (Some (b, p)) -> 0 <= i < KBUF_MMAP_CAPACITY ->
  exists d buf v, rp_dev s !! p = Some d /\ mmap_data d = Some buf /\
    kb_bytes buf !! Z.to_nat i = Some v /\ span_load x i s = Done (v, s).
Proof.
  intros Hs Hx Hi. destruct (ring_get_run s a x _ Hs Hx) as (m & Hg & _ & -> & Hb & Hvb).
  destruct (pa_rdev s a Hs x b p Hx) as [q Hq]. pose proof (pa_dev s a Hs p) as Hp. rewrite Hq in Hp.
  destruct (rp_dev s !! p) as [d |] eqn:Ed; [| done]. destruct Hp as (c & buf & [Hm _ _ _] & _).
  destruct (lookup_lt_is_Some_2 (kb_bytes buf) (Z.to_nat i)) as [v Hv]; [pose proof (mp_len _ _ _ Hm); lia |].
  exists d, buf, v. split; [done |]. split; [apply Hm |]. split; [done |].
  unfold span_load, through. rewrite (run_bind _ _ _ _ _ Hg). cbn [m_ctrl m_data user_map]. rewrite Hvb, Ed.
  rewrite (map_load_data d c buf i Hm) by (unfold KBUF_MMAP_CAPACITY in *; lia).
  rewrite Z.mod_small by lia. rewrite Hv. cbn [exec_bind]. rewrite insert_id by done. by destruct s.
Qed.
End facts.

(** ** The owners of Kbufpp.v

    Of its base address a [MappedRing] makes the same use as [unique_fd] of its
    descriptor. *)
Section owners.
#[local] Existing Instance map_handle.
Implicit Types (s : rproc).

Definition ost s : ostate := OState (m_base <$> rp_ring s) (dom (rp_vma s)) ∅.

Lemma nothing_raw (v : Z) : (∅ : gset Z) ∖ {[v]} = ∅.
Proof. set_solver. Qed.

Lemma ring_get_own x s m s' : ring_get x s = Done (m, s') -> s' = s /\ rp_ring s !! x = Some m /\ obj_get x (ost s) = Done (m_base m, ost s).
Proof.
  unfold ring_get, obj_get, p_bind, p_get. cbn [exec_bind ost o_obj]. rewrite lookup_fmap.
  destruct (rp_ring s !! x) as [m' |]; [| done]. cbn. intros [= <- <-]. done.
Qed.

Lemma close_own x s s' : kbuf_map_close x s = Done (tt, s') -> own_reset x h_null (ost s) = Done (tt, ost s').
Proof.
  unfold kbuf_map_close, own_reset. intros Hrun. unfold p_bind at 1 in Hrun.
  destruct (ring_get x s) as [[m s1] |] eqn:Eg; [| done]. destruct (ring_get_own x s m s1 Eg) as (-> & Hm & Hg).
  cbn [exec_bind] in Hrun. rewrite (run_bind _ _ _ _ _ Hg). cbn [h_valid map_handle].
  unfold p_bind at 1 in Hrun. unfold p_bind at 1. destruct (negb (m_base m =? 0)).
  - unfold munmap in Hrun. destruct (rp_vma s !! m_base m) as [[p l] |] eqn:Ev; [| done].
    destruct (m_maplen m =? l); [| done]. cbn in Hrun. injection Hrun as <-. unfold sys_close.
    rewrite bool_decide_eq_true_2 by (apply elem_of_dom; by eexists). cbn.
    unfold ost, obj_set, p_modify. cbn. rewrite fmap_insert, dom_delete_L.
    by rewrite !nothing_raw.
  - cbn in Hrun. injection Hrun as <-. cbn. unfold ost, obj_set, p_modify. cbn. rewrite fmap_insert.
    by rewrite nothing_raw.
Qed.

Lemma move_own x y s s' : x <> y -> ring_move x y s = Done (tt, s') -> own_move x y (ost s) = Done (tt, ost s').
Proof.
  intros Hne. unfold ring_move, own_move, exchange. intros Hrun. unfold p_bind at 1 in Hrun.
  destruct (ring_get y s) as [[m s1] |] eqn:Eg; [| done]. destruct (ring_get_own y s m s1 Eg) as (-> & Hm & Hg).
  cbn in Hrun. injection Hrun as <-. unfold p_bind. rewrite Hg. cbn. do 2 f_equal.
  unfold ost. cbn. rewrite !fmap_insert. by rewrite insert_insert_ne.
Qed.

Theorem mapped_ring_owns x y s s' :
  (ring_assign x y s = Done (tt, s') -> own_assign x y (ost s) = Done (tt, ost s')) /\
  (ring_dtor x s = Done (tt, s') -> own_dtor x (ost s) = Done (tt, ost s')) /\
  (x <> y -> ring_move x y s = Done (tt, s') -> own_move x y (ost s) = Done (tt, ost s')).
Proof.
  split; [| split; [| apply move_own]].
  - unfold ring_assign, own_assign. case_bool_decide as Hne; [| by intros [= <-]]. intros Hrun. unfold p_bind at 1 in Hrun.
    destruct (kbuf_map_close x s) as [[[] s1] |] eqn:Ec; [| done].
    rewrite (run_bind _ _ _ _ _ (close_own x s s1 Ec)). by apply move_own.
  - unfold ring_dtor, own_dtor. intros Hrun. unfold p_bind at 1 in Hrun.
    destruct (kbuf_map_close x s) as [[[] s1] |] eqn:Ec; [| done].
    rewrite (run_bind _ _ _ _ _ (close_own x s s1 Ec)). cbn in Hrun. injection Hrun as <-.
    cbn. unfold ost. cbn. by rewrite fmap_delete.
Qed.
End owners.

(** ** A concrete program

    Two rings of one device; the descriptor is closed, one ring moves, a third
    mapping fails, bytes cross from one to the other, and all rings end. *)
#[global] Instance mrop_ok_dec o a : Decision (mrop_ok o a).
Proof. destruct o as [x fd [base | e] | | | | | | | | |]; cbn [mrop_ok]; apply _. Defined.

#[global] Instance mrops_ok_dec os a : Decision (mrops_ok os a).
Proof. revert a. induction os as [| o os IH]; intros a; cbn [mrops_ok]; apply _. Defined.

Definition ring_program : list mrop :=
  [MrMap 0 3 (inl 8192); MrMap 1 3 (inl 1048576); MrMap 2 3 (inr ENOMEM); MrCloseFd 3; MrMap 2 3 (inl 4194304);
   MrMove 2 0; MrWrite 2 [x61; x62; x63]; MrRead 1 4; MrAssign 1 1; MrAssign 1 2; MrData 1; MrRead 1 9;
   MrDtor 0; MrDtor 1; MrDtor 2].

Definition ring_proc : rproc := RProc ∅ ∅ {[3 := 900]} {[900 := wrap_dev]}.
Definition ring_aproc : aproc := AProc ∅ {[3 := 900]} {[900 := [x00; x00]]}.

Lemma ring_proc_at : proc_at ring_proc ring_aproc.
Proof.
  split; cbn [ring_proc ring_aproc rp_ring rp_vma rp_fd rp_dev ap_ring ap_fd ap_bytes].
  - intros x. by rewrite !lookup_empty.
  - intros b v Hb. by rewrite lookup_empty in Hb.
  - intros x y b u v Hb. by rewrite lookup_empty in Hb.
  - reflexivity.
  - intros fd p [<- <-]%lookup_singleton_Some. rewrite lookup_singleton_eq. by eexists.
  - intros x b p Hb. by rewrite lookup_empty in Hb.
  - intros p. destruct (decide (900 = p)) as [<- | Hne]; [| by rewrite !lookup_singleton_ne].
    rewrite !lookup_singleton_eq. exists wrap_ctrl, (zero_ring 51). split; [exact wrap_ok |]. by vm_compute.
Qed.

Lemma mapped_rings_refine_witness :
  exists s', mr_ops ring_program ring_proc
    = Done ([VNone; VNone; VThrow ENOMEM; VNone; VThrow EBADF; VNone; VNum 3; VBytes 4 [x00; x00; x61; x62]; VNone; VNone;
             VSpan 12288 65536; VBytes 1 [x63]; VNone; VNone; VNone], s') /\ rp_vma s' = ∅.
Proof.
  destruct (mapped_rings_refine ring_proc ring_aproc ring_program ring_proc_at) as (s' & Hrun & _ & Hend).
  { apply (bool_decide_unpack _). by vm_compute. }
  exists s'. split; [rewrite Hrun; by vm_compute |]. apply Hend. by vm_compute.
Defined.
