(* ===== verification/Client.v ===== *)
(** * Client: programs that use an open file (include/kbufpp.hpp,
    bench/kbuf_bench.c)

    The methods of the C++ class [Device] and the benchmark's [slot_setup], as
    programs of a process that has the device at [p] open and is alone with it.
    A local variable lives at an address of the process's memory; where it is
    comes as an argument.  A method returns a value, or throws
    [std::system_error] with an errno ([inr]); [read] and [write] of a file
    opened without O_NONBLOCK, as [Device] does by default, can also be asleep in
    the kernel ([None]).  The C library turns a negative answer of the kernel
    into -1 and its errno. *)

From S2P Require Import Prelude Kernel Uapi Device Alloc Mmap Ctl DmaBuf Ring RingSpec RingProps.
From S2P Require Import Ioctl Dispatch Machine FileOps.
#[local] Open Scope Z_scope.

(** A process stores into its own memory. *)
Class UMem (U : Type) := u_store : U -> Z -> list byte -> U.

(** The store is there afterwards and nothing else changed; an int that the
    kernel reads is four bytes, little-endian. *)
Class UMemLaws (U : Type) `{UAccess U} `{UMem U} : Prop := {
  store_bytes u a bs : user_bytes (u_store u a bs) a (Z.of_nat (length bs)) = Some bs;
  store_frame u a bs x : ~ (a <= x < a + Z.of_nat (length bs)) -> ubyte (u_store u a bs) x = ubyte u x;
  get_user_bytes u a : get_user u a = (fun bs => s32 (le_decode bs)) <$> user_bytes u a 4
}.

#[export] Instance sim_umem : UMem simuser := sim_put.

#[export] Instance sim_umem_laws : UMemLaws simuser.
Proof. split; [exact sim_get_put | exact sim_put_frame | done]. Qed.

Section client.
Context {U K : Type} `{UAccess U} `{UMem U} `{Kernel K} `{IocEncoding} `{Paging}.

Definition store (a : Z) (bs : list byte) : prog (fworld U K) unit :=
  p_modify (fun w => FWorld (f_c w) (u_store (f_user w) a bs) (f_fds w) (f_woken w)).

Definition store_int (a v : Z) : prog (fworld U K) unit := store a (le_encode 4 (u32 v)).

(** A load from memory that is not there ends the process. *)
Definition load_bytes (a n : Z) : prog (fworld U K) (list byte) :=
  w <-- p_get ;; p_some OutOfBounds (user_bytes (f_user w) a n).

Definition load_int (a : Z) : prog (fworld U K) Z :=
  w <-- p_get ;; p_some OutOfBounds (get_user (f_user w) a).

(** [if (::ioctl(...) != 0) throw_errno(...)] *)
Definition ioctl_or_throw (p cmd arg : Z) : prog (fworld U K) (unit + Z) :=
  r <-- kbuf_ioctl p cmd arg ;; p_ret (if negb (r =? 0) then inr (- r) else inl tt).

(** [if (n < 0) throw_errno(...)] *)
Definition count_or_throw (n : Z) : Z + Z := if n <? 0 then inr (- n) else inl n.

(** [nonblock]: whether the flags given to the constructor have O_NONBLOCK. *)
Definition Device_read (nonblock : bool) (p a n : Z) : prog (fworld U K) (option (Z + Z)) :=
  r <-- file_io nonblock p (RRead a n) ;; p_ret (count_or_throw <$> r).

Definition Device_write (nonblock : bool) (p a n : Z) : prog (fworld U K) (option (Z + Z)) :=
  r <-- file_io nonblock p (RWrite a n) ;; p_ret (count_or_throw <$> r).

Definition Device_stats (p s : Z) : prog (fworld U K) (kbuf_stats + Z) :=
  store s (replicate (Z.to_nat sizeof_kbuf_stats) x00) ;;;
  ok <-- ioctl_or_throw p KBUF_IOCGSTATS s ;;
  match ok with
  | inr e => p_ret (inr e)
  | inl _ => bs <-- load_bytes s sizeof_kbuf_stats ;; p_ret (inl (kbuf_stats_of_bytes bs))
  end.

Definition Device_reset (p : Z) : prog (fworld U K) (unit + Z) := ioctl_or_throw p KBUF_IOCRESET 0.

Definition bytes_of_kbuf_resize (rq : kbuf_resize) : list byte :=
  le_encode 4 (rq_num_buffers rq) ++ le_encode 4 (rq_buffer_size rq).

Definition Device_resize (p r num_buffers buffer_size : Z) : prog (fworld U K) (unit + Z) :=
  store r (bytes_of_kbuf_resize (KbufResize num_buffers buffer_size)) ;;;
  ioctl_or_throw p KBUF_IOCRESIZE r.

Definition Device_set_mode (p v m : Z) : prog (fworld U K) (unit + Z) :=
  store_int v m ;;; ioctl_or_throw p KBUF_IOCSMODE v.

Definition Device_export_dmabuf (p dfd : Z) : prog (fworld U K) (Z + Z) :=
  store_int dfd (-1) ;;;
  ok <-- ioctl_or_throw p KBUF_IOCEXPORT dfd ;;
  match ok with
  | inr e => p_ret (inr e)
  | inl _ => fd <-- load_int dfd ;; p_ret (inl fd)
  end.

Definition Device_run_import_selftest (p dfd dmabuf : Z) : prog (fworld U K) (unit + Z) :=
  store_int dfd dmabuf ;;; ioctl_or_throw p KBUF_IOCIMPORT dfd.

(** ** The benchmark's set-up of a slot ring

    The locals of [slot_setup]. *)
Record setup_frame := SetupFrame { fr_rz : Z; fr_mode : Z; fr_drain : Z }.

Definition sizeof_drain : Z := 65536.

(** [while (read(fd, drain, sizeof(drain)) > 0) ;]: true when the loop has ended,
    false when the fuel did first. *)
Fixpoint drain (fuel : nat) (p a : Z) : prog (fworld U K) bool :=
  match fuel with
  | O => p_ret false
  | S fuel' =>
    r <-- file_call p (FRead a sizeof_drain) ;;
    if 0 <? r then drain fuel' p a else p_ret true
  end.

(** [None] is a loop that is still running.  Closing the file of a static device
    does nothing to it. *)
Definition slot_setup (fuel : nat) (fr : setup_frame) (opened : option Z) (msgsize : Z) (spsc : bool)
  : prog (fworld U K) (option Z) :=
  store (fr_rz fr) (bytes_of_kbuf_resize (KbufResize 8 msgsize)) ;;;
  store_int (fr_mode fr) (if spsc then KBUF_MODE_SPSC else KBUF_MODE_BLOCKING) ;;;
  match opened with
  | None => p_ret (Some (-1))
  | Some p =>
    store_int (fr_mode fr) KBUF_MODE_BLOCKING ;;;
    _ <-- kbuf_ioctl p KBUF_IOCSMODE (fr_mode fr) ;;
    fin <-- drain fuel p (fr_drain fr) ;;
    if negb fin then p_ret None else
    r <-- kbuf_ioctl p KBUF_IOCRESIZE (fr_rz fr) ;;
    if negb (r =? 0) then p_ret (Some (-1)) else
    store_int (fr_mode fr) (if spsc then KBUF_MODE_SPSC else KBUF_MODE_BLOCKING) ;;;
    r' <-- kbuf_ioctl p KBUF_IOCSMODE (fr_mode fr) ;;
    if negb (r' =? 0) then p_ret (Some (-1)) else p_ret (Some 0)
  end.
End client.
