(* ===== verification/ClientProps.v ===== *)
(** * ClientProps: what the driver's clients get

    The C++ class [Device] and the benchmark's [slot_setup] against the abstract
    file of FileProps.v: set-up and statistics agree, messages come back as they
    were sent, errors are the kernel's, and the drain loop ends. *)

From S2P Require Import Prelude Kernel Uapi Device Alloc Mmap Ctl CtlFacts DmaBuf Ring RingFacts RingSpec.
From S2P Require Import Samples RingProps Ioctl Dispatch IoctlProps MmapProps DispatchProps Machine MachineFacts FileOps FileProps Client.
#[local] Open Scope Z_scope.

(** ** The process's memory *)
Section memory.
Context {U : Type} {ua : UAccess U} {ual : UAccessLaws U}.
Implicit Types (u : U).

Definition accessible u (a n : Z) : Prop := forall x, a <= x < a + n -> is_Some (ubyte u x).

Lemma user_bytes_ext u u' a n :
  (forall x, a <= x < a + n -> ubyte u' x = ubyte u x) -> user_bytes u' a n = user_bytes u a n.
Proof.
  intros Hx. unfold user_bytes.
  assert (Hin : forall i, i ∈ seq 0 (Z.to_nat n) -> ubyte u' (a + Z.of_nat i) = ubyte u (a + Z.of_nat i))
    by (intros i Hi%elem_of_seq; apply Hx; lia).
  induction (seq 0 (Z.to_nat n)) as [| i l IH]; [done |]. cbn. rewrite Hin by set_solver.
  destruct (ubyte u _); [| done]. cbn. rewrite IH; [done |]. intros j Hj. apply Hin. set_solver.
Qed.

Lemma accessible_bytes u a n : accessible u a n -> exists bs, user_bytes u a n = Some bs.
Proof.
  intros Ha. unfold user_bytes. apply mapM_is_Some, Forall_forall. intros i Hi%elem_of_seq. apply Ha. lia.
Qed.

Lemma bytes_accessible u a n bs : user_bytes u a n = Some bs -> 0 <= n -> accessible u a n.
Proof.
  intros Hb Hn x Hx. unfold user_bytes in Hb.
  assert (Hs : is_Some (mapM (fun i => ubyte u (a + Z.of_nat i)) (seq 0 (Z.to_nat n)))) by by eexists.
  rewrite mapM_is_Some, Forall_forall in Hs. specialize (Hs (Z.to_nat (x - a))). cbn in Hs.
  replace (a + Z.of_nat (Z.to_nat (x - a))) with x in Hs by lia. apply Hs, elem_of_seq. lia.
Qed.

(** The kernel's copy into a buffer leaves it accessible. *)
Lemma ctu_run u a bs n :
  accessible u a n -> Z.of_nat (length bs) <= n ->
  exists u', copy_to_user u a bs = (u', 0) /\ accessible u' a n /\
    (forall x, ~ (a <= x < a + n) -> ubyte u' x = ubyte u x) /\
    user_bytes u' a (Z.of_nat (length bs)) = Some bs.
Proof.
  intros Ha Hl. destruct (copy_to_user u a bs) as [u' missed] eqn:E.
  destruct (accessible_bytes u a (Z.of_nat (length bs))) as [old Hold]; [intros x Hx; apply Ha; lia |].
  pose proof (ctu_accessible u a bs old Hold) as Hm. rewrite E in Hm. cbn in Hm. subst missed.
  exists u'. pose proof (ctu_done _ _ _ _ E) as Hd. split; [done |]. split; [| split; [| done]].
  - intros x Hx. destruct (Z_lt_dec x (a + Z.of_nat (length bs))).
    + apply (bytes_accessible _ _ _ _ Hd ltac:(lia)). lia.
    + rewrite (ctu_frame _ _ _ _ _ _ E) by lia. by apply Ha.
  - intros x Hx. apply (ctu_frame _ _ _ _ _ _ E). lia.
Qed.
End memory.

Lemma s32_le_encode v : - 2 ^ 31 <= v < 2 ^ 31 -> s32 (le_decode (le_encode 4 (u32 v))) = v.
Proof.
  intros Hv. rewrite le_decode_encode. change (256 ^ Z.of_nat 4) with (2 ^ 32). unfold s32, u32.
  rewrite !Zmod_mod. by apply s32_small.
Qed.

Lemma resize_bytes rq :
  in_u32 (rq_num_buffers rq) -> in_u32 (rq_buffer_size rq) ->
  kbuf_resize_of_bytes (bytes_of_kbuf_resize rq) = rq.
Proof.
  intros Hn Hb. destruct rq as [n b]. unfold kbuf_resize_of_bytes, bytes_of_kbuf_resize. cbn [rq_num_buffers rq_buffer_size] in *.
  rewrite (take_app_length' (le_encode 4 n)), (drop_app_length' (le_encode 4 n)) by (by rewrite length_le_encode).
  rewrite take_ge by (by rewrite length_le_encode). rewrite !le_decode_encode.
  change (256 ^ Z.of_nat 4) with (2 ^ 32). unfold in_u32 in *. by rewrite !Z.mod_small.
Qed.

(** ** Calls on the abstract file *)
Section calls.
Context {U K : Type} {ua : UAccess U} {ual : UAccessLaws U} {um : UMem U} {uml : UMemLaws U}.
Context {kk : Kernel K} {kl : KernelLaws K} `{IocLaws} `{PagingLaws}.
Implicit Types (w : fworld U K) (f : afile).

(** An open file with its abstract state. *)
Definition open_at (p : Z) w f : Prop := file_ok p w /\ file_at p w = Some f.

Lemma open_user p w f u : open_at p w f -> open_at p (FWorld (f_c w) u (f_fds w) (f_woken w)) f.
Proof.
  intros [[(d & E & Hw & Hr) Hring Hbufs] Hf]. split; [| exact Hf]. split; [| exact Hring | exact Hbufs].
  exists d. split; [exact E |]. split; [| exact Hr]. exact Hw.
Qed.

Lemma store_run p w f a bs :
  open_at p w f ->
  exists w', store a bs w = Done (tt, w') /\ open_at p w' f /\ f_user w' = u_store (f_user w) a bs.
Proof. intros Ho. eexists. split; [done |]. split; [by apply open_user | done]. Qed.

Lemma store_int_run p w f a v :
  open_at p w f -> - 2 ^ 31 <= v < 2 ^ 31 ->
  exists w', store_int a v w = Done (tt, w') /\ open_at p w' f /\ get_user (f_user w') a = Some v /\
    forall x, ~ (a <= x < a + 4) -> ubyte (f_user w') x = ubyte (f_user w) x.
Proof.
  intros Ho Hv. destruct (store_run p w f a (le_encode 4 (u32 v)) Ho) as (w' & Hrun & Ho' & Hu).
  exists w'. split; [done |]. split; [done |]. rewrite Hu. split.
  - rewrite get_user_bytes. pose proof (store_bytes (f_user w) a (le_encode 4 (u32 v))) as Hb.
    rewrite length_le_encode in Hb. change (Z.of_nat 4) with 4 in Hb. rewrite Hb. cbn -[le_encode]. by rewrite s32_le_encode.
  - intros x Hx. apply store_frame. by rewrite length_le_encode.
Qed.

Lemma smode_run p w f a m :
  open_at p w f -> get_user (f_user w) a = Some m -> m = KBUF_MODE_BLOCKING \/ m = KBUF_MODE_SPSC ->
  exists r w' f', kbuf_ioctl p KBUF_IOCSMODE a w = Done (r, w') /\ open_at p w' f' /\ f_user w' = f_user w /\ answer r /\
    (r = 0 <-> af_q f = [] /\ (m = KBUF_MODE_SPSC -> is_power_of_2 (af_cap f) = true)) /\
    f' = (if r =? 0 then AFile (af_cap f) (af_bsize f) m [] else f).
Proof.
  intros [Hok Hf] Hm Hmode. destruct (kbuf_ioctl_ok p KBUF_IOCSMODE a w Hok) as (r & w' & Hrun & Ha & Hok').
  exists r, w'. rewrite (proj1 (proj2 (proj2 (proj2 (ioctl_dispatch p a w))))) in *.
  destruct (fo_dev _ _ Hok) as (d & E & (Hd & _) & _). unfold file_at in Hf. rewrite E in Hf. injection Hf as <-.
  pose proof Hrun as Hrun0. unfold on_dev in Hrun. rewrite E in Hrun. unfold kbuf_ioc_smode in Hrun. cbn [i_user i_dev] in Hrun.
  rewrite Hm in Hrun. replace (negb _ && negb _) with false in Hrun by (unfold KBUF_MODE_BLOCKING, KBUF_MODE_SPSC in *; lia).
  pose proof (smode_locked_ok m d Hd Hmode) as Hs. destruct (smode_locked m d) as [r' d'] eqn:El. cbn in Hrun.
  injection Hrun as <- <-. destruct Hs as (Hd' & Hq & Hr & Hmd & Hsame). exists (afile_of d').
  split; [exact Hrun0 |]. split; [split; [exact Hok' |]; unfold file_at; cbn; by rewrite lookup_insert_eq |].
  split; [done |]. split; [done |]. cbn [af_q af_cap af_bsize afile_of]. split; [exact Hr |].
  destruct (Z.eqb_spec r' 0) as [-> | Hne]; [| by rewrite Hsame].
  destruct (proj1 Hr eq_refl) as [Hq0 _]. unfold afile_of. rewrite (Hmd eq_refl), Hq, Hq0.
  unfold smode_locked, EBUSY, EINVAL in El. destruct (negb (kbuf_occupancy _ =? 0)); [by simplify_eq |].
  destruct ((m =? KBUF_MODE_SPSC) && negb (is_power_of_2 _)); by simplify_eq.
Qed.


(** Every exit of a resize whose argument can be read. *)
Lemma resize_run p w f a rq :
  open_at p w f -> user_bytes (f_user w) a sizeof_kbuf_resize = Some (bytes_of_kbuf_resize rq) ->
  in_u32 (rq_num_buffers rq) -> in_u32 (rq_buffer_size rq) ->
  exists r w' f', kbuf_ioctl p KBUF_IOCRESIZE a w = Done (r, w') /\ open_at p w' f' /\ f_user w' = f_user w /\ answer r /\
    (r = 0 -> resize_invalid rq (af_mode f) = false /\ af_q f = []) /\
    (r <> 0 -> if resize_invalid rq (af_mode f) then r = - EINVAL
               else r = - ENOMEM \/ (r = - EBUSY /\ af_q f <> [])) /\
    f' = (if r =? 0 then AFile (rq_num_buffers rq) (rq_buffer_size rq) (af_mode f) [] else f).
Proof.
  intros [Hok Hf] Hu Hn Hb. destruct (kbuf_ioctl_ok p KBUF_IOCRESIZE a w Hok) as (r & w' & Hrun & Ha & Hok').
  rewrite (proj1 (proj2 (proj2 (ioctl_dispatch p a w)))) in *.
  destruct (fo_dev _ _ Hok) as (d & E & Hw & _). unfold file_at in Hf. rewrite E in Hf. injection Hf as <-.
  pose proof Hrun as Hrun0. unfold on_dev in Hrun. rewrite E in Hrun.
  destruct (kbuf_ioc_resize_exits _ a Hw) as (r0 & iw & Hi & He).
  unfold view in *. rewrite Hi in Hrun. injection Hrun as <- <-.
  eexists r0, _, (afile_of (i_dev iw)). split; [exact Hrun0 |].
  split; [split; [exact Hok' |]; unfold file_at; cbn; by rewrite lookup_insert_eq |].
  assert (Hcfu : copy_from_user (f_user w) a sizeof_kbuf_resize = (bytes_of_kbuf_resize rq, 0))
    by (by apply cfu_accessible).
  cbn [f_user i_user]. cbn [af_q af_cap af_bsize af_mode afile_of]. unfold ENOMEM, EBUSY, EINVAL in *.
  destruct He as [bs iw Hc (Hq & Hq' & Hm & _ & Hnb & Hbs & _) Huser Hw' | r iw Hcause (Hd & Huser & _) _].
  - cbn [i_user i_dev] in *. rewrite Hcfu in Hc. injection Hc as <-.
    rewrite resize_bytes in Hnb, Hbs by done.
    split; [exact Huser |]. split; [done |]. split; [| split; [done |]].
    + intros _. split; [| exact Hq]. unfold kbuf_ioc_resize in Hi. cbn [i_user i_dev i_kern] in Hi.
      rewrite Hcfu in Hi. cbn [negb Z.eqb] in Hi. rewrite resize_bytes in Hi by done.
      destruct (resize_invalid rq (mode d)); [discriminate Hi | done].
    + cbn. unfold afile_of. by rewrite Hnb, Hbs, Hm, Hq'.
  - unfold resize_cause in Hcause. cbn [i_user i_dev] in *. rewrite Hcfu in Hcause. cbn [negb Z.eqb] in Hcause.
    rewrite resize_bytes in Hcause by done.
    assert (Hr0 : r <> 0) by (unfold ENOMEM, EBUSY, EINVAL in Hcause; destruct (resize_invalid rq (mode d)); lia).
    split; [exact Huser |]. split; [done |]. split; [lia |]. split.
    + intros _. exact Hcause.
    + rewrite Hd. by rewrite (proj2 (Z.eqb_neq r 0)) by done.
Qed.
(** Reads and writes. *)
Definition fcall_of (o : rop) : fcall := match o with RRead a n => FRead a n | RWrite a n => FWrite a n end.

Lemma rw_run p w f o :
  open_at p w f -> rop_ok o ->
  exists r w' q', file_call p (fcall_of o) w = Done (r, w') /\
    open_at p w' (AFile (af_cap f) (af_bsize f) (af_mode f) q') /\
    spec_op (af_cap f) (af_bsize f) o (f_user w) (af_q f) = (r, f_user w', q').
Proof.
  intros [Hok Hf] Ho. destruct (file_call_refines p (fcall_of o) w Hok) as (r & w' & f0 & f' & Hrun & Hok' & Hf0 & Hf' & Hs);
    [by destruct o |].
  rewrite Hf in Hf0. injection Hf0 as <-. destruct o; inversion Hs; subst; eexists _, _, _; split_and!; try done; by split.
Qed.




Lemma drain_run fuel p w f a :
  open_at p w f -> Forall (fun m => m <> []) (af_q f) -> accessible (f_user w) a sizeof_drain ->
  (length (af_q f) < fuel)%nat ->
  exists w', drain fuel p a w = Done (true, w') /\ open_at p w' (AFile (af_cap f) (af_bsize f) (af_mode f) []) /\
    forall x, ~ (a <= x < a + sizeof_drain) -> ubyte (f_user w') x = ubyte (f_user w) x.
Proof.
  revert w f. induction fuel as [| fuel IH]; intros w f Ho Hne Ha Hl; [lia |]. cbn [drain].
  destruct (rw_run p w f (RRead a sizeof_drain) Ho) as (r & w1 & q1 & Hrun & Ho1 & Hs); [by unfold rop_ok, sizeof_drain |].
  rewrite (run_bind _ _ _ _ _ Hrun). destruct f as [cap bs m q]. cbn [af_cap af_bsize af_mode af_q spec_op] in *.
  destruct q as [| msg q].
  - injection Hs as <- Hu <-. exists w1. split; [done |]. split; [done |]. by rewrite Hu.
  - apply Forall_cons in Hne as [Hm Hne]. unfold spec_consume in Hs. unfold sizeof_drain in *.
    set (k := Z.min 65536 (Z.of_nat (length msg))) in *.
    assert (Hk : 0 < k <= 65536) by (destruct msg; [done |]; cbn [length] in k; lia).
    destruct (ctu_run (f_user w) a (take (Z.to_nat k) msg) 65536 Ha) as (u1 & E & Ha1 & Hf1 & _).
    { rewrite length_take. lia. }
    rewrite E in Hs. cbn [Z.eqb] in Hs. injection Hs as <- Hu <-. rewrite (proj2 (Z.ltb_lt 0 k)) by lia.
    cbn [length] in Hl.
    destruct (IH w1 _ Ho1 Hne) as (w' & Hd & Ho' & Hx); [by rewrite <- Hu | cbn; lia |].
    exists w'. split; [done |]. split; [done |]. intros x Hnx. by rewrite Hx, <- Hu, Hf1.
Qed.

(** Two ranges of addresses that do not meet. *)
Definition apart (a n b m : Z) : Prop := a + n <= b \/ b + m <= a.

(** The locals of [slot_setup] do not overlap. *)
Definition frame_ok (fr : setup_frame) : Prop :=
  apart (fr_rz fr) 8 (fr_mode fr) 4 /\ apart (fr_rz fr) 8 (fr_drain fr) sizeof_drain /\
  apart (fr_mode fr) 4 (fr_drain fr) sizeof_drain.

Lemma setup_mode p w f a m :
  open_at p w f -> m = KBUF_MODE_BLOCKING \/ m = KBUF_MODE_SPSC ->
  exists r w' f', (store_int a m ;;; kbuf_ioctl p KBUF_IOCSMODE a) w = Done (r, w') /\ open_at p w' f' /\
    (forall x, ~ (a <= x < a + 4) -> ubyte (f_user w') x = ubyte (f_user w) x) /\ answer r /\
    (r = 0 <-> af_q f = [] /\ (m = KBUF_MODE_SPSC -> is_power_of_2 (af_cap f) = true)) /\
    f' = (if r =? 0 then AFile (af_cap f) (af_bsize f) m [] else f).
Proof.
  intros Ho Hm. destruct (store_int_run p w f a m Ho) as (w1 & R1 & Ho1 & Hg & Hx);
    [unfold KBUF_MODE_BLOCKING, KBUF_MODE_SPSC in Hm; lia |].
  destruct (smode_run p w1 f a m Ho1 Hg Hm) as (r & w2 & f' & R2 & Ho2 & Hu & Ha & Hr & Hf').
  exists r, w2, f'. rewrite (run_bind _ _ _ _ _ R1). split_and!; try done. intros x Hnx. by rewrite Hu, Hx.
Qed.

Lemma seq_run {A B} (m : prog (fworld U K) unit) (n : prog (fworld U K) A) (k : A -> prog (fworld U K) B) w a w' :
  (m ;;; n) w = Done (a, w') -> (m ;;; x <-- n ;; k x) w = k a w'.
Proof. unfold p_bind. destruct (m w) as [[[] w1] |]; [| done]. cbn [exec_bind]. by intros ->. Qed.

(** The part of [slot_setup] up to the drain: the request is in memory, the
    buffer is accessible, the mode is blocking or what it was. *)
Lemma setup_begin p w f fr msgsize mode0 :
  open_at p w f -> frame_ok fr -> accessible (f_user w) (fr_drain fr) sizeof_drain ->
  exists r w' f',
    (forall A (k : Z -> prog (fworld U K) A),
      (store (fr_rz fr) (bytes_of_kbuf_resize (KbufResize 8 msgsize)) ;;; store_int (fr_mode fr) mode0 ;;;
       store_int (fr_mode fr) KBUF_MODE_BLOCKING ;;; r <-- kbuf_ioctl p KBUF_IOCSMODE (fr_mode fr) ;; k r) w = k r w') /\
    open_at p w' f' /\ af_q f' = af_q f /\ af_cap f' = af_cap f /\ af_bsize f' = af_bsize f /\
    accessible (f_user w') (fr_drain fr) sizeof_drain /\
    user_bytes (f_user w') (fr_rz fr) sizeof_kbuf_resize = Some (bytes_of_kbuf_resize (KbufResize 8 msgsize)).
Proof.
  intros Ho (Hrm & Hrd & Hmd) Ha. unfold apart in *.
  destruct (store_run p w f (fr_rz fr) (bytes_of_kbuf_resize (KbufResize 8 msgsize)) Ho) as (w1 & R1 & Ho1 & Hu1).
  destruct (store_run p w1 f (fr_mode fr) (le_encode 4 (u32 mode0)) Ho1) as (w2 & R2 & Ho2 & Hu2).
  destruct (setup_mode p w2 f (fr_mode fr) KBUF_MODE_BLOCKING Ho2 (or_introl eq_refl)) as (r & w3 & f' & R3 & Ho3 & Hx3 & _ & Hr & Hf').
  exists r, w3, f'. split; [intros A k; rewrite (run_bind _ _ _ _ _ R1), (run_bind _ _ _ _ _ R2); by apply seq_run |].
  split; [exact Ho3 |].
  pose proof (fun x Hx => store_frame (f_user w) (fr_rz fr) (bytes_of_kbuf_resize (KbufResize 8 msgsize)) x Hx) as Hx1.
  pose proof (fun x Hx => store_frame (f_user w1) (fr_mode fr) (le_encode 4 (u32 mode0)) x Hx) as Hx2.
  rewrite <- Hu1 in Hx1. rewrite <- Hu2, length_le_encode in Hx2. change (Z.of_nat 4) with 4 in Hx2.
  change (Z.of_nat (length (bytes_of_kbuf_resize (KbufResize 8 msgsize)))) with 8 in Hx1.
  split; [| split; [| split; [| split]]].
  - subst f'. destruct (Z.eqb_spec r 0) as [E | E]; [| done]. by destruct (proj1 Hr E) as [-> _].
  - subst f'. by destruct (r =? 0).
  - subst f'. by destruct (r =? 0).
  - intros x Hx. rewrite Hx3, Hx2, Hx1 by lia. by apply Ha.
  - rewrite (user_bytes_ext (f_user w1)); [| unfold sizeof_kbuf_resize; intros x Hx; by rewrite Hx3, Hx2 by lia].
    rewrite Hu1. apply store_bytes.
Qed.

(** ... and the rest, on the drained file. *)
Lemma setup_end p w f fr msgsize m :
  open_at p w f -> af_q f = [] -> m = KBUF_MODE_BLOCKING \/ m = KBUF_MODE_SPSC -> 1 <= msgsize <= KBUF_MAX_BUFFER_SIZE ->
  user_bytes (f_user w) (fr_rz fr) sizeof_kbuf_resize = Some (bytes_of_kbuf_resize (KbufResize 8 msgsize)) ->
  exists r w' f', 
    (r <-- kbuf_ioctl p KBUF_IOCRESIZE (fr_rz fr) ;;
     if negb (r =? 0) then p_ret (Some (-1)) else
     store_int (fr_mode fr) m ;;;
     r' <-- kbuf_ioctl p KBUF_IOCSMODE (fr_mode fr) ;;
     if negb (r' =? 0) then p_ret (Some (-1)) else p_ret (Some 0)) w = Done (Some r, w') /\
    open_at p w' f' /\
    ((r = 0 /\ f' = AFile 8 msgsize m []) \/
     (r = -1 /\ f' = f /\ exists w1, kbuf_ioctl p KBUF_IOCRESIZE (fr_rz fr) w1 = Done (- ENOMEM, w'))).
Proof.
  intros Ho Hq Hm Hsz Hu. unfold KBUF_MAX_BUFFER_SIZE in Hsz.
  destruct (resize_run p w f (fr_rz fr) (KbufResize 8 msgsize) Ho Hu) as (r & w1 & f1 & R1 & Ho1 & _ & _ & _ & He & Hf1);
    [by unfold in_u32 | unfold in_u32; cbn; lia |].
  assert (Hval : resize_invalid (KbufResize 8 msgsize) (af_mode f) = false).
  { unfold resize_invalid, KBUF_MAX_NUM_BUFFERS, KBUF_MAX_BUFFER_SIZE. cbn [rq_num_buffers rq_buffer_size].
    change (is_power_of_2 8) with true. rewrite andb_false_r. lia. }
  rewrite (run_bind _ _ _ _ _ R1). rewrite Hval in He. destruct (Z.eqb_spec r 0) as [E | E]; cbn [negb] in *.
  - destruct (setup_mode p w1 f1 (fr_mode fr) m Ho1 Hm) as (r2 & w2 & f2 & R2 & Ho2 & _ & _ & Hr2 & Hf2).
    assert (r2 = 0) as -> by (apply Hr2; subst f1; cbn; by split).
    exists 0, w2, f2. split; [| split; [done | left; split; [done |]; rewrite Hf2, Hf1; done]].
    by rewrite (seq_run _ _ _ _ _ _ R2).
  - exists (-1), w1, f1. split; [done |]. split; [done |]. right. split; [done |]. split; [done |].
    destruct (He E) as [-> | [_ ?]]; [by exists w | done].
Qed.

(** [slot_setup] terminates and does what its comment says, whatever mode,
    geometry and messages the device had (none of them empty): it drains the
    ring in at most one read per message and one more, and returns 0 with an
    empty ring of eight slots of [msgsize] bytes in the requested mode; or it
    returns -1 because the kernel had no memory for the new slots, with the
    ring drained and its old geometry. *)
Theorem slot_setup_ok fuel fr p w f msgsize spsc :
  open_at p w f -> frame_ok fr -> accessible (f_user w) (fr_drain fr) sizeof_drain ->
  Forall (fun m => m <> []) (af_q f) -> (length (af_q f) < fuel)%nat -> 1 <= msgsize <= KBUF_MAX_BUFFER_SIZE ->
  exists r w' f', slot_setup fuel fr (Some p) msgsize spsc w = Done (Some r, w') /\ open_at p w' f' /\
    ((r = 0 /\ f' = AFile 8 msgsize (if spsc then KBUF_MODE_SPSC else KBUF_MODE_BLOCKING) []) \/
     (r = -1 /\ af_q f' = [] /\ af_cap f' = af_cap f /\ af_bsize f' = af_bsize f /\
      exists w1, kbuf_ioctl p KBUF_IOCRESIZE (fr_rz fr) w1 = Done (- ENOMEM, w'))).
Proof.
  intros Ho Hfr Ha Hne Hl Hsz.
  destruct (setup_begin p w f fr msgsize (if spsc then KBUF_MODE_SPSC else KBUF_MODE_BLOCKING) Ho Hfr Ha)
    as (r1 & w1 & f1 & R1 & Ho1 & Hq1 & Hc1 & Hb1 & Ha1 & Hu1).
  destruct (drain_run fuel p w1 f1 (fr_drain fr) Ho1) as (w2 & R2 & Ho2 & Hx2); [by rewrite Hq1 | done | by rewrite Hq1 |].
  destruct (setup_end p w2 _ fr msgsize (if spsc then KBUF_MODE_SPSC else KBUF_MODE_BLOCKING) Ho2) as (r & w3 & f3 & R3 & Ho3 & He);
    [done | destruct spsc; by (left + right) | done | |].
  { rewrite <- Hu1. apply user_bytes_ext. intros x Hx. apply Hx2. destruct Hfr as (_ & Hd & _).
    unfold apart, sizeof_kbuf_resize in *. lia. }
  exists r, w3, f3. split; [| split; [done |]].
  - unfold slot_setup. rewrite R1, (run_bind _ _ _ _ _ R2). cbn [negb]. exact R3.
  - destruct He as [? | (-> & -> & Hw)]; [by left | right; by split_and!].
Qed.

(** The loop takes a read of no bytes for the end of the ring: behind an empty
    message it leaves the others, and the resize fails. *)
Theorem slot_setup_empty_message fuel fr p w f m q msgsize spsc :
  open_at p w f -> frame_ok fr -> accessible (f_user w) (fr_drain fr) sizeof_drain ->
  af_q f = [] :: m :: q -> 1 <= msgsize <= KBUF_MAX_BUFFER_SIZE ->
  exists w' f', slot_setup (S fuel) fr (Some p) msgsize spsc w = Done (Some (-1), w') /\ open_at p w' f' /\ af_q f' = m :: q.
Proof.
  intros Ho Hfr Ha Hq Hsz.
  destruct (setup_begin p w f fr msgsize (if spsc then KBUF_MODE_SPSC else KBUF_MODE_BLOCKING) Ho Hfr Ha)
    as (r1 & w1 & f1 & R1 & Ho1 & Hq1 & Hc1 & Hb1 & Ha1 & Hu1).
  destruct (rw_run p w1 f1 (RRead (fr_drain fr) sizeof_drain) Ho1) as (r2 & w2 & q2 & R2 & Ho2 & Hs); [by unfold rop_ok, sizeof_drain |].
  cbn [spec_op] in Hs. rewrite Hq1, Hq in Hs. unfold spec_consume in Hs. cbn [length] in Hs.
  destruct (ctu_run (f_user w1) (fr_drain fr) [] sizeof_drain Ha1) as (u2 & E & _ & Hx & _); [by unfold sizeof_drain |].
  change (Z.min sizeof_drain (Z.of_nat 0)) with 0 in Hs. rewrite take_nil, E in Hs. cbn [Z.eqb] in Hs. injection Hs as <- Hu2 <-.
  destruct (resize_run p w2 _ (fr_rz fr) (KbufResize 8 msgsize) Ho2) as (r3 & w3 & f3 & R3 & Ho3 & _ & _ & Hok3 & _ & Hf3).
  { rewrite <- Hu1, <- Hu2. apply user_bytes_ext. intros x Hxr. apply Hx. destruct Hfr as (_ & Hd & _).
    unfold apart, sizeof_kbuf_resize in *. lia. }
  { by unfold in_u32. } { unfold in_u32, KBUF_MAX_BUFFER_SIZE in *. cbn. lia. }
  assert (Hr3 : r3 <> 0) by (intros ->; by destruct (Hok3 eq_refl)). rewrite (proj2 (Z.eqb_neq r3 0) Hr3) in Hf3.
  exists w3, f3. split; [| split; [done | by rewrite Hf3]].
  unfold slot_setup. rewrite R1. cbn [drain]. unfold p_bind at 1 2. change (FRead ?a ?n) with (fcall_of (RRead a n)). rewrite R2. cbn [exec_bind p_ret Z.ltb Z.compare negb].
  rewrite (run_bind _ _ _ _ _ R3). by rewrite (proj2 (Z.eqb_neq r3 0) Hr3).
Qed.















End calls.

(** ** Concrete runs *)
Lemma file_open : open_at 5 (file_world []) (AFile 2 4 0 []).
Proof. split; [exact (file_world_ok []) | by vm_compute]. Qed.


Lemma triple_eq {A B C} (a a' : A) (b b' : B) (c c' : C) : (a, b, c) = (a', b', c') -> b = b' /\ c = c'.
Proof. by intros [= _ -> ->]. Qed.

Lemma put_accessible (u : simuser) a bs : accessible (sim_put u a bs) a (Z.of_nat (length bs)).
Proof. eapply bytes_accessible; [exact (sim_get_put u a bs) | lia]. Qed.

(** The same file in a process with a buffer at 1000, and one message in it. *)
Definition setup_world (bs : list byte) : fworld simuser simkernel :=
  FWorld (f_c (file_world [])) (sim_put file_user 1000 bs) (f_fds (file_world [])) (f_woken (file_world [])).

Definition queued_world (bs : list byte) : fworld simuser simkernel :=
  match file_call 5 (FWrite 0 3) (setup_world bs) with Done (_, w) => w | Oops _ => setup_world bs end.

Lemma queued_open bs :
  open_at 5 (queued_world bs) (AFile 2 4 0 [[x02; x00; x00]]) /\
  accessible (f_user (queued_world bs)) 1000 (Z.of_nat (length bs)).
Proof.
  destruct (rw_run 5 (setup_world bs) (AFile 2 4 0 []) (RWrite 0 3) (open_user _ _ _ _ file_open)) as (r & w' & q' & R & Ho & Hs); [done |].
  assert (Hu : user_bytes (f_user (setup_world bs)) 0 3 = Some [x02; x00; x00]).
  { rewrite (user_bytes_ext (file_user : simuser)); [by vm_compute |]. intros x Hx. apply sim_put_frame. lia. }
  cbn [spec_op af_cap af_bsize af_q length Z.of_nat Z.eqb] in Hs. unfold spec_produce in Hs.
  change (Z.min 3 4) with 3 in Hs. rewrite Hu in Hs. cbn [app] in Hs. apply triple_eq in Hs as [Hw <-].
  unfold queued_world. cbn [fcall_of] in R. rewrite R. split; [exact Ho |]. rewrite <- Hw.
  apply put_accessible.
Qed.

Definition drain_buffer : list byte := replicate (Z.to_nat sizeof_drain) x00.

Lemma length_drain_buffer : Z.of_nat (length drain_buffer) = sizeof_drain.
Proof. unfold drain_buffer. rewrite length_replicate. by apply Z2Nat.id. Qed.

Definition sample_frame : setup_frame := SetupFrame 200 240 1000.

Lemma slot_setup_ok_witness :
  ret_of (slot_setup 2 sample_frame (Some 5) 16 true (queued_world drain_buffer)) = Some (Some 0) /\
  exists w', slot_setup 2 sample_frame (Some 5) 16 true (queued_world drain_buffer) = Done (Some 0, w') /\
    open_at 5 w' (AFile 8 16 KBUF_MODE_SPSC []).
Proof.
  assert (E : ret_of (slot_setup 2 sample_frame (Some 5) 16 true (queued_world drain_buffer)) = Some (Some 0)) by by vm_compute.
  split; [exact E |]. destruct (queued_open drain_buffer) as [Ho Ha]. rewrite length_drain_buffer in Ha.
  destruct (slot_setup_ok 2 sample_frame 5 (queued_world drain_buffer) _ 16 true Ho) as (r & w' & f' & R & Ho' & Hr);
    [| exact Ha | | | |].
  - unfold frame_ok, apart, sizeof_drain. cbn. lia.
  - by apply List.Forall_cons; [| apply List.Forall_nil].
  - cbn. lia.
  - unfold KBUF_MAX_BUFFER_SIZE. lia.
  - pose proof (ret_of_done _ _ _ _ R E) as [= ->]. destruct Hr as [[_ ->] | [[=] _]]. exists w'. split; [exact R | exact Ho'].
Defined.
