(* ===== verification/BenchSlots.v ===== *)
(** * BenchSlots: the benchmark's transfers over a slot ring (bench/kbuf_bench.c)

    The loops of [run_once] for the transport T_MUTEX: after [slot_setup] the
    producer process writes [nmsg] messages of [msgsize] bytes with write(2), the
    consumer reads as many with read(2), both without O_NONBLOCK, and a call that
    moves another number of bytes ends its loop.  A step is a step of the loop
    between two calls or one of [kbuf_write_blocking] or [kbuf_read_blocking] as in
    Machine.v, with sleeping, the mutex and the wake-ups; no signals are sent.  The
    two processes have their buffers at [ubuf Writer] and [ubuf Reader] of one
    memory that stands for both. *)

From S2P Require Import Prelude Kernel Uapi Device Alloc Mmap Ctl DmaBuf Ring RingFacts RingSpec RingProps Ioctl.
From S2P Require Import Machine MachineFacts MachineProps Spsc SpscFacts Samples ClientProps.
#[local] Open Scope Z_scope.

(** Where a process is: at the test of its [for], in a call, or behind the loop. *)
Inductive phase : Set := AtHead | InCall | Left.

#[export] Instance phase_eq_dec : EqDecision phase.
Proof. solve_decision. Defined.

#[export] Instance io_pc_eq_dec : EqDecision io_pc.
Proof. solve_decision. Defined.

Record sbench (U : Type) := SBench {
  sb_sh : shared U;
  sb_th : side -> thread;
  sb_i : side -> Z;
  sb_ph : side -> phase
}.
Arguments SBench {U}.
Arguments sb_sh {U}.
Arguments sb_th {U}.
Arguments sb_i {U}.
Arguments sb_ph {U}.

(** A process's own state, set. *)
Definition put {U} (b : sbench U) (sd : side) (th : thread) (i : Z) (ph : phase) : sbench U :=
  SBench (sb_sh b) (on_side sd th (sb_th b)) (on_side sd i (sb_i b)) (on_side sd ph (sb_ph b)).

Section loops.
Context {U : Type} `{UAccess U}.
Context (nmsg msgsize : Z) (ubuf : side -> Z).

Definition call_of (sd : side) : io := Io sd false (ubuf sd) msgsize.

Definition slot_step (sd : side) (b : sbench U) : option (exec (sbench U)) :=
  match sb_ph b sd with
  | AtHead =>
    Some (Done (if sb_i b sd <? nmsg then put b sd (TIo (call_of sd) io_lock) (sb_i b sd) InCall
                else put b sd (sb_th b sd) (sb_i b sd) Left))
  | InCall =>
    match sb_th b sd with
    | TIo _ (io_ret r) =>
      Some (Done (if r =? msgsize then put b sd (sb_th b sd) (sb_i b sd + 1) AtHead
                  else put b sd (sb_th b sd) (sb_i b sd) Left))
    | th =>
      (fun e => exec_bind e (fun '(th', s') => Done (SBench s' (on_side sd th' (sb_th b)) (sb_i b) (sb_ph b))))
        <$> thread_step Run (tid sd) th (sb_sh b)
    end
  | Left => None
  end.

(** After the fork, before either process has done anything. *)
Definition sb_start (d : kbuf_dev) (u : U) : sbench U :=
  SBench (Shared d u [] None ∅ ∅) (fun sd => TIo (call_of sd) (io_ret 0)) (fun _ => 0) (fun _ => AtHead).

(** A run of [n] steps. *)
Inductive sb_run : nat -> sbench U -> sbench U -> Prop :=
  | sbr_nil b : sb_run 0 b b
  | sbr_snoc n b b1 sd b2 : sb_run n b b1 -> slot_step sd b1 = Some (Done b2) -> sb_run (S n) b b2.

(** ** What a step costs

    The steps a call still takes before it returns or sleeps; [w] says that its
    side must wait and [q] that it is on its queue.  A wake-up may cost the peer
    five more steps, which the waker's count provides for. *)
Definition pc_rank (pc : io_pc) (w q : bool) : Z :=
  match pc with
  | io_lock => 32
  | io_clamp => 31
  | io_test => if w then 30 else 13
  | io_wait => if w then 29 else 15
  | io_prepare => 24
  | io_recheck => if w then (if q then 23 else 26) else 16
  | io_asleep => if q then 20 else 25
  | io_relock => 14
  | io_xfer => 12
  | io_unlock _ => 11
  | io_wake _ => 10
  | io_ret _ => 0
  end.

Definition queued (sd : side) (s : shared U) : bool := bool_decide (tid sd ∈ wq sd s).

Definition rank (sd : side) (th : thread) (s : shared U) : Z :=
  match th with TIo _ pc => pc_rank pc (must_wait sd (sh_dev s)) (queued sd s) | _ => 0 end.

Definition cost (sd : side) (b : sbench U) : Z :=
  match sb_ph b sd with
  | AtHead => 40 * (nmsg - sb_i b sd) + 1
  | InCall => 40 * (nmsg - sb_i b sd - 1) + 2 + rank sd (sb_th b sd) (sb_sh b)
  | Left => 0
  end.

(** The transfer is behind it. *)
Definition past (th : thread) : option Z :=
  match th with TIo _ (io_unlock r | io_wake r | io_ret r) => Some r | _ => None end.

Definition pastb (th : thread) : bool := match past th with Some _ => true | None => false end.

Definition moved (sd : side) (b : sbench U) : Z :=
  match sb_ph b sd with InCall => sb_i b sd + Z.b2z (pastb (sb_th b sd)) | _ => sb_i b sd end.
End loops.
