(* ===== verification/BenchSlotsProps.v ===== *)
(** * BenchSlotsProps: the slot-ring benchmark always comes to its end *)

From S2P Require Import Prelude Kernel Uapi Device Alloc Mmap Ctl DmaBuf Ring RingFacts RingSpec RingProps Ioctl.
From S2P Require Import Machine MachineFacts MachineProps Spsc SpscFacts Samples ClientProps BenchSlots.
#[local] Open Scope Z_scope.

(** What the writer is ahead of the reader, by the side that moves. *)
Lemma moved_split (f : side -> Z) sd : f Writer - f Reader = match sd with Writer => 1 | Reader => -1 end * (f sd - f (other sd)).
Proof. destruct sd; cbn [other]; lia. Qed.

Section facts.
Context {U : Type} {ua : UAccess U} {ual : UAccessLaws U}.
Context (nmsg msgsize : Z) (ubuf : side -> Z) (blk : list byte).
Implicit Types (s : shared U) (b : sbench U).

(** The producer's buffer holds the message and the consumer's can be written. *)
Definition mem_ok (u : U) : Prop :=
  user_bytes u (ubuf Writer) msgsize = Some blk /\ accessible u (ubuf Reader) msgsize.

Context (Hapart : apart (ubuf Writer) msgsize (ubuf Reader) msgsize) (Hblk : Z.of_nat (length blk) = msgsize).

(** One step of a call that has not returned. *)
Record io_move (sd : side) (pc pc' : io_pc) s s' : Prop := {
  mv_mem : mem_ok (sh_user s');
  mv_size : buffer_size (sh_dev s') = msgsize;
  mv_rank : pc_rank pc' (must_wait sd (sh_dev s')) (queued sd s') + (match pc with io_wake _ => 5 | _ => 0 end)
            < pc_rank pc (must_wait sd (sh_dev s)) (queued sd s);
  mv_peer : must_wait (other sd) (sh_dev s') = must_wait (other sd) (sh_dev s) \/ must_wait (other sd) (sh_dev s') = false;
  mv_peerq : queued (other sd) s' = queued (other sd) s \/ exists r, pc = io_wake r;
  mv_queue : dev_queue (sh_dev s') = match pc, sd with
                                     | io_xfer, Writer => dev_queue (sh_dev s) ++ [blk]
                                     | io_xfer, Reader => drop 1 (dev_queue (sh_dev s))
                                     | _, _ => dev_queue (sh_dev s)
                                     end;
  mv_past r : past (TIo (call_of msgsize ubuf sd) pc') = Some r -> r = msgsize;
  mv_moved : pastb (TIo (call_of msgsize ubuf sd) pc')
             = match pc with io_xfer => true | _ => pastb (TIo (call_of msgsize ubuf sd) pc) end;
  mv_relock : pc' = io_relock -> must_wait sd (sh_dev s') = false;
  mv_rcvd : pc = io_xfer -> sd = Reader -> user_bytes (sh_user s') (ubuf Reader) msgsize = Some blk;
  mv_kept : pc <> io_xfer \/ sd = Writer -> sh_user s' = sh_user s
}.

Lemma queued_set sd sd' q s :
  queued sd (set_wq sd' q s) = if decide (sd = sd') then bool_decide (tid sd ∈ q) else queued sd s.
Proof. unfold queued. rewrite wq_set_wq. by case_decide. Qed.

Lemma must_wait_sleep sd sd' d : must_wait sd (count_sleep sd' d) = must_wait sd d.
Proof. by destruct sd, sd'. Qed.

(** The transfer itself. *)
Lemma xfer_move sd s :
  dev_ok (sh_dev s) -> mode (sh_dev s) = KBUF_MODE_BLOCKING -> must_wait sd (sh_dev s) = false ->
  buffer_size (sh_dev s) = msgsize -> mem_ok (sh_user s) -> Forall (eq blk) (dev_queue (sh_dev s)) ->
  exists s', run_xfer (call_of msgsize ubuf sd) s = Done (msgsize, s') /\ io_move sd io_xfer (io_unlock msgsize) s s'.
Proof.
  intros Hok Hm Hw Hb [Hu Ha] Hq. pose proof (geo_b _ (proj1 Hok)) as Hpos.
  pose proof (spec_xfer_run (call_of msgsize ubuf sd) s Hok Hm Hw ltac:(cbn; lia) ltac:(cbn; lia)) as Hx.
  cbn [call_of io_side io_ubuf io_count] in Hx. destruct sd; cbn [spec_xfer] in Hx.
  - unfold spec_consume in Hx. destruct (dev_queue (sh_dev s)) as [| m q] eqn:Eq.
    { assert (must_wait Reader (sh_dev s) = true) by (apply (must_wait_spec (U := U)); done). congruence. }
    apply Forall_cons in Hq as [<- Hq]. rewrite Z.min_l, take_ge in Hx by lia.
    destruct (ctu_run (sh_user s) (ubuf Reader) blk msgsize Ha ltac:(lia)) as (u' & E & Ha' & Hf & Hr).
    rewrite E in Hx. cbn [Z.eqb] in Hx. destruct Hx as (s' & Hrun & Hu' & Hq' & Hok' & [Hn Hbs Hm' _ _ _] & Hl & Hwq).
    exists s'. split; [exact Hrun |]. subst u'.
    assert (Hfree : must_wait Writer (sh_dev s') = false).
    { apply not_true_is_false. rewrite (must_wait_spec (U := U)) by (done || congruence). rewrite Hq', Hn.
      destruct (blocking_occ _ Hok Hm) as (Hle & Hc & _). rewrite Eq in Hle. cbn [length] in Hle. lia. }
    split; try done; try lia.
    + split; [| done]. rewrite <- Hu. apply user_bytes_ext. intros x Hx. apply Hf. unfold apart in Hapart. lia.
    + by right.
    + left. unfold queued. by rewrite Hwq.
    + rewrite Hq'. by rewrite Eq.
    + by intros r [= <-].
    + intros _ _. by rewrite <- Hblk.
    + by intros [? | ?].
  - unfold spec_produce in Hx. rewrite Hu in Hx. destruct Hx as (s' & Hrun & Hu' & Hq' & Hok' & [Hn Hbs Hm' _ _ _] & Hl & Hwq).
    exists s'. split; [exact Hrun |].
    assert (Hfree : must_wait Reader (sh_dev s') = false).
    { apply not_true_is_false. rewrite (must_wait_spec (U := U)) by (done || congruence). rewrite Hq'. by destruct (dev_queue _). }
    split; rewrite ?Hu'; try done; try lia.
    + by right.
    + left. unfold queued. by rewrite Hwq.
    + by intros r [= <-].
Qed.

(** What a call may rely on before its step. *)
Record call_ok (sd : side) (pc : io_pc) s : Prop := {
  co_dev : dev_ok (sh_dev s);
  co_mode : mode (sh_dev s) = KBUF_MODE_BLOCKING;
  co_size : buffer_size (sh_dev s) = msgsize;
  co_mem : mem_ok (sh_user s);
  co_queue : Forall (eq blk) (dev_queue (sh_dev s));
  co_xfer : pc = io_xfer -> must_wait sd (sh_dev s) = false;
  co_relock : pc = io_relock -> must_wait sd (sh_dev s) = false;
  co_past r : past (TIo (call_of msgsize ubuf sd) pc) = Some r -> r = msgsize
}.

(** The steps that leave ring and memory alone. *)
Lemma quiet_move sd pc pc' s s' :
  call_ok sd pc s -> sh_user s' = sh_user s -> pc <> io_xfer ->
  (sh_dev s' = sh_dev s \/ sh_dev s' = count_sleep sd (sh_dev s)) ->
  pc_rank pc' (must_wait sd (sh_dev s)) (queued sd s') + (match pc with io_wake _ => 5 | _ => 0 end)
    < pc_rank pc (must_wait sd (sh_dev s)) (queued sd s) ->
  queued (other sd) s' = queued (other sd) s \/ (exists r, pc = io_wake r) ->
  (forall r, past (TIo (call_of msgsize ubuf sd) pc') = Some r -> r = msgsize) ->
  pastb (TIo (call_of msgsize ubuf sd) pc') = pastb (TIo (call_of msgsize ubuf sd) pc) ->
  (pc' = io_relock -> must_wait sd (sh_dev s) = false) ->
  io_move sd pc pc' s s'.
Proof.
  intros [Hok Hm Hb Hmem Hq Hx Hr Hp] Hu Hpc Hd Hrank Hpq Hpast Hpb Hrel.
  assert (Hmw : forall x, must_wait x (sh_dev s') = must_wait x (sh_dev s))
    by (intros x; destruct Hd as [-> | ->]; [done | apply must_wait_sleep]).
  split; rewrite ?Hmw, ?Hu; try done.
  - destruct Hd as [-> | ->]; [done |]. by destruct sd.
  - by left.
  - assert (E : dev_queue (sh_dev s') = dev_queue (sh_dev s)) by (destruct Hd as [-> | ->]; [done |]; by destruct sd).
    rewrite E. by destruct pc.
  - by destruct pc.
Qed.

Lemma set_wq_user sd q s : sh_user (set_wq sd q s) = sh_user s.
Proof. by destruct sd. Qed.

Lemma queued_other sd q s : queued (other sd) (set_wq sd q s) = queued (other sd) s.
Proof. rewrite queued_set. case_decide; [by destruct sd | done]. Qed.

Lemma call_step sd pc s e :
  call_ok sd pc s -> io_step Run (tid sd) (call_of msgsize ubuf sd) pc s = Some e ->
  exists pc' s', e = Done (TIo (call_of msgsize ubuf sd) pc', s') /\ io_move sd pc pc' s s'.
Proof.
  intros Hc Hst. pose proof Hc as [Hok Hm Hb Hmem Hq Hx Hr Hp]. pose proof (geo_b _ (proj1 Hok)) as Hpos.
  assert (Hquiet := quiet_move sd pc). pose proof (proj1 (set_wq_rest sd ({[tid sd]} ∪ wq sd s) s)) as Hd1.
  pose proof (proj1 (set_wq_rest sd (wq sd s ∖ {[tid sd]}) s)) as Hd2.
  destruct pc; cbn in Hst; unfold try_lock in Hst; simplify_eq.
  - destruct (sh_lock s); simplify_eq. eexists _, _. split; [done |]. apply Hquiet; try done; (by left) || done.
  - replace (match sd with Reader => _ | Writer => _ end) with (call_of msgsize ubuf sd)
      by (destruct sd; [done |]; rewrite Hb; by destruct (Z.gtb_spec msgsize msgsize); [lia |]).
    eexists _, _. split; [done |]. apply Hquiet; try done; try (by left). cbn. by destruct (must_wait _ _).
  - destruct (must_wait sd (sh_dev s)) eqn:Ew; simplify_eq; (eexists _, _; split; [done |]);
      apply Hquiet; try done; try (by left); try (by right); by rewrite Ew.
  - destruct (must_wait sd (sh_dev s)) eqn:Ew; simplify_eq; (eexists _, _; split; [done |]);
      apply Hquiet; try done; try (by left); by rewrite Ew.
  - eexists _, _. split; [done |]. apply Hquiet; try done; [apply set_wq_user | by left | | left; apply queued_other].
    rewrite queued_set, decide_True, bool_decide_eq_true_2 by (done || set_solver). cbn. by destruct (must_wait _ _).
  - destruct (must_wait sd (sh_dev s)) eqn:Ew; simplify_eq; (eexists _, _; split; [done |]).
    + apply Hquiet; try done; try (by left). rewrite Ew. cbn. by destruct (queued sd s).
    + apply Hquiet; try done; [apply set_wq_user | by left | by rewrite Ew | left; apply queued_other].
  - destruct (bool_decide (tid sd ∈ wq sd s)) eqn:Eq; simplify_eq. eexists _, _. split; [done |].
    apply Hquiet; try done; try (by left). unfold queued. by rewrite Eq.
  - destruct (sh_lock s); simplify_eq. eexists _, _. split; [done |].
    apply Hquiet; try done; try (by left). by rewrite Hr.
  - destruct (xfer_move sd s Hok Hm (Hx eq_refl) Hb Hmem Hq) as (s' & Hrun & Hmv).
    change (run_xfer _ s) with (run_xfer (call_of msgsize ubuf sd) s). rewrite Hrun. cbn. by eexists _, _.
  - assert (r = msgsize) as -> by (by apply Hp). rewrite (proj2 (Z.leb_le 0 msgsize)) by lia.
    eexists _, _. split; [done |]. apply Hquiet; try done; try (by left).
  - eexists _, _. split; [done |]. apply Hquiet; try done; [by destruct sd | left; by destruct sd | right; by eexists].
Qed.

(** ** The invariant *)
Definition sys_of b : sys U :=
  Sys (<[tid Writer := sb_th b Writer]> (<[tid Reader := sb_th b Reader]> ∅)) (sb_sh b).

Lemma sys_of_lookup b t th : threads (sys_of b) !! t = Some th <-> exists sd, t = tid sd /\ th = sb_th b sd.
Proof.
  cbn [sys_of threads]. rewrite !lookup_insert_Some, lookup_empty. split.
  - intros [[<- <-] | [_ [[<- <-] | [_ ?]]]]; [by exists Writer | by exists Reader | done].
  - intros ([] & -> & ->); [right; split; [done | by left] | by left].
Qed.

Lemma sys_of_set b sd th s' i ph :
  Sys (<[tid sd := th]> (threads (sys_of b))) s' = sys_of (SBench s' (on_side sd th (sb_th b)) i ph).
Proof.
  unfold sys_of. cbn [sb_sh sb_th threads]. f_equal. destruct sd; rewrite on_side_eq, on_side_ne by done.
  - by rewrite insert_insert_ne, insert_insert_eq.
  - by rewrite insert_insert_eq.
Qed.

Record sb_inv b : Prop := {
  sv_inv : inv (sys_of b);
  sv_th sd : exists pc, sb_th b sd = TIo (call_of msgsize ubuf sd) pc /\
    match sb_ph b sd with
    | AtHead => 0 <= sb_i b sd <= nmsg /\ exists r, pc = io_ret r
    | InCall => 0 <= sb_i b sd < nmsg /\ (forall r, past (sb_th b sd) = Some r -> r = msgsize) /\
                (pc = io_relock -> must_wait sd (sh_dev (sb_sh b)) = false)
    | Left => sb_i b sd = nmsg /\ exists r, pc = io_ret r
    end;
  sv_size : buffer_size (sh_dev (sb_sh b)) = msgsize;
  sv_mem : mem_ok (sh_user (sb_sh b));
  sv_queue : exists k, dev_queue (sh_dev (sb_sh b)) = replicate k blk /\ Z.of_nat k = moved Writer b - moved Reader b;
  sv_rcvd : 0 < moved Reader b -> user_bytes (sh_user (sb_sh b)) (ubuf Reader) msgsize = Some blk
}.

(** The peer of a step: its count of steps grows by five at most, when it is
    woken. *)
Lemma rank_peer pc w w' q q' :
  w' = w \/ w' = false -> pc_rank pc w' q' <= pc_rank pc w q + (if eqb q' q then 0 else 5).
Proof. intros [-> | ->]; destruct pc, w, q, q'; done. Qed.

Lemma call_ok_of b sd pc :
  sb_inv b -> sb_th b sd = TIo (call_of msgsize ubuf sd) pc -> sb_ph b sd = InCall -> call_ok sd pc (sb_sh b).
Proof.
  intros [Hinv Hth Hsz Hmem (k & Hq & _) _] Epc Eph. destruct (Hth sd) as (pc' & E & H). rewrite Epc in E. injection E as <-.
  rewrite Eph in H. destruct H as (Hi & Hp & Hr). rewrite Epc in Hp. split; try done.
  - apply (inv_dev _ Hinv).
  - apply (inv_mode _ Hinv).
  - rewrite Hq. by apply Forall_replicate.
  - intros ->. pose proof (inv_threads _ Hinv (tid sd) (sb_th b sd)) as Ht. rewrite Epc in Ht.
    destruct Ht as (_ & _ & Hx); [apply sys_of_lookup; by exists sd |]. by apply Hx.
Qed.

Definition total b : Z := cost nmsg Writer b + cost nmsg Reader b.

Lemma total_split b sd : total b = cost nmsg sd b + cost nmsg (other sd) b.
Proof. unfold total. destruct sd; cbn; lia. Qed.

Lemma move_cost b sd pc pc' s' :
  sb_ph b sd = InCall -> sb_th b sd = TIo (call_of msgsize ubuf sd) pc -> io_move sd pc pc' (sb_sh b) s' ->
  total (SBench s' (on_side sd (TIo (call_of msgsize ubuf sd) pc') (sb_th b)) (sb_i b) (sb_ph b)) < total b.
Proof.
  intros Eph Eth Hmv. rewrite !(total_split _ sd). unfold cost. cbn [sb_sh sb_th sb_i sb_ph].
  rewrite on_side_eq, on_side_ne by apply other_ne. rewrite Eph, Eth. cbn [rank].
  pose proof (mv_rank _ _ _ _ _ Hmv) as Hr.
  assert (Hp : rank (other sd) (sb_th b (other sd)) s' <=
               rank (other sd) (sb_th b (other sd)) (sb_sh b) + match pc with io_wake _ => 5 | _ => 0 end).
  { destruct (sb_th b (other sd)) as [l0 pc0 | |]; cbn [rank]; [| by destruct pc; cbn; lia..].
    pose proof (rank_peer pc0 _ _ (queued (other sd) (sb_sh b)) (queued (other sd) s') (mv_peer _ _ _ _ _ Hmv)) as Hle.
    destruct (mv_peerq _ _ _ _ _ Hmv) as [E | [r ->]]; [rewrite E, eqb_reflx in Hle; rewrite E; destruct pc; lia |].
    destruct (eqb _ _); lia. }
  destruct (sb_ph b (other sd)); destruct pc; lia.
Qed.

Lemma move_queue b sd pc pc' s' :
  sb_inv b -> sb_ph b sd = InCall -> sb_th b sd = TIo (call_of msgsize ubuf sd) pc -> io_move sd pc pc' (sb_sh b) s' ->
  let b' := SBench s' (on_side sd (TIo (call_of msgsize ubuf sd) pc') (sb_th b)) (sb_i b) (sb_ph b) in
  (exists k, dev_queue (sh_dev s') = replicate k blk /\ Z.of_nat k = moved Writer b' - moved Reader b') /\
  (0 < moved Reader b' -> user_bytes (sh_user s') (ubuf Reader) msgsize = Some blk).
Proof.
  intros Hb Eph Eth Hmv b'. pose proof (call_ok_of b sd pc Hb Eth Eph) as Hc. destruct Hb as [Hinv Hth Hsz Hmem (k & Hq & Hk) Hrc].
  assert (Hm : moved sd b' = moved sd b + match pc with io_xfer => 1 | _ => 0 end).
  { unfold moved, b'. cbn [sb_ph sb_i sb_th]. rewrite Eph, Eth, on_side_eq, (mv_moved _ _ _ _ _ Hmv).
    destruct pc; cbn; lia. }
  assert (Ho : moved (other sd) b' = moved (other sd) b).
  { unfold moved, b'. cbn [sb_ph sb_i sb_th]. by rewrite on_side_ne by apply other_ne. }
  rewrite (moved_split (fun x => moved x b') sd), Hm, Ho. rewrite (moved_split (fun x => moved x b) sd) in Hk.
  pose proof (mv_queue _ _ _ _ _ Hmv) as Hq'. rewrite Hq in Hq'. split.
  - destruct (decide (pc = io_xfer)) as [-> | Hne].
    + destruct sd; cbn [other] in *.
      * destruct k as [| k]; [| exists k; split; [exact Hq' | lia]]. cbn in Hq.
        assert (must_wait Reader (sh_dev (sb_sh b)) = true) as Hw by (apply (must_wait_spec (U := U)); [apply Hc | apply Hc | done]).
        by rewrite (co_xfer _ _ _ Hc) in Hw.
      * exists (S k). split; [rewrite Hq'; symmetry; apply replicate_S_end | lia].
    + exists k. split; [rewrite Hq'; by destruct pc | destruct pc; (done || lia)].
  - destruct (decide (pc = io_xfer /\ sd = Reader)) as [[-> ->] | Hne]; [intros _; by apply (mv_rcvd _ _ _ _ _ Hmv) |].
    rewrite (mv_kept _ _ _ _ _ Hmv) by (destruct sd; [left | by right]; intros ->; by apply Hne). intros Hpos. apply Hrc.
    destruct sd; cbn [other] in *; [| lia]. destruct pc; try lia. by destruct Hne.
Qed.

Lemma call_step_inv b sd pc e :
  sb_inv b -> sb_ph b sd = InCall -> sb_th b sd = TIo (call_of msgsize ubuf sd) pc ->
  io_step Run (tid sd) (call_of msgsize ubuf sd) pc (sb_sh b) = Some e ->
  exists th' s', e = Done (th', s') /\
    let b' := SBench s' (on_side sd th' (sb_th b)) (sb_i b) (sb_ph b) in sb_inv b' /\ total b' < total b.
Proof.
  intros Hb Eph Eth Hst. pose proof (call_ok_of b sd pc Hb Eth Eph) as Hc.
  destruct (call_step sd pc (sb_sh b) e Hc Hst) as (pc' & s' & -> & Hmv).
  eexists _, _. split; [done |]. split; [| by eapply move_cost].
  destruct (move_queue b sd pc pc' s' Hb Eph Eth Hmv) as [Hq Hrc]. destruct Hb as [Hinv Hth Hsz Hmem _ _].
  assert (Hlk : threads (sys_of b) !! tid sd = Some (TIo (call_of msgsize ubuf sd) pc)) by (apply sys_of_lookup; by exists sd).
  split; cbn [sb_sh sb_th sb_i sb_ph]; try done; [| | apply Hmv | apply Hmv].
  - destruct (io_step_effect Run (tid sd) _ pc (sb_sh b) _ (co_dev _ _ _ Hc) (co_mode _ _ _ Hc) (inv_threads _ Hinv _ _ Hlk) Hst)
      as (th' & s1 & [= <- <-] & He & _).
    pose proof (step_effect_inv (sys_of b) (tid sd) _ _ s' Hinv Hlk He (effect_calm _ _ _ _ _ Hinv He eq_refl)) as Hi. by rewrite (sys_of_set b sd _ s' (sb_i b) (sb_ph b)) in Hi.
  - intros x. destruct (decide (x = sd)) as [-> | Hne].
    + rewrite on_side_eq. exists pc'. split; [done |]. rewrite Eph. destruct (Hth sd) as (pc0 & _ & H). rewrite Eph in H.
      split; [apply H |]. split; [apply (mv_past _ _ _ _ _ Hmv) | apply (mv_relock _ _ _ _ _ Hmv)].
    + rewrite on_side_ne by done. assert (x = other sd) as -> by (by destruct x, sd).
      destruct (Hth (other sd)) as (pc0 & E & H). exists pc0. split; [done |]. destruct (sb_ph b (other sd)); try done.
      destruct H as (Hi & Hp & Hr). split; [done |]. split; [done |]. intros Hpc. specialize (Hr Hpc).
      destruct (mv_peer _ _ _ _ _ Hmv) as [-> | ->]; done.
Qed.

(** The loop between two calls: nothing shared changes. *)
Lemma loop_step_inv b sd th i ph :
  sb_inv b -> inv (sys_of (put b sd th i ph)) ->
  (exists pc, th = TIo (call_of msgsize ubuf sd) pc /\
    match ph with
    | AtHead => 0 <= i <= nmsg /\ exists r, pc = io_ret r
    | InCall => 0 <= i < nmsg /\ (forall r, past th = Some r -> r = msgsize) /\
                (pc = io_relock -> must_wait sd (sh_dev (sb_sh b)) = false)
    | Left => i = nmsg /\ exists r, pc = io_ret r
    end) ->
  (match ph with InCall => i + Z.b2z (pastb th) | _ => i end) = moved sd b ->
  sb_inv (put b sd th i ph).
Proof.
  intros [Hinv Hth Hsz Hmem (k & Hq & Hk) Hrc] Hi Hsd Hmoved. set (b' := put _ _ _ _ _) in *.
  assert (Hm : forall x, moved x b' = moved x b).
  { intros x. unfold b', put. destruct (decide (x = sd)) as [-> | Hne].
    - unfold moved at 1. cbn [sb_ph sb_i sb_th]. by rewrite !on_side_eq.
    - unfold moved. cbn [sb_ph sb_i sb_th]. by rewrite !on_side_ne. }
  split; [done | | done | done | exists k; by rewrite !Hm | by rewrite Hm].
  intros x. unfold b', put. cbn [sb_sh sb_th sb_i sb_ph]. destruct (decide (x = sd)) as [-> | Hne].
  - rewrite !on_side_eq. exact Hsd.
  - rewrite !on_side_ne by done. apply Hth.
Qed.

Lemma loop_cost b sd th i ph :
  cost nmsg sd (put b sd th i ph) < cost nmsg sd b ->
  total (put b sd th i ph) < total b.
Proof.
  intros Hc. rewrite !(total_split _ sd).
  assert (E : cost nmsg (other sd) (put b sd th i ph)
              = cost nmsg (other sd) b); [| lia].
  unfold cost, put. cbn [sb_sh sb_th sb_i sb_ph]. by rewrite !on_side_ne by apply other_ne.
Qed.

Lemma cost_put b sd th i ph :
  cost nmsg sd (put b sd th i ph) =
  match ph with
  | AtHead => 40 * (nmsg - i) + 1
  | InCall => 40 * (nmsg - i - 1) + 2 + rank sd th (sb_sh b)
  | Left => 0
  end.
Proof. unfold cost, put. cbn [sb_sh sb_th sb_i sb_ph]. by rewrite !on_side_eq. Qed.

Lemma sys_of_put b sd th i ph : sys_of (put b sd th i ph) = Sys (<[tid sd := th]> (threads (sys_of b))) (sb_sh b).
Proof. by rewrite (sys_of_set b sd th (sb_sh b) (on_side sd i (sb_i b)) (on_side sd ph (sb_ph b))). Qed.

Lemma sys_of_same b sd i ph : sys_of (put b sd (sb_th b sd) i ph) = sys_of b.
Proof. rewrite sys_of_put, insert_id; [done |]. apply sys_of_lookup. by exists sd. Qed.

(** Every step goes well, keeps the invariant and costs something. *)
Lemma slot_step_inv b sd e :
  sb_inv b -> slot_step nmsg msgsize ubuf sd b = Some e -> exists b', e = Done b' /\ sb_inv b' /\ total b' < total b.
Proof.
  intros Hb Hst. pose proof (sv_inv b Hb) as Hinv. destruct (sv_th b Hb sd) as (pc & Eth & Hsd).
  assert (Hms : 0 < msgsize) by (pose proof (geo_b _ (proj1 (inv_dev _ Hinv))) as [? _]; rewrite <- (sv_size b Hb); cbn in *; lia).
  unfold slot_step in Hst. destruct (sb_ph b sd) eqn:Eph; [| | done].
  - destruct Hsd as (Hi & r & ->). injection Hst as <-. destruct (Z.ltb_spec (sb_i b sd) nmsg) as [Hlt | Hge].
    + eexists. split; [done |]. split; [apply loop_step_inv; [done | | | unfold moved; rewrite Eph; cbn; lia] |].
      * rewrite sys_of_put. apply call_inv; [done | | cbn; lia].
        intros th0 (x & Ex & ->)%sys_of_lookup. assert (x = sd) as -> by (by destruct x, sd). by rewrite Eth.
      * eexists. split; [done |]. split; [lia |]. by split.
      * apply loop_cost. rewrite cost_put. unfold cost. rewrite Eph. cbn. lia.
    + eexists. split; [done |]. split; [apply loop_step_inv; [done | by rewrite sys_of_same | | unfold moved; by rewrite Eph] |].
      * exists (io_ret r). split; [done |]. split; [lia | by eexists].
      * apply loop_cost. rewrite cost_put. unfold cost. rewrite Eph. lia.
  - destruct Hsd as (Hi & Hp & Hr).
    assert (Hcall : (forall r, pc <> io_ret r) -> exists b', e = Done b' /\ sb_inv b' /\ total b' < total b).
    { intros Hnr. destruct (io_step Run (tid sd) (call_of msgsize ubuf sd) pc (sb_sh b)) as [e0 |] eqn:Eio.
      - destruct (call_step_inv b sd pc e0 Hb Eph Eth Eio) as (th' & s' & -> & Hb' & Hc'). rewrite Eth in Hst.
        eexists. split; [| by split]. destruct pc; cbn [thread_step] in Hst; try (rewrite Eio in Hst; by injection Hst as <-).
        by destruct (Hnr r).
      - rewrite Eth in Hst. destruct pc; cbn [thread_step] in Hst; try (by rewrite Eio in Hst). by destruct (Hnr r). }
    destruct pc; try (by apply Hcall). rewrite Eth in Hst, Hp. assert (r = msgsize) as -> by (by apply Hp).
    rewrite Z.eqb_refl in Hst. injection Hst as <-. rewrite <- Eth. eexists. split; [done |]. split; [apply loop_step_inv; [done | by rewrite sys_of_same | |] |].
    + exists (io_ret msgsize). split; [done |]. split; [lia | by eexists].
    + unfold moved. rewrite Eph, Eth. cbn. lia.
    + apply loop_cost. rewrite cost_put. unfold cost. rewrite Eph, Eth. cbn. lia.
Qed.

Lemma sb_start_inv d u :
  dev_ok d -> mode d = KBUF_MODE_BLOCKING -> buffer_size d = msgsize -> dev_queue d = [] -> mem_ok u -> 0 <= nmsg ->
  sb_inv (sb_start msgsize ubuf d u).
Proof.
  intros Hok Hm Hb Hq Hmem Hn. pose proof (geo_b _ (proj1 Hok)) as Hpos. split; cbn [sb_start sb_sh sb_th sb_i sb_ph sh_dev sh_user]; try done.
  - split; cbn [sh sys_of sb_sh sb_start sh_dev sh_lock]; try done.
    + intros t th (sd & -> & ->)%sys_of_lookup. cbn. by split.
    + intros t th (sd & -> & ->)%sys_of_lookup. cbn. split; [lia |]. by split.
    + by intros t th sd (x & -> & ->)%sys_of_lookup.
  - intros sd. eexists. split; [done |]. split; [lia | by eexists].
  - by exists 0%nat.
Qed.

Lemma total_start d u : total (sb_start msgsize ubuf d u) = 80 * nmsg + 2.
Proof. unfold total, cost. cbn [sb_start sb_ph sb_i]. lia. Qed.

Lemma total_pos b : sb_inv b -> 0 <= total b.
Proof.
  intros Hb. assert (Hc : forall sd, 0 <= cost nmsg sd b); [| unfold total; pose proof (Hc Writer); pose proof (Hc Reader); lia].
  intros sd. destruct (sv_th b Hb sd) as (pc & Eth & Hsd). unfold cost. destruct (sb_ph b sd); [lia | | lia].
  rewrite Eth. cbn [rank]. assert (Hr : forall w q, 0 <= pc_rank pc w q) by (by intros [] []; destruct pc).
  specialize (Hr (must_wait sd (sh_dev (sb_sh b))) (queued sd (sb_sh b))). lia.
Qed.

Lemma sb_run_inv n b b' :
  sb_inv b -> sb_run nmsg msgsize ubuf n b b' -> sb_inv b' /\ Z.of_nat n + total b' <= total b.
Proof.
  intros Hb Hrun. induction Hrun as [b | n b b1 sd b2 Hrun IH Hst]; [split; [done | lia] |].
  destruct (IH Hb) as [Hb1 Hle]. destruct (slot_step_inv b1 sd _ Hb1 Hst) as (b' & [= <-] & Hb2 & Hlt). split; [done | lia].
Qed.

(** A process that cannot move has left its loop or sleeps for a good reason. *)
Lemma sb_stuck b sd :
  sb_inv b -> (forall x, slot_step nmsg msgsize ubuf x b = None) ->
  sb_ph b sd = Left \/
  (sb_ph b sd = InCall /\ sb_th b sd = TIo (call_of msgsize ubuf sd) io_asleep /\ must_wait sd (sh_dev (sb_sh b)) = true).
Proof.
  intros Hb Hst. pose proof (sv_inv b Hb) as Hinv.
  assert (Hthread : forall x, thread_step Run (tid x) (sb_th b x) (sb_sh b) = None).
  { intros x. specialize (Hst x). destruct (sv_th b Hb x) as (pc & Eth & Hx). unfold slot_step in Hst. rewrite Eth in Hst |- *.
    destruct (sb_ph b x); [done | | by destruct Hx as (_ & r & ->)].
    destruct pc; try done; cbn [thread_step] in *; by destruct (io_step _ _ _ _ _). }
  assert (Hstuck : stuck (sys_of b)).
  { intros t. unfold sys_next. destruct (threads (sys_of b) !! t) as [th |] eqn:E; [| done].
    apply sys_of_lookup in E as (x & -> & ->). cbn. by rewrite Hthread. }
  destruct (stuck_waits (sys_of b) Hinv Hstuck) as [_ Hw]. destruct (sv_th b Hb sd) as (pc & Eth & Hsd).
  specialize (Hst sd). unfold slot_step in Hst. destruct (sb_ph b sd); [done | | by left]. right. split; [done |].
  destruct (Hw (tid sd) (sb_th b sd)) as [Hf | [Hsl Hmw]]; [apply sys_of_lookup; by exists sd | |].
  - rewrite Eth in Hst, Hf. destruct pc; done.
  - rewrite Eth in Hsl, Hmw |- *. destruct pc; try done. split; [done |]. apply Hmw. cbn. by apply bool_decide_eq_true_2.
Qed.

(** How a transfer ends, for the theorems below and for whole runs. *)
Lemma slot_transfer_runs d u n b :
  dev_ok d -> mode d = KBUF_MODE_BLOCKING -> buffer_size d = msgsize -> dev_queue d = [] -> mem_ok u -> 0 <= nmsg ->
  sb_run nmsg msgsize ubuf n (sb_start msgsize ubuf d u) b ->
  Z.of_nat n <= 80 * nmsg + 2 /\
  (forall sd why, slot_step nmsg msgsize ubuf sd b <> Some (Oops why)) /\
  ((forall sd, slot_step nmsg msgsize ubuf sd b = None) ->
   (forall sd, sb_ph b sd = Left /\ sb_i b sd = nmsg) /\ dev_queue (sh_dev (sb_sh b)) = [] /\
   (0 < nmsg -> user_bytes (sh_user (sb_sh b)) (ubuf Reader) msgsize = Some blk)).
Proof.
  intros Hok Hm Hsz Hq Hmem Hn Hrun.
  destruct (sb_run_inv n _ b (sb_start_inv d u Hok Hm Hsz Hq Hmem Hn) Hrun) as [Hb Hle].
  split; [pose proof (total_pos b Hb); rewrite total_start in Hle; lia |]. split.
  - intros sd why Hst. by destruct (slot_step_inv b sd _ Hb Hst) as (b' & ? & _).
  - intros Hst. pose proof (sv_inv b Hb) as Hinv. pose proof (geo_n _ (proj1 (inv_dev _ Hinv))) as Hnb. cbn in Hnb.
    destruct (sv_queue b Hb) as (k & Hk & Hkm).
    assert (Hmw : forall x, must_wait x (sh_dev (sb_sh b)) = true -> match x with Reader => k = 0%nat | Writer => (0 < k)%nat end).
    { intros x Hx. apply (must_wait_spec (U := U)) in Hx; [| apply Hinv | apply Hinv]. rewrite Hk in Hx.
      destruct x; [by destruct k |]. rewrite length_replicate in Hx. lia. }
    assert (Hi : forall x, moved x b <= nmsg /\ (sb_ph b x = Left -> moved x b = nmsg /\ sb_i b x = nmsg) /\
                   (sb_th b x = TIo (call_of msgsize ubuf x) io_asleep -> moved x b < nmsg \/ sb_ph b x <> InCall)).
    { intros x. destruct (sv_th b Hb x) as (pc & Eth & Hx). unfold moved. rewrite Eth. destruct (sb_ph b x); destruct Hx as [Hx Hr].
      - split_and!; try done; try lia. right. done.
      - split_and!; try done; [destruct (pastb _); cbn; lia |]. intros [= ->]. left. cbn. lia.
      - split_and!; try done; try lia. by right. }
    pose proof (Hi Reader) as (Hr1 & Hr2 & Hr3). pose proof (Hi Writer) as (Hw1 & Hw2 & Hw3).
    assert (Hleft : sb_ph b Reader = Left /\ sb_ph b Writer = Left).
    { destruct (sb_stuck b Reader Hb Hst) as [ER | (PR & TR & WR)], (sb_stuck b Writer Hb Hst) as [EW | (PW & TW & WW)]; [done | ..]; exfalso.
      - apply Hmw in WW. destruct (Hr2 ER), (Hw3 TW); [lia | done].
      - apply Hmw in WR. destruct (Hw2 EW), (Hr3 TR); [lia | done].
      - apply Hmw in WR, WW. lia. }
    destruct Hleft as [ER EW]. destruct (Hr2 ER) as [HmR HiR], (Hw2 EW) as [HmW HiW].
    split; [by intros [] |]. split; [assert (k = 0%nat) as -> by lia; done |]. intros Hpos. apply (sv_rcvd b Hb). lia.
Qed.

(** C10: the transfer of the benchmark over a blocking ring always completes: from
    an empty ring with slots of the message's size every execution of the two
    processes is finite, of at most [80 * nmsg + 2] steps however they are
    scheduled; no step goes wrong; and when neither process can take a step, both
    have finished their loops with all [nmsg] messages sent and received, the ring
    is empty and the consumer's buffer holds the producer's message. *)
Theorem slot_transfer_completes d u n b :
  dev_ok d -> mode d = KBUF_MODE_BLOCKING -> buffer_size d = msgsize -> dev_queue d = [] -> mem_ok u -> 0 <= nmsg ->
  sb_run nmsg msgsize ubuf n (sb_start msgsize ubuf d u) b ->
  Z.of_nat n <= 80 * nmsg + 2 /\
  (forall sd why, slot_step nmsg msgsize ubuf sd b <> Some (Oops why)) /\
  ((forall sd, slot_step nmsg msgsize ubuf sd b = None) ->
   (forall sd, sb_ph b sd = Left /\ sb_i b sd = nmsg) /\ dev_queue (sh_dev (sb_sh b)) = [] /\
   (0 < nmsg -> user_bytes (sh_user (sb_sh b)) (ubuf Reader) msgsize = Some blk)).
Proof. apply slot_transfer_runs. Qed.
End facts.

(** ** A concrete transfer

    Three messages through two slots; the consumer moves whenever it can, so it
    sleeps on the empty ring before every message. *)
Section exec.
Context {U : Type} `{UAccess U} (nmsg msgsize : Z) (ubuf : side -> Z).

Fixpoint sb_auto (fuel : nat) (b : sbench U) : nat * sbench U :=
  match fuel with
  | O => (O, b)
  | S fuel' =>
    match slot_step nmsg msgsize ubuf Reader b, slot_step nmsg msgsize ubuf Writer b with
    | Some (Done b'), _ | None, Some (Done b') => let '(n, b2) := sb_auto fuel' b' in (S n, b2)
    | _, _ => (O, b)
    end
  end.

Lemma sb_run_cons sd b b1 n b2 :
  slot_step nmsg msgsize ubuf sd b = Some (Done b1) -> sb_run nmsg msgsize ubuf n b1 b2 -> sb_run nmsg msgsize ubuf (S n) b b2.
Proof.
  intros Hst Hrun. induction Hrun as [b1 | n b1 b2 sd' b3 Hrun IH Hst'].
  - eapply sbr_snoc; [constructor | exact Hst].
  - eapply sbr_snoc; [by apply IH | exact Hst'].
Qed.

Lemma sb_auto_run fuel b : sb_run nmsg msgsize ubuf (sb_auto fuel b).1 b (sb_auto fuel b).2.
Proof.
  revert b. induction fuel as [| fuel IH]; intros b; cbn [sb_auto]; [constructor |].
  destruct (slot_step nmsg msgsize ubuf Reader b) as [[b' |] |] eqn:E1; [| constructor |].
  - specialize (IH b'). destruct (sb_auto fuel b') as [n b2]. by eapply sb_run_cons.
  - destruct (slot_step nmsg msgsize ubuf Writer b) as [[b' |] |] eqn:E2; [| constructor..].
    specialize (IH b'). destruct (sb_auto fuel b') as [n b2]. by eapply sb_run_cons.
Qed.
End exec.

Definition bench_buf (sd : side) : Z := match sd with Writer => 100 | Reader => 200 end.
Definition bench_user : simuser := sim_put demo_user 200 [x00; x00; x00; x00].
Definition bench_run3 : nat * sbench simuser := sb_auto 3 4 bench_buf 242 (sb_start 4 bench_buf demo_dev bench_user).

Lemma slot_transfer_completes_witness :
  bench_run3.1 = 74%nat /\
  (forall sd, sb_ph bench_run3.2 sd = Left /\ sb_i bench_run3.2 sd = 3) /\
  read_sleeps (sh_dev (sb_sh bench_run3.2)) = 3 /\
  user_bytes (sh_user (sb_sh bench_run3.2)) 200 4 = Some [x61; x62; x63; x64].
Proof.
  destruct (slot_transfer_completes 3 4 bench_buf [x61; x62; x63; x64] ltac:(by left) eq_refl demo_dev bench_user
              bench_run3.1 bench_run3.2 demo_dev_ok eq_refl eq_refl eq_refl) as (_ & _ & Hend).
  { split; [by vm_compute |]. apply (bytes_accessible _ _ _ [x00; x00; x00; x00]); [by vm_compute | done]. }
  { done. } { apply sb_auto_run. }
  destruct Hend as (Hl & _ & Hu); [intros []; by vm_compute |].
  split; [by vm_compute |]. split; [exact Hl |]. split; [by vm_compute | by apply Hu].
Defined.
