(* ===== verification/BenchSpsc.v ===== *)
(** * BenchSpsc: the benchmark's transfers over a lock-free slot ring
    (bench/kbuf_bench.c)

    The loops of [run_once] for the transport T_SPSC, on the machine of Spsc.v:
    the calls take no lock, and their loads of the other side's index may return
    old values.  The transfer completes as it does over the blocking ring. *)

From S2P Require Import Prelude Kernel Uapi Device Alloc Mmap Ctl DmaBuf Ring RingFacts RingSpec RingProps Ioctl.
From S2P Require Import Machine MachineFacts MachineProps Spsc SpscFacts SpscProps Samples ClientProps BenchSlots BenchSlotsProps.
#[local] Open Scope Z_scope.

Record pbench (U : Type) := PBench {
  pb_sys : sp_sys U;
  pb_i : side -> Z;
  pb_ph : side -> phase
}.
Arguments PBench {U}.
Arguments pb_sys {U}.
Arguments pb_i {U}.
Arguments pb_ph {U}.

Section loops.
Context {U : Type} `{UAccess U}.
Context (nmsg msgsize : Z) (ubuf : side -> Z).

(** The next call of a side, which remembers what it has seen. *)
Definition again (sd : side) (σ : sp_sys U) : sp_sys U :=
  let th := sp_th σ sd in
  SpSys (on_side sd (SpThread (call_of msgsize ubuf sd) sp_clamp (st_coh th) (st_acq th)) (sp_th σ)) (sp_sh σ).

Definition pput (b : pbench U) (σ : sp_sys U) (sd : side) (i : Z) (ph : phase) : pbench U :=
  PBench σ (on_side sd i (pb_i b)) (on_side sd ph (pb_ph b)).

(** [c] is what the step's load returns, if it makes one. *)
Definition spsc_slot_step (c : pick) (sd : side) (b : pbench U) : option (exec (pbench U)) :=
  let i := pb_i b sd in
  match pb_ph b sd, st_pc (sp_th (pb_sys b) sd), c with
  | AtHead, _, Go =>
    Some (Done (if i <? nmsg then pput b (again sd (pb_sys b)) sd i InCall else pput b (pb_sys b) sd i Left))
  | InCall, sp_ret r, Go =>
    Some (Done (if r =? msgsize then pput b (pb_sys b) sd (i + 1) AtHead else pput b (pb_sys b) sd i Left))
  | InCall, sp_ret _, _ => None
  | InCall, _, (Go | See _) =>
    (fun e => exec_bind e (fun σ' => Done (PBench σ' (pb_i b) (pb_ph b)))) <$> sp_next c sd (pb_sys b)
  | _, _, _ => None
  end.

Definition pb_start (d : kbuf_dev) (u : U) : pbench U :=
  let σ := sp_start d u (call_of msgsize ubuf) in
  PBench (SpSys (fun sd => goto (sp_ret 0) (sp_th σ sd)) (sp_sh σ)) (fun _ => 0) (fun _ => AtHead).

Inductive pb_run : nat -> pbench U -> pbench U -> Prop :=
  | pbr_nil b : pb_run 0 b b
  | pbr_snoc n b b1 c sd b2 : pb_run n b b1 -> spsc_slot_step c sd b1 = Some (Done b2) -> pb_run (S n) b b2.

(** ** What a step costs

    [w]: what the side has seen of the other's index says that it must wait. *)
Definition sp_rank (pc : sp_pc) (w q : bool) : Z :=
  match pc with
  | sp_clamp => 31
  | sp_test => if w then 30 else 13
  | sp_wait => if w then 29 else 15
  | sp_prepare => 24
  | sp_recheck => if w then (if q then 23 else 26) else 16
  | sp_asleep => if q then 20 else 25
  | sp_slot => 12
  | sp_copy _ _ => 11
  | sp_publish _ _ => 10
  | sp_account _ => 9
  | sp_wake _ => 8
  | sp_ret _ => 0
  end.

Definition view_waits (sd : side) (th : sp_thread) (s : spshared U) : bool :=
  q_pub s sd =? st_coh th + off sd (q_dev s).

Definition pb_rank (sd : side) (th : sp_thread) (s : spshared U) : Z :=
  sp_rank (st_pc th) (view_waits sd th s) (q_wq s sd).

Definition pb_cost (sd : side) (b : pbench U) : Z :=
  match pb_ph b sd with
  | AtHead => 40 * (nmsg - pb_i b sd) + 1
  | InCall => 40 * (nmsg - pb_i b sd - 1) + 2 + pb_rank sd (sp_th (pb_sys b) sd) (sp_sh (pb_sys b))
  | Left => 0
  end.

(** Its index is stored. *)
Definition sp_past (pc : sp_pc) : bool :=
  match pc with sp_account _ | sp_wake _ | sp_ret _ => true | _ => false end.

Definition pb_moved (sd : side) (b : pbench U) : Z :=
  match pb_ph b sd with InCall => pb_i b sd + Z.b2z (sp_past (st_pc (sp_th (pb_sys b) sd))) | _ => pb_i b sd end.
End loops.
