(* ===== verification/BenchSpscProps.v ===== *)
(** * BenchSpscProps: the lock-free slot-ring benchmark always comes to its end *)

From S2P Require Import Prelude Kernel Uapi Device Alloc Mmap Ctl DmaBuf Ring RingFacts RingSpec RingProps Ioctl.
From S2P Require Import Machine MachineFacts MachineProps Spsc SpscFacts SpscProps Samples ClientProps BenchSlots BenchSlotsProps.
From S2P Require Import BenchSpsc.
#[local] Open Scope Z_scope.

Section facts.
Context {U : Type} {ua : UAccess U} {ual : UAccessLaws U}.
Context (nmsg msgsize : Z) (ubuf : side -> Z) (blk : list byte).
Implicit Types (s : spshared U) (σ : sp_sys U) (b : pbench U).

Context (Hapart : apart (ubuf Writer) msgsize (ubuf Reader) msgsize) (Hblk : Z.of_nat (length blk) = msgsize).

(** What a call has in hand after its copy. *)
Definition in_hand (sd : side) (pc : sp_pc) (u : U) : Prop :=
  match pc with
  | sp_publish n m => n = msgsize /\ m = blk /\ (sd = Reader -> user_bytes u (ubuf Reader) msgsize = Some blk)
  | sp_account n | sp_wake n | sp_ret n => n = msgsize
  | _ => True
  end.

(** One step of a call that has not returned. *)
Record sp_move (sd : side) (th th' : sp_thread) s s' : Prop := {
  pm_mem : mem_ok msgsize ubuf blk (q_user s');
  pm_io : st_io th' = st_io th;
  pm_rank : pb_rank sd th' s' + (match st_pc th with sp_wake _ => 5 | _ => 0 end) < pb_rank sd th s;
  pm_hand : in_hand sd (st_pc th') (q_user s');
  pm_moved : sp_past (st_pc th') = match st_pc th with sp_publish _ _ => true | pc => sp_past pc end;
  pm_wq : q_wq s' (other sd) = q_wq s (other sd) \/ exists r, st_pc th = sp_wake r;
  pm_kept : user_bytes (q_user s) (ubuf Reader) msgsize = Some blk -> user_bytes (q_user s') (ubuf Reader) msgsize = Some blk
}.

Record pcall_ok (sd : side) σ : Prop := {
  pc_inv : sp_inv σ;
  pc_io : st_io (sp_th σ sd) = call_of msgsize ubuf sd;
  pc_size : buffer_size (q_dev (sp_sh σ)) = msgsize;
  pc_mem : mem_ok msgsize ubuf blk (q_user (sp_sh σ));
  pc_queue : Forall (eq blk) (dev_queue (q_dev (sp_sh σ)));
  pc_hand : in_hand sd (st_pc (sp_th σ sd)) (q_user (sp_sh σ))
}.

(** The copy delivers or takes the message. *)
Lemma copy_move σ sd arr i e :
  pcall_ok sd σ -> st_pc (sp_th σ sd) = sp_copy arr i -> sp_step Go (sp_th σ sd) (sp_sh σ) = Some e ->
  exists s', e = Done (goto (sp_publish msgsize blk) (sp_th σ sd), s') /\ mem_ok msgsize ubuf blk (q_user s') /\
    q_wq s' = q_wq (sp_sh σ) /\
    (sd = Reader -> user_bytes (q_user s') (ubuf Reader) msgsize = Some blk) /\
    (sd = Writer -> q_user s' = q_user (sp_sh σ)).
Proof.
  intros [Hinv Hio Hsz [Hu Ha] Hq _] E Hst. destruct (sp_step_good σ sd Go e Hinv Hst) as (th1 & s1 & -> & _ & _).
  pose proof (v_th σ Hinv sd) as [_ _ _ Hv _ Hp Hpc]. rewrite E in Hp, Hpc. specialize (Hp eq_refl). destruct Hpc as [_ ->].
  pose proof (v_dev σ Hinv) as Hok. pose proof (v_mode σ Hinv) as Hm. destruct (sp_occupancy σ Hinv) as [Hocc Hb].
  pose proof (geo_b _ (proj1 Hok)) as Hpos. rewrite Hsz in Hpos.
  pose proof (slot_index σ sd Hinv) as Hsi. cbv zeta in Hsi. destruct (spsc_wf _ Hok Hm) as (Hg & Hp2 & Hn).
  rewrite spsc_slot_index in Hsi by done.
  unfold sp_step in Hst. rewrite E, Hio in Hst. cbn [call_of io_side] in Hst.
  destruct (negb _); [done |]. destruct (_ >? _); [done |]. injection Hst as Hst. unfold run_copy in Hst.
  cbn [call_of io_ubuf io_count] in Hst. rewrite <- Hsi in Hst. destruct sd; cbn [own_idx other off] in *.
  - assert (Hne : prod_idx (q_dev (sp_sh σ)) <> cons_idx (q_dev (sp_sh σ))).
    { intros Eq. rewrite Eq, Z.sub_diag in Hocc. change (u32 0) with 0 in Hocc. lia. }
    destruct (copy_reader (q_dev (sp_sh σ)) (q_user (sp_sh σ)) (q_trace (sp_sh σ)) (ubuf Reader) msgsize Hok Hm Hne ltac:(lia))
      as (r & u' & Hrun & Hr). rewrite Hrun in Hst. cbn [exec_bind] in Hst.
    assert (Hhead : forall m, staged Reader (q_dev (sp_sh σ)) m -> m = blk).
    { intros m [rest Hm']. rewrite Hm' in Hq. by apply Forall_cons in Hq as [<- _]. }
    destruct (ctu_run (q_user (sp_sh σ)) (ubuf Reader) blk msgsize Ha ltac:(lia)) as (u1 & Ec & Ha' & Hf & Hrb).
    destruct r as [[n m] |].
    + destruct Hr as (Hm1 & -> & Hc). apply Hhead in Hm1 as ->. rewrite Hblk, Z.min_id in Hst, Hc.
      rewrite take_ge, Ec in Hc by lia. injection Hc as <-. injection Hst as <- <-. eexists. split; [done |]. cbn.
      split; [| by rewrite Hblk in Hrb]. split; [| done]. rewrite <- Hu. apply user_bytes_ext. intros x Hx. apply Hf. unfold apart in Hapart. lia.
    + destruct Hr as (m & ->%Hhead & Hc). rewrite Hblk, Z.min_id, take_ge, Ec in Hc by lia. done.
  - destruct (copy_writer (q_dev (sp_sh σ)) (q_user (sp_sh σ)) (q_trace (sp_sh σ)) (ubuf Writer) msgsize Hok Hm) as (r & d' & Hrun & _ & _ & _ & Hr);
      [lia | lia |]. rewrite Hrun in Hst. cbn [exec_bind] in Hst. rewrite Hu in Hr. destruct r as [[n m] |]; [| done].
    destruct Hr as (-> & [= <-] & _). injection Hst as <- <-. eexists. split; [done |]. cbn. by split.
Qed.

(** A load that returns something newer can only end a wait. *)
Lemma view_test σ sd v :
  sp_inv σ -> let s := sp_sh σ in let th := sp_th σ sd in
  st_coh th <= v <= q_pub s (other sd) ->
  (if spsc_must_wait sd (seen sd v (q_dev s))
   then view_waits sd th s = true /\ (q_pub s sd =? v + off sd (q_dev s)) = true
   else (q_pub s sd =? v + off sd (q_dev s)) = false).
Proof.
  intros Hinv s th Hv. pose proof (wait_test σ sd v Hinv Hv) as Hw. cbv zeta in Hw. fold s in Hw.
  destruct (v_th σ Hinv sd) as [_ _ _ Hvs Hr _ _]. fold s th in Hvs, Hr.
  destruct (spsc_must_wait sd _).
  - assert (Hp : q_pub s sd = v + off sd (q_dev s)) by by apply Hw. split; [| by apply Z.eqb_eq].
    unfold view_waits. apply Z.eqb_eq. lia.
  - apply Z.eqb_neq. intros Hp. by apply Hw in Hp.
Qed.

(** A step that touches no message. *)
Lemma plain_move σ sd th' s' :
  pcall_ok sd σ -> st_io th' = call_of msgsize ubuf sd -> q_user s' = q_user (sp_sh σ) ->
  sp_past (st_pc (sp_th σ sd)) = false -> sp_past (st_pc th') = false ->
  (forall n m, st_pc (sp_th σ sd) <> sp_publish n m) -> (forall n m, st_pc th' <> sp_publish n m) ->
  q_wq s' (other sd) = q_wq (sp_sh σ) (other sd) -> pb_rank sd th' s' < pb_rank sd (sp_th σ sd) (sp_sh σ) ->
  sp_move sd (sp_th σ sd) th' (sp_sh σ) s'.
Proof.
  intros [Hinv Hio Hsz Hmem Hq Hh] Hio' Hu Hp Hp' Hnp Hnp' Hwq Hr. split; rewrite ?Hu, ?Hio; try done.
  - destruct (st_pc (sp_th σ sd)); try lia. done.
  - destruct (st_pc th'); try done. by destruct (Hnp' n m).
  - rewrite Hp'. destruct (st_pc (sp_th σ sd)); try done. by destruct (Hnp n m).
  - by left.
Qed.

(** The three tests of the wait. *)
Lemma wait_move σ sd v e :
  pcall_ok sd σ -> st_pc (sp_th σ sd) = sp_test \/ st_pc (sp_th σ sd) = sp_wait \/ st_pc (sp_th σ sd) = sp_recheck ->
  sp_step (See v) (sp_th σ sd) (sp_sh σ) = Some e ->
  exists th' s', e = Done (th', s') /\ sp_move sd (sp_th σ sd) th' (sp_sh σ) s'.
Proof.
  intros Hc E Hst. pose proof Hc as [Hinv Hio Hsz Hmem Hq Hh].
  destruct (load true v (sp_th σ sd) (sp_sh σ)) as [th1 |] eqn:El.
  2: { unfold sp_step in Hst. rewrite El in Hst. by destruct E as [E | [E | E]]; rewrite E in Hst. }
  destruct (load_inv true v (sp_th σ sd) (sp_sh σ) th1 sd ltac:(by rewrite Hio) El) as [-> Hv].
  pose proof (view_test σ sd v Hinv Hv) as Ht. cbv zeta in Ht. rewrite Hio in El.
  unfold sp_step in Hst. rewrite Hio in Hst. cbn [call_of io_side io_nonblock] in Hst.
  assert (Hoff : off sd (count_sleep sd (q_dev (sp_sh σ))) = off sd (q_dev (sp_sh σ))) by (by destruct sd).
  destruct E as [E | [E | E]]; rewrite E, El in Hst; cbn [fmap option_fmap option_map] in Hst;
    destruct (spsc_must_wait sd _); injection Hst as <-; (eexists _, _; split; [done |]);
    apply plain_move; rewrite ?E; try done; try (cbn; by rewrite on_side_other); unfold pb_rank; rewrite E;
    lazymatch type of Ht with
    | _ /\ _ => destruct Ht as [Hw Hp]; rewrite Hw
    | _ => destruct (view_waits sd (sp_th σ sd) (sp_sh σ))
    end;
    unfold view_waits; cbn [st_pc goto sp_rank st_coh q_pub q_dev set_field set_q_dev set_q_wq]; rewrite ?Hoff, ?Ht, ?Hp;
    try done; by destruct (q_wq (sp_sh σ) sd).
Qed.

Lemma call_move σ sd c e :
  pcall_ok sd σ -> c <> Sig -> (forall r, st_pc (sp_th σ sd) <> sp_ret r) -> sp_step c (sp_th σ sd) (sp_sh σ) = Some e ->
  exists th' s', e = Done (th', s') /\ sp_move sd (sp_th σ sd) th' (sp_sh σ) s'.
Proof.
  intros Hc Hns Hnr Hst. pose proof Hc as [Hinv Hio Hsz Hmem Hq Hh].
  pose proof (geo_b _ (proj1 (v_dev σ Hinv))) as Hpos. rewrite Hsz in Hpos.
  destruct (st_pc (sp_th σ sd)) eqn:E.
  all: destruct c as [| v |]; [| |done]; try (unfold sp_step in Hst; rewrite E in Hst; done).
  all: try (by apply (wait_move σ sd v e); [done | rewrite E; tauto | done]).
  all: try (destruct (copy_move σ sd arr i e Hc E Hst) as (s' & -> & Hm' & Hwq' & Hr' & Hw')).
  all: try (unfold sp_step in Hst; rewrite E, Hio in Hst; cbn [call_of io_side io_count io_nonblock io_ubuf] in Hst).
  - replace (match sd with Reader => _ | Writer => _ end) with (call_of msgsize ubuf sd) in Hst
      by (destruct sd; [done |]; rewrite Hsz; by destruct (Z.gtb_spec msgsize msgsize); [lia |]).
    injection Hst as <-. eexists _, _. split; [done |]. apply plain_move; rewrite ?E; try done.
    unfold pb_rank. rewrite E. cbn. by destruct (view_waits _ _ _).
  - injection Hst as <-. eexists _, _. split; [done |]. apply plain_move; rewrite ?E; try done; [cbn; by rewrite on_side_other |].
    unfold pb_rank. rewrite E. cbn. rewrite on_side_eq. by destruct (view_waits _ _ _).
  - destruct (q_wq (sp_sh σ) sd) eqn:Eq; [done |]. injection Hst as <-. eexists _, _. split; [done |].
    apply plain_move; rewrite ?E; try done. unfold pb_rank. by rewrite E, Eq.
  - destruct (geo_slots _ (proj1 (v_dev σ Hinv))) as (sa & Hsl & _). rewrite Hsl in Hst.
    injection Hst as <-. eexists _, _. split; [done |]. apply plain_move; rewrite ?E; try done. unfold pb_rank. by rewrite E.
  - eexists _, _. split; [done |]. split; rewrite ?E; try done; [unfold pb_rank; by rewrite E | left; by rewrite Hwq' |].
    intros Hold. destruct sd; [by apply Hr' | by rewrite Hw'].
  - destruct Hh as (-> & -> & _). injection Hst as <-. eexists _, _. split; [done |].
    split; rewrite ?E; try done; [unfold pb_rank; by rewrite E | by left].
  - cbn in Hh. subst n. destruct (load false v (sp_th σ sd) (sp_sh σ)) as [th1 |] eqn:El; [| done].
    destruct (load_inv false v (sp_th σ sd) (sp_sh σ) th1 sd ltac:(by rewrite Hio) El) as [-> _].
    cbn [fmap option_fmap option_map] in Hst. destruct (spsc_account _ _ _ _) as [d' ev]. injection Hst as <-.
    rewrite (proj2 (Z.leb_le 0 msgsize)) by lia. eexists _, _. split; [done |].
    split; rewrite ?E; try done; [unfold pb_rank; by rewrite E | by left].
  - cbn in Hh. subst r. injection Hst as <-. eexists _, _. split; [done |].
    split; rewrite ?E; try done; [unfold pb_rank; by rewrite E | right; by eexists].
Qed.

(** ** The invariant *)
Record pb_inv b : Prop := {
  pv_inv : sp_inv (pb_sys b);
  pv_io sd : st_io (sp_th (pb_sys b) sd) = call_of msgsize ubuf sd;
  pv_ph sd : match pb_ph b sd with
             | AtHead => 0 <= pb_i b sd <= nmsg /\ exists r, st_pc (sp_th (pb_sys b) sd) = sp_ret r
             | InCall => 0 <= pb_i b sd < nmsg /\ in_hand sd (st_pc (sp_th (pb_sys b) sd)) (q_user (sp_sh (pb_sys b)))
             | Left => pb_i b sd = nmsg /\ exists r, st_pc (sp_th (pb_sys b) sd) = sp_ret r
             end;
  pv_size : buffer_size (q_dev (sp_sh (pb_sys b))) = msgsize;
  pv_mem : mem_ok msgsize ubuf blk (q_user (sp_sh (pb_sys b)));
  pv_queue : exists k, dev_queue (q_dev (sp_sh (pb_sys b))) = replicate k blk /\
                       Z.of_nat k = pb_moved Writer b - pb_moved Reader b;
  pv_rcvd : 0 < pb_moved Reader b -> user_bytes (q_user (sp_sh (pb_sys b))) (ubuf Reader) msgsize = Some blk
}.

Definition pb_total b : Z := pb_cost nmsg Writer b + pb_cost nmsg Reader b.

Lemma pb_total_split b sd : pb_total b = pb_cost nmsg sd b + pb_cost nmsg (other sd) b.
Proof. unfold pb_total. destruct sd; cbn [other]; lia. Qed.

Lemma sp_rank_peer pc w q q' : sp_rank pc w q' <= sp_rank pc w q + (if eqb q' q then 0 else 5).
Proof. destruct pc, w, q, q'; done. Qed.

(** The mover pays for its step and for what the peer has to do again. *)
Lemma pb_move_cost b sd th' s' :
  pb_ph b sd = InCall -> sp_move sd (sp_th (pb_sys b) sd) th' (sp_sh (pb_sys b)) s' ->
  sp_effect sd (sp_th (pb_sys b) sd) (sp_th (pb_sys b) (other sd)) th' (sp_sh (pb_sys b)) s' ->
  pb_total (PBench (SpSys (on_side sd th' (sp_th (pb_sys b))) s') (pb_i b) (pb_ph b)) < pb_total b.
Proof.
  intros Eph Hmv He. rewrite !(pb_total_split _ sd). unfold pb_cost. cbn [pb_sys pb_i pb_ph sp_th sp_sh].
  rewrite on_side_eq, on_side_other, Eph. pose proof (pm_rank _ _ _ _ _ Hmv) as Hr.
  set (thp := sp_th (pb_sys b) (other sd)) in *.
  assert (Hw : view_waits (other sd) thp s' = view_waits (other sd) thp (sp_sh (pb_sys b))).
  { unfold view_waits. rewrite (ef_peer _ _ _ _ _ _ He). f_equal. f_equal.
    pose proof (sc_n _ _ (sr_conf _ _ (ef_ring _ _ _ _ _ _ He))) as Hn. destruct sd; cbn; [exact Hn | done]. }
  assert (Hp : pb_rank (other sd) thp s' <= pb_rank (other sd) thp (sp_sh (pb_sys b)) +
                 match st_pc (sp_th (pb_sys b) sd) with sp_wake _ => 5 | _ => 0 end).
  { unfold pb_rank. rewrite Hw.
    pose proof (sp_rank_peer (st_pc thp) (view_waits (other sd) thp (sp_sh (pb_sys b)))
                  (q_wq (sp_sh (pb_sys b)) (other sd)) (q_wq s' (other sd))) as Hle.
    destruct (pm_wq _ _ _ _ _ Hmv) as [E | [r E]]; [rewrite E, eqb_reflx in Hle; rewrite E; destruct (st_pc (sp_th _ sd)); lia |].
    rewrite E. destruct (eqb _ _); lia. }
  destruct (pb_ph b (other sd)); destruct (st_pc (sp_th (pb_sys b) sd)); lia.
Qed.

Lemma pcall_of b sd : pb_inv b -> pb_ph b sd = InCall -> pcall_ok sd (pb_sys b).
Proof.
  intros [Hinv Hio Hph Hsz Hmem (k & Hq & _) _] E. specialize (Hph sd). rewrite E in Hph. split; try done; [| apply Hph].
  rewrite Hq. by apply Forall_replicate.
Qed.

(** The ring and the buffer after a step. *)
Lemma pb_move_queue b sd th' s' :
  pb_inv b -> pb_ph b sd = InCall -> sp_move sd (sp_th (pb_sys b) sd) th' (sp_sh (pb_sys b)) s' ->
  dev_queue (q_dev (sp_sh (pb_sys b))) ++ sent (sp_events (sp_th (pb_sys b) sd))
    = received (sp_events (sp_th (pb_sys b) sd)) ++ dev_queue (q_dev s') ->
  let b' := PBench (SpSys (on_side sd th' (sp_th (pb_sys b))) s') (pb_i b) (pb_ph b) in
  (exists k, dev_queue (q_dev s') = replicate k blk /\ Z.of_nat k = pb_moved Writer b' - pb_moved Reader b') /\
  (0 < pb_moved Reader b' -> user_bytes (q_user s') (ubuf Reader) msgsize = Some blk).
Proof.
  intros Hb Eph Hmv Hq' b'. pose proof (pcall_of b sd Hb Eph) as Hc. pose proof (pv_queue b Hb) as (k & Hq & Hk).
  pose proof (pc_hand _ _ Hc) as Hh. set (pc := st_pc (sp_th (pb_sys b) sd)) in *.
  assert (Hm : pb_moved sd b' = pb_moved sd b + match pc with sp_publish _ _ => 1 | _ => 0 end).
  { unfold pb_moved, b'. cbn [pb_ph pb_i pb_sys sp_th]. rewrite Eph, on_side_eq, (pm_moved _ _ _ _ _ Hmv). fold pc.
    destruct pc; cbn; lia. }
  assert (Ho : pb_moved (other sd) b' = pb_moved (other sd) b).
  { unfold pb_moved, b'. cbn [pb_ph pb_i pb_sys sp_th]. by rewrite on_side_other. }
  rewrite (moved_split (fun x => pb_moved x b') sd), Hm, Ho. rewrite (moved_split (fun x => pb_moved x b) sd) in Hk.
  rewrite Hq in Hq'. unfold sp_events in Hq'. rewrite (pc_io _ _ Hc) in Hq'. cbn [call_of io_side] in Hq'. fold pc in Hq'.
  destruct pc as [| | | | | | | arr i | n m | n | r | r]; cbn [in_hand] in Hh.
  9: { destruct Hh as (_ & -> & Hr). destruct sd; cbn [other] in *.
       - cbn in Hq'. rewrite app_nil_r in Hq'. split; [| intros _; by apply (pm_kept _ _ _ _ _ Hmv), Hr].
         destruct k as [| k]; [done |]. injection Hq' as Hq'. exists k. split; [done | lia].
       - cbn in Hq'. split; [exists (S k); split; [rewrite <- Hq'; symmetry; apply replicate_S_end | lia] |].
         intros Hpos. apply (pm_kept _ _ _ _ _ Hmv), (pv_rcvd b Hb). lia. }
  all: cbn in Hq'; rewrite app_nil_r in Hq'; split; [exists k; split; [done | lia] |];
    intros Hpos; apply (pm_kept _ _ _ _ _ Hmv), (pv_rcvd b Hb); destruct sd; cbn [other] in *; lia.
Qed.

Lemma pcall_step_inv b sd c e :
  pb_inv b -> pb_ph b sd = InCall -> c <> Sig -> (forall r, st_pc (sp_th (pb_sys b) sd) <> sp_ret r) ->
  sp_next c sd (pb_sys b) = Some e ->
  exists σ', e = Done σ' /\ pb_inv (PBench σ' (pb_i b) (pb_ph b)) /\ pb_total (PBench σ' (pb_i b) (pb_ph b)) < pb_total b.
Proof.
  intros Hb Eph Hc Hnr Hn. pose proof (pcall_of b sd Hb Eph) as Hcall. unfold sp_next in Hn.
  destruct (sp_step c (sp_th (pb_sys b) sd) (sp_sh (pb_sys b))) as [e0 |] eqn:Hst; [| done].
  destruct (sp_step_good _ sd c e0 (pv_inv b Hb) Hst) as (th' & s' & -> & He & Hq).
  destruct (call_move _ sd c _ Hcall Hc Hnr Hst) as (th1 & s1 & [= <- <-] & Hmv).
  cbn in Hn. injection Hn as <-. eexists. split; [done |]. split; [| by apply pb_move_cost].
  destruct (pb_move_queue b sd th' s' Hb Eph Hmv Hq) as [Hq' Hrc].
  split; cbn [pb_sys pb_i pb_ph sp_th sp_sh]; try done.
  - by apply sp_effect_inv, He; apply pv_inv.
  - intros x. destruct (decide (x = sd)) as [-> | Hne]; [rewrite on_side_eq, (pm_io _ _ _ _ _ Hmv) | rewrite on_side_ne by done]; apply pv_io, Hb.
  - intros x. pose proof (pv_ph b Hb x) as Hx. destruct (decide (x = sd)) as [-> | Hne].
    + rewrite on_side_eq. rewrite Eph in Hx |- *. split; [apply Hx | apply (pm_hand _ _ _ _ _ Hmv)].
    + rewrite on_side_ne by done. destruct (pb_ph b x); try done. destruct Hx as [Hi Hh]. split; [done |].
      destruct (st_pc (sp_th (pb_sys b) x)); try done. destruct Hh as (? & ? & Hr). split_and!; try done.
      intros Ex. by apply (pm_kept _ _ _ _ _ Hmv), Hr.
  - rewrite (sc_b _ _ (sr_conf _ _ (ef_ring _ _ _ _ _ _ He))). apply pv_size, Hb.
  - apply (pm_mem _ _ _ _ _ Hmv).
Qed.

(** The loop between two calls. *)
Lemma ploop_step_inv b σ' sd i ph :
  pb_inv b -> sp_inv σ' -> sp_sh σ' = sp_sh (pb_sys b) -> (forall x, x <> sd -> sp_th σ' x = sp_th (pb_sys b) x) ->
  st_io (sp_th σ' sd) = call_of msgsize ubuf sd ->
  match ph with
  | AtHead => 0 <= i <= nmsg /\ exists r, st_pc (sp_th σ' sd) = sp_ret r
  | InCall => 0 <= i < nmsg /\ in_hand sd (st_pc (sp_th σ' sd)) (q_user (sp_sh σ'))
  | Left => i = nmsg /\ exists r, st_pc (sp_th σ' sd) = sp_ret r
  end ->
  pb_moved sd (pput b σ' sd i ph) = pb_moved sd b -> pb_cost nmsg sd (pput b σ' sd i ph) < pb_cost nmsg sd b ->
  pb_inv (pput b σ' sd i ph) /\ pb_total (pput b σ' sd i ph) < pb_total b.
Proof.
  intros [Hinv Hio Hph Hsz Hmem (k & Hq & Hk) Hrc] Hi Hsh Hth Hio' Hsd Hmv Hc.
  assert (Hm : forall x, pb_moved x (pput b σ' sd i ph) = pb_moved x b).
  { intros x. destruct (decide (x = sd)) as [-> | Hne]; [done |]. unfold pb_moved, pput. cbn [pb_ph pb_i pb_sys].
    by rewrite !on_side_ne, Hth. }
  split.
  - split; [done | | | | | exists k |]; rewrite ?Hm; cbn [pput pb_sys pb_i pb_ph]; rewrite ?Hsh; try done.
    + intros x. destruct (decide (x = sd)) as [-> | Hne]; [done |]. by rewrite Hth.
    + intros x. destruct (decide (x = sd)) as [-> | Hne]; [rewrite !on_side_eq, <- Hsh; exact Hsd |].
      rewrite !on_side_ne, Hth by done. apply Hph.
  - rewrite !(pb_total_split _ sd).
    assert (E : pb_cost nmsg (other sd) (pput b σ' sd i ph) = pb_cost nmsg (other sd) b); [| lia].
    unfold pb_cost, pput. cbn [pb_sys pb_i pb_ph]. by rewrite !on_side_other, Hsh, Hth by apply other_ne.
Qed.

Lemma cost_pput b σ' sd i ph :
  pb_cost nmsg sd (pput b σ' sd i ph) =
  match ph with
  | AtHead => 40 * (nmsg - i) + 1
  | InCall => 40 * (nmsg - i - 1) + 2 + pb_rank sd (sp_th σ' sd) (sp_sh σ')
  | Left => 0
  end.
Proof. unfold pb_cost, pput. cbn [pb_sys pb_i pb_ph]. by rewrite !on_side_eq. Qed.

Lemma moved_pput b σ' sd i ph :
  pb_moved sd (pput b σ' sd i ph) = match ph with InCall => i + Z.b2z (sp_past (st_pc (sp_th σ' sd))) | _ => i end.
Proof. unfold pb_moved, pput. cbn [pb_sys pb_i pb_ph]. by rewrite !on_side_eq. Qed.

Lemma again_inv b sd r :
  pb_inv b -> st_pc (sp_th (pb_sys b) sd) = sp_ret r -> sp_inv (again msgsize ubuf sd (pb_sys b)).
Proof.
  intros Hb E. pose proof (geo_b _ (proj1 (v_dev _ (pv_inv b Hb)))) as Hpos. rewrite (pv_size b Hb) in Hpos.
  refine (proj1 (sp_sys_step_inv _ [] _ (pv_inv b Hb) (sps_call (pb_sys b) sd r (call_of msgsize ubuf sd) E _))).
  split; [done | cbn; lia].
Qed.

(** Every step goes well, keeps the invariant and costs something. *)
Lemma pb_step_inv b c sd e :
  pb_inv b -> spsc_slot_step nmsg msgsize ubuf c sd b = Some e -> exists b', e = Done b' /\ pb_inv b' /\ pb_total b' < pb_total b.
Proof.
  intros Hb Hst. pose proof (pv_ph b Hb sd) as Hsd. unfold spsc_slot_step in Hst. destruct (pb_ph b sd) eqn:Eph; [| | done].
  - destruct Hsd as (Hi & r & Er). destruct c; try done. injection Hst as <-. destruct (Z.ltb_spec (pb_i b sd) nmsg) as [Hlt | Hge];
      (eexists; split; [done |]); apply ploop_step_inv; try done; rewrite ?moved_pput, ?cost_pput; unfold pb_moved, pb_cost; rewrite ?Eph;
      cbn [again sp_th sp_sh]; rewrite ?on_side_eq; cbn; try lia.
    + by apply (again_inv b sd r).
    + intros x Hne. by apply on_side_ne.
    + done.
    + by apply pv_inv.
    + apply pv_io, Hb.
    + split; [lia | by eexists].
  - destruct Hsd as (Hi & Hh).
    assert (Hcall : (forall r, st_pc (sp_th (pb_sys b) sd) <> sp_ret r) -> c <> Sig -> 
       (fun e => exec_bind e (fun σ' => Done (PBench σ' (pb_i b) (pb_ph b)))) <$> sp_next c sd (pb_sys b) = Some e ->
       exists b', e = Done b' /\ pb_inv b' /\ pb_total b' < pb_total b).
    { intros Hnr Hns Hn. destruct (sp_next c sd (pb_sys b)) as [e0 |] eqn:En; [| done].
      destruct (pcall_step_inv b sd c e0 Hb Eph Hns Hnr En) as (σ' & -> & Hb' & Hc'). cbn in Hn. injection Hn as <-. by eexists. }
    destruct (st_pc (sp_th (pb_sys b) sd)) as [| | | | | | | | | | | r] eqn:Er; try (destruct c; [by apply Hcall | by apply Hcall | done]).
    cbn in Hh. subst r. rewrite Z.eqb_refl in Hst. destruct c; try done. injection Hst as <-. eexists. split; [done |].
    apply ploop_step_inv; try done; rewrite ?moved_pput, ?cost_pput; unfold pb_moved, pb_cost, pb_rank; rewrite ?Eph, ?Er; cbn; try lia.
    + by apply pv_inv.
    + apply pv_io, Hb.
    + split; [lia | by eexists].
Qed.

Lemma pb_start_inv d u :
  dev_ok d -> mode d = KBUF_MODE_SPSC -> buffer_size d = msgsize -> dev_queue d = [] -> mem_ok msgsize ubuf blk u -> 0 <= nmsg ->
  pb_inv (pb_start msgsize ubuf d u).
Proof.
  intros Hok Hm Hsz Hq Hmem Hn. pose proof (geo_b _ (proj1 Hok)) as Hpos.
  assert (Hs : sp_inv (sp_start d u (call_of msgsize ubuf))) by (apply sp_start_inv; [done | done |]; split; [done | cbn; lia]).
  split; cbn [pb_start pb_sys pb_i pb_ph sp_th sp_sh]; try done.
  - destruct Hs as [Hd Hmo Hix Hrg Hth Hst Hvw]. split; cbn [sp_th sp_sh]; try done. intros sd. destruct (Hth sd). by split.
  - intros sd. split; [lia | by eexists].
  - by exists 0%nat.
Qed.

Lemma pb_total_pos b : pb_inv b -> 0 <= pb_total b.
Proof.
  intros Hb. assert (Hc : forall sd, 0 <= pb_cost nmsg sd b); [| unfold pb_total; pose proof (Hc Writer); pose proof (Hc Reader); lia].
  intros sd. pose proof (pv_ph b Hb sd) as Hsd. unfold pb_cost. destruct (pb_ph b sd); [lia | | lia]. unfold pb_rank.
  assert (Hr : forall pc w q, 0 <= sp_rank pc w q) by (by intros [] [] []).
  specialize (Hr (st_pc (sp_th (pb_sys b) sd)) (view_waits sd (sp_th (pb_sys b) sd) (sp_sh (pb_sys b))) (q_wq (sp_sh (pb_sys b)) sd)). lia.
Qed.

Lemma pb_run_inv n b b' :
  pb_inv b -> pb_run nmsg msgsize ubuf n b b' -> pb_inv b' /\ Z.of_nat n + pb_total b' <= pb_total b.
Proof.
  intros Hb Hrun. induction Hrun as [b | n b b1 c sd b2 Hrun IH Hst]; [split; [done | lia] |].
  destruct (IH Hb) as [Hb1 Hle]. destruct (pb_step_inv b1 c sd _ Hb1 Hst) as (b' & [= <-] & Hb2 & Hlt). split; [done | lia].
Qed.

(** A process that cannot move has left its loop or sleeps for a good reason. *)
Lemma pb_stuck b sd :
  pb_inv b -> (forall c x, spsc_slot_step nmsg msgsize ubuf c x b = None) ->
  pb_ph b sd = Left \/
  (pb_ph b sd = InCall /\ st_pc (sp_th (pb_sys b) sd) = sp_asleep /\ sp_waits sd (q_dev (sp_sh (pb_sys b)))).
Proof.
  intros Hb Hst. pose proof (pv_inv b Hb) as Hinv.
  assert (Hcall : forall x, pb_ph b x = InCall -> forall r, st_pc (sp_th (pb_sys b) x) <> sp_ret r).
  { intros x Ex r Er. specialize (Hst Go x). unfold spsc_slot_step in Hst. by rewrite Ex, Er in Hst. }
  assert (Hstuck : sp_stuck (pb_sys b)).
  { intros x c Hc. pose proof (Hst c x) as Hx. pose proof (Hst Go x) as Hgo. unfold spsc_slot_step in Hx, Hgo. pose proof (pv_ph b Hb x) as Hp.
    destruct (pb_ph b x) eqn:Ex; [done | | destruct Hp as (_ & r & Er); unfold sp_next, sp_step; by rewrite Er].
    specialize (Hcall x Ex). destruct (st_pc (sp_th (pb_sys b) x)) as [| | | | | | | | | | | r] eqn:Er;
      destruct c as [| v |]; try done; by destruct (sp_next _ x (pb_sys b)). }
  destruct (pb_ph b sd) eqn:Ex; [| right | by left].
  { specialize (Hst Go sd). unfold spsc_slot_step in Hst. by rewrite Ex in Hst. }
  split; [done |]. destruct (sp_blocked _ sd Hinv Hstuck) as [[r E] | [E Hq]]; [by destruct (Hcall sd Ex r) |].
  split; [done |]. pose proof (to_pc _ _ _ _ (v_th _ Hinv sd)) as Hto. rewrite E in Hto.
  destruct (Hto Hq) as [Hp | Hw]; [by apply sp_waits_pub |].
  unfold waking in Hw. by destruct (sp_blocked _ (other sd) Hinv Hstuck) as [[r Eo] | [Eo _]]; rewrite Eo in Hw.
Qed.

(** How a transfer ends, for the theorems below and for whole runs. *)
Lemma spsc_transfer_runs d u n b :
  dev_ok d -> mode d = KBUF_MODE_SPSC -> buffer_size d = msgsize -> dev_queue d = [] -> mem_ok msgsize ubuf blk u -> 0 <= nmsg ->
  pb_run nmsg msgsize ubuf n (pb_start msgsize ubuf d u) b ->
  Z.of_nat n <= 80 * nmsg + 2 /\
  (forall c sd why, spsc_slot_step nmsg msgsize ubuf c sd b <> Some (Oops why)) /\
  ((forall c sd, spsc_slot_step nmsg msgsize ubuf c sd b = None) ->
   (forall sd, pb_ph b sd = Left /\ pb_i b sd = nmsg) /\ dev_queue (q_dev (sp_sh (pb_sys b))) = [] /\
   (0 < nmsg -> user_bytes (q_user (sp_sh (pb_sys b))) (ubuf Reader) msgsize = Some blk)).
Proof.
  intros Hok Hm Hsz Hq Hmem Hn Hrun.
  destruct (pb_run_inv n _ b (pb_start_inv d u Hok Hm Hsz Hq Hmem Hn) Hrun) as [Hb Hle].
  assert (Hstart : pb_total (pb_start msgsize ubuf d u) = 80 * nmsg + 2) by (unfold pb_total, pb_cost; cbn [pb_start pb_ph pb_i]; lia).
  split; [pose proof (pb_total_pos b Hb); lia |]. split.
  - intros c sd why Hst. by destruct (pb_step_inv b c sd _ Hb Hst) as (b' & ? & _).
  - intros Hst. pose proof (geo_n _ (proj1 (v_dev _ (pv_inv b Hb)))) as Hnb. destruct (pv_queue b Hb) as (k & Hk & Hkm).
    assert (Hw : forall x, sp_waits x (q_dev (sp_sh (pb_sys b))) -> match x with Reader => k = 0%nat | Writer => (0 < k)%nat end).
    { intros [] Hx; cbn in Hx; rewrite Hk in Hx; [by destruct k |]. rewrite length_replicate in Hx. lia. }
    assert (Hi : forall x, pb_moved x b <= nmsg /\ (pb_ph b x = Left -> pb_moved x b = nmsg /\ pb_i b x = nmsg) /\
                   (pb_ph b x = InCall -> st_pc (sp_th (pb_sys b) x) = sp_asleep -> pb_moved x b < nmsg)).
    { intros x. pose proof (pv_ph b Hb x) as Hx. unfold pb_moved. destruct (pb_ph b x); destruct Hx as [Hx Hr]; split_and!; try done; try lia.
      - destruct (sp_past _); cbn; lia.
      - intros _ ->. cbn. lia. }
    pose proof (Hi Reader) as (Hr1 & Hr2 & Hr3). pose proof (Hi Writer) as (Hw1 & Hw2 & Hw3).
    assert (Hleft : pb_ph b Reader = Left /\ pb_ph b Writer = Left).
    { destruct (pb_stuck b Reader Hb Hst) as [ER | (PR & TR & WR)], (pb_stuck b Writer Hb Hst) as [EW | (PW & TW & WW)]; [done | ..]; exfalso.
      - apply Hw in WW. destruct (Hr2 ER). specialize (Hw3 PW TW). lia.
      - apply Hw in WR. destruct (Hw2 EW). specialize (Hr3 PR TR). lia.
      - apply Hw in WR, WW. lia. }
    destruct Hleft as [ER EW]. destruct (Hr2 ER) as [HmR HiR], (Hw2 EW) as [HmW HiW].
    split; [by intros [] |]. split; [assert (k = 0%nat) as -> by lia; done |]. intros Hpos. apply (pv_rcvd b Hb). lia.
Qed.

(** The same over a lock-free ring, where the tests read indices without a lock
    and may see old values: every execution of the benchmark's two processes has
    at most [80 * nmsg + 2] steps, whatever values the loads return; no step goes
    wrong or races; and when neither process can take a step, all [nmsg] messages
    are sent and received. *)
Theorem spsc_transfer_completes d u n b :
  dev_ok d -> mode d = KBUF_MODE_SPSC -> buffer_size d = msgsize -> dev_queue d = [] -> mem_ok msgsize ubuf blk u -> 0 <= nmsg ->
  pb_run nmsg msgsize ubuf n (pb_start msgsize ubuf d u) b ->
  Z.of_nat n <= 80 * nmsg + 2 /\
  (forall c sd why, spsc_slot_step nmsg msgsize ubuf c sd b <> Some (Oops why)) /\
  ((forall c sd, spsc_slot_step nmsg msgsize ubuf c sd b = None) ->
   (forall sd, pb_ph b sd = Left /\ pb_i b sd = nmsg) /\ dev_queue (q_dev (sp_sh (pb_sys b))) = [] /\
   (0 < nmsg -> user_bytes (q_user (sp_sh (pb_sys b))) (ubuf Reader) msgsize = Some blk)).
Proof. apply spsc_transfer_runs. Qed.
End facts.

(** ** A concrete transfer

    Two messages through two slots; each load returns the newest store and the
    consumer moves whenever it can. *)
Section exec.
Context {U : Type} `{UAccess U} (nmsg msgsize : Z) (ubuf : side -> Z).

(** The step of [sd] when its load, if it makes one, returns the newest store. *)
Definition pb_fresh (sd : side) (b : pbench U) : option (pick * exec (pbench U)) :=
  let see := See (q_pub (sp_sh (pb_sys b)) (other sd)) in
  match spsc_slot_step nmsg msgsize ubuf Go sd b, spsc_slot_step nmsg msgsize ubuf see sd b with
  | Some e, _ => Some (Go, e)
  | None, Some e => Some (see, e)
  | None, None => None
  end.

Fixpoint pb_auto (fuel : nat) (b : pbench U) : nat * pbench U :=
  match fuel with
  | O => (O, b)
  | S fuel' =>
    match pb_fresh Reader b, pb_fresh Writer b with
    | Some (_, Done b'), _ | None, Some (_, Done b') => let '(n, b2) := pb_auto fuel' b' in (S n, b2)
    | _, _ => (O, b)
    end
  end.

Lemma pb_fresh_step sd b c e : pb_fresh sd b = Some (c, e) -> spsc_slot_step nmsg msgsize ubuf c sd b = Some e.
Proof. unfold pb_fresh. destruct (spsc_slot_step _ _ _ Go sd b) eqn:E1; [by intros [= <- <-] |]. by case_match; [intros [= <- <-] |]. Qed.

Lemma pb_run_cons c sd b b1 n b2 :
  spsc_slot_step nmsg msgsize ubuf c sd b = Some (Done b1) -> pb_run nmsg msgsize ubuf n b1 b2 ->
  pb_run nmsg msgsize ubuf (S n) b b2.
Proof.
  intros Hst Hrun. induction Hrun as [b1 | n b1 b2 c' sd' b3 Hrun IH Hst'].
  - eapply pbr_snoc; [constructor | exact Hst].
  - eapply pbr_snoc; [by apply IH | exact Hst'].
Qed.

Lemma pb_auto_run fuel b : pb_run nmsg msgsize ubuf (pb_auto fuel b).1 b (pb_auto fuel b).2.
Proof.
  revert b. induction fuel as [| fuel IH]; intros b; cbn [pb_auto]; [constructor |].
  destruct (pb_fresh Reader b) as [[c [b' |]] |] eqn:E1; [| constructor |].
  - specialize (IH b'). destruct (pb_auto fuel b') as [n b2]. by eapply pb_run_cons; [apply pb_fresh_step |].
  - destruct (pb_fresh Writer b) as [[c [b' |]] |] eqn:E2; [| constructor..].
    specialize (IH b'). destruct (pb_auto fuel b') as [n b2]. by eapply pb_run_cons; [apply pb_fresh_step |].
Qed.
End exec.

Definition spsc_run2 : nat * pbench simuser := pb_auto 2 4 bench_buf 162 (pb_start 4 bench_buf empty_spsc bench_user).

Lemma both_left {U} `{UAccess U} nmsg msgsize ubuf (b : pbench U) :
  pb_ph b Reader = Left -> pb_ph b Writer = Left -> forall c sd, spsc_slot_step nmsg msgsize ubuf c sd b = None.
Proof. intros HR HW c []; unfold spsc_slot_step; by rewrite ?HR, ?HW. Qed.

Lemma spsc_transfer_completes_witness :
  spsc_run2.1 = 52%nat /\
  (forall sd, pb_ph spsc_run2.2 sd = Left /\ pb_i spsc_run2.2 sd = 2) /\
  user_bytes (q_user (sp_sh (pb_sys spsc_run2.2))) 200 4 = Some [x61; x62; x63; x64].
Proof.
  destruct (spsc_transfer_completes 2 4 bench_buf [x61; x62; x63; x64] ltac:(by left) eq_refl empty_spsc bench_user
              spsc_run2.1 spsc_run2.2 empty_spsc_ok eq_refl eq_refl eq_refl) as (_ & _ & Hend).
  { split; [by vm_compute |]. apply (bytes_accessible _ _ _ [x00; x00; x00; x00]); [by vm_compute | done]. }
  { done. } { apply pb_auto_run. }
  destruct Hend as (Hl & _ & Hu); [apply both_left; by vm_compute |].
  split; [by vm_compute |]. split; [exact Hl |]. by apply Hu.
Defined.
