(* ===== verification/BenchReport.v ===== *)
(** * BenchReport: what the benchmark does with its samples (bench/kbuf_bench.c)

    The figures the benchmark prints: the throughput cell of a size and transport,
    the percentiles of the latencies, and the counters of the false-sharing test,
    with the parameters [main] gives them.  Doubles are IEEE 754 binary64 as the
    Standard Library's [SpecFloat] computes them; [qsort] is the C library's, with
    the contract ISO C gives it. *)

From Stdlib Require Import SpecFloat.
From stdpp Require Import sorting.
From S2P Require Import Prelude Kernel Machine Spsc.
#[local] Open Scope Z_scope.

(** ** Doubles *)
Definition of_int (n : Z) : spec_float := binary_normalize 53 1024 n 0 false.
Definition dadd : spec_float -> spec_float -> spec_float := SFadd 53 1024.
Definition dsub : spec_float -> spec_float -> spec_float := SFsub 53 1024.
Definition dmul : spec_float -> spec_float -> spec_float := SFmul 53 1024.
Definition ddiv : spec_float -> spec_float -> spec_float := SFdiv 53 1024.
Definition dsqrt : spec_float -> spec_float := SFsqrt 53 1024.

(** A decimal literal is the double nearest to its fraction. *)
Definition literal (num den : Z) : spec_float := ddiv (of_int num) (of_int den).

(** The conversion to an integer type truncates. *)
Definition to_int (f : spec_float) : Z :=
  match f with
  | S754_finite s m e =>
    (if s then -1 else 1) * (if 0 <=? e then Zpos m * 2 ^ e else Zpos m / 2 ^ (- e))
  | _ => 0
  end.

(** ** throughput *)
Definition sizes : list Z := [64; 256; 1024; 4096; 16384].

(** The loop over [runs]: what [run_once] returned each time; [None] when one of
    them is negative. *)
Fixpoint rates (mb : spec_float) (secs : list spec_float) (sum sumsq : spec_float) : option (spec_float * spec_float) :=
  match secs with
  | [] => Some (sum, sumsq)
  | s :: secs' =>
    if SFltb s (of_int 0) then None
    else let rate := ddiv mb s in rates mb secs' (dadd sum rate) (dadd sumsq (dmul rate rate))
  end.

(** The mean and the standard deviation of a cell, or "n/a". *)
Definition throughput_cell (total : Z) (secs : list spec_float) : option (spec_float * spec_float) :=
  let runs := Z.of_nat (length secs) in
  let mb := ddiv (of_int total) (dmul (of_int 1024) (of_int 1024)) in
  match rates mb secs (of_int 0) (of_int 0) with
  | None => None
  | Some (sum, sumsq) =>
    let mean := ddiv sum (of_int runs) in
    let sd := if 1 <? runs
              then dsqrt (ddiv (dsub sumsq (ddiv (dmul sum sum) (of_int runs))) (of_int (runs - 1)))
              else of_int 0 in
    Some (mean, sd)
  end.

(** ** latency *)
Definition cmp_u64 (x y : Z) : Z := Z.b2z (x >? y) - Z.b2z (x <? y).

(** [lat[i] = now_ns() - ts], with the consumer's readings of the clock. *)
Definition latencies (now : nat -> Z) (stamps : list Z) : list Z := imap (fun i ts => u64 (now i - ts)) stamps.

(** A comparison function as [qsort] needs it, and what [qsort] then does. *)
Definition orders (cmp : Z -> Z -> Z) : Prop :=
  (forall x y, cmp x y <= 0 \/ cmp y x <= 0) /\
  (forall x y z, cmp x y <= 0 -> cmp y z <= 0 -> cmp x z <= 0).

Class QSort := qsort : (Z -> Z -> Z) -> list Z -> list Z.

Class QSortLaws `{QSort} : Prop := {
  qsort_perm cmp l : qsort cmp l ≡ₚ l;
  qsort_sorted cmp l : orders cmp -> Sorted (fun x y => cmp x y <= 0) (qsort cmp l)
}.

(** The four figures; [None] is an index outside the array. *)
Record report := Report { r_p50 : option Z; r_p90 : option Z; r_p99 : option Z; r_max : option Z }.

Definition at_index (l : list Z) (i : Z) : option Z := if 0 <=? i then l !! Z.to_nat i else None.

Definition latency_report `{QSort} (samples : Z) (lat : list Z) : report :=
  let l := qsort cmp_u64 lat in
  Report (at_index l (samples / 2))
         (at_index l (to_int (dmul (of_int samples) (literal 90 100))))
         (at_index l (to_int (dmul (of_int samples) (literal 99 100))))
         (at_index l (samples - 1)).

(** ** falsesharing

    The fields of [struct fs_shared] as sizes and alignments, and where the
    compiler puts them. *)
Definition fs_fields : list (Z * Z) := [(8, 8); (8, 8); (128, 1); (8, 8); (128, 1); (8, 8)].

Definition align_up (x a : Z) : Z := (x + a - 1) / a * a.

Fixpoint offsets (x : Z) (fs : list (Z * Z)) : list Z :=
  match fs with
  | [] => []
  | (sz, al) :: fs' => let o := align_up x al in o :: offsets (o + sz) fs'
  end.

Definition fs_offset (i : nat) : Z := default 0 (offsets 0 fs_fields !! i).
Definition off_a : Z := fs_offset 0.
Definition off_b : Z := fs_offset 1.
Definition off_c : Z := fs_offset 3.
Definition off_d : Z := fs_offset 5.

(** Two processes, each counting in a word of its own.  An atomic increment is one
    step; the plain one loads and stores. *)
Record fs_state := FsState {
  fs_mem : gmap Z Z;
  fs_i : side -> Z;
  fs_tmp : side -> option Z
}.

Definition fs_step (atomic : bool) (iters : Z) (addr : side -> Z) (sd : side) (st : fs_state) : option fs_state :=
  if fs_i st sd <? iters then
    match fs_mem st !! addr sd, atomic, fs_tmp st sd with
    | None, _, _ => None
    | Some v, true, _ =>
      Some (FsState (<[addr sd := u64 (v + 1)]> (fs_mem st)) (on_side sd (fs_i st sd + 1) (fs_i st)) (fs_tmp st))
    | Some v, false, None => Some (FsState (fs_mem st) (fs_i st) (on_side sd (Some v) (fs_tmp st)))
    | Some _, false, Some t =>
      Some (FsState (<[addr sd := u64 (t + 1)]> (fs_mem st)) (on_side sd (fs_i st sd + 1) (fs_i st))
                    (on_side sd None (fs_tmp st)))
    end
  else None.

Inductive fs_reach (atomic : bool) (iters : Z) (addr : side -> Z) : fs_state -> fs_state -> Prop :=
  | fsr_refl st : fs_reach atomic iters addr st st
  | fsr_step st1 st2 sd st3 :
      fs_reach atomic iters addr st1 st2 -> fs_step atomic iters addr sd st2 = Some st3 -> fs_reach atomic iters addr st1 st3.

Definition fs_start (m : gmap Z Z) : fs_state := FsState m (fun _ => 0) (fun _ => None).

(** [fs_run] to its end, on the memory before and after. *)
Definition fs_run (atomic : bool) (iters : Z) (x y : Z) (m m' : gmap Z Z) : Prop :=
  let addr sd := match sd with Writer => x | Reader => y end in
  exists st, fs_reach atomic iters addr (fs_start m) st /\ (forall sd, fs_step atomic iters addr sd st = None) /\ fs_mem st = m'.

(** The structure is at [s]; the times are not modelled. *)
Definition fs_report (s : Z) (iters : Z) (atomic : bool) (m m' : gmap Z Z) : Prop :=
  exists m1, fs_run atomic iters (s + off_a) (s + off_b) m m1 /\ fs_run atomic iters (s + off_c) (s + off_d) m1 m'.

Definition falsesharing (s : Z) (iters : Z) (m m' : gmap Z Z) : Prop :=
  let atomic_iters := iters / 8 in
  exists m1, fs_report s iters false m m1 /\ fs_report s atomic_iters true m1 m'.

(** ** main *)
Record params := Params { pr_total : Z; pr_runs : Z; pr_samples : Z; pr_iters : Z }.

Definition main_params (quick : bool) : params :=
  Params (if quick then Z.shiftl 8 20 else Z.shiftl 64 20) (if quick then 3 else 10)
         (if quick then 2000 else 20000) (if quick then Z.shiftl 20 20 else Z.shiftl 200 20).
