(* ===== verification/BenchReportProps.v ===== *)
(** * BenchReportProps: the benchmark's figures mean what they say *)

From Stdlib Require Import SpecFloat.
From stdpp Require Import sorting.
From S2P Require Import Prelude Kernel Machine Spsc SpscFacts BenchReport.
#[local] Open Scope Z_scope.

(** ** Percentiles *)
Lemma cmp_u64_le x y : cmp_u64 x y <= 0 <-> x <= y.
Proof. unfold cmp_u64. destruct (Z.gtb_spec x y), (Z.ltb_spec x y); cbn; lia. Qed.

Lemma cmp_u64_orders : orders cmp_u64.
Proof. split; intros *; rewrite !cmp_u64_le; lia. Qed.

Section sorted.
Implicit Types (l : list Z).

Lemma sorted_le l i j x y : StronglySorted Z.le l -> l !! i = Some x -> l !! j = Some y -> (i <= j)%nat -> x <= y.
Proof.
  intros Hs. revert i j. induction Hs as [| a l Hs IH Ha]; intros [| i] [| j] Hi Hj Hle; try done; try lia; cbn in Hi, Hj.
  - simplify_eq. lia.
  - injection Hi as <-. apply (proj1 (List.Forall_forall _ _) Ha), list_elem_of_In. by eapply list_elem_of_lookup_2.
  - apply (IH i j); (done || lia).
Qed.

Lemma filter_all (P : Z -> Prop) `{forall x, Decision (P x)} l : (forall x, x ∈ l -> P x) -> filter P l = l.
Proof.
  induction l as [| a l IH]; intros Hall; [done |]. rewrite filter_cons_True by (apply Hall; by left).
  f_equal. apply IH. intros x Hx. apply Hall. by right.
Qed.

(** At least [k + 1] elements of a sorted list are at most the one at [k]. *)
Lemma sorted_rank l k v :
  StronglySorted Z.le l -> l !! k = Some v -> (k < length (filter (fun x => (x <= v)%Z) l))%nat.
Proof.
  intros Hs Hk. rewrite <- (take_drop (S k) l), filter_app, length_app.
  rewrite filter_all; [rewrite length_take; apply lookup_lt_Some in Hk; lia |].
  intros x [i [Hx Hi]%lookup_take_Some]%list_elem_of_lookup. apply (sorted_le l i k x v Hs Hx Hk). lia.
Qed.
End sorted.

Section percentiles.
Context `{QSortLaws}.

Lemma sorted_lat lat : StronglySorted Z.le (qsort cmp_u64 lat).
Proof.
  apply Sorted_StronglySorted; [intros ???; lia |].
  pose proof (qsort_sorted cmp_u64 lat cmp_u64_orders) as Hs. induction Hs as [| x l Hs IH Hh]; [constructor |].
  constructor; [exact IH |]. destruct Hh as [| y l Hc]; constructor. by apply cmp_u64_le.
Qed.

(** How many of the samples are at most [v]. *)
Definition at_most (v : Z) (lat : list Z) : Z := Z.of_nat (length (filter (fun x => x <= v) lat)).

Lemma figure lat k :
  0 <= k < Z.of_nat (length lat) ->
  exists v, at_index (qsort cmp_u64 lat) k = Some v /\ qsort cmp_u64 lat !! Z.to_nat k = Some v /\ v ∈ lat /\ k < at_most v lat.
Proof.
  intros Hk. pose proof (qsort_perm cmp_u64 lat) as Hp. pose proof (Permutation_length Hp) as Hl.
  destruct (lookup_lt_is_Some_2 (qsort cmp_u64 lat) (Z.to_nat k)) as [v Hv]; [lia |]. exists v.
  split; [unfold at_index; by rewrite (proj2 (Z.leb_le 0 k)) by lia |]. split; [done |].
  split; [rewrite <- Hp; by eapply list_elem_of_lookup_2 |].
  pose proof (sorted_rank _ _ _ (sorted_lat lat) Hv) as Hr. unfold at_most. rewrite <- Hp. lia.
Qed.

(** The indices the report uses, for the sample counts of [main]. *)
Lemma indices_of quick :
  let n := pr_samples (main_params quick) in
  to_int (dmul (of_int n) (literal 90 100)) = n * 9 / 10 /\ to_int (dmul (of_int n) (literal 99 100)) = n * 99 / 100.
Proof. by destruct quick; vm_compute. Qed.

(** The percentiles the benchmark prints are percentiles: for either of the
    sample counts of [main] the four indices, computed in floating point, are
    inside the array; the figures are measured values in ascending order; at least
    half, nine tenths and 99 hundredths of the samples are at most p50, p90 and
    p99; and max is the largest. *)
Theorem latency_report_sound quick lat :
  let n := pr_samples (main_params quick) in
  Z.of_nat (length lat) = n ->
  exists p50 p90 p99 mx, latency_report n lat = Report (Some p50) (Some p90) (Some p99) (Some mx) /\
    p50 <= p90 <= p99 /\ p99 <= mx /\ (p50 ∈ lat /\ p90 ∈ lat /\ p99 ∈ lat /\ mx ∈ lat) /\
    n / 2 < at_most p50 lat /\ n * 9 / 10 < at_most p90 lat /\ n * 99 / 100 < at_most p99 lat /\
    (forall x, x ∈ lat -> x <= mx).
Proof.
  intros n Hn. pose proof (indices_of quick) as [H90 H99]. fold n in H90, H99.
  assert (Hb : 0 <= n / 2 <= n * 9 / 10 /\ n * 9 / 10 <= n * 99 / 100 <= n - 1) by (clear; unfold n; destruct quick; vm_compute; repeat split; discriminate).
  destruct (figure lat (n / 2)) as (p50 & E50 & L50 & I50 & R50); [lia |].
  destruct (figure lat (n * 9 / 10)) as (p90 & E90 & L90 & I90 & R90); [lia |].
  destruct (figure lat (n * 99 / 100)) as (p99 & E99 & L99 & I99 & R99); [lia |].
  destruct (figure lat (n - 1)) as (mx & Emx & Lmx & Imx & _); [lia |].
  pose proof (sorted_lat lat) as Hs. exists p50, p90, p99, mx. unfold latency_report. rewrite H90, H99, E50, E90, E99, Emx.
  assert (H1 : p50 <= p90) by (apply (sorted_le _ _ _ _ _ Hs L50 L90); lia).
  assert (H2 : p90 <= p99) by (apply (sorted_le _ _ _ _ _ Hs L90 L99); lia).
  assert (H3 : p99 <= mx) by (apply (sorted_le _ _ _ _ _ Hs L99 Lmx); lia).
  split_and!; try done. intros x Hx. rewrite <- (qsort_perm cmp_u64 lat) in Hx. apply list_elem_of_lookup in Hx as [i Hi].
  apply (sorted_le _ _ _ _ _ Hs Hi Lmx). apply lookup_lt_Some in Hi. rewrite (Permutation_length (qsort_perm cmp_u64 lat)) in Hi. lia.
Qed.
End percentiles.

(** A sort that has the contract. *)
Definition cmp_le (cmp : Z -> Z -> Z) (x y : Z) : Prop := cmp x y <= 0.

#[export] Instance cmp_le_dec cmp : RelDecision (cmp_le cmp).
Proof. intros x y. unfold cmp_le. apply _. Defined.

#[export] Instance merge_qsort : QSort := fun cmp l => merge_sort (cmp_le cmp) l.

#[export] Instance merge_qsort_laws : QSortLaws.
Proof.
  split; [intros cmp l; apply merge_sort_Permutation |]. intros cmp l [Ht _].
  assert (Total (cmp_le cmp)) by exact Ht. apply (Sorted_merge_sort (cmp_le cmp)).
Qed.

(** 2000 samples, falling. *)
Definition falling : list Z := (fun i => 2000 - i) <$> seqZ 0 2000.

Lemma latency_report_sound_witness :
  latency_report 2000 falling = Report (Some 1001) (Some 1801) (Some 1981) (Some 2000) /\ 1800 < at_most 1801 falling.
Proof.
  destruct (latency_report_sound (H := merge_qsort) true falling) as (p50 & p90 & p99 & mx & E & _ & _ & _ & _ & H90 & _); [by vm_compute |].
  change (pr_samples (main_params true)) with 2000 in E, H90.
  assert (E' : latency_report 2000 falling = Report (Some 1001) (Some 1801) (Some 1981) (Some 2000)) by by vm_compute.
  rewrite E' in E. injection E as _ <- _ _. split; [exact E' | exact H90].
Defined.

(** A latency is the plain difference when the clock does not run backwards. *)
Lemma latencies_exact now stamps i ts :
  stamps !! i = Some ts -> in_u64 ts -> in_u64 (now i) -> ts <= now i -> latencies now stamps !! i = Some (now i - ts).
Proof.
  intros Hi Ht Hn Hle. unfold latencies. rewrite list_lookup_imap, Hi. cbn. f_equal. apply u64_small.
  unfold in_u64 in *. lia.
Qed.

(** ** Throughput *)

(** A cell is "n/a" exactly when one of its runs failed. *)
Theorem throughput_na total secs :
  throughput_cell total secs = None <-> Exists (fun s => SFltb s (of_int 0) = true) secs.
Proof.
  unfold throughput_cell. set (mb := ddiv _ _). generalize (of_int 0) at 1 2 as a. intros a. revert a.
  assert (Hr : forall a b, rates mb secs a b = None <-> Exists (fun s => SFltb s (of_int 0) = true) secs).
  { induction secs as [| s secs IH]; intros a b; cbn [rates]; [split; [done | by intros ?%Exists_nil] |].
    rewrite Exists_cons. destruct (SFltb s (of_int 0)); [by split; [left |] |]. rewrite IH. split; [by right | by intros [? | ?]]. }
  intros a. rewrite <- (Hr a a). by destruct (rates mb secs a a) as [[sum sumsq] |].
Qed.

(** The one-pass formula can cancel to a negative number: three runs of exactly
    three milliseconds give the standard deviation NaN. *)
Definition three_ms : spec_float := literal 3 1000.

Theorem throughput_stddev_nan :
  exists mean, throughput_cell (pr_total (main_params true)) [three_ms; three_ms; three_ms] = Some (mean, S754_nan).
Proof. eexists. by vm_compute. Qed.

(** Every size of the table divides the totals of [main]: whole messages only. *)
Theorem sizes_divide quick sz : sz ∈ sizes -> pr_total (main_params quick) / sz * sz = pr_total (main_params quick).
Proof.
  intros Hs%list_elem_of_In. cbn in Hs. destruct quick; destruct_or? Hs; subst; by vm_compute.
Qed.

(** ** False sharing *)

(** In a structure that starts a cache line, [a] and [b] share a line and [c] and
    [d] do not; nor does [c] share one with [b]. *)
Theorem fs_lines base :
  (64 | base) ->
  (base + off_a) / 64 = (base + off_b) / 64 /\ (base + off_c) / 64 <> (base + off_d) / 64 /\
  (base + off_b) / 64 <> (base + off_c) / 64.
Proof.
  intros [k ->]. change off_a with 0. change off_b with 8. change off_c with 144. change off_d with 280.
  rewrite !(Z.add_comm (k * 64)), !Z.div_add by done. change (0 / 64) with 0. change (8 / 64) with 0.
  change (144 / 64) with 2. change (280 / 64) with 4. lia.
Qed.

Section counters.
Context (atomic : bool) (iters : Z) (addr : side -> Z).
Implicit Types (st : fs_state).

(** Each counter is its process's iterations, and a value in hand is current. *)
Record fs_inv (m : gmap Z Z) st : Prop := {
  fi_count sd v : m !! addr sd = Some v -> in_u64 v -> fs_mem st !! addr sd = Some (u64 (v + fs_i st sd));
  fi_tmp sd t : fs_tmp st sd = Some t -> fs_mem st !! addr sd = Some t;
  fi_rest a : (forall sd, a <> addr sd) -> fs_mem st !! a = m !! a;
  fi_atomic sd : atomic = true -> fs_tmp st sd = None;
  fi_i sd : 0 <= fs_i st sd <= Z.max 0 iters
}.

Lemma fs_step_inv m sd st st' :
  addr Writer <> addr Reader -> fs_inv m st -> fs_step atomic iters addr sd st = Some st' -> fs_inv m st'.
Proof.
  intros Hne [Hc Ht Hr Ha Hi] Hst. assert (Hxy : forall x, x <> sd -> addr sd <> addr x) by (intros [] Hx; destruct sd; congruence).
  assert (Hput : forall t tmp, fs_i st sd < iters -> (atomic = true -> forall x, tmp x = None) -> fs_mem st !! addr sd = Some t -> (forall x y, tmp x = Some y -> x <> sd /\ fs_tmp st x = Some y) ->
    fs_inv m (FsState (<[addr sd := u64 (t + 1)]> (fs_mem st)) (on_side sd (fs_i st sd + 1) (fs_i st)) tmp)).
  { intros t tmp Hlt Hat Em Htmp. split; cbn [fs_mem fs_i fs_tmp].
    - intros x v Hv H64. destruct (decide (x = sd)) as [-> | Hx].
      + rewrite lookup_insert_eq, on_side_eq. specialize (Hc sd v Hv H64). rewrite Em in Hc. injection Hc as ->. f_equal.
        unfold u64. rewrite Zplus_mod_idemp_l. f_equal. lia.
      + rewrite lookup_insert_ne, on_side_ne by (done || by apply Hxy). by apply Hc.
    - intros x y [Hx Hy]%Htmp. rewrite lookup_insert_ne by (by apply Hxy). by apply Ht.
    - intros a Hna. rewrite lookup_insert_ne; [by apply Hr | apply not_eq_sym, Hna].
    - intros x E. by apply Hat.
    - intros x. pose proof (Hi x). destruct (decide (x = sd)) as [-> | Hx]; [rewrite on_side_eq; lia | by rewrite on_side_ne]. }
  unfold fs_step in Hst. destruct (Z.ltb_spec (fs_i st sd) iters) as [Hlt |]; [| done].
  destruct (fs_mem st !! addr sd) as [v |] eqn:Em; [| done]. destruct atomic eqn:Eat.
  - injection Hst as <-. apply Hput; try done; [intros _ x; by apply Ha |]. intros x y Hy. by rewrite Ha in Hy.
  - destruct (fs_tmp st sd) as [t |] eqn:Et; injection Hst as <-.
    + pose proof (Ht sd t Et) as E. rewrite E in Em. injection Em as ->. apply Hput; try done.
      intros x y Hy. destruct (decide (x = sd)) as [-> | Hx]; [by rewrite on_side_eq in Hy | by rewrite on_side_ne in Hy].
    + split; cbn [fs_mem fs_i fs_tmp]; try done; [| intros x E; congruence]. intros x y Hy.
      destruct (decide (x = sd)) as [-> | Hx]; [rewrite on_side_eq in Hy; by simplify_eq |].
      rewrite on_side_ne in Hy by done. by apply Ht.
Qed.

(** The false-sharing test counts exactly: two processes that increment two
    different words, with plain or with atomic increments and however they are
    interleaved, have each counted their own iterations at every moment, modulo
    2^64, and touched nothing else; and when neither can go on both have made
    [iters] of them. *)
Theorem fs_counts m st :
  addr Writer <> addr Reader -> (forall sd, exists v, m !! addr sd = Some v /\ in_u64 v) -> 0 <= iters ->
  fs_reach atomic iters addr (fs_start m) st ->
  (forall sd v, m !! addr sd = Some v -> fs_mem st !! addr sd = Some (u64 (v + fs_i st sd))) /\
  (forall a, (forall sd, a <> addr sd) -> fs_mem st !! a = m !! a) /\
  ((forall sd, fs_step atomic iters addr sd st = None) -> forall sd, fs_i st sd = iters).
Proof.
  intros Hne Hm Hi Hreach.
  assert (Hinv : fs_inv m st).
  { remember (fs_start m) as st0. induction Hreach as [st | st1 st2 sd st3 Hreach IH Hst]; subst.
    - split; cbn; try done; [| lia]. intros sd v Hv H64. by rewrite Z.add_0_r, u64_small.
    - eapply fs_step_inv; [done | by apply IH | done]. }
  destruct Hinv as [Hc Ht Hr Ha Hb].
  assert (Hv : forall sd v, m !! addr sd = Some v -> fs_mem st !! addr sd = Some (u64 (v + fs_i st sd))).
  { intros sd v Hv. destruct (Hm sd) as (v' & Hv' & H64). apply Hc; [done |]. congruence. }
  split; [done |]. split; [done |]. intros Hst sd. pose proof (Hb sd) as Hbd. specialize (Hst sd).
  unfold fs_step in Hst. destruct (Z.ltb_spec (fs_i st sd) iters) as [Hlt | Hge]; [| lia].
  destruct (Hm sd) as (v & Hmv & _). rewrite (Hv sd v Hmv) in Hst. by destruct atomic, (fs_tmp st sd).
Qed.
End counters.

(** Four counters of one structure. *)
Definition fs_counters (s : Z) (m : gmap Z Z) (a b c d : Z) : Prop :=
  m !! (s + off_a) = Some a /\ m !! (s + off_b) = Some b /\ m !! (s + off_c) = Some c /\ m !! (s + off_d) = Some d.

Lemma fs_run_counts atomic iters x y m m' vx vy :
  x <> y -> 0 <= iters -> m !! x = Some vx -> m !! y = Some vy -> in_u64 vx -> in_u64 vy -> fs_run atomic iters x y m m' ->
  m' !! x = Some (u64 (vx + iters)) /\ m' !! y = Some (u64 (vy + iters)) /\ forall a, a <> x -> a <> y -> m' !! a = m !! a.
Proof.
  intros Hne Hi Hx Hy Ux Uy (st & Hr & Hend & <-).
  destruct (fs_counts atomic iters (fun sd => match sd with Writer => x | Reader => y end) m st Hne) as (Hc & Hk & Hn); [| done | done |].
  { intros []; eauto. }
  specialize (Hn Hend). pose proof (Hc Writer vx Hx) as E1. pose proof (Hc Reader vy Hy) as E2. rewrite Hn in E1, E2.
  split; [done |]. split; [done |]. intros a Ha1 Ha2. apply Hk. by intros [].
Qed.

(** The whole test, from the zeroed pages of an anonymous mapping: every counter
    ends at the number of increments made to it. *)
Theorem falsesharing_counts s iters m m' :
  0 <= iters < 2 ^ 63 -> fs_counters s m 0 0 0 0 -> falsesharing s iters m m' ->
  let n := iters + iters / 8 in fs_counters s m' n n n n.
Proof.
  intros Hi (Ea & Eb & Ec & Ed) (m1 & (m0 & R1 & R2) & (m2 & R3 & R4)) n. change off_a with 0 in *. change off_b with 8 in *.
  change off_c with 144 in *. change off_d with 280 in *.
  assert (Hn : 0 <= iters / 8 <= iters /\ in_u64 n) by (pose proof (Z.div_pos iters 8); pose proof (Z.div_le_upper_bound iters 8 iters); unfold in_u64, n; lia). unfold fs_counters in *.
  assert (Hz : in_u64 0) by done. assert (Hiu : in_u64 iters) by (unfold in_u64; lia).
  pose proof (u64_small iters Hiu : u64 (0 + iters) = iters) as U1. pose proof (u64_small n (proj2 Hn)) as U2.
  destruct (fs_run_counts false iters (s + 0) (s + 8) _ _ 0 0 ltac:(lia) ltac:(lia) Ea Eb Hz Hz R1) as (A1 & B1 & F1).
  rewrite <- F1 in Ec, Ed by lia.
  destruct (fs_run_counts false iters (s + 144) (s + 280) _ _ 0 0 ltac:(lia) ltac:(lia) Ec Ed Hz Hz R2) as (C2 & D2 & F2).
  rewrite U1 in *. rewrite <- F2 in A1, B1 by lia.
  destruct (fs_run_counts true (iters / 8) (s + 0) (s + 8) _ _ iters iters ltac:(lia) ltac:(lia) A1 B1 Hiu Hiu R3) as (A3 & B3 & F3).
  rewrite <- F3 in C2, D2 by lia.
  destruct (fs_run_counts true (iters / 8) (s + 144) (s + 280) _ _ iters iters ltac:(lia) ltac:(lia) C2 D2 Hiu Hiu R4) as (C4 & D4 & F4).
  fold n in A3, B3, C4, D4. rewrite U2 in *. rewrite <- F4 in A3, B3 by lia. done.
Qed.

(** Both processes at once, two plain increments each: the loads first. *)
Fixpoint fs_exec (atomic : bool) (iters : Z) (addr : side -> Z) (sch : list side) (st : fs_state) : option fs_state :=
  match sch with
  | [] => Some st
  | sd :: sch' => st' ← fs_step atomic iters addr sd st; fs_exec atomic iters addr sch' st'
  end.

Lemma fs_exec_reach atomic iters addr sch st0 st st' :
  fs_reach atomic iters addr st0 st -> fs_exec atomic iters addr sch st = Some st' -> fs_reach atomic iters addr st0 st'.
Proof.
  revert st. induction sch as [| sd sch IH]; intros st Hr; cbn; [by intros [= <-] |].
  destruct (fs_step atomic iters addr sd st) as [st1 |] eqn:E; [| done]. cbn. apply IH. by eapply fsr_step.
Qed.

Definition fs_addr (sd : side) : Z := match sd with Writer => off_a | Reader => off_b end.
Definition fs_mem0 : gmap Z Z := {[off_a := 18446744073709551615; off_b := 7; off_c := 1]}.
Definition fs_sch : list side := [Writer; Reader; Writer; Reader; Writer; Reader; Reader; Writer].
Definition fs_end : fs_state := default (fs_start fs_mem0) (fs_exec false 2 fs_addr fs_sch (fs_start fs_mem0)).

Lemma fs_counts_witness :
  fs_mem fs_end !! off_a = Some 1 /\ fs_mem fs_end !! off_b = Some 9 /\ fs_mem fs_end !! off_c = Some 1.
Proof.
  assert (Hr : fs_reach false 2 fs_addr (fs_start fs_mem0) fs_end).
  { apply (fs_exec_reach false 2 fs_addr fs_sch _ (fs_start fs_mem0)); [constructor | reflexivity]. }
  destruct (fs_counts false 2 fs_addr fs_mem0 fs_end) as (Hc & Hk & Hend); [done | | done | exact Hr |].
  { intros []; eexists; split; by try reflexivity. }
  split; [exact (Hc Writer _ eq_refl) |]. split; [exact (Hc Reader _ eq_refl) |]. rewrite Hk; [reflexivity |]. by intros [].
Defined.
