(* ===== verification/BenchRun.v ===== *)
(** * BenchRun: a whole run of the benchmark over a slot ring
    (bench/kbuf_bench.c)

    What [run_once] does before the fork for each transport, and the whole run for
    T_MUTEX and T_SPSC: [slot_setup], then the two processes. *)

From S2P Require Import Prelude Kernel Uapi Device Alloc Mmap Ctl CtlFacts DmaBuf Ring RingFacts RingSpec RingProps Ioctl.
From S2P Require Import Dispatch IoctlProps MmapProps DispatchProps Machine MachineFacts Spsc FileOps FileProps Client ClientProps.
From S2P Require Import BenchSlots BenchSlotsProps BenchSpsc BenchSpscProps.
#[local] Open Scope Z_scope.

Inductive transport : Set := T_MUTEX | T_SPSC | T_MMAP | T_PIPE.

(** [run_once] up to the fork.  [dev] is what open found at the device of a
    transport, [pipe_rc] what pipe(2) returned; [Some (-1)] is the early return,
    [None] a set-up still running. *)
Definition run_prepare {U K : Type} `{UAccess U} `{UMem U} `{Kernel K} `{IocEncoding} `{Paging}
    (fuel : nat) (fr : setup_frame) (dev : transport -> option Z) (pipe_rc : Z) (t : transport) (msgsize : Z)
  : prog (fworld U K) (option Z) :=
  match t with
  | T_MUTEX => slot_setup fuel fr (dev T_MUTEX) msgsize false
  | T_SPSC => slot_setup fuel fr (dev T_SPSC) msgsize true
  | T_PIPE => p_ret (Some (if pipe_rc =? 0 then 0 else -1))
  | T_MMAP => p_ret (Some 0)
  end.

Definition slot_transport (spsc : bool) : transport := if spsc then T_SPSC else T_MUTEX.

Section run.
Context {U K : Type} {ua : UAccess U} {ual : UAccessLaws U} {um : UMem U} {uml : UMemLaws U}.
Context {kk : Kernel K} {kl : KernelLaws K} `{IocLaws} `{PagingLaws}.
Implicit Types (w : fworld U K).

(** The transfer on a device that has been set up: every execution of the two
    processes is finite and without error, and ends with everything received. *)
Definition transfers (nmsg msgsize : Z) (ubuf : side -> Z) (d : kbuf_dev) (u : U) (spsc : bool) : Prop :=
  if spsc then
    forall n b, pb_run nmsg msgsize ubuf n (pb_start msgsize ubuf d u) b ->
      Z.of_nat n <= 80 * nmsg + 2 /\ (forall c sd why, spsc_slot_step nmsg msgsize ubuf c sd b <> Some (Oops why)) /\
      ((forall c sd, spsc_slot_step nmsg msgsize ubuf c sd b = None) -> forall sd, pb_i b sd = nmsg)
  else
    forall n b, sb_run nmsg msgsize ubuf n (sb_start msgsize ubuf d u) b ->
      Z.of_nat n <= 80 * nmsg + 2 /\ (forall sd why, slot_step nmsg msgsize ubuf sd b <> Some (Oops why)) /\
      ((forall sd, slot_step nmsg msgsize ubuf sd b = None) -> forall sd, sb_i b sd = nmsg).

(** C37: [run_once] over a slot ring, from any state of the device: the set-up
    ends, and unless the kernel has no memory for the new slots the transfer of
    [total / msgsize] messages that follows it completes. *)
Theorem run_once_slots fuel fr dev rc p w f msgsize total spsc u ubuf blk :
  dev (slot_transport spsc) = Some p ->
  open_at p w f -> frame_ok fr -> accessible (f_user w) (fr_drain fr) sizeof_drain ->
  Forall (fun m => m <> []) (af_q f) -> (length (af_q f) < fuel)%nat -> 1 <= msgsize <= KBUF_MAX_BUFFER_SIZE -> 0 <= total ->
  apart (ubuf Writer) msgsize (ubuf Reader) msgsize -> Z.of_nat (length blk) = msgsize -> mem_ok msgsize ubuf blk u ->
  exists r w', run_prepare fuel fr dev rc (slot_transport spsc) msgsize w = Done (Some r, w') /\
    ((r = -1 /\ exists w1, kbuf_ioctl p KBUF_IOCRESIZE (fr_rz fr) w1 = Done (- ENOMEM, w')) \/
     (r = 0 /\ exists d, c_heap (f_c w') !! p = Some d /\ transfers (total / msgsize) msgsize ubuf d u spsc)).
Proof.
  intros Hdev Ho Hfr Ha Hne Hl Hsz Ht Hap Hblk Hmem.
  destruct (slot_setup_ok fuel fr p w f msgsize spsc Ho Hfr Ha Hne Hl Hsz) as (r & w' & f' & Hrun & Ho' & He).
  exists r, w'. split; [by destruct spsc; cbn in *; rewrite Hdev |].
  destruct He as [[-> Hf'] | (-> & _ & _ & _ & Hm)]; [right; split; [done |] | by left].
  destruct Ho' as [Hok Hf]. destruct (fo_dev _ _ Hok) as (d & Ed & (Hd & _) & _). exists d. split; [done |].
  unfold file_at in Hf. rewrite Ed in Hf. injection Hf as Hf. rewrite Hf' in Hf. injection Hf as _ Hb Hm Hq.
  assert (Hn : 0 <= total / msgsize) by (apply Z.div_pos; lia). unfold transfers. destruct spsc; intros n b Hr.
  - destruct (spsc_transfer_runs (total / msgsize) msgsize ubuf blk Hap Hblk d u n b Hd Hm Hb Hq Hmem Hn Hr) as (T1 & T2 & T3).
    split; [done |]. split; [done |]. intros Hst sd. by apply T3.
  - destruct (slot_transfer_runs (total / msgsize) msgsize ubuf blk Hap Hblk d u n b Hd Hm Hb Hq Hmem Hn Hr) as (T1 & T2 & T3).
    split; [done |]. split; [done |]. intros Hst sd. by apply T3.
Qed.
End run.

(** From a device with a message left over, into lock-free mode. *)
Lemma run_once_slots_witness :
  exists w' d, run_prepare 2 sample_frame (fun _ => Some 5) 0 T_SPSC 4 (queued_world drain_buffer) = Done (Some 0, w') /\
    c_heap (f_c w') !! 5 = Some d /\ transfers 3 4 bench_buf d bench_user true.
Proof.
  assert (E : ret_of (slot_setup 2 sample_frame (Some 5) 4 true (queued_world drain_buffer)) = Some (Some 0)) by by vm_compute.
  destruct (queued_open drain_buffer) as [Ho Ha]. rewrite length_drain_buffer in Ha.
  destruct (run_once_slots 2 sample_frame (fun _ => Some 5) 0 5 (queued_world drain_buffer) _ 4 12 true bench_user bench_buf
              [x61; x62; x63; x64] eq_refl Ho)
    as (r & w' & R & Hr); [| exact Ha | | | | | | | |].
  - unfold frame_ok, apart, sizeof_drain. cbn. lia.
  - by apply List.Forall_cons; [| apply List.Forall_nil].
  - cbn. lia.
  - unfold KBUF_MAX_BUFFER_SIZE. lia.
  - lia.
  - by left.
  - reflexivity.
  - split; [by vm_compute |]. apply (bytes_accessible _ _ _ [x00; x00; x00; x00]); [by vm_compute | done].
  - pose proof (ret_of_done _ _ _ _ R E) as [= ->]. destruct Hr as [[[=] _] | (_ & d & Hd & Ht)].
    exists w', d. split; [exact R |]. split; [exact Hd | exact Ht].
Defined.
