(* ===== verification/BenchPipe.v ===== *)
(** * BenchPipe: the benchmark's transfers over a pipe (bench/kbuf_bench.c)

    The loops of [run_once] for the transport T_PIPE, on a pipe of the kernel,
    which is an interface with the promises of pipe(7): bytes come out in the
    order they went in, a write of at most PIPE_BUF bytes is all or nothing, an
    empty pipe takes some bytes, and a read takes what is there, up to its count.
    A step is a step of a loop or the kernel moving bytes for a call; a call that
    cannot move any sleeps, that is, has no step. *)

From S2P Require Import Prelude Kernel Machine Spsc BenchSlots.
#[local] Open Scope Z_scope.

Definition PIPE_BUF : Z := 4096.

(** [pipe_push]: how many of the bytes the pipe takes now; [None] when it is
    full.  [pipe_pull]: the bytes a read of a count gets; [None] when it is empty. *)
Class Pipe (P : Type) := {
  pipe_bytes : P -> list byte;
  pipe_push : P -> list byte -> option (nat * P);
  pipe_pull : P -> Z -> option (list byte * P)
}.

Class PipeLaws (P : Type) `{Pipe P} : Prop := {
  push_order p bs n p' : pipe_push p bs = Some (n, p') ->
    (0 < n <= length bs)%nat /\ pipe_bytes p' = pipe_bytes p ++ take n bs;
  push_atomic p bs n p' : pipe_push p bs = Some (n, p') -> Z.of_nat (length bs) <= PIPE_BUF -> n = length bs;
  push_empty p bs : pipe_bytes p = [] -> bs <> [] -> is_Some (pipe_push p bs);
  pull_empty p c : pipe_bytes p = [] -> pipe_pull p c = None;
  pull_some p c : pipe_bytes p <> [] -> 0 < c -> exists p',
    pipe_pull p c = Some (take (Z.to_nat c) (pipe_bytes p), p') /\ pipe_bytes p' = drop (Z.to_nat c) (pipe_bytes p)
}.

Record pipebench (P : Type) := PipeBench {
  pi_pipe : P;
  pi_i : side -> Z;
  pi_ph : side -> phase;
  pi_rest : list byte       (** of the write in progress, what has not been taken *)
}.
Arguments PipeBench {P}.
Arguments pi_pipe {P}.
Arguments pi_i {P}.
Arguments pi_ph {P}.
Arguments pi_rest {P}.

Section loops.
Context {P : Type} `{Pipe P} (nmsg msgsize : Z).

Definition pipe_put (b : pipebench P) (sd : side) (i : Z) (ph : phase) : pipebench P :=
  PipeBench (pi_pipe b) (on_side sd i (pi_i b)) (on_side sd ph (pi_ph b)) (pi_rest b).

(** The producer.  A write to a pipe nobody reads is a SIGPIPE. *)
Definition pipe_write_step (b : pipebench P) : option (pipebench P) :=
  let i := pi_i b Writer in
  match pi_ph b Writer with
  | AtHead =>
    Some (if i <? nmsg
          then PipeBench (pi_pipe b) (pi_i b) (on_side Writer InCall (pi_ph b)) (replicate (Z.to_nat msgsize) xa5)
          else pipe_put b Writer i Left)
  | InCall =>
    match pi_ph b Reader with
    | Left => Some (pipe_put b Writer i Left)
    | _ =>
      match pipe_push (pi_pipe b) (pi_rest b) with
      | None => None
      | Some (n, p') =>
        let b' := PipeBench p' (pi_i b) (pi_ph b) (drop n (pi_rest b)) in
        Some (if decide (n = length (pi_rest b)) then pipe_put b' Writer (i + 1) AtHead else b')
      end
    end
  | Left => None
  end.

(** The consumer.  A read of an empty pipe nobody writes to is the end of file. *)
Definition pipe_read_step (b : pipebench P) : option (pipebench P) :=
  let i := pi_i b Reader in
  match pi_ph b Reader with
  | AtHead => Some (pipe_put b Reader i (if i <? nmsg then InCall else Left))
  | InCall =>
    match pipe_pull (pi_pipe b) msgsize with
    | Some (bs, p') =>
      let b' := PipeBench p' (pi_i b) (pi_ph b) (pi_rest b) in
      Some (if Z.of_nat (length bs) =? msgsize then pipe_put b' Reader (i + 1) AtHead else pipe_put b' Reader i Left)
    | None => match pi_ph b Writer with Left => Some (pipe_put b Reader i Left) | _ => None end
    end
  | Left => None
  end.

Definition pipe_step (sd : side) : pipebench P -> option (pipebench P) :=
  match sd with Writer => pipe_write_step | Reader => pipe_read_step end.

Definition pipe_start (p : P) : pipebench P := PipeBench p (fun _ => 0) (fun _ => AtHead) [].

Inductive pipe_run : nat -> pipebench P -> pipebench P -> Prop :=
  | pir_nil b : pipe_run 0 b b
  | pir_snoc n b b1 sd b2 : pipe_run n b b1 -> pipe_step sd b1 = Some b2 -> pipe_run (S n) b b2.

(** The steps a process still has. *)
Definition pipe_cost (sd : side) (b : pipebench P) : Z :=
  match pi_ph b sd with
  | AtHead => 2 * (nmsg - pi_i b sd) + 1
  | InCall => 2 * (nmsg - pi_i b sd)
  | Left => 0
  end.
End loops.

(** ** A pipe of a given capacity *)
Record boundedpipe := BoundedPipe { bp_cap : nat; bp_bytes : list byte }.

#[export] Instance bounded_pipe : Pipe boundedpipe := {
  pipe_bytes := bp_bytes;
  pipe_push p bs :=
    let room := (Nat.max (Z.to_nat PIPE_BUF) (bp_cap p) - length (bp_bytes p))%nat in
    let n := Nat.min room (length bs) in
    if decide (n = 0%nat \/ (n <> length bs /\ Z.of_nat (length bs) <= PIPE_BUF)) then None
    else Some (n, BoundedPipe (bp_cap p) (bp_bytes p ++ take n bs));
  pipe_pull p c :=
    match bp_bytes p with
    | [] => None
    | _ => Some (take (Z.to_nat c) (bp_bytes p), BoundedPipe (bp_cap p) (drop (Z.to_nat c) (bp_bytes p)))
    end
}.

#[export] Instance bounded_pipe_laws : PipeLaws boundedpipe.
Proof.
  split; cbn [pipe_bytes pipe_push pipe_pull bounded_pipe].
  - intros p bs n p'. case_decide as Hn; [done |]. intros [= <- <-]. split; [lia | done].
  - intros p bs n p'. case_decide as Hn; [done |]. intros [= <- <-] Hl. lia.
  - intros p bs -> Hbs. case_decide as Hn; [exfalso | by eexists].
    assert (length bs <> 0%nat) by (intros ?%nil_length_inv; done). unfold PIPE_BUF in *. cbn in Hn. lia.
  - by intros p c ->.
  - intros p c Hne Hc. destruct (bp_bytes p) eqn:E; [done |]. eexists. split; reflexivity.
Qed.
