(* ===== verification/BenchPipeProps.v ===== *)
(** * BenchPipeProps: the transfer over a pipe

    With messages that a pipe takes whole, every run of the two processes ends
    with all of them received.  Longer messages are not promised to come out whole,
    and a short read ends the consumer's loop. *)

From S2P Require Import Prelude Kernel Machine Spsc SpscFacts BenchSlots BenchPipe.
#[local] Open Scope Z_scope.

Section facts.
Context {P : Type} `{PipeLaws P} (nmsg msgsize : Z).
Context (Hsize : 1 <= msgsize <= PIPE_BUF).
Implicit Types (b : pipebench P).

Definition message : list byte := replicate (Z.to_nat msgsize) xa5.

(** The pipe holds the messages sent and not yet received, whole. *)
Record pipe_inv b : Prop := {
  pi_content : pipe_bytes (pi_pipe b) = replicate (Z.to_nat (msgsize * (pi_i b Writer - pi_i b Reader))) xa5;
  pi_order : 0 <= pi_i b Reader <= pi_i b Writer;
  pi_in sd : pi_ph b sd = InCall -> pi_i b sd < nmsg;
  pi_le sd : pi_i b sd <= nmsg;
  pi_left sd : pi_ph b sd = Left -> pi_i b sd = nmsg;
  pi_msg : pi_ph b Writer = InCall -> pi_rest b = message
}.

Lemma length_message : Z.of_nat (length message) = msgsize.
Proof. unfold message. rewrite length_replicate. lia. Qed.

Lemma pull_message b :
  pipe_inv b -> pi_i b Reader < pi_i b Writer ->
  exists p', pipe_pull (pi_pipe b) msgsize = Some (message, p') /\
    pipe_bytes p' = replicate (Z.to_nat (msgsize * (pi_i b Writer - (pi_i b Reader + 1)))) xa5.
Proof.
  intros [Hc Ho _ _ _ _] Hlt.
  destruct (pull_some (pi_pipe b) msgsize) as (p' & Hp & Hb); [| lia |].
  { rewrite Hc. intros E%(f_equal length). rewrite length_replicate in E. cbn in E. nia. }
  exists p'. rewrite Hp, Hb, Hc, take_replicate, drop_replicate. split.
  - unfold message. do 3 f_equal. nia.
  - f_equal. nia.
Qed.

Lemma pipe_idle b : pipe_inv b -> pi_i b Reader = pi_i b Writer -> pipe_bytes (pi_pipe b) = [].
Proof. intros [Hc _ _ _ _ _] E. rewrite Hc. replace (msgsize * _) with 0 by nia. done. Qed.

(** What a process's own step makes of its part of the state. *)
Ltac sides := cbn [pipe_put pi_pipe pi_i pi_ph pi_rest];
  rewrite ?on_side_eq, ?(on_side_ne Writer Reader), ?(on_side_ne Reader Writer) by done.

(** A step keeps the invariant and brings its process nearer to its end. *)
Lemma pipe_write_inv b b' :
  pipe_inv b -> pipe_write_step nmsg msgsize b = Some b' ->
  pipe_inv b' /\ pipe_cost nmsg Writer b' < pipe_cost nmsg Writer b /\ pipe_cost nmsg Reader b' = pipe_cost nmsg Reader b.
Proof.
  intros Hi. pose proof Hi as [Hc Ho Hin Hle Hl Hm]. unfold pipe_write_step. pose proof (Hle Writer) as Hlw.
  destruct (pi_ph b Writer) eqn:Eph; [| | done].
  - intros [= <-]. destruct (Z.ltb_spec (pi_i b Writer) nmsg); unfold pipe_cost; sides; rewrite Eph;
      (split; [| split; [lia | done]]); (split; sides; [done | done | | | | done]);
      intros []; sides; auto; intros; lia || done.
  - pose proof (Hin Writer Eph) as Hlt. destruct (decide (pi_ph b Reader = Left)) as [Er | Er];
      [specialize (Hl Reader Er); lia |]. rewrite (Hm eq_refl).
    destruct (pipe_push (pi_pipe b) message) as [[n p'] |] eqn:Ep; [| by destruct (pi_ph b Reader)].
    pose proof (push_atomic _ _ _ _ Ep ltac:(rewrite length_message; lia)) as ->.
    destruct (push_order _ _ _ _ Ep) as [_ Hb]. rewrite decide_True by done. intros E.
    assert (b' = pipe_put (PipeBench p' (pi_i b) (pi_ph b) (drop (length message) message)) Writer (pi_i b Writer + 1) AtHead)
      as -> by (destruct (pi_ph b Reader); congruence).
    unfold pipe_cost. sides. rewrite Eph. split; [| split; [lia | done]].
    split; sides; [| lia | | | | done].
    + rewrite Hb, firstn_all, Hc. unfold message. rewrite <- replicate_add. f_equal. nia.
    + intros []; sides; auto; done.
    + intros []; sides; auto; lia.
    + intros []; sides; auto; done.
Qed.

Lemma pipe_read_inv b b' :
  pipe_inv b -> pipe_read_step nmsg msgsize b = Some b' ->
  pipe_inv b' /\ pipe_cost nmsg Reader b' < pipe_cost nmsg Reader b /\ pipe_cost nmsg Writer b' = pipe_cost nmsg Writer b.
Proof.
  intros Hi. pose proof Hi as [Hc Ho Hin Hle Hl Hm]. unfold pipe_read_step. pose proof (Hle Reader) as Hlr.
  destruct (pi_ph b Reader) eqn:Eph; [| | done].
  - intros [= <-]. unfold pipe_cost. sides. rewrite Eph.
    destruct (Z.ltb_spec (pi_i b Reader) nmsg); (split; [| split; [lia | done]]); (split; sides; [done | done | | | | done]);
      intros []; sides; auto; intros; lia || done.
  - pose proof (Hin Reader Eph) as Hlt. destruct (decide (pi_i b Reader = pi_i b Writer)) as [E | E].
    + rewrite (pull_empty _ msgsize (pipe_idle b Hi E)). destruct (pi_ph b Writer) eqn:Ew; try done.
      specialize (Hl Writer Ew). lia.
    + destruct (pull_message b Hi ltac:(lia)) as (p' & -> & Hb). rewrite length_message, Z.eqb_refl.
      intros [= <-]. unfold pipe_cost. sides. rewrite Eph. split; [| split; [lia | done]].
      split; sides; [done | lia | | | | done]; intros []; sides; auto; intros; lia || done.
Qed.

Lemma pipe_run_inv n p b :
  pipe_bytes p = [] -> 0 <= nmsg -> pipe_run nmsg msgsize n (pipe_start p) b ->
  pipe_inv b /\ Z.of_nat n + pipe_cost nmsg Writer b + pipe_cost nmsg Reader b <= 4 * nmsg + 2.
Proof.
  intros Hp Hn Hr. remember (pipe_start p) as b0 eqn:E0. induction Hr as [b | n b b1 sd b2 Hr IH Hs]; subst.
  - split; [| unfold pipe_cost; cbn; lia]. split; cbn; try done; try lia.
    rewrite Hp. by replace (msgsize * (0 - 0)) with 0 by lia.
  - destruct (IH eq_refl) as [Hi Hc]. destruct sd; cbn [pipe_step] in Hs.
    + destruct (pipe_read_inv b1 b2 Hi Hs) as (Hi' & ? & ?). split; [done | lia].
    + destruct (pipe_write_inv b1 b2 Hi Hs) as (Hi' & ? & ?). split; [done | lia].
Qed.

Lemma pipe_cost_pos b sd : pipe_inv b -> 0 <= pipe_cost nmsg sd b.
Proof. intros Hi. pose proof (pi_le b Hi sd). unfold pipe_cost. destruct (pi_ph b sd); lia. Qed.

(** Neither process can move: both are done. *)
Lemma pipe_stuck b :
  pipe_inv b -> (forall sd, pipe_step nmsg msgsize sd b = None) ->
  forall sd, pi_ph b sd = Left /\ pi_i b sd = nmsg.
Proof.
  intros Hi Hst. pose proof Hi as [Hc Ho Hin Hle Hl Hm].
  assert (Hall : forall sd, pi_ph b sd = Left); [| intros sd; split; [done | by apply Hl]].
  pose proof (Hst Reader) as Hr. pose proof (Hst Writer) as Hw. cbn in Hr, Hw. unfold pipe_read_step in Hr.
  unfold pipe_write_step in Hw. destruct (decide (pi_i b Reader = pi_i b Writer)) as [E | E].
  - pose proof (pipe_idle b Hi E) as He. rewrite (pull_empty _ msgsize He) in Hr.
    destruct (pi_ph b Writer) eqn:Ew; [done | |].
    + rewrite (Hm eq_refl) in Hw. destruct (push_empty (pi_pipe b) message He) as [[n p'] Ep].
      { intros En%(f_equal length). rewrite <- (Nat2Z.id (length _)), length_message in En. cbn in En. lia. }
      rewrite Ep in Hw. by destruct (pi_ph b Reader).
    + destruct (pi_ph b Reader) eqn:Er; [done | done |]. by intros [].
  - destruct (pull_message b Hi ltac:(lia)) as (p' & Ep & _). rewrite Ep in Hr. destruct (pi_ph b Reader) eqn:Er; [done.. |].
    specialize (Hl Reader Er). pose proof (Hle Writer). lia.
Qed.

(** C11: the transfer over a pipe with messages of at most PIPE_BUF bytes: every run
    of the two processes is finite, and when neither can move all messages have
    been sent and received. *)
Theorem pipe_transfer_completes n p b :
  pipe_bytes p = [] -> 0 <= nmsg -> pipe_run nmsg msgsize n (pipe_start p) b ->
  Z.of_nat n <= 4 * nmsg + 2 /\
  ((forall sd, pipe_step nmsg msgsize sd b = None) ->
   (forall sd, pi_ph b sd = Left /\ pi_i b sd = nmsg) /\ pipe_bytes (pi_pipe b) = []).
Proof.
  intros Hp Hn Hr. destruct (pipe_run_inv n p b Hp Hn Hr) as [Hi Hc].
  pose proof (pipe_cost_pos b Writer Hi). pose proof (pipe_cost_pos b Reader Hi). split; [lia |].
  intros Hst. pose proof (pipe_stuck b Hi Hst) as Hd. split; [done |]. apply pipe_idle; [done |].
  by rewrite (proj2 (Hd Reader)), (proj2 (Hd Writer)).
Qed.
End facts.

(** ** Concrete runs *)
Section auto.
Context {P : Type} `{Pipe P} (nmsg msgsize : Z).

(** The consumer moves whenever it can. *)
Fixpoint pipe_auto (fuel : nat) (b : pipebench P) : nat * pipebench P :=
  match fuel with
  | O => (0%nat, b)
  | S fuel' =>
    match pipe_step nmsg msgsize Reader b, pipe_step nmsg msgsize Writer b with
    | Some b', _ | None, Some b' => let '(n, b2) := pipe_auto fuel' b' in (S n, b2)
    | None, None => (0%nat, b)
    end
  end.

Lemma pipe_run_cons n b b1 sd b2 :
  pipe_step nmsg msgsize sd b = Some b1 -> pipe_run nmsg msgsize n b1 b2 -> pipe_run nmsg msgsize (S n) b b2.
Proof.
  intros Hs Hr. induction Hr as [b1 | n b1 b3 sd' b4 Hr IH Hs']; [eapply pir_snoc; [apply pir_nil | done] |].
  by eapply pir_snoc; [apply IH |].
Qed.

Lemma pipe_auto_run fuel b : pipe_run nmsg msgsize (pipe_auto fuel b).1 b (pipe_auto fuel b).2.
Proof.
  revert b. induction fuel as [| fuel IH]; intros b; cbn [pipe_auto]; [constructor |].
  destruct (pipe_step nmsg msgsize Reader b) as [b' |] eqn:Er.
  - specialize (IH b'). destruct (pipe_auto fuel b') as [n b2]. by eapply pipe_run_cons.
  - destruct (pipe_step nmsg msgsize Writer b) as [b' |] eqn:Ew; [| constructor].
    specialize (IH b'). destruct (pipe_auto fuel b') as [n b2]. by eapply pipe_run_cons.
Qed.
End auto.

(** Three messages of the largest atomic size through a pipe of two pages. *)
Definition two_pages : boundedpipe := BoundedPipe (Z.to_nat 8192) [].
Definition pipe_run3 : nat * pipebench boundedpipe := pipe_auto 3 PIPE_BUF 14 (pipe_start two_pages).

Lemma pipe_transfer_completes_witness :
  pipe_run3.1 = 14%nat /\ pi_i pipe_run3.2 Reader = 3.
Proof.
  split; [by vm_compute |].
  destruct (pipe_transfer_completes 3 PIPE_BUF ltac:(unfold PIPE_BUF; lia) pipe_run3.1 two_pages pipe_run3.2) as [_ Hend];
    [reflexivity | lia | apply pipe_auto_run |].
  apply (Hend ltac:(intros []; by vm_compute)).
Defined.

(** ** Where the code falls short *)

(** With the largest size of the benchmark, four times PIPE_BUF, a pipe may take
    a message in parts; the consumer's read is then short, which ends its loop,
    and the producer is killed by the next write: the run is over with nothing
    received, and its time is reported like any other. *)
Theorem pipe_short_read :
  exists n b, pipe_run 2 16384 n (pipe_start two_pages) b /\
    (forall sd, pipe_step 2 16384 sd b = None) /\ pi_i b Reader = 0.
Proof.
  exists (pipe_auto 2 16384 10 (pipe_start two_pages)).1, (pipe_auto 2 16384 10 (pipe_start two_pages)).2.
  split; [apply pipe_auto_run |]. split; [intros [] |]; by vm_compute.
Qed.
