(* ===== verification/BenchMain.v ===== *)
(** * BenchMain: the benchmark's clocks, table and entry point
    (bench/kbuf_bench.c)

    [now_ns] and [now_sec] on what clock_gettime returns, the loops of
    [throughput] around [run_once], which is any program that returns a time, and
    the choice [main] makes. *)

From Stdlib Require Import SpecFloat Strings.String.
From S2P Require Import Prelude Kernel Machine Spsc BenchReport BenchRun.
#[local] Open Scope Z_scope.

(** ** Clocks *)
Record timespec := Timespec { tv_sec : Z; tv_nsec : Z }.

Definition now_sec (ts : timespec) : spec_float :=
  dadd (of_int (tv_sec ts)) (ddiv (of_int (tv_nsec ts)) (of_int 1000000000)).

Definition now_ns (ts : timespec) : Z := u64 (u64 (u64 (tv_sec ts) * 1000000000) + tv_nsec ts).

(** A reading as the kernel gives it, and the order of readings. *)
Definition ts_ok (ts : timespec) : Prop := 0 <= tv_sec ts /\ 0 <= tv_nsec ts < 1000000000.

Definition ts_le (a b : timespec) : Prop := tv_sec a < tv_sec b \/ (tv_sec a = tv_sec b /\ tv_nsec a <= tv_nsec b).

(** ** throughput *)
Definition transports : list transport := [T_MUTEX; T_SPSC; T_MMAP; T_PIPE].

Definition t_name (t : transport) : string :=
  match t with T_MUTEX => "mutex" | T_SPSC => "spsc" | T_MMAP => "mmap" | T_PIPE => "pipe" end.

Section table.
Context {W : Type} (run_once : transport -> Z -> Z -> prog W spec_float).

(** [for (r = 0; r < runs; r++)] with its [break]. *)
Fixpoint run_loop (once : prog W spec_float) (mb : spec_float) (runs : nat) (sum sumsq : spec_float)
  : prog W (option (spec_float * spec_float)) :=
  match runs with
  | O => p_ret (Some (sum, sumsq))
  | S runs' =>
    s <-- once ;;
    if SFltb s (of_int 0) then p_ret None
    else let rate := ddiv mb s in run_loop once mb runs' (dadd sum rate) (dadd sumsq (dmul rate rate))
  end.

Definition cell (total : Z) (runs : nat) (size : Z) (t : transport) : prog W (option (spec_float * spec_float)) :=
  let mb := ddiv (of_int total) (dmul (of_int 1024) (of_int 1024)) in
  acc <-- run_loop (run_once t size total) mb runs (of_int 0) (of_int 0) ;;
  p_ret (match acc with
         | None => None
         | Some (sum, sumsq) =>
           let r := of_int (Z.of_nat runs) in
           Some (ddiv sum r,
                 if 1 <? Z.of_nat runs
                 then dsqrt (ddiv (dsub sumsq (ddiv (dmul sum sum) r)) (of_int (Z.of_nat runs - 1)))
                 else of_int 0)
         end).

Fixpoint each {A B} (f : A -> prog W B) (l : list A) : prog W (list B) :=
  match l with
  | [] => p_ret []
  | a :: l' => b <-- f a ;; bs <-- each f l' ;; p_ret (b :: bs)
  end.

(** A line per size, a cell per transport. *)
Definition throughput (total : Z) (runs : nat) : prog W (list (Z * list (option (spec_float * spec_float)))) :=
  each (fun size => cells <-- each (cell total runs size) transports ;; p_ret (size, cells)) sizes.
End table.

(** ** main *)
Definition is_quick (argv : list string) : bool :=
  match argv with
  | _ :: a :: _ => String.eqb a "quick"
  | _ => false
  end.

Definition main_of (argv : list string) : params := main_params (is_quick argv).
