(* ===== verification/BenchMainProps.v ===== *)
(** * BenchMainProps: the table of the benchmark

    The clock keeps its order, and every cell of the table is computed from the
    times of its own runs. *)

From Stdlib Require Import SpecFloat Strings.String.
From S2P Require Import Prelude Kernel Machine Spsc BenchReport BenchReportProps BenchRun BenchMain.
#[local] Open Scope Z_scope.

(** ** Clocks *)

(** Nanoseconds do not wrap before the year 2554, and until then they keep the
    order of the readings. *)
Lemma now_ns_exact ts :
  ts_ok ts -> tv_sec ts < 18446744073 -> now_ns ts = tv_sec ts * 1000000000 + tv_nsec ts.
Proof.
  intros [Hs Hn] Hb. unfold now_ns. rewrite (u64_small (tv_sec ts)) by (unfold in_u64; lia).
  rewrite (u64_small (tv_sec ts * _)) by (unfold in_u64; lia). apply u64_small. unfold in_u64. lia.
Qed.

Theorem now_ns_monotone a b :
  ts_ok a -> ts_ok b -> tv_sec b < 18446744073 -> ts_le a b ->
  now_ns a <= now_ns b /\ u64 (now_ns b - now_ns a) = now_ns b - now_ns a.
Proof.
  intros Ha Hb Hs Hle. assert (Hsa : tv_sec a < 18446744073) by (unfold ts_le in Hle; lia).
  rewrite (now_ns_exact a Ha Hsa), (now_ns_exact b Hb Hs). destruct Ha, Hb. unfold ts_le in Hle.
  split; [lia |]. apply u64_small. unfold in_u64. lia.
Qed.

(** ** The table *)
Section table.
Context {W : Type} (run_once : transport -> Z -> Z -> prog W spec_float).

(** Consecutive runs and what each returned; a negative time is the last. *)
Inductive times (once : prog W spec_float) : nat -> W -> list spec_float -> W -> Prop :=
  | ti_all w : times once 0 w [] w
  | ti_stop n w s w1 : once w = Done (s, w1) -> SFltb s (of_int 0) = true -> times once (S n) w [s] w1
  | ti_next n w s w1 ss w2 :
      once w = Done (s, w1) -> SFltb s (of_int 0) = false -> times once n w1 ss w2 -> times once (S n) w (s :: ss) w2.

Lemma times_length once n w ss w' :
  times once n w ss w' -> Forall (fun s => SFltb s (of_int 0) = false) ss -> length ss = n.
Proof.
  induction 1 as [w | n w s w1 E Hs | n w s w1 ss w2 E Hs Ht IH]; intros Hall; [done | |].
  - apply Forall_cons in Hall as [? _]. congruence.
  - apply Forall_cons in Hall as [_ Hall]. cbn. by rewrite IH.
Qed.

Lemma run_loop_rates once mb n sum sumsq w r w' :
  run_loop once mb n sum sumsq w = Done (r, w') ->
  exists ss, times once n w ss w' /\ rates mb ss sum sumsq = r.
Proof.
  revert sum sumsq w. induction n as [| n IH]; intros sum sumsq w; cbn [run_loop].
  { intros [= <- <-]. exists []. split; [constructor | done]. }
  unfold p_bind. destruct (once w) as [[s w1] |] eqn:E; [| done]. cbn [exec_bind].
  destruct (SFltb s (of_int 0)) eqn:Hs.
  - intros [= <- <-]. exists [s]. split; [by econstructor |]. cbn [rates]. by rewrite Hs.
  - intros Hr. destruct (IH _ _ _ Hr) as (ss & Ht & Hrt). exists (s :: ss). split; [by econstructor |].
    cbn [rates]. by rewrite Hs.
Qed.

Lemma rates_all mb ss sum sumsq x :
  rates mb ss sum sumsq = Some x -> Forall (fun s => SFltb s (of_int 0) = false) ss.
Proof.
  revert sum sumsq. induction ss as [| s ss IH]; intros sum sumsq; cbn [rates]; [constructor |].
  destruct (SFltb s (of_int 0)) eqn:Hs; [done |]. intros Hr. apply List.Forall_cons; [done |]. by eapply IH.
Qed.

(** A cell is the summary of the times of its runs. *)
Lemma cell_times total runs size t w c w' :
  cell run_once total runs size t w = Done (c, w') ->
  exists ss, times (run_once t size total) runs w ss w' /\ c = throughput_cell total ss.
Proof.
  unfold cell, p_bind. destruct (run_loop _ _ _ _ _ w) as [[r w1] |] eqn:E; [| done]. cbn [exec_bind].
  intros [= <- <-]. destruct (run_loop_rates _ _ _ _ _ _ _ _ E) as (ss & Ht & Hr). exists ss. split; [done |].
  unfold throughput_cell. rewrite Hr. destruct r as [[sum sumsq] |]; [| done].
  by rewrite (times_length _ _ _ _ _ Ht (rates_all _ _ _ _ _ Hr)).
Qed.

(** The runs behind a row and behind the table, in order. *)
Inductive row_from (total : Z) (runs : nat) (size : Z) : list transport -> W -> list (option (spec_float * spec_float)) -> W -> Prop :=
  | rf_nil w : row_from total runs size [] w [] w
  | rf_cons t ts w ss w1 cs w2 :
      times (run_once t size total) runs w ss w1 -> row_from total runs size ts w1 cs w2 ->
      row_from total runs size (t :: ts) w (throughput_cell total ss :: cs) w2.

Inductive table_from (total : Z) (runs : nat) : list Z -> W -> list (Z * list (option (spec_float * spec_float))) -> W -> Prop :=
  | tf_nil w : table_from total runs [] w [] w
  | tf_cons size szs w cs w1 rows w2 :
      row_from total runs size transports w cs w1 -> table_from total runs szs w1 rows w2 ->
      table_from total runs (size :: szs) w ((size, cs) :: rows) w2.

Lemma row_times total runs size ts w cs w' :
  each (cell run_once total runs size) ts w = Done (cs, w') -> row_from total runs size ts w cs w'.
Proof.
  revert w cs w'. induction ts as [| t ts IH]; intros w cs w'; cbn [each]; [intros [= <- <-]; constructor |].
  unfold p_bind. destruct (cell _ _ _ _ t w) as [[c w1] |] eqn:E; [| done]. cbn [exec_bind].
  destruct (each _ ts w1) as [[cs1 w2] |] eqn:Es; [| done]. intros [= <- <-].
  destruct (cell_times _ _ _ _ _ _ _ E) as (ss & Ht & ->). by econstructor; [| apply IH].
Qed.

(** Whatever [run_once] is, the table [throughput] prints has a line for
    each of the sizes and in it a cell for each transport, in order; a cell is the
    mean and deviation of the times of its own runs, all of which were made,
    one after the other, unless one failed, which was the last. *)
Theorem throughput_table total runs w table w' :
  throughput run_once total runs w = Done (table, w') -> table_from total runs sizes w table w'.
Proof.
  unfold throughput. generalize sizes as szs. intros szs. revert w table.
  induction szs as [| z szs IH]; intros w table; cbn [each]; [intros [= <- <-]; constructor |].
  unfold p_bind. destruct (each _ transports w) as [[cs w1] |] eqn:E; [| done]. cbn [exec_bind p_ret].
  destruct (each _ szs w1) as [[rows w2] |] eqn:Es; [| done]. intros [= <- <-].
  econstructor; [by apply row_times | by apply IH].
Qed.
End table.

(** Runs that take 1, 2, 3, ... seconds; the pipe fails. *)
Definition counting (t : transport) (size total : Z) : prog Z spec_float := fun w =>
  Done (match t with T_PIPE => of_int (-1) | _ => of_int w end, w + 1).

Lemma throughput_table_witness :
  exists table w', throughput counting 8388608 2 1 = Done (table, w') /\ w' = 36 /\
    table_from counting 8388608 2 sizes 1 table w'.
Proof.
  destruct (throughput counting 8388608 2 1) as [[table w'] | why] eqn:E; [| by vm_compute in E].
  exists table, w'. split; [done |]. split; [vm_compute in E; congruence |].
  apply (throughput_table counting 8388608 2 1 table w' E).
Defined.

(** [main] runs the full sizes unless its first argument is "quick". *)
Example main_quick : main_of ["kbuf_bench"%string; "quick"%string] = main_params true /\
  main_of ["kbuf_bench"%string] = main_params false /\ main_of ["kbuf_bench"%string; "full"%string] = main_params false.
Proof. done. Qed.
